(** * Demand-paging simulator (demandpaging.c): shallow embedding and proofs

    The repository holds two near-duplicate variants of the simulator in
    one source file.  Both share the constants, the [Process] record, the
    page-table encoding and the binary-search workload; they differ in the
    swap queue (a grow-only array popped from its end plus an array in
    [main] shifted from its front, against a circular buffer), in the
    guards of swap-out and swap-in, and in the scheduling loop.

    - [Module Shifting] embeds the first variant (source lines 1-297).
    - [Module Circular] embeds the second variant (source lines 298-610).

    C [int] values are kept as [Z]; the embedding covers the runs in which
    no [int] operation overflows: the runs on numerals that fit an [int]
    whose array sizes are above [INT_MIN] and at most 2086913
    ([int_sized]).  [search_pages_int] is the page computation of the
    search loop with the wrap-around of [int] written out; it agrees with
    the computation on [Z] for these sizes.  An access outside an array whose index
    is data dependent is undefined behaviour in C and is the outcome
    [Undefined] here; when [L + R] or [M * 4] would leave the [int] range
    the page number is far above [PAGE_TABLE_SIZE], so such a step is
    [Undefined] as well.  The live part [free_frames[0 .. num_free_frames)] of
    the free-frame array is a list whose head is the top of the stack
    (index [num_free_frames - 1]); cells at or above [num_free_frames] are
    never read before they are written. *)

From Stdlib Require Import ZArith List Bool Lia Permutation Arith.
Import ListNotations.
Open Scope Z_scope.

(** ** Constants (lines 6-13 and 302-309) *)

Definition PAGE_SIZE : Z := 4096.
Definition TOTAL_FRAMES : Z := 16384.
Definition USER_FRAMES : Z := 12288.
Definition PAGE_TABLE_SIZE : Z := 2048.
Definition ESSENTIAL_PAGES : Z := 10.
Definition VALID_BIT_MASK : Z := 32768.
Definition MAX_PROCESSES : Z := 500.
Definition MAX_SEARCHES : Z := 100.

(** ** Outcomes of a computation *)

Inductive outcome (A : Type) : Type :=
| Ok (a : A)
| Undefined
| OutOfFuel.

Arguments Ok {A} a.
Arguments Undefined {A}.
Arguments OutOfFuel {A}.

Definition bind {A B : Type} (x : outcome A) (f : A -> outcome B) : outcome B :=
  match x with
  | Ok a => f a
  | Undefined => Undefined
  | OutOfFuel => OutOfFuel
  end.

Notation "'do' x <- e ; k" := (bind e (fun x => k))
  (at level 10, x name, e at level 100, k at level 200).

(** ** Arrays as lists *)

(** [a[i] = v] for an index known to be inside the array. *)
Fixpoint upd {A : Type} (i : nat) (v : A) (l : list A) : list A :=
  match l, i with
  | [], _ => []
  | _ :: t, O => v :: t
  | h :: t, S j => h :: upd j v t
  end.

(** [a[i]] with a data-dependent index: outside the array is undefined. *)
Definition zget {A : Type} (l : list A) (i : Z) : outcome A :=
  if i <? 0 then Undefined
  else match nth_error l (Z.to_nat i) with
       | Some a => Ok a
       | None => Undefined
       end.

Definition in_range {A : Type} (l : list A) (i : Z) : bool :=
  (0 <=? i) && (i <? Z.of_nat (length l)).

(** ** Page-table entries: [unsigned short], valid bit 15 *)

Definition is_valid (e : Z) : bool := negb (Z.land e VALID_BIT_MASK =? 0).

(** [e & ~VALID_BIT_MASK] *)
Definition frame_of (e : Z) : Z := Z.land e (Z.lnot VALID_BIT_MASK).

(** [frame | VALID_BIT_MASK] stored into an [unsigned short]. *)
Definition mk_entry (f : Z) : Z := (Z.lor f VALID_BIT_MASK) mod 65536.

(** ** Processes (lines 16-24 and 312-320) *)

Record Process : Type := mkProcess {
  page_table : list Z;
  array_size : Z;
  search_indices : list Z;
  num_searches : Z;
  current_search : Z;
  frames_allocated : Z;
  is_active : bool
}.

Definition set_page_table (p : Process) (pt : list Z) : Process :=
  mkProcess pt (array_size p) (search_indices p) (num_searches p)
            (current_search p) (frames_allocated p) (is_active p).

Definition set_frames_allocated (p : Process) (n : Z) : Process :=
  mkProcess (page_table p) (array_size p) (search_indices p) (num_searches p)
            (current_search p) n (is_active p).

Definition set_is_active (p : Process) (b : bool) : Process :=
  mkProcess (page_table p) (array_size p) (search_indices p) (num_searches p)
            (current_search p) (frames_allocated p) b.

Definition set_current_search (p : Process) (n : Z) : Process :=
  mkProcess (page_table p) (array_size p) (search_indices p) (num_searches p)
            n (frames_allocated p) (is_active p).

(** A process has finished when [current_search >= num_searches]. *)
Definition finished (p : Process) : bool := num_searches p <=? current_search p.

(** The loop
    [for (i = 0; i < PAGE_TABLE_SIZE; i++)
       if (pt[i] & VALID) { free[num_free++] = pt[i] & ~VALID; pt[i] = 0; }]
    of lines 118-123, 198-203, 262-268, 472-477 and 561-566. *)
Fixpoint release_frames (pt free : list Z) : list Z * list Z :=
  match pt with
  | [] => ([], free)
  | e :: rest =>
      if is_valid e then
        let (pt', free') := release_frames rest (frame_of e :: free) in
        (0 :: pt', free')
      else
        let (pt', free') := release_frames rest free in
        (e :: pt', free')
  end.

(** The loop
    [for (i = 0; i < ESSENTIAL_PAGES && num_free > 0; i++)
       { pt[i] = free[--num_free] | VALID; frames_allocated++; }]
    of lines 98-101, 142-145, 450-453 and 513-516; [n] counts the
    iterations that remain and [i] is the loop index. *)
Fixpoint alloc_essential (n i : nat) (pt : list Z) (fa : Z) (free : list Z)
  : list Z * Z * list Z :=
  match n with
  | O => (pt, fa, free)
  | S n' =>
      match free with
      | [] => (pt, fa, free)
      | f :: free' => alloc_essential n' (S i) (upd i (mk_entry f) pt) (fa + 1) free'
      end
  end.

(** [get_active_process_count] (lines 212-218 and 385-391). *)
Fixpoint count_active (ps : list Process) : Z :=
  match ps with
  | [] => 0
  | p :: rest => (if is_active p then 1 else 0) + count_active rest
  end.

(** The progress notices printed by swap-out and swap-in. *)
Inductive event : Type :=
| SwapOutMsg (pid shown : Z)
| SwapInMsg (pid shown : Z).

(** ** The binary-search interval (lines 173-193 and 535-555) *)

(** Enough iterations for the loop [while (L < R)]: the width [R - L] is
    at least halved by every iteration. *)
Definition search_fuel (L R : Z) : nat := S (S (Z.to_nat (Z.log2 (R - L)))).

(** [M = (L + R) / 2] *)
Definition midpoint (L R : Z) : Z := Z.quot (L + R) 2.

(** [page_num = (M * 4) / PAGE_SIZE + ESSENTIAL_PAGES] *)
Definition page_of (M : Z) : Z := Z.quot (M * 4) PAGE_SIZE + ESSENTIAL_PAGES.

(** The page numbers computed by the loop when no fault interrupts it. *)
Fixpoint search_pages (fuel : nat) (key L R : Z) : list Z :=
  match fuel with
  | O => []
  | S fuel' =>
      if L <? R then
        let M := midpoint L R in
        page_of M ::
          (if key <=? M then search_pages fuel' key L M
           else search_pages fuel' key (M + 1) R)
      else []
  end.

(** ** Frames held by page tables *)

(** The frames of the valid entries of a page table, in index order. *)
Definition held (pt : list Z) : list Z := map frame_of (filter is_valid pt).

Definition all_held (ps : list Process) : list Z :=
  flat_map (fun p => held (page_table p)) ps.

(** The user frames [0 .. USER_FRAMES - 1]. *)
Definition frame_space : list Z := map Z.of_nat (seq 0 (Z.to_nat USER_FRAMES)).

(** The sum of [frames_allocated] over the processes. *)
Fixpoint total_allocated (ps : list Process) : Z :=
  match ps with
  | [] => 0
  | p :: rest => frames_allocated p + total_allocated rest
  end.

(** Searches still to be done, summed over the processes. *)
Fixpoint pending_searches (ps : list Process) : Z :=
  match ps with
  | [] => 0
  | p :: rest => (num_searches p - current_search p) + pending_searches rest
  end.

(** The processes that are active and have searches left. *)
Fixpoint count_runnable (ps : list Process) : Z :=
  match ps with
  | [] => 0
  | p :: rest => (if is_active p && negb (finished p) then 1 else 0) + count_runnable rest
  end.

(** Page [i] of the table has a valid entry. *)
Definition resident (pt : list Z) (i : nat) : Prop :=
  exists e, nth_error pt i = Some e /\ is_valid e = true.

(** The fields of a process that no operation writes after
    initialization. *)
Definition static_part (p : Process) : Z * list Z * Z :=
  (array_size p, search_indices p, num_searches p).

(** The largest array whose searches stay inside the page table. *)
Definition MAX_ARRAY_SIZE : Z := 2086913.

(** Consistency of one process record. *)
Record process_ok (p : Process) : Prop := mkProcessOk {
  ok_table_size : length (page_table p) = Z.to_nat PAGE_TABLE_SIZE;
  ok_keys_size : length (search_indices p) = Z.to_nat MAX_SEARCHES;
  ok_searches : 0 < num_searches p <= MAX_SEARCHES;
  ok_cursor : 0 <= current_search p <= num_searches p;
  ok_allocated : frames_allocated p = Z.of_nat (length (held (page_table p)));
  ok_inactive : is_active p = false -> held (page_table p) = [];
  ok_finished : finished p = true -> held (page_table p) = [] /\ is_active p = true;
  ok_essential : is_active p = true -> finished p = false ->
                 forall i, (i < Z.to_nat ESSENTIAL_PAGES)%nat -> resident (page_table p) i
}.

(** ** System state (lines 27-38 and 330-340)

    [Q] is the type of the swap queue kept in the state.  [num_free_frames]
    and [num_processes] are the lengths of the lists that hold the live
    cells of the two arrays; [output] collects the swap notices, oldest
    first. *)

Record SystemState (Q : Type) : Type := mkState {
  free_frames : list Z;
  processes : list Process;
  swap_queue : Q;
  page_accesses : Z;
  page_faults : Z;
  num_swaps : Z;
  min_active_processes : Z;
  output : list event
}.

Arguments mkState {Q}.
Arguments free_frames {Q}.
Arguments processes {Q}.
Arguments swap_queue {Q}.
Arguments page_accesses {Q}.
Arguments page_faults {Q}.
Arguments num_swaps {Q}.
Arguments min_active_processes {Q}.
Arguments output {Q}.

Section StateAccess.
Context {Q : Type}.
Implicit Type s : SystemState Q.

Definition num_free_frames s : Z := Z.of_nat (length (free_frames s)).
Definition num_processes s : Z := Z.of_nat (length (processes s)).

Definition set_free_frames s (free : list Z) : SystemState Q :=
  mkState free (processes s) (swap_queue s) (page_accesses s) (page_faults s)
          (num_swaps s) (min_active_processes s) (output s).

Definition set_processes s (ps : list Process) : SystemState Q :=
  mkState (free_frames s) ps (swap_queue s) (page_accesses s) (page_faults s)
          (num_swaps s) (min_active_processes s) (output s).

Definition set_swap_queue s (q : Q) : SystemState Q :=
  mkState (free_frames s) (processes s) q (page_accesses s) (page_faults s)
          (num_swaps s) (min_active_processes s) (output s).

Definition set_page_accesses s (n : Z) : SystemState Q :=
  mkState (free_frames s) (processes s) (swap_queue s) n (page_faults s)
          (num_swaps s) (min_active_processes s) (output s).

Definition set_page_faults s (n : Z) : SystemState Q :=
  mkState (free_frames s) (processes s) (swap_queue s) (page_accesses s) n
          (num_swaps s) (min_active_processes s) (output s).

Definition set_num_swaps s (n : Z) : SystemState Q :=
  mkState (free_frames s) (processes s) (swap_queue s) (page_accesses s)
          (page_faults s) n (min_active_processes s) (output s).

Definition set_min_active_processes s (n : Z) : SystemState Q :=
  mkState (free_frames s) (processes s) (swap_queue s) (page_accesses s)
          (page_faults s) (num_swaps s) n (output s).

Definition add_output s (e : event) : SystemState Q :=
  mkState (free_frames s) (processes s) (swap_queue s) (page_accesses s)
          (page_faults s) (num_swaps s) (min_active_processes s) (output s ++ [e]).

(** [&system->processes[process_id]] *)
Definition get_process s (pid : Z) : outcome Process := zget (processes s) pid.

Definition put_process s (pid : Z) (p : Process) : SystemState Q :=
  set_processes s (upd (Z.to_nat pid) p (processes s)).

Definition get_active_process_count s : Z := count_active (processes s).

(** The loop of lines 241-246 and 595-600. *)
Definition all_done s : bool := forallb finished (processes s).

(** The figures of [print_statistics] (lines 220-226 and 579-585):
    accesses, faults, [num_swaps / 2] and the degree of multiprogramming. *)
Definition print_statistics s : Z * Z * Z * Z :=
  (page_accesses s, page_faults s, Z.quot (num_swaps s) 2, min_active_processes s).

End StateAccess.

(** ** Reading the workload (lines 59-105 and 411-457)

    The input file is the list of the integers it holds.  [None] is
    [exit(1)]: a missing integer or a count outside its bounds. *)

Fixpoint read_ints (n : nat) (input : list Z) : option (list Z * list Z) :=
  match n with
  | O => Some ([], input)
  | S n' =>
      match input with
      | [] => None
      | x :: input' =>
          match read_ints n' input' with
          | Some (xs, rest) => Some (x :: xs, rest)
          | None => None
          end
      end
  end.

(** The process loop of [initialize_system]; a process record starts
    zeroed ([memset]), so [search_indices] is padded with zeros up to
    [MAX_SEARCHES] cells. *)
Fixpoint init_processes (n : nat) (searches : Z) (input free : list Z)
  : option (list Process * list Z) :=
  match n with
  | O => Some ([], free)
  | S n' =>
      match input with
      | [] => None
      | asz :: input1 =>
          match read_ints (Z.to_nat searches) input1 with
          | None => None
          | Some (keys, input2) =>
              let '(pt, fa, free1) :=
                alloc_essential (Z.to_nat ESSENTIAL_PAGES) 0
                  (repeat 0 (Z.to_nat PAGE_TABLE_SIZE)) 0 free in
              let p := mkProcess pt asz
                         (keys ++ repeat 0 (Z.to_nat (MAX_SEARCHES - searches)))
                         searches 0 fa true in
              match init_processes n' searches input2 free1 with
              | None => None
              | Some (ps, free2) => Some (p :: ps, free2)
              end
          end
      end
  end.

(** [free_frames[i] = i] for [i < USER_FRAMES], top of the stack first:
    [frames_below n top] lists the [n] frames below [top], downwards. *)
Fixpoint frames_below (n : nat) (top : Z) : list Z :=
  match n with
  | O => []
  | S n' => (top - 1) :: frames_below n' (top - 1)
  end.

Definition initial_free_frames : list Z :=
  frames_below (Z.to_nat USER_FRAMES) USER_FRAMES.

Definition initialize_with {Q : Type} (q0 : Q) (input : list Z)
  : option (SystemState Q) :=
  match input with
  | np :: ns :: rest =>
      if (np <=? 0) || (MAX_PROCESSES <? np) || (ns <=? 0) || (MAX_SEARCHES <? ns)
      then None
      else
        match init_processes (Z.to_nat np) ns rest initial_free_frames with
        | None => None
        | Some (ps, free) => Some (mkState free ps q0 0 0 0 np [])
        end
  | _ => None
  end.

(** ** Second variant: circular swap queue (lines 298-610) *)

Module Circular.

(** [SwapQueue] (lines 323-327): [items] has [MAX_PROCESSES] cells. *)
Record SwapQueue : Type := mkQueue {
  items : list Z;
  front : Z;
  rear : Z
}.

Definition State : Type := SystemState SwapQueue.

(** [memset] followed by [initQueue] (lines 355-357, 402-403). *)
Definition initQueue : SwapQueue :=
  mkQueue (repeat 0 (Z.to_nat MAX_PROCESSES)) (-1) (-1).

Definition queueIsEmpty (q : SwapQueue) : bool := front q =? -1.

(** [enqueue] (lines 363-370). *)
Definition enqueue (q : SwapQueue) (process_id : Z) : SwapQueue :=
  let r := if front q =? -1 then 0 else Z.rem (rear q + 1) MAX_PROCESSES in
  let f := if front q =? -1 then 0 else front q in
  mkQueue (upd (Z.to_nat r) process_id (items q)) f r.

(** [dequeue] (lines 372-382): the item and the queue left. *)
Definition dequeue (q : SwapQueue) : Z * SwapQueue :=
  if queueIsEmpty q then (-1, q)
  else
    let item := nth (Z.to_nat (front q)) (items q) 0 in
    if front q =? rear q then (item, mkQueue (items q) (-1) (-1))
    else (item, mkQueue (items q) (Z.rem (front q + 1) MAX_PROCESSES) (rear q)).

Definition initialize_system (input : list Z) : option State :=
  initialize_with initQueue input.

(** [swap_out_process] (lines 466-491). *)
Definition swap_out_process (s : State) (process_id : Z) : outcome State :=
  do p <- get_process s process_id;
  if negb (is_active p) then Ok s
  else
    let (pt, free) := release_frames (page_table p) (free_frames s) in
    let p' := set_is_active (set_frames_allocated (set_page_table p pt) 0) false in
    let s1 := put_process (set_free_frames s free) process_id p' in
    let s2 := set_swap_queue s1 (enqueue (swap_queue s1) process_id) in
    let s3 := set_num_swaps s2 (num_swaps s2 + 1) in
    let active_count := get_active_process_count s3 in
    let s4 := if active_count <? min_active_processes s3
              then set_min_active_processes s3 active_count else s3 in
    Ok (add_output s4 (SwapOutMsg process_id active_count)).

(** [handle_page_fault] (lines 493-504); the flag is the returned [int]. *)
Definition handle_page_fault (s : State) (process_id page_num : Z)
  : outcome (State * bool) :=
  do p <- get_process s process_id;
  match free_frames s with
  | f :: free =>
      if in_range (page_table p) page_num then
        let pt := upd (Z.to_nat page_num) (mk_entry f) (page_table p) in
        let p' := set_frames_allocated (set_page_table p pt) (frames_allocated p + 1) in
        Ok (put_process (set_free_frames s free) process_id p', true)
      else Undefined
  | [] =>
      do s' <- swap_out_process s process_id;
      Ok (s', false)
  end.

(** [swap_in_process] (lines 507-523); the notice shows
    [min_active_processes]. *)
Definition swap_in_process (s : State) (process_id : Z) : outcome State :=
  do p <- get_process s process_id;
  if is_active p then Ok s
  else
    let '(pt, fa, free) :=
      alloc_essential (Z.to_nat ESSENTIAL_PAGES) 0 (page_table p)
                      (frames_allocated p) (free_frames s) in
    let p' := set_is_active (set_frames_allocated (set_page_table p pt) fa) true in
    let s1 := put_process (set_free_frames s free) process_id p' in
    let s2 := set_num_swaps s1 (num_swaps s1 + 1) in
    Ok (add_output s2 (SwapInMsg process_id (min_active_processes s2))).

(** One page reference of the search loop (lines 540-548): the flag is
    false when the fault handler swapped the process out. *)
Definition reference_page (s : State) (process_id page_num : Z)
  : outcome (State * bool) :=
  let s1 := set_page_accesses s (page_accesses s + 1) in
  do p <- get_process s1 process_id;
  do e <- zget (page_table p) page_num;
  if is_valid e then Ok (s1, true)
  else handle_page_fault (set_page_faults s1 (page_faults s1 + 1)) process_id page_num.

(** The loop [while (L < R)] (lines 538-555). *)
Fixpoint search_loop (fuel : nat) (s : State) (process_id search_key L R : Z)
  : outcome (State * bool) :=
  match fuel with
  | O => OutOfFuel
  | S fuel' =>
      if L <? R then
        let M := midpoint L R in
        do r <- reference_page s process_id (page_of M);
        if snd r then
          if search_key <=? M
          then search_loop fuel' (fst r) process_id search_key L M
          else search_loop fuel' (fst r) process_id search_key (M + 1) R
        else Ok (fst r, false)
      else Ok (s, true)
  end.

(** The loop of lines 570-575: drain the swap queue. *)
Fixpoint drain (fuel : nat) (s : State) : outcome State :=
  match fuel with
  | O => OutOfFuel
  | S fuel' =>
      if negb (queueIsEmpty (swap_queue s)) && (ESSENTIAL_PAGES <=? num_free_frames s)
      then
        let (next_process, q) := dequeue (swap_queue s) in
        let s1 := set_swap_queue s q in
        if next_process =? -1 then drain fuel' s1
        else
          do p <- get_process s1 next_process;
          if is_active p then drain fuel' s1
          else do s2 <- swap_in_process s1 next_process; drain fuel' s2
      else Ok s
  end.

(** A queue of [MAX_PROCESSES] cells is drained in that many rounds. *)
Definition drain_fuel : nat := S (Z.to_nat MAX_PROCESSES).

(** Lines 557-576: the search is over. *)
Definition complete_search (s : State) (process_id : Z) : outcome State :=
  do p <- get_process s process_id;
  let p1 := set_current_search p (current_search p + 1) in
  if finished p1 then
    let (pt, free) := release_frames (page_table p1) (free_frames s) in
    let p2 := set_frames_allocated (set_page_table p1 pt) 0 in
    drain drain_fuel (put_process (set_free_frames s free) process_id p2)
  else Ok (put_process s process_id p1).

(** [simulate_binary_search] (lines 525-577). *)
Definition simulate_binary_search (s : State) (process_id : Z) : outcome State :=
  do p <- get_process s process_id;
  if negb (is_active p) || finished p then Ok s
  else
    do search_key <- zget (search_indices p) (current_search p);
    let L := 0 in
    let R := array_size p - 1 in
    do r <- search_loop (search_fuel L R) s process_id search_key L R;
    if snd r then complete_search (fst r) process_id
    else Ok (fst r).

(** The scheduling loop of [main] (lines 591-606). *)
Fixpoint main_loop (fuel : nat) (s : State) (active_process : Z) : outcome State :=
  match fuel with
  | O => OutOfFuel
  | S fuel' =>
      if all_done s then Ok s
      else
        do s' <- simulate_binary_search s active_process;
        main_loop fuel' s' (Z.rem (active_process + 1) (num_processes s'))
  end.

(** [main] up to the end of the scheduling loop: [None] is [exit(1)]. *)
Definition run (fuel : nat) (input : list Z) : option (outcome State) :=
  match initialize_system input with
  | None => None
  | Some s => Some (main_loop fuel s 0)
  end.

(** [main] (lines 587-610): [None] is [exit(1)], otherwise the figures
    printed at the end. *)
Definition main (fuel : nat) (input : list Z) : option (outcome (Z * Z * Z * Z)) :=
  match initialize_system input with
  | None => None
  | Some s => Some (do s' <- main_loop fuel s 0; Ok (print_statistics s'))
  end.

(** *** The queue as a list, and the invariant of the scheduling loop *)

Definition queue_size (q : SwapQueue) : Z :=
  if queueIsEmpty q then 0 else (rear q - front q) mod MAX_PROCESSES + 1.

(** The queued process ids from [front] to [rear], oldest first. *)
Definition queue_list (q : SwapQueue) : list Z :=
  map (fun k => nth (Z.to_nat ((front q + Z.of_nat k) mod MAX_PROCESSES)) (items q) 0)
      (seq 0 (Z.to_nat (queue_size q))).

Definition queue_wf (q : SwapQueue) : Prop :=
  length (items q) = Z.to_nat MAX_PROCESSES /\
  ((front q = -1 /\ rear q = -1) \/
   (0 <= front q < MAX_PROCESSES /\ 0 <= rear q < MAX_PROCESSES)).

Definition suspended (s : State) (pid : Z) : Prop :=
  exists p, get_process s pid = Ok p /\ is_active p = false.

(** A process that is active and has searches left. *)
Definition runnable (s : State) (pid : Z) : Prop :=
  exists p, get_process s pid = Ok p /\ is_active p = true /\ finished p = false.

Record Inv (s : State) : Prop := mkInv {
  inv_procs : Forall process_ok (processes s);
  inv_frames : Permutation (free_frames s ++ all_held (processes s)) frame_space;
  inv_count : 0 < num_processes s <= MAX_PROCESSES;
  inv_queue_wf : queue_wf (swap_queue s);
  inv_queue_nodup : NoDup (queue_list (swap_queue s));
  inv_queue_mem : forall pid, In pid (queue_list (swap_queue s)) <-> suspended s pid
}.

(** Either nothing waits in the queue or some process holds a frame. *)
Definition Pressure (s : State) : Prop :=
  queue_list (swap_queue s) = [] \/ num_free_frames s < USER_FRAMES.

(** The states at the head of the scheduling loop, with its cursor. *)
Inductive reachable : State -> Z -> Prop :=
| reach_init : forall input s,
    initialize_system input = Some s -> reachable s 0
| reach_step : forall s c s',
    reachable s c ->
    all_done s = false ->
    simulate_binary_search s c = Ok s' ->
    reachable s' (Z.rem (c + 1) (num_processes s')).

(** Every array is small enough for the page table. *)
Definition Sized (s : State) : Prop :=
  Forall (fun p => array_size p <= MAX_ARRAY_SIZE) (processes s).

(** The termination measure of the scheduling loop. *)
Definition measure (s : State) : Z :=
  pending_searches (processes s) * (num_processes s + 1) + count_active (processes s).

(** The search loop as a run over the page numbers it computes. *)
Fixpoint replay (s : State) (process_id : Z) (pages : list Z)
  : outcome (State * bool) :=
  match pages with
  | [] => Ok (s, true)
  | page_num :: rest =>
      do r <- reference_page s process_id page_num;
      if snd r then replay (fst r) process_id rest
      else Ok (fst r, false)
  end.

(** What a page reference that does not suspend the process leaves
    alone. *)
Definition quiet (s s' : State) : Prop :=
  map static_part (processes s') = map static_part (processes s) /\
  map current_search (processes s') = map current_search (processes s) /\
  map is_active (processes s') = map is_active (processes s) /\
  swap_queue s' = swap_queue s /\
  num_free_frames s' <= num_free_frames s /\
  num_swaps s' = num_swaps s /\
  min_active_processes s' = min_active_processes s /\
  output s' = output s.

(** What a page reference that suspends process [pid] does. *)
Definition suspends (s s' : State) (pid : Z) : Prop :=
  map static_part (processes s') = map static_part (processes s) /\
  map current_search (processes s') = map current_search (processes s) /\
  suspended s' pid /\
  count_active (processes s') = count_active (processes s) - 1 /\
  num_free_frames s' <= PAGE_TABLE_SIZE /\
  queue_list (swap_queue s') = queue_list (swap_queue s) ++ [pid] /\
  num_swaps s' = num_swaps s + 1.

(** What draining the queue does when it resumes the processes
    [resumed], in that order. *)
Definition resumes (s s' : State) (resumed : list Z) : Prop :=
  queue_list (swap_queue s) = resumed ++ queue_list (swap_queue s') /\
  num_free_frames s' = num_free_frames s - ESSENTIAL_PAGES * Z.of_nat (length resumed) /\
  output s' = output s ++ map (fun x => SwapInMsg x (min_active_processes s)) resumed /\
  num_swaps s' = num_swaps s + Z.of_nat (length resumed) /\
  count_active (processes s') = count_active (processes s) + Z.of_nat (length resumed) /\
  map static_part (processes s') = map static_part (processes s) /\
  map current_search (processes s') = map current_search (processes s) /\
  page_accesses s' = page_accesses s /\
  page_faults s' = page_faults s /\
  min_active_processes s' = min_active_processes s.

End Circular.

(** ** First variant: array queues (lines 1-297) *)

Module Shifting.

(** [swap_queue] with [swap_queue_size] (lines 32-33): the live cells in
    array order, index 0 first. *)
Definition State : Type := SystemState (list Z).

(** [queue[size++] = x] on an array of [MAX_PROCESSES] cells. *)
Definition push_back (q : list Z) (x : Z) : outcome (list Z) :=
  if Z.of_nat (length q) <? MAX_PROCESSES then Ok (q ++ [x]) else Undefined.

Definition initialize_system (input : list Z) : option State :=
  initialize_with [] input.

(** [swap_out_process] (lines 114-136). *)
Definition swap_out_process (s : State) (process_id : Z) : outcome State :=
  do p <- get_process s process_id;
  let s0 := set_num_swaps s (num_swaps s + 1) in
  let (pt, free) := release_frames (page_table p) (free_frames s0) in
  let p' := set_is_active (set_frames_allocated (set_page_table p pt) 0) false in
  let s1 := put_process (set_free_frames s0 free) process_id p' in
  do q <- push_back (swap_queue s1) process_id;
  let s2 := set_swap_queue s1 q in
  let active_count := get_active_process_count s2 in
  let s3 := if active_count <? min_active_processes s2
            then set_min_active_processes s2 active_count else s2 in
  Ok (add_output s3 (SwapOutMsg process_id active_count)).

(** [swap_in_process] (lines 138-150). *)
Definition swap_in_process (s : State) (process_id : Z) : outcome State :=
  do p <- get_process s process_id;
  let '(pt, fa, free) :=
    alloc_essential (Z.to_nat ESSENTIAL_PAGES) 0 (page_table p)
                    (frames_allocated p) (free_frames s) in
  let p' := set_is_active (set_frames_allocated (set_page_table p pt) fa) true in
  let s1 := put_process (set_free_frames s free) process_id p' in
  Ok (add_output s1 (SwapInMsg process_id (get_active_process_count s1))).

(** [handle_page_fault] (lines 152-163). *)
Definition handle_page_fault (s : State) (process_id page_num : Z)
  : outcome (State * bool) :=
  do p <- get_process s process_id;
  match free_frames s with
  | f :: free =>
      if in_range (page_table p) page_num then
        let pt := upd (Z.to_nat page_num) (mk_entry f) (page_table p) in
        let p' := set_frames_allocated (set_page_table p pt) (frames_allocated p + 1) in
        Ok (put_process (set_free_frames s free) process_id p', true)
      else Undefined
  | [] =>
      do s' <- swap_out_process s process_id;
      Ok (s', false)
  end.

(** One page reference of the search loop (lines 178-186). *)
Definition reference_page (s : State) (process_id page_num : Z)
  : outcome (State * bool) :=
  let s1 := set_page_accesses s (page_accesses s + 1) in
  do p <- get_process s1 process_id;
  do e <- zget (page_table p) page_num;
  if is_valid e then Ok (s1, true)
  else handle_page_fault (set_page_faults s1 (page_faults s1 + 1)) process_id page_num.

(** The loop [while (L < R)] (lines 176-193). *)
Fixpoint search_loop (fuel : nat) (s : State) (process_id search_key L R : Z)
  : outcome (State * bool) :=
  match fuel with
  | O => OutOfFuel
  | S fuel' =>
      if L <? R then
        let M := midpoint L R in
        do r <- reference_page s process_id (page_of M);
        if snd r then
          if search_key <=? M
          then search_loop fuel' (fst r) process_id search_key L M
          else search_loop fuel' (fst r) process_id search_key (M + 1) R
        else Ok (fst r, false)
      else Ok (s, true)
  end.

(** Lines 195-209: the search is over; [swap_queue[--swap_queue_size]] is
    the last cell of the queue. *)
Definition complete_search (s : State) (process_id : Z) : outcome State :=
  do p <- get_process s process_id;
  let p1 := set_current_search p (current_search p + 1) in
  if finished p1 then
    let (pt, free) := release_frames (page_table p1) (free_frames s) in
    let p2 := set_frames_allocated (set_page_table p1 pt) 0 in
    let s1 := put_process (set_free_frames s free) process_id p2 in
    match rev (swap_queue s1) with
    | [] => Ok s1
    | next :: before => swap_in_process (set_swap_queue s1 (rev before)) next
    end
  else Ok (put_process s process_id p1).

(** [simulate_binary_search] (lines 165-210). *)
Definition simulate_binary_search (s : State) (process_id : Z) : outcome State :=
  do p <- get_process s process_id;
  do search_key <- zget (search_indices p) (current_search p);
  let L := 0 in
  let R := array_size p - 1 in
  do r <- search_loop (search_fuel L R) s process_id search_key L R;
  if snd r then complete_search (fst r) process_id
  else Ok (fst r).

(** The [do ... while] of lines 250-257; [n] bounds the rounds by the
    number of processes. *)
Fixpoint select_process (n : nat) (s : State) (active_process original : Z)
  : outcome Z :=
  match n with
  | O => Ok active_process
  | S n' =>
      do p <- get_process s active_process;
      if is_active p && negb (finished p) then Ok active_process
      else
        let next := Z.rem (active_process + 1) (num_processes s) in
        if next =? original then Ok next
        else select_process n' s next original
  end.

(** The loop of lines 272-280 on the queue local to [main]. *)
Fixpoint drain_local (fuel : nat) (s : State) (queue : list Z)
  : outcome (State * list Z) :=
  match fuel with
  | O => OutOfFuel
  | S fuel' =>
      match queue with
      | next_process :: rest =>
          if ESSENTIAL_PAGES <=? num_free_frames s then
            do s' <- swap_in_process s next_process;
            drain_local fuel' s' rest
          else Ok (s, queue)
      | [] => Ok (s, queue)
      end
  end.

(** One round of the scheduling loop (lines 250-292). *)
Definition main_step (s : State) (queue : list Z) (active_process : Z)
  : outcome (State * list Z * Z) :=
  do ap <- select_process (length (processes s)) s active_process active_process;
  do p <- get_process s ap;
  do r1 <-
    (if finished p then
       let (pt, free) := release_frames (page_table p) (free_frames s) in
       let p' := set_frames_allocated (set_page_table p pt) 0 in
       drain_local (S (length queue)) (put_process (set_free_frames s free) ap p') queue
     else Ok (s, queue));
  do p1 <- get_process (fst r1) ap;
  do r2 <-
    (if is_active p1 then
       do s2 <- simulate_binary_search (fst r1) ap;
       do p2 <- get_process s2 ap;
       if is_active p2 then Ok (s2, snd r1)
       else do q <- push_back (snd r1) ap; Ok (s2, q)
     else Ok r1);
  Ok (fst r2, snd r2, Z.rem (ap + 1) (num_processes (fst r2))).

(** The scheduling loop of [main] (lines 238-293). *)
Fixpoint main_loop (fuel : nat) (s : State) (queue : list Z) (active_process : Z)
  : outcome State :=
  match fuel with
  | O => OutOfFuel
  | S fuel' =>
      if all_done s then Ok s
      else
        do r <- main_step s queue active_process;
        main_loop fuel' (fst (fst r)) (snd (fst r)) (snd r)
  end.

(** [main] up to the end of the scheduling loop: [None] is [exit(1)]. *)
Definition run (fuel : nat) (input : list Z) : option (outcome State) :=
  match initialize_system input with
  | None => None
  | Some s => Some (main_loop fuel s [] 0)
  end.

(** [main] (lines 229-297). *)
Definition main (fuel : nat) (input : list Z) : option (outcome (Z * Z * Z * Z)) :=
  match initialize_system input with
  | None => None
  | Some s => Some (do s' <- main_loop fuel s [] 0; Ok (print_statistics s'))
  end.

(** The search loop as a run over the page numbers it computes. *)
Fixpoint replay (s : State) (process_id : Z) (pages : list Z)
  : outcome (State * bool) :=
  match pages with
  | [] => Ok (s, true)
  | page_num :: rest =>
      do r <- reference_page s process_id page_num;
      if snd r then replay (fst r) process_id rest
      else Ok (fst r, false)
  end.

(** *** The invariant of the scheduling loop *)

Definition suspended (s : State) (pid : Z) : Prop :=
  exists p, get_process s pid = Ok p /\ is_active p = false.

Definition runnable (s : State) (pid : Z) : Prop :=
  exists p, get_process s pid = Ok p /\ is_active p = true /\ finished p = false.

(** [swap_queue] of the state holds the suspended processes, each once. *)
Record Inv (s : State) : Prop := mkInv {
  inv_procs : Forall process_ok (processes s);
  inv_frames : Permutation (free_frames s ++ all_held (processes s)) frame_space;
  inv_count : 0 < num_processes s <= MAX_PROCESSES;
  inv_queue_nodup : NoDup (swap_queue s);
  inv_queue_mem : forall pid, In pid (swap_queue s) <-> suspended s pid
}.

(** While searches are pending some process can run. *)
Definition Live (s : State) : Prop :=
  all_done s = true \/ exists pid, runnable s pid.

(** Every array is small enough for the page table. *)
Definition Sized (s : State) : Prop :=
  Forall (fun p => array_size p <= MAX_ARRAY_SIZE) (processes s).

(** The termination measure of the scheduling loop. *)
Definition measure (s : State) : Z :=
  pending_searches (processes s) * (num_processes s + 1) + count_runnable (processes s).

(** The states at the head of the scheduling loop, with the queue local to
    [main] and the cursor. *)
Inductive reachable : State -> list Z -> Z -> Prop :=
| reach_init : forall input s,
    initialize_system input = Some s -> reachable s [] 0
| reach_step : forall s queue c s' queue' c',
    reachable s queue c ->
    all_done s = false ->
    main_step s queue c = Ok (s', queue', c') ->
    reachable s' queue' c'.

End Shifting.

(** ** Frame conservation, for either variant *)

(** Every process counts its valid entries, and the free stack together
    with the frames held by the page tables is the frame space, each
    frame once. *)
Definition frames_conserved {Q : Type} (s : SystemState Q) : Prop :=
  Forall (fun p => frames_allocated p = Z.of_nat (length (held (page_table p))))
         (processes s) /\
  Permutation (free_frames s ++ all_held (processes s)) frame_space.

(** ** The page references of a search, after the specification

    While the interval [[L, R]] has more than one element the midpoint
    [M = (L + R) / 2] is referenced on page
    [(M * 4) / PAGE_SIZE + ESSENTIAL_PAGES]; a key at most [M] narrows the
    interval to [[L, M]], a larger key to [[M + 1, R]]. *)
Inductive lower_bound_refs (key : Z) : Z -> Z -> list Z -> Prop :=
| refs_stop : forall L R,
    R - L + 1 <= 1 -> lower_bound_refs key L R []
| refs_lower : forall L R l,
    1 < R - L + 1 -> key <= (L + R) / 2 ->
    lower_bound_refs key L ((L + R) / 2) l ->
    lower_bound_refs key L R (((L + R) / 2 * 4) / PAGE_SIZE + ESSENTIAL_PAGES :: l)
| refs_upper : forall L R l,
    1 < R - L + 1 -> (L + R) / 2 < key ->
    lower_bound_refs key ((L + R) / 2 + 1) R l ->
    lower_bound_refs key L R (((L + R) / 2 * 4) / PAGE_SIZE + ESSENTIAL_PAGES :: l).

(** ** A workload that exhausts the frame pool

    500 processes with 3 searches each over an array of 262144 elements
    (256 pages), for the keys 0, 262143 and 0.  Initialization leaves
    7288 frames free; the first round maps 8 pages per process, the second
    needs 8 more and runs out of frames at process 411. *)
Definition pressure_workload : list Z :=
  [500; 3] ++ concat (repeat [262144; 0; 262143; 0] 500).

(** The processes that this workload suspends, in the order in which the
    first variant suspends them. *)
Definition pressure_suspended : list Z :=
  [411; 414; 417; 420; 424; 427; 430; 433; 437; 440; 443; 446; 450; 453; 456;
   459; 463; 466; 469; 472; 476; 479; 482; 485; 489; 492; 495; 498].

(** The processes suspended, and the processes resumed, in the order of
    their notices. *)
Fixpoint swap_outs (out : list event) : list Z :=
  match out with
  | [] => []
  | SwapOutMsg pid _ :: rest => pid :: swap_outs rest
  | SwapInMsg _ _ :: rest => swap_outs rest
  end.

Fixpoint swap_ins (out : list event) : list Z :=
  match out with
  | [] => []
  | SwapOutMsg _ _ :: rest => swap_ins rest
  | SwapInMsg pid _ :: rest => pid :: swap_ins rest
  end.

(** The processes suspended before the first resumption. *)
Fixpoint suspended_first (out : list event) : list Z :=
  match out with
  | SwapOutMsg pid _ :: rest => pid :: suspended_first rest
  | _ => []
  end.

(** What the checks below read off a finished run: the processes
    suspended before the first resumption, all the processes suspended,
    the processes resumed, the raw swap counter and the printed figures. *)
Definition run_summary {Q : Type} (r : option (outcome (SystemState Q)))
  : option (list Z * list Z * list Z * Z * (Z * Z * Z * Z)) :=
  match r with
  | Some (Ok s) => Some (suspended_first (output s), swap_outs (output s),
                         swap_ins (output s), num_swaps s, print_statistics s)
  | _ => None
  end.

(** ** Counters, notices and completed searches *)

(** The counters of the second variant against the notices printed and the
    queue. *)
Definition circular_ledger (s : Circular.State) : Prop :=
  num_swaps s = Z.of_nat (length (swap_outs (output s)))
                + Z.of_nat (length (swap_ins (output s))) /\
  length (swap_outs (output s)) =
    (length (swap_ins (output s)) + length (Circular.queue_list (swap_queue s)))%nat /\
  0 <= page_faults s <= page_accesses s /\
  1 <= min_active_processes s <= count_active (processes s).

(** The counters of the first variant against the notices printed and the
    queue of the state. *)
Definition shifting_ledger (s : Shifting.State) : Prop :=
  num_swaps s = Z.of_nat (length (swap_outs (output s))) /\
  length (swap_outs (output s)) =
    (length (swap_ins (output s)) + length (swap_queue s))%nat /\
  0 <= page_faults s <= page_accesses s /\
  1 <= min_active_processes s <= count_active (processes s).

(** The page references of one search of process [p] for [key], when no
    fault interrupts it. *)
Definition search_refs (p : Process) (key : Z) : list Z :=
  search_pages (search_fuel 0 (array_size p - 1)) key 0 (array_size p - 1).

(** The page references of the searches that [p] has completed, in
    order. *)
Definition pages_done (p : Process) : list Z :=
  flat_map (search_refs p) (firstn (Z.to_nat (current_search p)) (search_indices p)).

Definition refs_done (p : Process) : Z := Z.of_nat (length (pages_done p)).

Fixpoint completed_refs (ps : list Process) : Z :=
  match ps with
  | [] => 0
  | p :: rest => refs_done p + completed_refs rest
  end.

(** The access counter against the searches completed. *)
Definition access_account {Q : Type} (s : SystemState Q) : Prop :=
  completed_refs (processes s) <= page_accesses s /\
  (num_swaps s = 0 -> page_accesses s = completed_refs (processes s)).

(** The number of distinct pages that the completed searches of [p]
    referenced. *)
Definition faults_done (p : Process) : Z :=
  Z.of_nat (length (nodup Z.eq_dec (pages_done p))).

Fixpoint completed_faults (ps : list Process) : Z :=
  match ps with
  | [] => 0
  | p :: rest => faults_done p + completed_faults rest
  end.

(** Beyond the essential pages, the resident pages of [p] are the pages
    of [seen]. *)
Definition pages_tracked (p : Process) (seen : list Z) : Prop :=
  forall pg, ESSENTIAL_PAGES <= pg ->
             (resident (page_table p) (Z.to_nat pg) <-> In pg seen).

(** The fault counter against the pages of the searches completed. *)
Definition fault_account {Q : Type} (s : SystemState Q) : Prop :=
  page_faults s = completed_faults (processes s) /\
  Forall (fun p => finished p = false -> pages_tracked p (pages_done p)) (processes s).

(** The lowest count shown by a swap-out notice of [out], or [low] when
    none is lower. *)
Fixpoint lowest_shown (out : list event) (low : Z) : Z :=
  match out with
  | [] => low
  | SwapOutMsg _ n :: rest => lowest_shown rest (Z.min low n)
  | SwapInMsg _ _ :: rest => lowest_shown rest low
  end.

(** Every swap-in notice of [out] shows the lowest count of the swap-out
    notices before it, or [low] when none is lower. *)
Fixpoint swap_ins_show_lowest (out : list event) (low : Z) : Prop :=
  match out with
  | [] => True
  | SwapOutMsg _ n :: rest => swap_ins_show_lowest rest (Z.min low n)
  | SwapInMsg _ n :: rest => n = low /\ swap_ins_show_lowest rest low
  end.

(** [min_active_processes] against the notices printed, for [n]
    processes. *)
Definition lowest_account {Q : Type} (n : Z) (s : SystemState Q) : Prop :=
  min_active_processes s = lowest_shown (output s) n.

(** The notices of the second variant, for [n] processes. *)
Definition circular_notices (n : Z) (s : Circular.State) : Prop :=
  lowest_account n s /\ swap_ins_show_lowest (output s) n.

(** The notices of the second variant follow a first-in first-out
    discipline: the processes resumed are the first of those suspended,
    in the same order, and the queue holds the others. *)
Definition fifo_trace (s : Circular.State) : Prop :=
  swap_outs (output s) = swap_ins (output s) ++ Circular.queue_list (swap_queue s).

(** The processes left suspended by the notices [out] when every swap-in
    resumes the process suspended last: [None] when some swap-in notice
    names another process. *)
Fixpoint lifo_stack (out : list event) (stack : list Z) : option (list Z) :=
  match out with
  | [] => Some stack
  | SwapOutMsg x _ :: rest => lifo_stack rest (stack ++ [x])
  | SwapInMsg x _ :: rest =>
      match rev stack with
      | top :: below => if top =? x then lifo_stack rest (rev below) else None
      | [] => None
      end
  end.

(** The notices of the first variant follow a last-in first-out
    discipline that leaves the queue of the state. *)
Definition lifo_trace (s : Shifting.State) : Prop :=
  lifo_stack (output s) [] = Some (swap_queue s).

(** ** The range of [int]

    The quantities of the program are C [int]s.  The definitions above
    compute on [Z]; they are the program's arithmetic as long as no
    intermediate result leaves the range of [int]. *)
Definition INT_MIN : Z := -2147483648.
Definition INT_MAX : Z := 2147483647.

Definition fits_int (z : Z) : Prop := INT_MIN <= z <= INT_MAX.

(** The value that two's-complement hardware leaves when an [int]
    operation overflows (the C standard leaves it undefined). *)
Definition wrap_int (z : Z) : Z := (z - INT_MIN) mod 4294967296 + INT_MIN.

(** The page numbers computed by the loop of lines 176-193 and 538-555
    when every operation on [int] wraps around. *)
Fixpoint search_pages_int (fuel : nat) (key L R : Z) : list Z :=
  match fuel with
  | O => []
  | S fuel' =>
      if L <? R then
        let M := Z.quot (wrap_int (L + R)) 2 in
        wrap_int (Z.quot (wrap_int (M * 4)) PAGE_SIZE + ESSENTIAL_PAGES) ::
          (if key <=? M then search_pages_int fuel' key L M
           else search_pages_int fuel' key (wrap_int (M + 1)) R)
      else []
  end.

(** The largest array for which [L + R] and [M * 4] stay inside [int]. *)
Definition MAX_INT_ARRAY_SIZE : Z := 536870913.

(** The array sizes for which a workload step is defined: [array_size - 1]
    does not overflow and every page lies inside the page table. *)
Definition int_sized (ps : list Process) : Prop :=
  Forall (fun p => INT_MIN < array_size p <= MAX_ARRAY_SIZE) ps.

(** [fits_int], as a test. *)
Definition fits_intb (z : Z) : bool := (INT_MIN <=? z) && (z <=? INT_MAX).

(** 500 processes with one search each: 499 over an array of one
    element, the last over an array of 536870913 elements for its last
    key.  The first midpoint of that search, 268435456, lies on page
    262154. *)
Definition crash_workload : list Z :=
  [500; 1] ++ concat (repeat [1; 0] 499) ++ [536870913; 536870912].

(** ** The references of a workload step *)

(** What the page references [pages] of a step of process [pid], with
    record [p], leave when the search loop runs to its end: one access
    for every reference, the process still active on the same search,
    the pages of the sequence resident beside those that were, and one
    fault for every page of the sequence that was not resident. *)
Definition step_completed {Q : Type} (s s' : SystemState Q) (pid : Z) (p : Process)
    (pages : list Z) : Prop :=
  page_accesses s' = page_accesses s + Z.of_nat (length pages) /\
  exists p',
    get_process s' pid = Ok p' /\ is_active p' = true /\
    current_search p' = current_search p /\
    forall seen,
      pages_tracked p seen ->
      pages_tracked p' (seen ++ pages) /\
      page_faults s' = page_faults s
                       + Z.of_nat (length (nodup Z.eq_dec (seen ++ pages)))
                       - Z.of_nat (length (nodup Z.eq_dec seen)).

(** What they leave when a fault finds no free frame: the references made
    are a proper prefix of the sequence and the faulting one, each
    counted once, and the process is inactive on the same search. *)
Definition step_aborted {Q : Type} (s s' : SystemState Q) (pid : Z) (p : Process)
    (pages : list Z) : Prop :=
  exists pre pg post,
    pages = pre ++ pg :: post /\
    page_accesses s' = page_accesses s + Z.of_nat (length pre) + 1 /\
    page_faults s < page_faults s' /\
    exists p',
      get_process s' pid = Ok p' /\ is_active p' = false /\
      current_search p' = current_search p.

(** ** Rounds of the scheduling loop and turns *)

(** The first [k] rounds of the scheduling loop of the first variant
    (lines 237-296), or fewer when every search is done before. *)
Fixpoint shifting_rounds (k : nat) (s : Shifting.State) (queue : list Z) (c : Z)
  : outcome (Shifting.State * list Z * Z) :=
  match k with
  | O => Ok (s, queue, c)
  | S k' =>
      if all_done s then Ok (s, queue, c)
      else do r <- Shifting.main_step s queue c;
           shifting_rounds k' (fst (fst r)) (snd (fst r)) (snd r)
  end.

(** The first [k] rounds of the scheduling loop of the second variant
    (lines 593-606). *)
Fixpoint circular_rounds (k : nat) (s : Circular.State) (c : Z)
  : outcome (Circular.State * Z) :=
  match k with
  | O => Ok (s, c)
  | S k' =>
      if all_done s then Ok (s, c)
      else do s' <- Circular.simulate_binary_search s c;
           circular_rounds k' s' (Z.rem (c + 1) (num_processes s'))
  end.

(** The states in which the search loop of a turn of process [pid] makes
    a page reference, in the first variant: a turn starts at a state at
    the head of the scheduling loop, for a process that is active
    (lines 283-284) with searches left, and goes on after every reference
    that does not suspend the process (lines 183-186). *)
Inductive shifting_in_turn (pid : Z) : Shifting.State -> Prop :=
| turn_start : forall s queue c,
    Shifting.reachable s queue c -> Shifting.runnable s pid ->
    shifting_in_turn pid s
| turn_next : forall s pg s',
    shifting_in_turn pid s ->
    Shifting.reference_page s pid pg = Ok (s', true) ->
    shifting_in_turn pid s'.

(** * Proofs *)

(** ** Page-table entries *)

Lemma testbit_mask (n : Z) : 0 <= n -> Z.testbit VALID_BIT_MASK n = (n =? 15).
Proof.
  intros Hn. change VALID_BIT_MASK with (2 ^ 15).
  rewrite Z.pow2_bits_eqb by lia. apply Z.eqb_sym.
Qed.

Lemma frame_bit15 (f : Z) : 0 <= f < VALID_BIT_MASK -> Z.testbit f 15 = false.
Proof.
  intros Hf. unfold VALID_BIT_MASK in Hf.
  destruct (Z.eq_dec f 0) as [->|Hnz]; [reflexivity|].
  apply Z.bits_above_log2; [lia|].
  apply Z.log2_lt_pow2; lia.
Qed.

Lemma lor_mask (f : Z) :
  0 <= f < VALID_BIT_MASK -> Z.lor f VALID_BIT_MASK = f + VALID_BIT_MASK.
Proof.
  intros Hf.
  assert (Hland : Z.land f VALID_BIT_MASK = 0).
  { apply Z.bits_inj'. intros n Hn.
    rewrite Z.land_spec, testbit_mask, Z.bits_0 by assumption.
    destruct (Z.eqb_spec n 15) as [->|_].
    - rewrite frame_bit15 by assumption. reflexivity.
    - apply andb_false_r. }
  rewrite Z.add_nocarry_lxor by assumption.
  symmetry. apply Z.lxor_lor. assumption.
Qed.

Lemma mk_entry_eq (f : Z) :
  0 <= f < VALID_BIT_MASK -> mk_entry f = Z.lor f VALID_BIT_MASK.
Proof.
  intros Hf. unfold mk_entry. rewrite lor_mask by assumption.
  unfold VALID_BIT_MASK in *. apply Z.mod_small. lia.
Qed.

Lemma is_valid_zero : is_valid 0 = false.
Proof. reflexivity. Qed.

Lemma is_valid_mk_entry (f : Z) :
  0 <= f < VALID_BIT_MASK -> is_valid (mk_entry f) = true.
Proof.
  intros Hf. rewrite mk_entry_eq by assumption. unfold is_valid.
  destruct (Z.eqb_spec (Z.land (Z.lor f VALID_BIT_MASK) VALID_BIT_MASK) 0) as [E|_];
    [|reflexivity].
  exfalso.
  assert (Hb : Z.testbit (Z.land (Z.lor f VALID_BIT_MASK) VALID_BIT_MASK) 15 = true).
  { rewrite Z.land_spec, Z.lor_spec, testbit_mask by lia.
    rewrite orb_true_r. reflexivity. }
  rewrite E, Z.bits_0 in Hb. discriminate.
Qed.

Lemma frame_of_mk_entry (f : Z) :
  0 <= f < VALID_BIT_MASK -> frame_of (mk_entry f) = f.
Proof.
  intros Hf. rewrite mk_entry_eq by assumption. unfold frame_of.
  apply Z.bits_inj'. intros n Hn.
  rewrite Z.land_spec, Z.lor_spec, Z.lnot_spec, testbit_mask by assumption.
  destruct (Z.eqb_spec n 15) as [->|_].
  - rewrite frame_bit15 by assumption. reflexivity.
  - rewrite orb_false_r, andb_true_r. reflexivity.
Qed.

(** ** Arrays as lists *)

Lemma upd_length {A : Type} (i : nat) (v : A) (l : list A) :
  length (upd i v l) = length l.
Proof.
  revert i. induction l as [|h t IH]; intros [|j]; simpl; auto.
Qed.

Lemma nth_error_upd_same {A : Type} (i : nat) (v : A) (l : list A) :
  (i < length l)%nat -> nth_error (upd i v l) i = Some v.
Proof.
  revert i. induction l as [|h t IH]; intros [|j] Hi; simpl in *; try lia; auto.
  apply IH. lia.
Qed.

Lemma nth_error_upd_other {A : Type} (i j : nat) (v : A) (l : list A) :
  i <> j -> nth_error (upd i v l) j = nth_error l j.
Proof.
  revert i j. induction l as [|h t IH]; intros [|i] [|j] Hij; simpl; auto.
  congruence.
Qed.

Lemma upd_split {A : Type} (i : nat) (v x : A) (l : list A) :
  nth_error l i = Some x ->
  exists l1 l2, l = l1 ++ x :: l2 /\ upd i v l = l1 ++ v :: l2 /\ length l1 = i.
Proof.
  revert i. induction l as [|h t IH]; intros [|i] Hn; simpl in *; try discriminate.
  - inversion Hn; subst. exists [], t. auto.
  - destruct (IH _ Hn) as (l1 & l2 & -> & E & Hl).
    exists (h :: l1), l2. simpl. rewrite E, Hl. auto.
Qed.

Lemma zget_ok {A : Type} (l : list A) (i : Z) (a : A) :
  zget l i = Ok a <-> 0 <= i /\ nth_error l (Z.to_nat i) = Some a.
Proof.
  unfold zget. destruct (Z.ltb_spec i 0).
  - split; [discriminate | lia].
  - destruct (nth_error l (Z.to_nat i)) as [b|].
    + split; [intros [= ->]; auto | intros [_ [= ->]]; auto].
    + split; [discriminate | intros [_ [=]]].
Qed.

Lemma zget_in_range {A : Type} (l : list A) (i : Z) (a : A) :
  zget l i = Ok a -> in_range l i = true.
Proof.
  intros H. apply zget_ok in H. destruct H as [H0 Hn].
  assert (Hlt : (Z.to_nat i < length l)%nat).
  { apply nth_error_Some. congruence. }
  unfold in_range. apply andb_true_intro. split.
  - apply Z.leb_le. lia.
  - apply Z.ltb_lt. lia.
Qed.

Lemma in_range_zget {A : Type} (l : list A) (i : Z) :
  in_range l i = true -> exists a, zget l i = Ok a.
Proof.
  unfold in_range. intros H. apply andb_prop in H. destruct H as [H0 H1].
  apply Z.leb_le in H0. apply Z.ltb_lt in H1.
  destruct (nth_error l (Z.to_nat i)) as [a|] eqn:E.
  - exists a. apply zget_ok. auto.
  - apply nth_error_None in E. lia.
Qed.

Lemma Forall_upd {A : Type} (P : A -> Prop) (i : nat) (v : A) (l : list A) :
  Forall P l -> P v -> Forall P (upd i v l).
Proof.
  intros Hl Hv. revert i. induction Hl as [|h t Hh Ht IH]; intros [|j]; simpl;
    constructor; auto.
Qed.

Lemma map_upd_same {A B : Type} (g : A -> B) (i : nat) (v x : A) (l : list A) :
  nth_error l i = Some x -> g v = g x -> map g (upd i v l) = map g l.
Proof.
  intros Hn Hg. destruct (upd_split i v x l Hn) as (l1 & l2 & -> & -> & _).
  rewrite !map_app. simpl. rewrite Hg. reflexivity.
Qed.

(** ** Frames held by a page table *)

Lemma held_app (l1 l2 : list Z) : held (l1 ++ l2) = held l1 ++ held l2.
Proof. unfold held. rewrite filter_app, map_app. reflexivity. Qed.

Lemma held_cons (e : Z) (l : list Z) :
  held (e :: l) = if is_valid e then frame_of e :: held l else held l.
Proof. unfold held. simpl. destruct (is_valid e); reflexivity. Qed.

Lemma held_length_le (pt : list Z) : (length (held pt) <= length pt)%nat.
Proof. unfold held. rewrite length_map. apply filter_length_le. Qed.

Lemma held_nil_invalid (pt : list Z) (i : nat) (e : Z) :
  held pt = [] -> nth_error pt i = Some e -> is_valid e = false.
Proof.
  revert i. induction pt as [|h t IH]; intros i Hh Hn.
  - destruct i; discriminate.
  - rewrite held_cons in Hh. destruct (is_valid h) eqn:Hv; [discriminate|].
    destruct i as [|i]; simpl in Hn.
    + inversion Hn; subst. assumption.
    + eapply IH; eauto.
Qed.

Lemma held_repeat_zero (n : nat) : held (repeat 0 n) = [].
Proof.
  induction n as [|n IH]; [reflexivity|].
  simpl repeat. rewrite held_cons, is_valid_zero. assumption.
Qed.

Lemma held_upd_invalid (pt : list Z) (i : nat) (e v : Z) :
  nth_error pt i = Some e -> is_valid e = false -> is_valid v = true ->
  Permutation (held (upd i v pt)) (frame_of v :: held pt).
Proof.
  intros Hn He Hv.
  destruct (upd_split i v e pt Hn) as (l1 & l2 & -> & -> & _).
  rewrite !held_app, !held_cons, He, Hv.
  symmetry. apply Permutation_middle.
Qed.

Lemma resident_upd (pt : list Z) (i j : nat) (v : Z) :
  is_valid v = true -> resident pt j -> resident (upd i v pt) j.
Proof.
  intros Hv (e & Hn & He). destruct (Nat.eq_dec i j) as [->|Hij].
  - exists v. split; [|assumption]. apply nth_error_upd_same.
    apply nth_error_Some. congruence.
  - exists e. rewrite nth_error_upd_other by assumption. auto.
Qed.

(** The release loop clears every valid entry and pushes its frame. *)
Lemma release_frames_spec (pt free : list Z) :
  release_frames pt free =
  (map (fun e => if is_valid e then 0 else e) pt, rev (held pt) ++ free).
Proof.
  revert free. induction pt as [|e rest IH]; intros free; [reflexivity|].
  simpl release_frames. rewrite held_cons. destruct (is_valid e) eqn:He.
  - rewrite IH. simpl map. rewrite He. simpl rev. rewrite <- app_assoc. reflexivity.
  - rewrite IH. simpl map. rewrite He. reflexivity.
Qed.

Lemma held_cleared (pt : list Z) :
  held (map (fun e => if is_valid e then 0 else e) pt) = [].
Proof.
  induction pt as [|e rest IH]; [reflexivity|].
  simpl map. rewrite held_cons. destruct (is_valid e) eqn:He.
  - rewrite is_valid_zero. assumption.
  - rewrite He. assumption.
Qed.

Lemma release_frames_table (pt free pt' free' : list Z) :
  release_frames pt free = (pt', free') ->
  length pt' = length pt /\ held pt' = [] /\ free' = rev (held pt) ++ free.
Proof.
  rewrite release_frames_spec. intros [= <- <-].
  rewrite length_map, held_cleared. auto.
Qed.

(** The essential-page loop takes [min n (length free)] frames from the
    top of the stack and maps pages [i, i + 1, ...] to them. *)
Lemma alloc_essential_spec (n : nat) :
  forall (i : nat) (pt : list Z) (fa : Z) (free pt' : list Z) (fa' : Z) (free' : list Z),
  alloc_essential n i pt fa free = (pt', fa', free') ->
  (forall j, (i <= j < i + n)%nat -> exists e, nth_error pt j = Some e /\ is_valid e = false) ->
  Forall (fun f => 0 <= f < VALID_BIT_MASK) free ->
  exists taken,
    free = taken ++ free' /\
    length taken = Nat.min n (length free) /\
    fa' = fa + Z.of_nat (length taken) /\
    Permutation (held pt') (taken ++ held pt) /\
    length pt' = length pt /\
    (forall j, (i <= j < i + length taken)%nat -> resident pt' j) /\
    (forall j, (j < i)%nat -> nth_error pt' j = nth_error pt j).
Proof.
  induction n as [|n IH]; intros i pt fa free pt' fa' free' Hrun Hinv Hfree.
  - simpl in Hrun. inversion Hrun; subst. exists []. simpl.
    repeat split; auto; try lia; try (intros j Hj; lia).
  - simpl in Hrun. destruct free as [|f free1].
    + inversion Hrun; subst. exists []. simpl.
      repeat split; auto; try lia; try (intros j Hj; lia).
    + inversion Hfree as [|? ? Hf Hfree1]; subst.
      destruct (Hinv i ltac:(lia)) as (e & Hne & He).
      apply IH in Hrun; [|intros j Hj|assumption].
      * destruct Hrun as (taken & -> & Hlen & -> & Hperm & Hl & Hres & Hsame).
        exists (f :: taken). simpl. rewrite Hlen.
        split; [reflexivity|]. split; [reflexivity|]. split; [lia|].
        split.
        { rewrite Hperm.
          rewrite (held_upd_invalid pt i e (mk_entry f) Hne He (is_valid_mk_entry f Hf)).
          rewrite frame_of_mk_entry by assumption.
          symmetry. apply Permutation_middle. }
        split; [rewrite Hl; apply upd_length|].
        split.
        { intros j Hj. destruct (Nat.eq_dec j i) as [->|Hji].
          - exists (mk_entry f). rewrite Hsame by lia.
            split; [|apply is_valid_mk_entry; assumption].
            apply nth_error_upd_same. apply nth_error_Some. congruence.
          - apply Hres. lia. }
        { intros j Hj. rewrite Hsame by lia.
          apply nth_error_upd_other. lia. }
      * rewrite nth_error_upd_other by lia. apply Hinv. lia.
Qed.

(** ** The process array *)

Lemma all_held_app (l1 l2 : list Process) :
  all_held (l1 ++ l2) = all_held l1 ++ all_held l2.
Proof. unfold all_held. apply flat_map_app. Qed.

Lemma all_held_cons (p : Process) (l : list Process) :
  all_held (p :: l) = held (page_table p) ++ all_held l.
Proof. reflexivity. Qed.

Lemma all_held_upd (ps : list Process) (i : nat) (p p' : Process) :
  nth_error ps i = Some p ->
  exists rest,
    Permutation (all_held ps) (held (page_table p) ++ rest) /\
    Permutation (all_held (upd i p' ps)) (held (page_table p') ++ rest).
Proof.
  intros Hn. destruct (upd_split i p' p ps Hn) as (l1 & l2 & -> & -> & _).
  exists (all_held l1 ++ all_held l2).
  rewrite !all_held_app, !all_held_cons. split.
  - rewrite !app_assoc. apply Permutation_app_tail. apply Permutation_app_comm.
  - rewrite !app_assoc. apply Permutation_app_tail. apply Permutation_app_comm.
Qed.

(** Frames that move between the free stack and one page table. *)
Lemma frames_transfer (ps : list Process) (i : nat) (p p' : Process) (free free' : list Z) :
  nth_error ps i = Some p ->
  Permutation (free' ++ held (page_table p')) (free ++ held (page_table p)) ->
  Permutation (free' ++ all_held (upd i p' ps)) (free ++ all_held ps).
Proof.
  intros Hn Hperm. destruct (all_held_upd ps i p p' Hn) as (rest & H1 & H2).
  rewrite H1, H2, !app_assoc. apply Permutation_app_tail. assumption.
Qed.

Lemma total_allocated_upd (ps : list Process) (i : nat) (p p' : Process) :
  nth_error ps i = Some p ->
  total_allocated (upd i p' ps) =
  total_allocated ps - frames_allocated p + frames_allocated p'.
Proof.
  revert i. induction ps as [|h t IH]; intros [|i] Hn; simpl in *; try discriminate.
  - inversion Hn; subst. lia.
  - rewrite (IH _ Hn). lia.
Qed.

Lemma count_active_upd (ps : list Process) (i : nat) (p p' : Process) :
  nth_error ps i = Some p ->
  count_active (upd i p' ps) =
  count_active ps - (if is_active p then 1 else 0) + (if is_active p' then 1 else 0).
Proof.
  revert i. induction ps as [|h t IH]; intros [|i] Hn; simpl in *; try discriminate.
  - inversion Hn; subst. lia.
  - rewrite (IH _ Hn). lia.
Qed.

Lemma pending_searches_upd (ps : list Process) (i : nat) (p p' : Process) :
  nth_error ps i = Some p ->
  pending_searches (upd i p' ps) =
  pending_searches ps - (num_searches p - current_search p)
                      + (num_searches p' - current_search p').
Proof.
  revert i. induction ps as [|h t IH]; intros [|i] Hn; simpl in *; try discriminate.
  - inversion Hn; subst. lia.
  - rewrite (IH _ Hn). lia.
Qed.

Lemma count_active_bounds (ps : list Process) :
  0 <= count_active ps <= Z.of_nat (length ps).
Proof.
  induction ps as [|p t IH]; simpl count_active; simpl length; [lia|].
  destruct (is_active p); lia.
Qed.

Lemma pending_searches_nonneg (ps : list Process) :
  Forall process_ok ps -> 0 <= pending_searches ps.
Proof.
  induction 1 as [|p t Hp _ IH]; simpl; [lia|].
  destruct Hp. lia.
Qed.

Lemma total_allocated_held (ps : list Process) :
  Forall process_ok ps -> total_allocated ps = Z.of_nat (length (all_held ps)).
Proof.
  induction 1 as [|p t Hp _ IH]; [reflexivity|].
  rewrite all_held_cons. simpl total_allocated. rewrite length_app, IH, (ok_allocated p Hp). lia.
Qed.

Lemma frame_space_length : length frame_space = Z.to_nat USER_FRAMES.
Proof. unfold frame_space. rewrite length_map, length_seq. reflexivity. Qed.

Lemma frame_space_range (f : Z) : In f frame_space -> 0 <= f < USER_FRAMES.
Proof.
  unfold frame_space. intros H. apply in_map_iff in H.
  destruct H as (n & <- & Hn). apply in_seq in Hn.
  unfold USER_FRAMES in *. lia.
Qed.

Lemma frame_space_nodup : NoDup frame_space.
Proof.
  unfold frame_space. apply Finite.Injective_map_NoDup.
  - intros a b H. apply Nat2Z.inj. assumption.
  - apply seq_NoDup.
Qed.

Section StateLemmas.
Context {Q : Type}.
Implicit Type s : SystemState Q.

Lemma get_process_nth s (pid : Z) (p : Process) :
  get_process s pid = Ok p <-> 0 <= pid /\ nth_error (processes s) (Z.to_nat pid) = Some p.
Proof. apply zget_ok. Qed.

Lemma get_process_bound s (pid : Z) (p : Process) :
  get_process s pid = Ok p -> 0 <= pid < num_processes s.
Proof.
  intros H. apply get_process_nth in H. destruct H as [H0 Hn].
  assert ((Z.to_nat pid < length (processes s))%nat) by (apply nth_error_Some; congruence).
  unfold num_processes. lia.
Qed.

Lemma get_process_defined s (pid : Z) :
  0 <= pid < num_processes s -> exists p, get_process s pid = Ok p.
Proof.
  intros H. apply in_range_zget. unfold in_range, num_processes in *.
  apply andb_true_intro. split; [apply Z.leb_le | apply Z.ltb_lt]; lia.
Qed.

Lemma get_put_same s (pid : Z) (p p' : Process) :
  get_process s pid = Ok p -> get_process (put_process s pid p') pid = Ok p'.
Proof.
  intros H. apply get_process_nth in H. destruct H as [H0 Hn].
  apply get_process_nth. split; [assumption|]. simpl.
  apply nth_error_upd_same. apply nth_error_Some. congruence.
Qed.

Lemma get_put_other s (pid pid' : Z) (p' : Process) :
  0 <= pid -> pid <> pid' ->
  get_process (put_process s pid p') pid' = get_process s pid'.
Proof.
  intros H0 Hne. unfold get_process, zget. simpl.
  destruct (Z.ltb_spec pid' 0); [reflexivity|].
  rewrite nth_error_upd_other by lia. reflexivity.
Qed.

Lemma get_process_in s (pid : Z) (p : Process) :
  get_process s pid = Ok p -> In p (processes s).
Proof.
  intros H. apply get_process_nth in H. destruct H as [_ Hn].
  eapply nth_error_In; eauto.
Qed.

Lemma in_get_process s (p : Process) :
  In p (processes s) -> exists pid, get_process s pid = Ok p.
Proof.
  intros H. apply In_nth_error in H. destruct H as [n Hn].
  exists (Z.of_nat n). apply get_process_nth. rewrite Nat2Z.id. split; [lia|assumption].
Qed.

End StateLemmas.

Lemma nth_upd_same {A : Type} (i : nat) (v d : A) (l : list A) :
  (i < length l)%nat -> nth i (upd i v l) d = v.
Proof.
  intros H. apply nth_error_nth. apply nth_error_upd_same. assumption.
Qed.

Lemma nth_upd_other {A : Type} (i j : nat) (v d : A) (l : list A) :
  i <> j -> nth j (upd i v l) d = nth j l d.
Proof.
  revert i j. induction l as [|h t IH]; intros [|i] [|j] Hij; simpl; auto.
  congruence.
Qed.

(** ** The circular queue is a FIFO list *)

Section CircularQueue.
Import Circular.

Local Ltac mod_lia := unfold MAX_PROCESSES in *; Z.div_mod_to_equations; lia.

Lemma rem_next (i : Z) : 0 <= i -> Z.rem (i + 1) MAX_PROCESSES = (i + 1) mod MAX_PROCESSES.
Proof. intros H. apply Z.rem_mod_nonneg; unfold MAX_PROCESSES; lia. Qed.

Lemma queue_size_range (q : SwapQueue) : 0 <= queue_size q <= MAX_PROCESSES.
Proof. unfold queue_size. destruct (queueIsEmpty q); mod_lia. Qed.

Lemma queue_list_length (q : SwapQueue) :
  length (queue_list q) = Z.to_nat (queue_size q).
Proof. unfold queue_list. rewrite length_map, length_seq. reflexivity. Qed.

Lemma queue_list_empty (q : SwapQueue) :
  queue_list q = [] <-> queueIsEmpty q = true.
Proof.
  split.
  - intros H. apply (f_equal (@length Z)) in H. rewrite queue_list_length in H.
    unfold queue_size in H. destruct (queueIsEmpty q); [reflexivity|].
    simpl in H. mod_lia.
  - intros H. unfold queue_list, queue_size. rewrite H. reflexivity.
Qed.

Lemma initQueue_wf : queue_wf initQueue.
Proof. split; [apply repeat_length | left; auto]. Qed.

Lemma initQueue_list : queue_list initQueue = [].
Proof. reflexivity. Qed.

Lemma enqueue_spec (q : SwapQueue) (x : Z) :
  queue_wf q -> queue_size q < MAX_PROCESSES ->
  queue_wf (enqueue q x) /\ queue_list (enqueue q x) = queue_list q ++ [x].
Proof.
  destruct q as [it f r]. unfold queue_wf, enqueue, queue_list, queue_size, queueIsEmpty.
  cbn [items front rear]. intros [Hlen Hidx] Hsize.
  destruct (Z.eqb_spec f (-1)) as [Hf|Hf].
  - split.
    + split; [rewrite upd_length; assumption|]. right. unfold MAX_PROCESSES. lia.
    + cbn [Z.eqb]. rewrite Z.sub_diag, Z.mod_0_l by (unfold MAX_PROCESSES; lia).
      change (Z.to_nat (0 + 1)) with 1%nat. change (Z.to_nat 0) with 0%nat.
      cbn [seq map app]. f_equal. change (Z.to_nat ((0 + Z.of_nat 0) mod MAX_PROCESSES)) with 0%nat.
      apply nth_upd_same. rewrite Hlen. unfold MAX_PROCESSES. lia.
  - destruct Hidx as [[? ?]|[Hfr Hrr]]; [contradiction|].
    rewrite rem_next by lia.
    set (r' := (r + 1) mod MAX_PROCESSES).
    destruct (Z.eqb_spec f (-1)) as [?|_]; [contradiction|].
    split.
    + split; [rewrite upd_length; assumption|]. right. subst r'. mod_lia.
    + assert (Hn : (r' - f) mod MAX_PROCESSES + 1
                   = ((r - f) mod MAX_PROCESSES + 1) + 1).
      { subst r'. mod_lia. }
      rewrite Hn.
      set (n := (r - f) mod MAX_PROCESSES + 1) in *.
      assert (Hn0 : 0 <= n) by (subst n; mod_lia).
      rewrite Z2Nat.inj_add by lia. change (Z.to_nat 1) with 1%nat.
      rewrite seq_app, map_app. cbn [seq map]. f_equal.
      * apply map_ext_in. intros k Hk. apply in_seq in Hk.
        apply nth_upd_other. subst r' n. mod_lia.
      * f_equal. rewrite Nat.add_0_l, Z2Nat.id by lia.
        replace ((f + n) mod MAX_PROCESSES) with r' by (subst r' n; mod_lia).
        apply nth_upd_same. rewrite Hlen. subst r'. mod_lia.
Qed.

Lemma dequeue_empty (q : SwapQueue) :
  queueIsEmpty q = true -> dequeue q = (-1, q).
Proof. intros H. unfold dequeue. rewrite H. reflexivity. Qed.

Lemma dequeue_spec (q : SwapQueue) (x : Z) (l : list Z) :
  queue_wf q -> queue_list q = x :: l ->
  exists q', dequeue q = (x, q') /\ queue_wf q' /\ queue_list q' = l.
Proof.
  intros Hwf Hl.
  assert (Hne : queueIsEmpty q = false).
  { destruct (queueIsEmpty q) eqn:E; [|reflexivity].
    apply queue_list_empty in E. congruence. }
  destruct q as [it f r]. revert Hwf Hl Hne.
  unfold queue_wf, dequeue, queue_list, queue_size, queueIsEmpty.
  cbn [items front rear]. intros [Hlen Hidx] Hl Hne. rewrite Hne in *.
  apply Z.eqb_neq in Hne.
  destruct Hidx as [[? ?]|[Hfr Hrr]]; [contradiction|].
  set (n := (r - f) mod MAX_PROCESSES + 1) in *.
  assert (Hn1 : 1 <= n) by (subst n; mod_lia).
  replace (Z.to_nat n) with (S (Z.to_nat (n - 1))) in Hl by lia.
  cbn [seq map] in Hl. injection Hl as Hx Hrest.
  change (Z.of_nat 0) with 0 in Hx.
  replace ((f + 0) mod MAX_PROCESSES) with f in Hx by mod_lia.
  destruct (Z.eqb_spec f r) as [Hfr'|Hfr'].
  - eexists. split; [rewrite Hx; reflexivity|]. split.
    + split; [assumption|]. left. auto.
    + cbn [items front rear]. rewrite <- Hrest.
      replace (Z.to_nat (n - 1)) with 0%nat by (subst n; mod_lia).
      reflexivity.
  - eexists. split; [rewrite Hx; reflexivity|]. rewrite rem_next by lia.
    cbn [items front rear]. split.
    + split; [assumption|]. right. mod_lia.
    +
      destruct (Z.eqb_spec ((f + 1) mod MAX_PROCESSES) (-1)) as [E|_]; [mod_lia|].
      replace ((r - (f + 1) mod MAX_PROCESSES) mod MAX_PROCESSES + 1) with (n - 1)
        by (subst n; mod_lia).
      rewrite <- Hrest, <- seq_shift, map_map.
      apply map_ext_in. intros k Hk. apply in_seq in Hk.
      f_equal. f_equal. mod_lia.
Qed.

End CircularQueue.

(** ** The binary-search interval *)

Lemma midpoint_bounds (L R : Z) :
  0 <= L -> L < R ->
  L <= midpoint L R < R /\ 2 * midpoint L R <= L + R <= 2 * midpoint L R + 1.
Proof.
  intros H0 Hlt. unfold midpoint.
  rewrite Z.quot_div_nonneg by lia.
  pose proof (Z.div_mod (L + R) 2 ltac:(lia)) as Hdm.
  pose proof (Z.mod_pos_bound (L + R) 2 ltac:(lia)) as Hm.
  lia.
Qed.

Lemma page_of_range (M : Z) :
  0 <= M <= MAX_ARRAY_SIZE - 2 -> ESSENTIAL_PAGES <= page_of M < PAGE_TABLE_SIZE.
Proof.
  unfold page_of, MAX_ARRAY_SIZE, ESSENTIAL_PAGES, PAGE_TABLE_SIZE, PAGE_SIZE.
  intros H. rewrite Z.quot_div_nonneg by lia.
  pose proof (Z.div_mod (M * 4) 4096 ltac:(lia)) as Hdm.
  pose proof (Z.mod_pos_bound (M * 4) 4096 ltac:(lia)) as Hm.
  lia.
Qed.

Lemma search_fuel_enough (L R : Z) :
  exists f, search_fuel L R = S f /\ R - L < 2 ^ Z.of_nat f.
Proof.
  unfold search_fuel. eexists. split; [reflexivity|].
  destruct (Z.le_gt_cases (R - L) 0) as [Hle|Hgt].
  - pose proof (Z.pow_pos_nonneg 2 (Z.of_nat (S (Z.to_nat (Z.log2 (R - L))))) ltac:(lia) ltac:(lia)).
    lia.
  - pose proof (Z.log2_spec (R - L) Hgt) as [_ Hs].
    pose proof (Z.log2_nonneg (R - L)).
    rewrite Nat2Z.inj_succ, Z2Nat.id by assumption. assumption.
Qed.

Lemma halves_fit (f : nat) (L R M : Z) :
  L <= M < R -> 2 * M <= L + R <= 2 * M + 1 -> R - L < 2 ^ Z.of_nat (S f) ->
  M - L < 2 ^ Z.of_nat f /\ R - (M + 1) < 2 ^ Z.of_nat f.
Proof.
  intros HM H2 Hw. rewrite Nat2Z.inj_succ, Z.pow_succ_r in Hw by lia. lia.
Qed.

(** Every page number of a search over an array of at most
    [MAX_ARRAY_SIZE] elements lies above the essential pages and inside
    the page table. *)
Lemma search_pages_range (fuel : nat) (key : Z) :
  forall L R : Z,
  0 <= L -> R <= MAX_ARRAY_SIZE - 1 ->
  Forall (fun pg => ESSENTIAL_PAGES <= pg < PAGE_TABLE_SIZE) (search_pages fuel key L R).
Proof.
  induction fuel as [|fuel IH]; intros L R HL HR; [constructor|].
  cbn [search_pages]. destruct (Z.ltb_spec L R) as [Hlt|_]; [|constructor].
  destruct (midpoint_bounds L R HL Hlt) as [HM _].
  constructor.
  - apply page_of_range. lia.
  - destruct (key <=? midpoint L R); apply IH; lia.
Qed.

(** The number of page references of one search. *)
Lemma search_pages_length (fuel : nat) (key : Z) :
  forall L R : Z,
  0 <= L -> R - L < 2 ^ Z.of_nat fuel ->
  (length (search_pages (S fuel) key L R) <= fuel)%nat.
Proof.
  induction fuel as [|fuel IH]; intros L R HL Hw.
  - cbn [search_pages]. destruct (Z.ltb_spec L R) as [Hlt|_]; [|simpl; lia].
    simpl in Hw. lia.
  - remember (S fuel) as f1. cbn [search_pages].
    destruct (Z.ltb_spec L R) as [Hlt|_]; [|simpl; lia]. subst f1.
    destruct (midpoint_bounds L R HL Hlt) as [HM H2].
    destruct (halves_fit fuel L R _ HM H2 Hw) as [Hl Hr].
    cbn [length]. destruct (key <=? midpoint L R).
    + specialize (IH L (midpoint L R) HL Hl). lia.
    + specialize (IH (midpoint L R + 1) R ltac:(lia) Hr). lia.
Qed.

Section SearchLoop.
Import Circular.

(** The search loop references exactly the pages of [search_pages], in
    order, until the search ends or the process is suspended. *)
Lemma search_loop_replay (f : nat) (pid key : Z) :
  forall (s : State) (L R : Z),
  0 <= L -> R - L < 2 ^ Z.of_nat f ->
  search_loop (S f) s pid key L R = replay s pid (search_pages (S f) key L R).
Proof.
  induction f as [|f IH]; intros s L R HL Hw.
  - cbn [search_loop search_pages]. destruct (Z.ltb_spec L R) as [Hlt|_]; [|reflexivity].
    simpl in Hw. lia.
  - remember (S f) as f1. cbn [search_loop search_pages].
    destruct (Z.ltb_spec L R) as [Hlt|_]; [|reflexivity]. subst f1.
    destruct (midpoint_bounds L R HL Hlt) as [HM H2].
    destruct (halves_fit f L R _ HM H2 Hw) as [Hl Hr].
    cbn [replay].
    destruct (reference_page s pid (page_of (midpoint L R))) as [[s' b]| |];
      cbn [bind fst snd]; try reflexivity.
    destruct b; [|reflexivity].
    destruct (key <=? midpoint L R); apply IH; lia.
Qed.

End SearchLoop.

(** ** Operations of the second variant *)

(** Projections of updated records. *)
Ltac proc_simpl :=
  cbn [page_table array_size search_indices num_searches current_search
       frames_allocated is_active set_is_active set_frames_allocated
       set_page_table set_current_search] in *.

Ltac state_simpl :=
  cbn [free_frames processes swap_queue page_accesses page_faults num_swaps
       min_active_processes output set_free_frames set_processes set_swap_queue
       set_page_accesses set_page_faults set_num_swaps set_min_active_processes
       add_output put_process] in *.

Section CircularOperations.
Import Circular.

(** The invariant reads only the processes, the free stack and the queue. *)
Lemma Inv_ext (s s' : State) :
  processes s' = processes s -> free_frames s' = free_frames s ->
  swap_queue s' = swap_queue s -> Inv s -> Inv s'.
Proof.
  intros Hp Hf Hq [H1 H2 H3 H4 H5 H6].
  assert (Hsusp : forall pid, suspended s' pid <-> suspended s pid).
  { intros pid. unfold suspended, get_process. rewrite Hp. reflexivity. }
  constructor; unfold num_processes in *; rewrite ?Hp, ?Hf, ?Hq; auto.
  intros pid. rewrite Hsusp. apply H6.
Qed.

Lemma inv_free_range (s : State) :
  Inv s -> Forall (fun f => 0 <= f < VALID_BIT_MASK) (free_frames s).
Proof.
  intros HI. apply Forall_forall. intros f Hf.
  assert (Hin : In f frame_space).
  { eapply Permutation_in; [apply (inv_frames s HI)|]. apply in_or_app. auto. }
  apply frame_space_range in Hin. unfold USER_FRAMES, VALID_BIT_MASK in *. lia.
Qed.

Lemma conservation_of_partition (s : State) :
  Forall process_ok (processes s) ->
  Permutation (free_frames s ++ all_held (processes s)) frame_space ->
  num_free_frames s + total_allocated (processes s) = USER_FRAMES.
Proof.
  intros Hok Hperm. apply Permutation_length in Hperm.
  rewrite length_app, frame_space_length in Hperm.
  rewrite (total_allocated_held _ Hok). unfold num_free_frames.
  unfold USER_FRAMES in *. lia.
Qed.

Lemma inv_process_ok (s : State) (pid : Z) (p : Process) :
  Inv s -> get_process s pid = Ok p -> process_ok p.
Proof.
  intros HI Hg. apply get_process_in in Hg.
  eapply Forall_forall; [apply (inv_procs s HI)|assumption].
Qed.

(** Suspended processes are pairwise distinct members of the process
    array, so the queue never holds more entries than there are processes,
    and fewer when some process is active. *)
Lemma queue_room (s : State) (pid : Z) (p : Process) :
  Inv s -> get_process s pid = Ok p -> is_active p = true ->
  queue_size (swap_queue s) < MAX_PROCESSES.
Proof.
  intros HI Hg Ha.
  set (l := queue_list (swap_queue s)).
  assert (Hnd : NoDup (pid :: l)).
  { constructor; [|apply (inv_queue_nodup s HI)].
    intros Hin. apply (inv_queue_mem s HI) in Hin.
    destruct Hin as (p0 & Hg0 & Ha0). congruence. }
  assert (Hincl : incl (pid :: l) (map Z.of_nat (seq 0 (length (processes s))))).
  { intros x [<-|Hx].
    - apply get_process_bound in Hg. unfold num_processes in Hg.
      apply in_map_iff. exists (Z.to_nat pid). split; [lia|]. apply in_seq. lia.
    - apply (inv_queue_mem s HI) in Hx. destruct Hx as (p0 & Hg0 & _).
      apply get_process_bound in Hg0. unfold num_processes in Hg0.
      apply in_map_iff. exists (Z.to_nat x). split; [lia|]. apply in_seq. lia. }
  apply NoDup_incl_length in Hincl; [|assumption].
  rewrite length_map, length_seq in Hincl. simpl length in Hincl.
  subst l. rewrite queue_list_length in Hincl.
  pose proof (inv_count s HI) as Hc. unfold num_processes in Hc.
  pose proof (queue_size_range (swap_queue s)). lia.
Qed.

(** What swap-out does to an active process. *)
Lemma swap_out_active (s : State) (pid : Z) (p : Process) :
  get_process s pid = Ok p -> is_active p = true ->
  exists s',
    swap_out_process s pid = Ok s' /\
    processes s' =
      upd (Z.to_nat pid)
          (set_is_active
             (set_frames_allocated
                (set_page_table p (map (fun e => if is_valid e then 0 else e) (page_table p)))
                0) false)
          (processes s) /\
    free_frames s' = rev (held (page_table p)) ++ free_frames s /\
    swap_queue s' = enqueue (swap_queue s) pid /\
    num_swaps s' = num_swaps s + 1 /\
    page_accesses s' = page_accesses s /\
    page_faults s' = page_faults s /\
    min_active_processes s' = Z.min (min_active_processes s) (get_active_process_count s') /\
    output s' = output s ++ [SwapOutMsg pid (get_active_process_count s')].
Proof.
  intros Hg Ha. unfold swap_out_process. rewrite Hg. cbn [bind]. rewrite Ha. cbn [negb].
  rewrite release_frames_spec.
  match goal with |- context [if ?c <? ?m then _ else _] => destruct (Z.ltb_spec c m) end;
    eexists; (split; [reflexivity|]); cbn;
    repeat split; try reflexivity; unfold get_active_process_count in *; cbn in *; lia.
Qed.

Lemma swap_out_inactive (s : State) (pid : Z) (p : Process) :
  get_process s pid = Ok p -> is_active p = false -> swap_out_process s pid = Ok s.
Proof.
  intros Hg Ha. unfold swap_out_process. rewrite Hg. cbn [bind]. rewrite Ha. reflexivity.
Qed.

Lemma suspended_put (s s' : State) (pid : Z) (p p' : Process) :
  get_process s pid = Ok p ->
  processes s' = upd (Z.to_nat pid) p' (processes s) ->
  forall x, suspended s' x <->
            (x = pid /\ is_active p' = false) \/ (x <> pid /\ suspended s x).
Proof.
  intros Hg Hp x.
  assert (H0 : 0 <= pid) by (apply get_process_nth in Hg; tauto).
  assert (Hs' : forall y, get_process s' y = get_process (put_process s pid p') y).
  { intros y. unfold get_process, put_process. cbn. rewrite Hp. reflexivity. }
  unfold suspended. rewrite Hs'. destruct (Z.eq_dec x pid) as [->|Hne].
  - rewrite (get_put_same s pid p p' Hg). split.
    + intros (q & [= <-] & Ha). left. auto.
    + intros [[_ Ha]|[Hc _]]; [eauto | congruence].
  - rewrite get_put_other by auto. split.
    + intros H. right. auto.
    + intros [[Hc _]|[_ H]]; [congruence | assumption].
Qed.

(** Rebuilding the invariant after one process record, the free stack
    and the queue have been written. *)
Lemma Inv_put (s s' : State) (pid : Z) (p p' : Process) :
  Inv s -> get_process s pid = Ok p ->
  process_ok p' ->
  processes s' = upd (Z.to_nat pid) p' (processes s) ->
  Permutation (free_frames s' ++ held (page_table p'))
              (free_frames s ++ held (page_table p)) ->
  queue_wf (swap_queue s') ->
  NoDup (queue_list (swap_queue s')) ->
  (forall x, In x (queue_list (swap_queue s')) <->
             (x = pid /\ is_active p' = false) \/
             (x <> pid /\ In x (queue_list (swap_queue s)))) ->
  Inv s'.
Proof.
  intros HI Hg Hok Hp Hperm Hwf Hnd Hmem.
  pose proof Hg as Hn. apply get_process_nth in Hn. destruct Hn as [H0 Hn].
  constructor.
  - rewrite Hp. apply Forall_upd; [apply (inv_procs s HI)|assumption].
  - rewrite Hp, (frames_transfer _ _ p p' (free_frames s) _ Hn Hperm).
    apply (inv_frames s HI).
  - unfold num_processes. rewrite Hp, upd_length. apply (inv_count s HI).
  - assumption.
  - assumption.
  - intros x. rewrite Hmem, (suspended_put s s' pid p p' Hg Hp x).
    pose proof (inv_queue_mem s HI x) as Hx. tauto.
Qed.

(** The same when the process keeps its activity and the queue is left
    alone. *)
Lemma Inv_put_same_queue (s s' : State) (pid : Z) (p p' : Process) :
  Inv s -> get_process s pid = Ok p ->
  process_ok p' -> is_active p' = is_active p ->
  processes s' = upd (Z.to_nat pid) p' (processes s) ->
  Permutation (free_frames s' ++ held (page_table p'))
              (free_frames s ++ held (page_table p)) ->
  swap_queue s' = swap_queue s ->
  Inv s'.
Proof.
  intros HI Hg Hok Ha Hp Hperm Hq.
  apply (Inv_put s s' pid p p'); auto; rewrite ?Hq.
  - apply (inv_queue_wf s HI).
  - apply (inv_queue_nodup s HI).
  - intros x. pose proof (inv_queue_mem s HI x) as Hx. split.
    + intros Hin. destruct (Z.eq_dec x pid) as [->|Hne]; [|right; auto].
      left. split; [reflexivity|]. apply Hx in Hin.
      destruct Hin as (q & Hgq & Haq). congruence.
    + intros [[-> Hi]|[_ Hin]]; [|assumption].
      apply Hx. exists p. split; [assumption | congruence].
Qed.

(** Swap-out of a runnable process keeps the invariant. *)
Lemma swap_out_inv (s s' : State) (pid : Z) (p : Process) :
  Inv s -> get_process s pid = Ok p -> is_active p = true -> finished p = false ->
  swap_out_process s pid = Ok s' -> Inv s'.
Proof.
  intros HI Hg Ha Hfin Hrun.
  destruct (swap_out_active s pid p Hg Ha)
    as (s1 & Hrun1 & Hp & Hf & Hq & _).
  rewrite Hrun in Hrun1. injection Hrun1 as <-.
  pose proof (inv_process_ok s pid p HI Hg) as Hok.
  destruct (enqueue_spec (swap_queue s) pid (inv_queue_wf s HI)
              (queue_room s pid p HI Hg Ha)) as [Hwf Hl].
  assert (Hnotin : ~ In pid (queue_list (swap_queue s))).
  { intros Hin. apply (inv_queue_mem s HI) in Hin.
    destruct Hin as (q & Hgq & Haq). congruence. }
  match type of Hp with _ = upd _ ?x _ => set (p' := x) in * end.
  apply (Inv_put s s' pid p p'); auto.
  - destruct Hok. subst p'. constructor; unfold finished in *; proc_simpl;
      [ rewrite length_map; assumption | assumption | assumption | assumption
      | rewrite held_cleared; reflexivity | intros _; apply held_cleared
      | intros Hc; congruence | discriminate ].
  - rewrite Hf. subst p'. proc_simpl. rewrite held_cleared, app_nil_r.
    rewrite Permutation_app_comm. apply Permutation_app_head.
    symmetry. apply Permutation_rev.
  - rewrite Hq. assumption.
  - rewrite Hq, Hl. apply NoDup_app; [apply (inv_queue_nodup s HI) | repeat constructor; auto |].
    intros x Hx [<-|[]]. auto.
  - intros x. rewrite Hq, Hl, in_app_iff. cbn. split.
    + intros [Hin|[<-|[]]].
      * right. split; [|assumption]. intros ->. auto.
      * left. auto.
    + intros [[-> _]|[_ Hin]]; auto.
Qed.

Lemma quiet_refl (s : State) : quiet s s.
Proof. unfold quiet. repeat split; auto; lia. Qed.

Lemma quiet_trans (s1 s2 s3 : State) : quiet s1 s2 -> quiet s2 s3 -> quiet s1 s3.
Proof.
  unfold quiet. intros (A1 & A2 & A3 & A4 & A5 & A6 & A7 & A8)
                       (B1 & B2 & B3 & B4 & B5 & B6 & B7 & B8).
  repeat split; try congruence; lia.
Qed.

Lemma runnable_intro (s : State) (pid : Z) (p : Process) :
  get_process s pid = Ok p -> is_active p = true -> finished p = false -> runnable s pid.
Proof. intros. exists p. auto. Qed.

(** A page fault served from the free stack. *)
Lemma page_fault_granted (s : State) (pid pg : Z) (p : Process) (e f : Z) (free : list Z) :
  Inv s -> get_process s pid = Ok p -> is_active p = true -> finished p = false ->
  zget (page_table p) pg = Ok e -> is_valid e = false ->
  free_frames s = f :: free ->
  exists s',
    handle_page_fault s pid pg = Ok (s', true) /\
    Inv s' /\ quiet s s' /\ runnable s' pid /\
    page_accesses s' = page_accesses s /\ page_faults s' = page_faults s /\
    num_free_frames s' = num_free_frames s - 1.
Proof.
  intros HI Hg Ha Hfin He Hv Hfree.
  pose proof (inv_process_ok s pid p HI Hg) as Hok.
  pose proof (inv_free_range s HI) as Hrange. rewrite Hfree in Hrange.
  inversion Hrange as [|? ? Hf _]; subst.
  pose proof (zget_in_range _ _ _ He) as Hin.
  apply zget_ok in He. destruct He as [Hpg Hne].
  pose proof Hg as Hn. apply get_process_nth in Hn. destruct Hn as [H0 Hn].
  unfold handle_page_fault. rewrite Hg. cbn [bind]. rewrite Hfree, Hin.
  eexists. split; [reflexivity|].
  set (p' := set_frames_allocated _ _).
  set (s' := put_process _ _ _).
  assert (Hperm : Permutation (held (page_table p')) (f :: held (page_table p))).
  { subst p'. proc_simpl.
    rewrite (held_upd_invalid _ _ e (mk_entry f) Hne Hv (is_valid_mk_entry f Hf)).
    rewrite frame_of_mk_entry by assumption. reflexivity. }
  assert (Hok' : process_ok p').
  { destruct Hok as [K1 K2 K3 K4 K5 K6 K7 K8].
    subst p'. constructor; unfold finished in *; proc_simpl; auto.
    - rewrite upd_length. assumption.
    - apply Permutation_length in Hperm. proc_simpl. rewrite Hperm. simpl length. lia.
    - congruence.
    - congruence.
    - intros _ _ i Hi. apply resident_upd; [apply is_valid_mk_entry; assumption|].
      apply K8; auto. }
  split; [|split; [|split]].
  - apply (Inv_put_same_queue s s' pid p p'); auto.
    subst s'. state_simpl. rewrite Hfree. rewrite Hperm.
    symmetry. apply Permutation_middle.
  - unfold quiet, num_free_frames. subst s'. state_simpl.
    rewrite !(map_upd_same _ _ p' p _ Hn) by reflexivity.
    rewrite Hfree. cbn [length].
    repeat split; auto. lia.
  - exists p'. split; [apply (get_put_same _ pid p p'); assumption|]. auto.
  - subst s'. unfold num_free_frames. state_simpl. rewrite Hfree. cbn [length].
    repeat split; auto. lia.
Qed.

(** A page fault with an empty free stack suspends the process. *)
Lemma page_fault_refused (s : State) (pid pg : Z) (p : Process) :
  Inv s -> get_process s pid = Ok p -> is_active p = true -> finished p = false ->
  free_frames s = [] ->
  exists s',
    handle_page_fault s pid pg = Ok (s', false) /\
    swap_out_process s pid = Ok s' /\
    Inv s' /\ suspends s s' pid /\
    page_accesses s' = page_accesses s /\ page_faults s' = page_faults s.
Proof.
  intros HI Hg Ha Hfin Hfree.
  destruct (swap_out_active s pid p Hg Ha)
    as (s' & Hrun & Hp & Hf & Hq & Hsw & Hpa & Hpf & _).
  exists s'. unfold handle_page_fault. rewrite Hg. cbn [bind]. rewrite Hfree, Hrun.
  split; [reflexivity|]. split; [reflexivity|].
  split; [eapply swap_out_inv; eauto|].
  split; [|auto].
  pose proof Hg as Hn. apply get_process_nth in Hn. destruct Hn as [H0 Hn].
  pose proof (inv_process_ok s pid p HI Hg) as Hok.
  match type of Hp with _ = upd _ ?x _ => set (p' := x) in * end.
  unfold suspends. rewrite Hp.
  rewrite !(map_upd_same _ _ p' p _ Hn) by reflexivity.
  rewrite (count_active_upd _ _ p p' Hn), Ha. subst p'. proc_simpl.
  split; [reflexivity|]. split; [reflexivity|].
  split.
  { eexists. split.
    - unfold get_process. rewrite Hp. apply zget_ok. split; [assumption|].
      apply nth_error_upd_same. apply nth_error_Some. congruence.
    - reflexivity. }
  split; [lia|]. split.
  { unfold num_free_frames. rewrite Hf, Hfree, app_nil_r, length_rev.
    pose proof (held_length_le (page_table p)) as Hle.
    rewrite (ok_table_size p Hok) in Hle. unfold PAGE_TABLE_SIZE in *. lia. }
  split; [|assumption].
  rewrite Hq. apply enqueue_spec; [apply (inv_queue_wf s HI)|].
  eapply queue_room; eauto.
Qed.

Lemma count_active_map (ps ps' : list Process) :
  map is_active ps' = map is_active ps -> count_active ps' = count_active ps.
Proof.
  revert ps'. induction ps as [|p t IH]; intros [|p' t'] H; simpl in *;
    try discriminate; [reflexivity|].
  injection H as Hh Ht. rewrite Hh, (IH _ Ht). reflexivity.
Qed.

Lemma quiet_suspends (s s1 s' : State) (pid : Z) :
  quiet s s1 -> suspends s1 s' pid -> suspends s s' pid.
Proof.
  unfold quiet, suspends.
  intros (A1 & A2 & A3 & A4 & A5 & A6 & A7 & A8) (B1 & B2 & B3 & B4 & B5 & B6 & B7).
  rewrite <- (count_active_map _ _ A3), <- A4, <- A6.
  repeat split; auto; congruence.
Qed.

(** The three ways one page reference can end. *)
Lemma reference_page_cases (s : State) (pid pg : Z) :
  Inv s -> runnable s pid ->
  (reference_page s pid pg = Undefined /\ ~ (0 <= pg < PAGE_TABLE_SIZE)) \/
  (exists s', reference_page s pid pg = Ok (s', true) /\
              Inv s' /\ quiet s s' /\ runnable s' pid /\
              page_accesses s' = page_accesses s + 1 /\
              page_faults s <= page_faults s' <= page_faults s + 1) \/
  (exists s', reference_page s pid pg = Ok (s', false) /\
              Inv s' /\ suspends s s' pid /\ free_frames s = [] /\
              page_accesses s' = page_accesses s + 1 /\
              page_faults s' = page_faults s + 1).
Proof.
  intros HI (p & Hg & Ha & Hfin).
  pose proof (inv_process_ok s pid p HI Hg) as Hok.
  unfold reference_page.
  set (s1 := set_page_accesses s (page_accesses s + 1)).
  assert (Hg1 : get_process s1 pid = Ok p) by exact Hg.
  assert (HI1 : Inv s1) by (apply (Inv_ext s s1); auto).
  rewrite Hg1. cbn [bind].
  destruct (zget (page_table p) pg) as [e| |] eqn:He.
  - cbn [bind]. destruct (is_valid e) eqn:Hv.
    + right. left. exists s1. split; [reflexivity|].
      split; [assumption|]. split.
      { unfold quiet, num_free_frames. subst s1. state_simpl. repeat split; auto; lia. }
      split; [exists p; auto|]. subst s1. state_simpl. lia.
    + set (s2 := set_page_faults s1 (page_faults s1 + 1)).
      assert (Hg2 : get_process s2 pid = Ok p) by exact Hg.
      assert (HI2 : Inv s2) by (apply (Inv_ext s1 s2); auto).
      destruct (free_frames s) as [|f free] eqn:Hfree.
      * right. right.
        destruct (page_fault_refused s2 pid pg p HI2 Hg2 Ha Hfin Hfree)
          as (s' & Hrun & _ & HI' & Hsus & Hpa & Hpf).
        exists s'. split; [assumption|]. split; [assumption|].
        split; [exact Hsus|]. split; [reflexivity|].
        rewrite Hpa, Hpf. subst s2 s1. state_simpl. lia.
      * right. left.
        destruct (page_fault_granted s2 pid pg p e f free HI2 Hg2 Ha Hfin He Hv Hfree)
          as (s' & Hrun & HI' & Hq & Hr & Hpa & Hpf & _).
        exists s'. split; [assumption|]. split; [assumption|].
        split; [exact Hq|]. split; [assumption|].
        rewrite Hpa, Hpf. subst s2 s1. state_simpl. lia.
  - left. split; [reflexivity|]. intros Hr.
    destruct (in_range_zget (page_table p) pg) as [e He'].
    { unfold in_range. rewrite (ok_table_size p Hok).
      apply andb_true_intro. unfold PAGE_TABLE_SIZE in *.
      split; [apply Z.leb_le | apply Z.ltb_lt]; lia. }
    congruence.
  - exfalso. unfold zget in He. destruct (pg <? 0); [discriminate|].
    destruct (nth_error (page_table p) (Z.to_nat pg)); discriminate.
Qed.

Lemma replay_cases (pid : Z) (pages : list Z) :
  forall s : State,
  Inv s -> runnable s pid ->
  (replay s pid pages = Undefined /\
   ~ Forall (fun pg => 0 <= pg < PAGE_TABLE_SIZE) pages) \/
  (exists s', replay s pid pages = Ok (s', true) /\
              Inv s' /\ quiet s s' /\ runnable s' pid /\
              page_accesses s' = page_accesses s + Z.of_nat (length pages) /\
              page_faults s <= page_faults s') \/
  (exists s', replay s pid pages = Ok (s', false) /\
              Inv s' /\ suspends s s' pid /\
              page_accesses s < page_accesses s' <= page_accesses s + Z.of_nat (length pages) /\
              page_faults s < page_faults s').
Proof.
  induction pages as [|pg rest IH]; intros s HI Hr.
  - right. left. exists s. split; [reflexivity|]. split; [assumption|].
    split; [apply quiet_refl|]. split; [assumption|]. simpl. lia.
  - cbn [replay].
    destruct (reference_page_cases s pid pg HI Hr)
      as [[Hu Hbad]|[(s1 & Hrun & HI1 & Hq & Hr1 & Hpa & Hpf)|(s1 & Hrun & HI1 & Hs & Hfree & Hpa & Hpf)]].
    + left. rewrite Hu. split; [reflexivity|]. intros HF. inversion HF; subst. auto.
    + rewrite Hrun. cbn [bind snd fst].
      destruct (IH s1 HI1 Hr1)
        as [[Hu Hbad]|[(s2 & Hrun2 & HI2 & Hq2 & Hr2 & Hpa2 & Hpf2)|(s2 & Hrun2 & HI2 & Hs2 & Hpa2 & Hpf2)]].
      * left. split; [assumption|]. intros HF. inversion HF; subst. auto.
      * right. left. exists s2. split; [assumption|]. split; [assumption|].
        split; [eapply quiet_trans; eauto|]. split; [assumption|].
        cbn [length]. lia.
      * right. right. exists s2. split; [assumption|]. split; [assumption|].
        split; [eapply quiet_suspends; eauto|]. cbn [length]. lia.
    + right. right. rewrite Hrun. cbn [bind snd fst]. exists s1.
      split; [reflexivity|]. split; [assumption|]. split; [assumption|].
      cbn [length]. lia.
Qed.

End CircularOperations.

(** ** Resuming suspended processes and finishing a search *)

Section CircularResume.
Import Circular.

(** What swap-in does to an inactive process. *)
Lemma swap_in_inactive (s : State) (pid : Z) (p : Process) :
  get_process s pid = Ok p -> is_active p = false ->
  exists s' pt fa free,
    alloc_essential (Z.to_nat ESSENTIAL_PAGES) 0 (page_table p)
                    (frames_allocated p) (free_frames s) = (pt, fa, free) /\
    swap_in_process s pid = Ok s' /\
    processes s' =
      upd (Z.to_nat pid)
          (set_is_active (set_frames_allocated (set_page_table p pt) fa) true)
          (processes s) /\
    free_frames s' = free /\
    swap_queue s' = swap_queue s /\
    num_swaps s' = num_swaps s + 1 /\
    page_accesses s' = page_accesses s /\
    page_faults s' = page_faults s /\
    min_active_processes s' = min_active_processes s /\
    output s' = output s ++ [SwapInMsg pid (min_active_processes s)].
Proof.
  intros Hg Ha. unfold swap_in_process. rewrite Hg. cbn [bind]. rewrite Ha.
  destruct (alloc_essential _ _ _ _ _) as [[pt fa] free] eqn:E.
  eexists. exists pt, fa, free. split; [reflexivity|]. split; [reflexivity|].
  state_simpl. repeat split; reflexivity.
Qed.

Lemma swap_in_active (s : State) (pid : Z) (p : Process) :
  get_process s pid = Ok p -> is_active p = true -> swap_in_process s pid = Ok s.
Proof.
  intros Hg Ha. unfold swap_in_process. rewrite Hg. cbn [bind]. rewrite Ha. reflexivity.
Qed.

(** One round of the drain loop: the oldest suspended process leaves the
    queue and gets its essential pages. *)
Lemma resume_step (s : State) (x : Z) (l : list Z) :
  Inv s -> queue_list (swap_queue s) = x :: l ->
  ESSENTIAL_PAGES <= num_free_frames s ->
  exists q' p s',
    dequeue (swap_queue s) = (x, q') /\ x <> -1 /\
    get_process (set_swap_queue s q') x = Ok p /\ is_active p = false /\
    swap_in_process (set_swap_queue s q') x = Ok s' /\
    Inv s' /\ resumes s s' [x] /\ queue_list (swap_queue s') = l.
Proof.
  intros HI Hq Hfree.
  destruct (dequeue_spec (swap_queue s) x l (inv_queue_wf s HI) Hq)
    as (q' & Hdq & Hwf' & Hl').
  assert (Hsusp : suspended s x).
  { apply (inv_queue_mem s HI). rewrite Hq. left. reflexivity. }
  destruct Hsusp as (p & Hg & Ha).
  pose proof Hg as Hn. apply get_process_nth in Hn. destruct Hn as [H0 Hn].
  pose proof (inv_process_ok s x p HI Hg) as Hok.
  set (s1 := set_swap_queue s q').
  assert (Hg1 : get_process s1 x = Ok p) by exact Hg.
  destruct (swap_in_inactive s1 x p Hg1 Ha)
    as (s' & pt & fa & free & Halloc & Hrun & Hp & Hf & Hsq & Hsw & Hpa & Hpf & Hmin & Hout).
  subst s1. state_simpl.
  assert (Hheld : held (page_table p) = []) by (apply (ok_inactive p Hok); assumption).
  assert (Hfin : finished p = false).
  { destruct (finished p) eqn:E; [|reflexivity].
    destruct (ok_finished p Hok E) as [_ Hc]. congruence. }
  apply alloc_essential_spec in Halloc; [| |apply inv_free_range; assumption].
  2:{ intros j Hj. destruct (nth_error (page_table p) j) as [e|] eqn:E.
      - exists e. split; [reflexivity|]. eapply held_nil_invalid; eauto.
      - apply nth_error_None in E. rewrite (ok_table_size p Hok) in E.
        unfold ESSENTIAL_PAGES, PAGE_TABLE_SIZE in *. lia. }
  destruct Halloc as (taken & Hsplit & Hlen & Hfa & Hperm & Hptlen & Hres & _).
  assert (Hten : length taken = Z.to_nat ESSENTIAL_PAGES).
  { rewrite Hlen. unfold num_free_frames in Hfree. apply Nat.min_l. lia. }
  rewrite Hheld, app_nil_r in Hperm.
  match type of Hp with _ = upd _ ?y _ => set (p' := y) in * end.
  assert (Hok' : process_ok p').
  { destruct Hok as [K1 K2 K3 K4 K5 K6 K7 K8].
    subst p'. constructor; unfold finished in *; proc_simpl; auto.
    - congruence.
    - apply Permutation_length in Hperm. rewrite Hperm, Hfa, K5, Hheld. simpl length. lia.
    - discriminate.
    - congruence.
    - intros _ _ i Hi. apply Hres. lia. }
  assert (Hnd : NoDup (x :: l)) by (rewrite <- Hq; apply (inv_queue_nodup s HI)).
  apply NoDup_cons_iff in Hnd. destruct Hnd as [Hnotin Hndl].
  assert (HI' : Inv s').
  { apply (Inv_put s s' x p p'); auto.
    - rewrite Hf. subst p'. proc_simpl. rewrite Hperm, Hsplit.
      rewrite Permutation_app_comm. rewrite Hheld, app_nil_r. reflexivity.
    - rewrite Hsq. assumption.
    - rewrite Hsq, Hl'. assumption.
    - intros y. rewrite Hsq, Hl', Hq. subst p'. proc_simpl. split.
      + intros Hin. right. split; [intros ->; contradiction | right; assumption].
      + intros [[_ Hc]|[Hne [Hc|Hin]]]; [discriminate | congruence | assumption]. }
  exists q', p, s'. split; [assumption|]. split; [lia|].
  split; [assumption|]. split; [assumption|]. split; [assumption|].
  split; [assumption|]. split; [|rewrite Hsq; assumption].
  unfold resumes. rewrite Hsq, Hl', Hq, Hp, Hout.
  rewrite !(map_upd_same _ _ p' p _ Hn) by reflexivity.
  rewrite (count_active_upd _ _ p p' Hn), Ha. subst p'. proc_simpl.
  unfold num_free_frames. rewrite Hf, Hsplit, length_app, Hten.
  cbn [length map app]. unfold ESSENTIAL_PAGES.
  repeat split; auto; lia.
Qed.

Lemma resumes_nil (s : State) : resumes s s [].
Proof. unfold resumes. cbn [length map app]. rewrite app_nil_r. repeat split; auto; lia. Qed.

Lemma resumes_cons (s s1 s' : State) (x : Z) (l : list Z) :
  resumes s s1 [x] -> resumes s1 s' l -> resumes s s' (x :: l).
Proof.
  unfold resumes. cbn [length map app].
  intros (A1 & A2 & A3 & A4 & A5 & A6 & A7 & A8 & A9 & A10)
         (B1 & B2 & B3 & B4 & B5 & B6 & B7 & B8 & B9 & B10).
  rewrite A1, B1, B3, A3, B10, A10, <- app_assoc. cbn [app].
  unfold ESSENTIAL_PAGES in *.
  repeat split; auto; try congruence; lia.
Qed.

(** The drain loop resumes a prefix of the queue, oldest first, and stops
    when the queue is empty or fewer than [ESSENTIAL_PAGES] frames are
    free. *)
Lemma drain_spec (fuel : nat) :
  forall s : State,
  Inv s -> (length (queue_list (swap_queue s)) < fuel)%nat ->
  exists s' resumed,
    drain fuel s = Ok s' /\ Inv s' /\ resumes s s' resumed /\
    (queue_list (swap_queue s') = [] \/ num_free_frames s' < ESSENTIAL_PAGES).
Proof.
  induction fuel as [|fuel IH]; intros s HI Hlen; [lia|].
  cbn [drain].
  destruct (queue_list (swap_queue s)) as [|x l] eqn:Hq.
  - apply queue_list_empty in Hq. rewrite Hq. cbn [negb andb].
    exists s, []. split; [reflexivity|]. split; [assumption|].
    split; [apply resumes_nil|]. left. apply queue_list_empty. assumption.
  - assert (Hne : queueIsEmpty (swap_queue s) = false).
    { destruct (queueIsEmpty (swap_queue s)) eqn:E; [|reflexivity].
      apply queue_list_empty in E. congruence. }
    rewrite Hne. cbn [negb andb].
    destruct (Z.leb_spec ESSENTIAL_PAGES (num_free_frames s)) as [Hfree|Hfree].
    + destruct (resume_step s x l HI Hq Hfree)
        as (q' & p & s1 & Hdq & Hx & Hg & Ha & Hrun & HI1 & Hres & Hl1).
      rewrite Hdq. destruct (Z.eqb_spec x (-1)) as [|_]; [contradiction|].
      rewrite Hg. cbn [bind]. rewrite Ha, Hrun. cbn [bind].
      destruct (IH s1 HI1) as (s' & resumed & Hrun' & HI' & Hres' & Hstop).
      { rewrite Hl1. cbn [length] in Hlen. lia. }
      exists s', (x :: resumed). split; [assumption|]. split; [assumption|].
      split; [eapply resumes_cons; eauto | assumption].
    + exists s, []. split; [reflexivity|]. split; [assumption|].
      split; [apply resumes_nil|]. right. assumption.
Qed.

(** With nothing queued, or fewer than [ESSENTIAL_PAGES] free frames, the
    drain loop changes nothing. *)
Lemma drain_idle (fuel : nat) (s : State) :
  queueIsEmpty (swap_queue s) = true \/ num_free_frames s < ESSENTIAL_PAGES ->
  drain (S fuel) s = Ok s.
Proof.
  intros H. cbn [drain].
  destruct H as [H|H].
  - rewrite H. reflexivity.
  - destruct (Z.leb_spec ESSENTIAL_PAGES (num_free_frames s)); [lia|].
    rewrite andb_false_r. reflexivity.
Qed.

Lemma pending_searches_map (ps ps' : list Process) :
  map static_part ps' = map static_part ps ->
  map current_search ps' = map current_search ps ->
  pending_searches ps' = pending_searches ps.
Proof.
  revert ps'. induction ps as [|p t IH]; intros [|p' t'] H1 H2;
    cbn [map pending_searches] in *; try discriminate; [reflexivity|].
  apply (f_equal (@tl _)) in H1 as Ht1. apply (f_equal (@tl _)) in H2 as Ht2.
  apply (f_equal (fun l => hd (0, [], 0) l)) in H1.
  apply (f_equal (fun l => hd 0 l)) in H2.
  cbn [hd tl] in *. apply (f_equal snd) in H1. unfold static_part in H1. cbn [snd] in H1.
  rewrite H1, H2, (IH _ Ht1 Ht2). reflexivity.
Qed.

Lemma num_processes_map (s s' : State) :
  map static_part (processes s') = map static_part (processes s) ->
  num_processes s' = num_processes s.
Proof.
  intros H. apply (f_equal (@length _)) in H. rewrite !length_map in H.
  unfold num_processes. congruence.
Qed.

(** The end of a search (lines 557-576): the cursor advances; after the
    last search the frames are released and the queue is drained. *)
Lemma complete_search_spec (s : State) (pid : Z) :
  Inv s -> runnable s pid ->
  exists s',
    complete_search s pid = Ok s' /\ Inv s' /\
    map static_part (processes s') = map static_part (processes s) /\
    pending_searches (processes s') = pending_searches (processes s) - 1 /\
    (Pressure s -> Pressure s') /\
    page_accesses s' = page_accesses s /\ page_faults s' = page_faults s /\
    num_swaps s <= num_swaps s'.
Proof.
  intros HI (p & Hg & Ha & Hfin).
  pose proof Hg as Hn. apply get_process_nth in Hn. destruct Hn as [H0 Hn].
  pose proof (inv_process_ok s pid p HI Hg) as Hok.
  unfold complete_search. rewrite Hg. cbn [bind].
  set (p1 := set_current_search p (current_search p + 1)).
  assert (Hcur : current_search p < num_searches p).
  { unfold finished in Hfin. apply Z.leb_gt in Hfin. assumption. }
  destruct (finished p1) eqn:Hfin1.
  - rewrite release_frames_spec.
    set (p2 := set_frames_allocated _ 0).
    set (s1 := put_process _ pid p2).
    assert (Hok2 : process_ok p2).
    { destruct Hok as [K1 K2 K3 K4 K5 K6 K7 K8].
      subst p2 p1. constructor; proc_simpl;
        [ rewrite length_map; assumption | assumption | assumption | lia
        | rewrite held_cleared; reflexivity | intros _; apply held_cleared
        | intros _; split; [apply held_cleared | assumption]
        | intros _ Hc; unfold finished in *; proc_simpl; congruence ]. }
    assert (HI1 : Inv s1).
    { apply (Inv_put_same_queue s s1 pid p p2); auto.
      subst s1 p2 p1. state_simpl. proc_simpl. rewrite held_cleared, app_nil_r.
      rewrite Permutation_app_comm. apply Permutation_app_head.
      symmetry. apply Permutation_rev. }
    destruct (drain_spec drain_fuel s1 HI1) as (s' & resumed & Hrun & HI' & Hres & Hstop).
    { rewrite queue_list_length. pose proof (queue_size_range (swap_queue s1)).
      unfold drain_fuel, MAX_PROCESSES in *. lia. }
    destruct Hres as (R1 & R2 & R3 & R4 & R5 & R6 & R7 & R8 & R9 & R10).
    exists s'. split; [assumption|]. split; [assumption|].
    assert (Hst1 : map static_part (processes s1) = map static_part (processes s)).
    { subst s1. state_simpl. apply (map_upd_same _ _ p2 p _ Hn). reflexivity. }
    split; [congruence|]. split.
    { rewrite (pending_searches_map _ _ R6 R7). subst s1. state_simpl.
      rewrite (pending_searches_upd _ _ p p2 Hn). subst p2 p1. proc_simpl. lia. }
    split.
    { intros _. unfold Pressure. destruct Hstop as [Hs|Hs]; [left; assumption|].
      right. unfold ESSENTIAL_PAGES, USER_FRAMES in *. lia. }
    rewrite R8, R9, R4. subst s1. state_simpl. repeat split; lia.
  - set (s' := put_process s pid p1).
    assert (Hok1 : process_ok p1).
    { destruct Hok as [K1 K2 K3 K4 K5 K6 K7 K8].
      subst p1. constructor; proc_simpl;
        [ assumption | assumption | assumption | lia | assumption | assumption
        | intros Hc; congruence | intros _ _; apply K8; assumption ]. }
    exists s'. split; [reflexivity|]. split.
    { apply (Inv_put_same_queue s s' pid p p1); auto. }
    subst s'. state_simpl. split; [apply (map_upd_same _ _ p1 p _ Hn); reflexivity|].
    split.
    { rewrite (pending_searches_upd _ _ p p1 Hn). subst p1. proc_simpl. lia. }
    split; [intros HP; exact HP|]. repeat split; lia.
Qed.

(** A scheduling turn of a runnable process either leaves the page table
    (only when the array is too large) or ends in a state that keeps the
    invariant and is strictly smaller in the termination measure. *)
Lemma step_runnable (s : State) (pid : Z) (p : Process) :
  Inv s -> Pressure s ->
  get_process s pid = Ok p -> is_active p = true -> finished p = false ->
  (simulate_binary_search s pid = Undefined /\ MAX_ARRAY_SIZE < array_size p) \/
  (exists s',
     simulate_binary_search s pid = Ok s' /\ Inv s' /\ Pressure s' /\
     map static_part (processes s') = map static_part (processes s) /\
     measure s' < measure s /\
     page_accesses s <= page_accesses s' /\ page_faults s <= page_faults s' /\
     num_swaps s <= num_swaps s').
Proof.
  intros HI HP Hg Ha Hfin.
  pose proof (inv_process_ok s pid p HI Hg) as Hok.
  assert (Hrun : runnable s pid) by (exists p; auto).
  unfold simulate_binary_search. rewrite Hg. cbn [bind]. rewrite Ha, Hfin. cbn [negb orb].
  assert (Hcur : 0 <= current_search p < num_searches p).
  { pose proof (ok_cursor p Hok). unfold finished in Hfin. apply Z.leb_gt in Hfin. lia. }
  destruct (in_range_zget (search_indices p) (current_search p)) as [key Hkey].
  { unfold in_range. rewrite (ok_keys_size p Hok).
    pose proof (ok_searches p Hok). unfold MAX_SEARCHES in *.
    apply andb_true_intro. split; [apply Z.leb_le | apply Z.ltb_lt]; lia. }
  rewrite Hkey. cbn [bind].
  destruct (search_fuel_enough 0 (array_size p - 1)) as (f & -> & Hf).
  rewrite search_loop_replay by (assumption || lia).
  set (pages := search_pages (S f) key 0 (array_size p - 1)).
  assert (Hnp : forall s' : State,
                 map static_part (processes s') = map static_part (processes s) ->
                           num_processes s' = num_processes s).
  { intros s'. apply num_processes_map. }
  destruct (replay_cases pid pages s HI Hrun)
    as [[Hu Hbad]|[(s1 & Hr & HI1 & Hq & Hr1 & Hpa & Hpf)|(s1 & Hr & HI1 & Hs & Hpa & Hpf)]].
  - left. rewrite Hu. split; [reflexivity|].
    destruct (Z.lt_ge_cases MAX_ARRAY_SIZE (array_size p)) as [|Hle]; [assumption|].
    exfalso. apply Hbad. subst pages.
    eapply Forall_impl; [|apply search_pages_range; lia].
    cbv beta. unfold ESSENTIAL_PAGES. lia.
  - right. rewrite Hr. cbn [bind fst snd].
    destruct Hq as (Q1 & Q2 & Q3 & Q4 & Q5 & Q6 & Q7 & Q8).
    destruct (complete_search_spec s1 pid HI1 Hr1)
      as (s' & Hc & HI' & Hst & Hpend & HP' & Hpa' & Hpf' & Hsw').
    exists s'. split; [assumption|]. split; [assumption|].
    split.
    { apply HP'. unfold Pressure in *. rewrite Q4. destruct HP; [left; assumption|right; lia]. }
    split; [congruence|]. split.
    { unfold measure. rewrite (Hnp s') by congruence. rewrite Hpend.
      rewrite (pending_searches_map _ _ Q1 Q2).
      pose proof (count_active_bounds (processes s')) as B1.
      pose proof (count_active_bounds (processes s)) as B2.
      assert (Hlen : num_processes s' = num_processes s) by (apply Hnp; congruence).
      unfold num_processes in *. nia. }
    lia.
  - right. rewrite Hr. cbn [bind fst snd].
    destruct Hs as (S1 & S2 & S3 & S4 & S5 & S6 & S7).
    exists s1. split; [reflexivity|]. split; [assumption|].
    split; [right; unfold PAGE_TABLE_SIZE, USER_FRAMES in *; lia|].
    split; [assumption|]. split.
    { unfold measure. rewrite (Hnp s1 S1), (pending_searches_map _ _ S1 S2), S4. lia. }
    lia.
Qed.

(** A turn of a process that is suspended or has finished does nothing. *)
Lemma step_idle (s : State) (pid : Z) (p : Process) :
  get_process s pid = Ok p -> is_active p = false \/ finished p = true ->
  simulate_binary_search s pid = Ok s.
Proof.
  intros Hg H. unfold simulate_binary_search. rewrite Hg. cbn [bind].
  destruct H as [-> | ->]; [reflexivity|]. rewrite orb_true_r. reflexivity.
Qed.

End CircularResume.

(** ** Initialization *)

Lemma read_ints_length (n : nat) :
  forall (input xs rest : list Z),
  read_ints n input = Some (xs, rest) -> length xs = n.
Proof.
  induction n as [|n IH]; intros input xs rest H; simpl in H.
  - injection H as <- _. reflexivity.
  - destruct input as [|x input']; [discriminate|].
    destruct (read_ints n input') as [[xs' rest']|] eqn:E; [|discriminate].
    injection H as <- _. simpl. f_equal. eapply IH; eauto.
Qed.

Lemma padded_keys_length (keys : list Z) (searches : Z) :
  length keys = Z.to_nat searches -> 0 < searches <= MAX_SEARCHES ->
  length (keys ++ repeat 0 (Z.to_nat (MAX_SEARCHES - searches))) = Z.to_nat MAX_SEARCHES.
Proof.
  intros Hk Hs. rewrite length_app, repeat_length, Hk.
  rewrite <- Z2Nat.inj_add by lia. f_equal. lia.
Qed.

Lemma init_processes_spec (searches : Z) (n : nat) :
  forall (input free : list Z) (ps : list Process) (free' : list Z),
  0 < searches <= MAX_SEARCHES ->
  Forall (fun f => 0 <= f < VALID_BIT_MASK) free ->
  (Z.to_nat ESSENTIAL_PAGES * n <= length free)%nat ->
  init_processes n searches input free = Some (ps, free') ->
  Forall process_ok ps /\
  Forall (fun p => is_active p = true) ps /\
  Permutation (free' ++ all_held ps) free /\
  length ps = n.
Proof.
  induction n as [|n IH]; intros input free ps free' Hs Hrange Hlen H.
  - simpl in H. injection H as <- <-. rewrite app_nil_r. auto.
  - destruct input as [|asz input1]; [discriminate|].
    change (init_processes (S n) searches (asz :: input1) free) with
      (match read_ints (Z.to_nat searches) input1 with
       | None => None
       | Some (keys, input2) =>
           let '(pt, fa, free1) :=
             alloc_essential (Z.to_nat ESSENTIAL_PAGES) 0
               (repeat 0 (Z.to_nat PAGE_TABLE_SIZE)) 0 free in
           let p := mkProcess pt asz
                      (keys ++ repeat 0 (Z.to_nat (MAX_SEARCHES - searches)))
                      searches 0 fa true in
           match init_processes n searches input2 free1 with
           | None => None
           | Some (ps, free2) => Some (p :: ps, free2)
           end
       end) in H.
    destruct (read_ints (Z.to_nat searches) input1) as [[keys input2]|] eqn:Hread;
      [|discriminate].
    destruct (alloc_essential _ _ _ _ _) as [[pt fa] free1] eqn:Halloc.
    destruct (init_processes n searches input2 free1) as [[ps1 free2]|] eqn:Hrest;
      [|discriminate].
    injection H as <- <-.
    apply alloc_essential_spec in Halloc; [| |assumption].
    2:{ intros j Hj. exists 0. split; [|reflexivity].
        apply nth_error_repeat. change (Z.to_nat ESSENTIAL_PAGES) with 10%nat in *.
        unfold PAGE_TABLE_SIZE. lia. }
    destruct Halloc as (taken & Hsplit & Hlt & Hfa & Hperm & Hptlen & Hres & _).
    rewrite held_repeat_zero, app_nil_r in Hperm.
    change (Z.to_nat ESSENTIAL_PAGES) with 10%nat in *.
    assert (Hten : length taken = 10%nat).
    { rewrite Hlt. apply Nat.min_l. lia. }
    assert (Hrange1 : Forall (fun f => 0 <= f < VALID_BIT_MASK) free1).
    { rewrite Hsplit in Hrange. apply Forall_app in Hrange. tauto. }
    destruct (IH input2 free1 ps1 free2 Hs Hrange1) as (Hok & Hact & Hp & Hl);
      [|assumption|].
    { rewrite Hsplit, length_app in Hlen. lia. }
    split; [|split; [|split]].
    + constructor; [|assumption].
      constructor; unfold finished; proc_simpl.
      * rewrite Hptlen. apply repeat_length.
      * apply padded_keys_length; [eapply read_ints_length; eauto | assumption].
      * assumption.
      * lia.
      * apply Permutation_length in Hperm. rewrite Hperm, Hfa. lia.
      * discriminate.
      * intros Hc. apply Z.leb_le in Hc. lia.
      * intros _ _ i Hi. change (Z.to_nat ESSENTIAL_PAGES) with 10%nat in Hi.
        apply Hres. lia.
    + constructor; [reflexivity|assumption].
    + rewrite all_held_cons. proc_simpl. rewrite Hsplit, Hperm, <- Hp.
      rewrite !app_assoc. apply Permutation_app_tail. apply Permutation_app_comm.
    + simpl. f_equal. assumption.
Qed.

Lemma frames_below_rev (n : nat) :
  frames_below n (Z.of_nat n) = rev (map Z.of_nat (seq 0 n)).
Proof.
  induction n as [|n IH]; [reflexivity|].
  rewrite seq_S, map_app, rev_app_distr. cbn [frames_below map rev app Nat.add].
  replace (Z.of_nat (S n) - 1) with (Z.of_nat n) by lia.
  rewrite IH. reflexivity.
Qed.

Lemma initial_free_frames_perm : Permutation initial_free_frames frame_space.
Proof.
  unfold initial_free_frames, frame_space.
  replace USER_FRAMES with (Z.of_nat (Z.to_nat USER_FRAMES)) at 2 by reflexivity.
  rewrite frames_below_rev. symmetry. apply Permutation_rev.
Qed.

Section CircularRun.
Import Circular.

Lemma initialize_bounds (input : list Z) (s : State) :
  initialize_system input = Some s ->
  exists np ns rest,
    input = np :: ns :: rest /\
    0 < np <= MAX_PROCESSES /\ 0 < ns <= MAX_SEARCHES /\
    init_processes (Z.to_nat np) ns rest initial_free_frames
      = Some (processes s, free_frames s) /\
    swap_queue s = initQueue /\
    page_accesses s = 0 /\ page_faults s = 0 /\ num_swaps s = 0 /\
    min_active_processes s = np /\ output s = [].
Proof.
  unfold initialize_system, initialize_with. intros H.
  destruct input as [|np [|ns rest]]; try discriminate.
  destruct (_ || _) eqn:Hguard; [discriminate|].
  apply orb_false_elim in Hguard. destruct Hguard as [Hguard H4].
  apply orb_false_elim in Hguard. destruct Hguard as [Hguard H3].
  apply orb_false_elim in Hguard. destruct Hguard as [H1 H2].
  apply Z.leb_gt in H1, H3. apply Z.ltb_ge in H2, H4.
  destruct (init_processes _ _ _ _) as [[ps free]|] eqn:E; [|discriminate].
  injection H as <-. exists np, ns, rest. state_simpl.
  repeat split; auto; lia.
Qed.

(** Initialization establishes the invariant. *)
Lemma initialize_inv (input : list Z) (s : State) :
  initialize_system input = Some s ->
  Inv s /\ Pressure s /\ Forall (fun p => is_active p = true) (processes s).
Proof.
  intros H. destruct (initialize_bounds input s H)
    as (np & ns & rest & -> & Hnp & Hns & Hinit & Hq & _).
  assert (Hrange : Forall (fun f => 0 <= f < VALID_BIT_MASK) initial_free_frames).
  { apply Forall_forall. intros f Hf.
    apply (Permutation_in _ initial_free_frames_perm) in Hf.
    apply frame_space_range in Hf. unfold USER_FRAMES, VALID_BIT_MASK in *. lia. }
  apply init_processes_spec in Hinit; [|assumption|assumption|].
  2:{ rewrite (Permutation_length initial_free_frames_perm), frame_space_length.
      unfold ESSENTIAL_PAGES, USER_FRAMES, MAX_PROCESSES in *. lia. }
  destruct Hinit as (Hok & Hact & Hperm & Hlen).
  split; [|split; [|assumption]].
  - constructor.
    + assumption.
    + rewrite Hperm. apply initial_free_frames_perm.
    + unfold num_processes. rewrite Hlen. lia.
    + rewrite Hq. apply initQueue_wf.
    + rewrite Hq, initQueue_list. constructor.
    + intros pid. rewrite Hq, initQueue_list. split; [intros []|].
      intros (p & Hg & Ha). apply get_process_in in Hg.
      rewrite Forall_forall in Hact. rewrite (Hact p Hg) in Ha. discriminate.
  - left. rewrite Hq. apply initQueue_list.
Qed.

Lemma cursor_next (c P : Z) : 0 <= c -> 0 < P -> 0 <= Z.rem (c + 1) P < P.
Proof. intros Hc HP. apply Z.rem_bound_pos; lia. Qed.

(** Every state at the head of the scheduling loop satisfies the
    invariant. *)
Lemma reachable_inv (s : State) (c : Z) :
  reachable s c -> Inv s /\ Pressure s /\ 0 <= c < num_processes s.
Proof.
  induction 1 as [input s Hinit | s c s' Hreach IH Hdone Hstep].
  - destruct (initialize_inv input s Hinit) as (HI & HP & _).
    split; [assumption|]. split; [assumption|].
    pose proof (inv_count s HI). lia.
  - destruct IH as (HI & HP & Hc).
    destruct (get_process_defined s c Hc) as [p Hg].
    assert (Hres : Inv s' /\ Pressure s').
    { destruct (is_active p) eqn:Ha; [destruct (finished p) eqn:Hfin|].
      - rewrite (step_idle s c p Hg) in Hstep by auto.
        injection Hstep as <-. auto.
      - destruct (step_runnable s c p HI HP Hg Ha Hfin)
          as [[Hu _]|(s1 & Hr & HI1 & HP1 & _)]; [congruence|].
        rewrite Hr in Hstep. injection Hstep as <-. auto.
      - rewrite (step_idle s c p Hg) in Hstep by auto.
        injection Hstep as <-. auto. }
    destruct Hres as [HI' HP']. split; [assumption|]. split; [assumption|].
    apply cursor_next; [lia|]. pose proof (inv_count s' HI'). lia.
Qed.

(** ** Termination of the scheduling loop *)

Lemma forallb_false_witness {A : Type} (f : A -> bool) (l : list A) :
  forallb f l = false -> exists x, In x l /\ f x = false.
Proof.
  induction l as [|a l IH]; simpl; [discriminate|].
  destruct (f a) eqn:E; simpl.
  - intros H. destruct (IH H) as (x & Hin & Hx). exists x. auto.
  - intros _. exists a. auto.
Qed.

Lemma all_held_witness (ps : list Process) :
  all_held ps <> [] -> exists p, In p ps /\ held (page_table p) <> [].
Proof.
  induction ps as [|p t IH]; [intros H; contradiction|].
  rewrite all_held_cons. intros H.
  destruct (held (page_table p)) as [|f l] eqn:E.
  - destruct (IH H) as (q & Hin & Hq). exists q. split; [right|]; assumption.
  - exists p. split; [left; reflexivity|]. rewrite E. discriminate.
Qed.

(** While searches are pending some process can run. *)
Lemma some_runnable (s : State) :
  Inv s -> Pressure s -> all_done s = false -> exists pid, runnable s pid.
Proof.
  intros HI HP Hdone. destruct HP as [Hq|Hfree].
  - apply forallb_false_witness in Hdone. destruct Hdone as (p & Hin & Hfin).
    destruct (in_get_process s p Hin) as [pid Hg].
    exists pid, p. split; [assumption|]. split; [|assumption].
    destruct (is_active p) eqn:Ha; [reflexivity|].
    assert (Hs : suspended s pid) by (exists p; auto).
    apply (inv_queue_mem s HI) in Hs. rewrite Hq in Hs. contradiction.
  - assert (Hne : all_held (processes s) <> []).
    { intros Hnil. pose proof (inv_frames s HI) as Hperm.
      apply Permutation_length in Hperm.
      rewrite Hnil, app_nil_r, frame_space_length in Hperm.
      unfold num_free_frames, USER_FRAMES in *. lia. }
    apply all_held_witness in Hne. destruct Hne as (p & Hin & Hheld).
    destruct (in_get_process s p Hin) as [pid Hg].
    pose proof (inv_process_ok s pid p HI Hg) as Hok.
    exists pid, p. split; [assumption|]. split.
    + destruct (is_active p) eqn:Ha; [reflexivity|].
      exfalso. apply Hheld. apply (ok_inactive p Hok). assumption.
    + destruct (finished p) eqn:Hfin; [|reflexivity].
      exfalso. apply Hheld. apply (ok_finished p Hok). assumption.
Qed.

Lemma main_loop_done (fuel : nat) (s : State) (c : Z) :
  all_done s = true -> main_loop (S fuel) s c = Ok s.
Proof. intros H. cbn [main_loop]. rewrite H. reflexivity. Qed.

Lemma main_loop_step (fuel : nat) (s s' : State) (c : Z) :
  all_done s = false -> simulate_binary_search s c = Ok s' ->
  main_loop (S fuel) s c = main_loop fuel s' (Z.rem (c + 1) (num_processes s')).
Proof. intros H Hs. cbn [main_loop]. rewrite H, Hs. reflexivity. Qed.

(** The cursor passes over suspended and finished processes until it
    meets a runnable one. *)
Lemma skip_idle (d : nat) :
  forall (s : State) (c : Z),
  all_done s = false -> 0 <= c < num_processes s ->
  runnable s ((c + Z.of_nat d) mod num_processes s) ->
  exists (k : nat) (c' : Z),
    0 <= c' < num_processes s /\ runnable s c' /\
    forall fuel, main_loop (k + fuel) s c = main_loop fuel s c'.
Proof.
  induction d as [|d IH]; intros s c Hdone Hc Hrun.
  - exists 0%nat, c. rewrite Z.add_0_r, Z.mod_small in Hrun by lia. auto.
  - destruct (get_process_defined s c Hc) as [p Hg].
    destruct (is_active p && negb (finished p)) eqn:E.
    + apply andb_prop in E. destruct E as [Ha Hf]. apply negb_true_iff in Hf.
      exists 0%nat, c. split; [assumption|]. split; [exists p; auto|]. reflexivity.
    + assert (Hidle : simulate_binary_search s c = Ok s).
      { apply (step_idle s c p Hg). apply andb_false_iff in E.
        destruct E as [E|E]; [left; assumption|right].
        apply negb_false_iff in E. assumption. }
      set (c1 := Z.rem (c + 1) (num_processes s)).
      assert (Hc1 : 0 <= c1 < num_processes s) by (apply cursor_next; lia).
      destruct (IH s c1 Hdone Hc1) as (k & c' & Hc' & Hr' & Hk).
      { subst c1. rewrite Z.rem_mod_nonneg by lia.
        rewrite Zplus_mod_idemp_l.
        replace (c + 1 + Z.of_nat d) with (c + Z.of_nat (S d)) by lia. assumption. }
      exists (S k), c'. split; [assumption|]. split; [assumption|].
      intros fuel. cbn [Nat.add]. rewrite (main_loop_step _ s s c Hdone Hidle).
      apply Hk.
Qed.

Lemma Sized_map (s s' : State) :
  map static_part (processes s') = map static_part (processes s) ->
  Sized s -> Sized s'.
Proof.
  unfold Sized. intros H. revert H. generalize (processes s) (processes s').
  intros ps. induction ps as [|p t IH]; intros [|p' t'] Hm HS;
    cbn [map] in Hm; try discriminate; constructor.
  - apply (f_equal (fun l => fst (fst (hd (0, [], 0) l)))) in Hm.
    unfold static_part in Hm. cbn [hd fst] in Hm. inversion HS; subst. lia.
  - apply IH; [|inversion HS; assumption].
    apply (f_equal (@tl _)) in Hm. exact Hm.
Qed.

Lemma measure_nonneg (s : State) : Inv s -> 0 <= measure s.
Proof.
  intros HI. unfold measure.
  pose proof (pending_searches_nonneg _ (inv_procs s HI)).
  pose proof (count_active_bounds (processes s)).
  pose proof (inv_count s HI). nia.
Qed.

(** From a state that satisfies the invariant, with arrays that fit the
    page table, the scheduling loop ends with every search done. *)
Lemma main_loop_terminates (n : nat) :
  forall (s : State) (c : Z),
  Inv s -> Pressure s -> Sized s -> 0 <= c < num_processes s ->
  measure s < Z.of_nat n ->
  exists fuel s', main_loop fuel s c = Ok s' /\ all_done s' = true /\ Inv s'.
Proof.
  induction n as [|n IH]; intros s c HI HP HS Hc Hm.
  - pose proof (measure_nonneg s HI). lia.
  - destruct (all_done s) eqn:Hdone.
    + exists 1%nat, s. split; [apply main_loop_done; assumption|]. auto.
    + destruct (some_runnable s HI HP Hdone) as (j & Hj).
      assert (Hjb : 0 <= j < num_processes s).
      { destruct Hj as (p & Hg & _). eapply get_process_bound; eauto. }
      destruct (skip_idle (Z.to_nat ((j - c) mod num_processes s)) s c Hdone Hc)
        as (k & c' & Hc' & (p & Hg & Ha & Hf) & Hk).
      { rewrite Z2Nat.id by (apply Z.mod_pos_bound; lia).
        rewrite Zplus_mod_idemp_r. replace (c + (j - c)) with j by lia.
        rewrite Z.mod_small by lia. assumption. }
      destruct (step_runnable s c' p HI HP Hg Ha Hf)
        as [[_ Hbig]|(s1 & Hr & HI1 & HP1 & Hst & Hlt & _)].
      * exfalso. apply get_process_in in Hg. unfold Sized in HS.
        rewrite Forall_forall in HS. specialize (HS p Hg). lia.
      * destruct (IH s1 (Z.rem (c' + 1) (num_processes s1)) HI1 HP1)
          as (fuel & s' & Hrun & Hend & HI').
        { eapply Sized_map; eauto. }
        { apply cursor_next; [lia|]. pose proof (inv_count s1 HI1). lia. }
        { lia. }
        exists (k + S fuel)%nat, s'. rewrite Hk.
        rewrite (main_loop_step _ s s1 c' Hdone Hr). auto.
Qed.

End CircularRun.

(** ** The workload step *)

Lemma map_get_process {Q : Type} {B : Type} (g : Process -> B)
      (s s' : SystemState Q) (pid : Z) (p p' : Process) :
  map g (processes s') = map g (processes s) ->
  get_process s pid = Ok p -> get_process s' pid = Ok p' -> g p' = g p.
Proof.
  intros Hm Hg Hg'. apply get_process_nth in Hg, Hg'.
  destruct Hg as [_ Hn]. destruct Hg' as [_ Hn'].
  apply (map_nth_error g) in Hn, Hn'. rewrite Hm in Hn'. congruence.
Qed.

(** The pages computed by the code are those of the specification's
    rule. *)
Lemma search_pages_refs (f : nat) (key : Z) :
  forall L R : Z,
  0 <= L -> R - L < 2 ^ Z.of_nat f ->
  lower_bound_refs key L R (search_pages (S f) key L R).
Proof.
  induction f as [|f IH]; intros L R HL Hw.
  - cbn [search_pages]. destruct (Z.ltb_spec L R) as [Hlt|Hge].
    + simpl in Hw. lia.
    + apply refs_stop. lia.
  - remember (S f) as f1. cbn [search_pages].
    destruct (Z.ltb_spec L R) as [Hlt|Hge]; [|apply refs_stop; lia]. subst f1.
    destruct (midpoint_bounds L R HL Hlt) as [HM H2].
    destruct (halves_fit f L R _ HM H2 Hw) as [Hl Hr].
    assert (EM : midpoint L R = (L + R) / 2).
    { unfold midpoint. apply Z.quot_div_nonneg; lia. }
    assert (EP : page_of (midpoint L R) = (L + R) / 2 * 4 / PAGE_SIZE + ESSENTIAL_PAGES).
    { unfold page_of. rewrite EM. f_equal.
      apply Z.quot_div_nonneg; unfold PAGE_SIZE; lia. }
    rewrite EP. destruct (Z.leb_spec key (midpoint L R)) as [Hk|Hk].
    + apply refs_lower; [lia | lia |]. rewrite <- EM. apply IH; lia.
    + apply refs_upper; [lia | lia |]. rewrite <- EM. apply IH; lia.
Qed.

Lemma lower_bound_refs_unique (key : Z) :
  forall L R l1, lower_bound_refs key L R l1 ->
  forall l2, lower_bound_refs key L R l2 -> l1 = l2.
Proof.
  induction 1 as [L R Hs | L R l Hm Hk Hrec IH | L R l Hm Hk Hrec IH];
    intros l2 H2; inversion H2; subst; try lia; try reflexivity.
  - f_equal. apply IH. assumption.
  - f_equal. apply IH. assumption.
Qed.

Section CircularStep.
Import Circular.

(** What a page reference never touches, whatever state it starts from. *)
Lemma reference_page_frame (s s' : State) (pid pg : Z) (b : bool) :
  reference_page s pid pg = Ok (s', b) ->
  page_accesses s' = page_accesses s + 1 /\
  map static_part (processes s') = map static_part (processes s) /\
  map current_search (processes s') = map current_search (processes s) /\
  (b = true -> map is_active (processes s') = map is_active (processes s)).
Proof.
  unfold reference_page.
  set (s1 := set_page_accesses s (page_accesses s + 1)).
  destruct (get_process s1 pid) as [p| |] eqn:Hg; cbn [bind]; try discriminate.
  destruct (zget (page_table p) pg) as [e| |]; cbn [bind]; try discriminate.
  destruct (is_valid e).
  { intros [= <- <-]. subst s1. state_simpl. auto. }
  unfold handle_page_fault.
  set (s2 := set_page_faults s1 (page_faults s1 + 1)).
  assert (Hg2 : get_process s2 pid = Ok p) by exact Hg.
  rewrite Hg2. cbn [bind].
  pose proof Hg as Hn. apply get_process_nth in Hn. destruct Hn as [H0 Hn].
  change (processes s1) with (processes s) in Hn.
  destruct (free_frames s2) as [|f free] eqn:Hfree.
  - destruct (is_active p) eqn:Ha.
    + destruct (swap_out_active s2 pid p Hg2 Ha)
        as (s3 & Hrun & Hp & _ & _ & _ & Hpa & _).
      rewrite Hrun. cbn [bind]. intros [= <- <-].
      rewrite Hp, Hpa. subst s2 s1. state_simpl.
      rewrite !(map_upd_same _ _ _ p _ Hn) by reflexivity.
      repeat split; auto; try discriminate.
    + rewrite (swap_out_inactive s2 pid p Hg2 Ha). cbn [bind]. intros [= <- <-].
      subst s2 s1. state_simpl. repeat split; auto; try discriminate.
  - destruct (in_range (page_table p) pg); [|discriminate].
    intros [= <- <-]. subst s2 s1. state_simpl.
    rewrite !(map_upd_same _ _ _ p _ Hn) by reflexivity.
    repeat split; auto.
Qed.

Lemma replay_frame (pid : Z) (pages : list Z) :
  forall (s s' : State) (b : bool),
  replay s pid pages = Ok (s', b) ->
  map static_part (processes s') = map static_part (processes s) /\
  map current_search (processes s') = map current_search (processes s) /\
  (b = true ->
   page_accesses s' = page_accesses s + Z.of_nat (length pages) /\
   map is_active (processes s') = map is_active (processes s)).
Proof.
  induction pages as [|pg rest IH]; intros s s' b H.
  - cbn [replay] in H. injection H as <- <-. cbn [length]. repeat split; auto. lia.
  - cbn [replay] in H.
    destruct (reference_page s pid pg) as [[s1 b1]| |] eqn:E; cbn [bind fst snd] in H;
      try discriminate.
    destruct (reference_page_frame s s1 pid pg b1 E) as (Hpa & Hst & Hcs & Hact).
    destruct b1.
    + destruct (IH s1 s' b H) as (Hst' & Hcs' & Hb).
      split; [congruence|]. split; [congruence|].
      intros ->. destruct (Hb eq_refl) as [Hpa' Hact'].
      rewrite Hpa', Hpa, Hact', (Hact eq_refl). cbn [length]. split; [lia|reflexivity].
    + injection H as <- <-. repeat split; auto; try discriminate.
Qed.

Lemma replay_app (pid : Z) (pre post : list Z) :
  forall s : State,
  replay s pid (pre ++ post) =
  do r <- replay s pid pre;
  if snd r then replay (fst r) pid post else Ok (fst r, false).
Proof.
  induction pre as [|pg rest IH]; intros s; [reflexivity|].
  cbn [app replay].
  destruct (reference_page s pid pg) as [[s1 b1]| |]; cbn [bind fst snd]; try reflexivity.
  destruct b1; [apply IH | reflexivity].
Qed.

(** The step of the second variant stops at a page fault that finds no
    free frame: the process is swapped out, no further page is referenced
    and [current_search] keeps its value. *)
Lemma circular_fault_aborts_step
    (s s1 : State) (pid key pg e : Z) (p p1 : Process) (pre post : list Z) :
  get_process s pid = Ok p -> is_active p = true -> finished p = false ->
  zget (search_indices p) (current_search p) = Ok key ->
  search_pages (search_fuel 0 (array_size p - 1)) key 0 (array_size p - 1)
    = pre ++ pg :: post ->
  replay s pid pre = Ok (s1, true) ->
  get_process s1 pid = Ok p1 ->
  zget (page_table p1) pg = Ok e -> is_valid e = false ->
  free_frames s1 = [] ->
  exists s' p',
    simulate_binary_search s pid = Ok s' /\
    get_process s' pid = Ok p' /\
    is_active p' = false /\
    current_search p' = current_search p /\
    finished p' = false /\
    frames_allocated p' = 0 /\
    swap_queue s' = enqueue (swap_queue s1) pid /\
    num_swaps s' = num_swaps s1 + 1 /\
    page_faults s' = page_faults s1 + 1 /\
    page_accesses s' = page_accesses s + Z.of_nat (length pre) + 1.
Proof.
  intros Hg Ha Hfin Hkey Hpages Hpre Hg1 He Hv Hfree.
  destruct (replay_frame pid pre s s1 true Hpre) as (Hst & Hcs & Hb).
  destruct (Hb eq_refl) as [Hpa Hact].
  assert (Ha1 : is_active p1 = true).
  { rewrite (map_get_process is_active s s1 pid p p1 Hact Hg Hg1). assumption. }
  assert (Hc1 : current_search p1 = current_search p).
  { apply (map_get_process current_search s s1 pid p p1 Hcs Hg Hg1). }
  assert (Hs1 : static_part p1 = static_part p).
  { apply (map_get_process static_part s s1 pid p p1 Hst Hg Hg1). }
  set (s1a := set_page_accesses s1 (page_accesses s1 + 1)).
  set (s2 := set_page_faults s1a (page_faults s1a + 1)).
  assert (Hg2 : get_process s2 pid = Ok p1) by exact Hg1.
  destruct (swap_out_active s2 pid p1 Hg2 Ha1)
    as (s' & Hrun & Hp & Hf & Hq & Hsw & Hpa' & Hpf' & _).
  match type of Hp with _ = upd _ ?x _ => set (p' := x) in * end.
  exists s', p'.
  assert (Hsim : simulate_binary_search s pid = Ok s').
  { unfold simulate_binary_search. rewrite Hg. cbn [bind]. rewrite Ha, Hfin. cbn [negb orb].
    rewrite Hkey. cbn [bind].
    destruct (search_fuel_enough 0 (array_size p - 1)) as (f & Ef & Hf').
    rewrite Ef in *. rewrite search_loop_replay by (assumption || lia).
    rewrite Hpages, replay_app, Hpre. cbn [bind fst snd replay].
    unfold reference_page. fold s1a. fold s2.
    change (get_process s1a pid) with (get_process s1 pid).
    rewrite Hg1. cbn [bind]. rewrite He. cbn [bind]. rewrite Hv.
    unfold handle_page_fault. rewrite Hg2. cbn [bind].
    change (free_frames s2) with (free_frames s1). rewrite Hfree, Hrun. reflexivity. }
  split; [assumption|]. split.
  { unfold get_process. rewrite Hp. apply zget_ok.
    apply get_process_nth in Hg1. destruct Hg1 as [H0 Hn].
    split; [assumption|]. apply nth_error_upd_same. apply nth_error_Some.
    change (processes s2) with (processes s1). congruence. }
  subst p'. unfold finished in *. proc_simpl.
  unfold static_part in Hs1. injection Hs1 as _ _ Hns.
  rewrite Hq, Hsw, Hpf', Hpa', Hc1, Hns. subst s2 s1a. state_simpl.
  repeat split; auto. lia.
Qed.

End CircularStep.

(** ** The workload step of the first variant *)

Section ShiftingStep.
Import Shifting.

(** What swap-out does in the first variant, whatever the activity of the
    process. *)
Lemma shifting_swap_out_spec (s : State) (pid : Z) (p : Process) :
  get_process s pid = Ok p ->
  Z.of_nat (length (swap_queue s)) < MAX_PROCESSES ->
  exists s',
    swap_out_process s pid = Ok s' /\
    processes s' =
      upd (Z.to_nat pid)
          (set_is_active
             (set_frames_allocated
                (set_page_table p (map (fun e => if is_valid e then 0 else e) (page_table p)))
                0) false)
          (processes s) /\
    free_frames s' = rev (held (page_table p)) ++ free_frames s /\
    swap_queue s' = swap_queue s ++ [pid] /\
    num_swaps s' = num_swaps s + 1 /\
    page_accesses s' = page_accesses s /\
    page_faults s' = page_faults s /\
    min_active_processes s' = Z.min (min_active_processes s) (get_active_process_count s') /\
    output s' = output s ++ [SwapOutMsg pid (get_active_process_count s')].
Proof.
  intros Hg Hroom. unfold swap_out_process. rewrite Hg. cbn [bind].
  rewrite release_frames_spec. unfold push_back. state_simpl.
  destruct (Z.ltb_spec (Z.of_nat (length (swap_queue s))) MAX_PROCESSES); [|lia].
  cbn [bind].
  match goal with |- context [if ?c <? ?m then _ else _] => destruct (Z.ltb_spec c m) end;
    eexists; (split; [reflexivity|]); state_simpl;
    repeat split; try reflexivity; unfold get_active_process_count in *; state_simpl; lia.
Qed.

Lemma shifting_swap_out_frame (s s' : State) (pid : Z) :
  swap_out_process s pid = Ok s' ->
  page_accesses s' = page_accesses s /\
  page_faults s' = page_faults s /\
  map static_part (processes s') = map static_part (processes s) /\
  map current_search (processes s') = map current_search (processes s).
Proof.
  intros H. destruct (get_process s pid) as [p| |] eqn:Hg;
    try (unfold swap_out_process in H; rewrite Hg in H; discriminate).
  destruct (Z.ltb_spec (Z.of_nat (length (swap_queue s))) MAX_PROCESSES) as [Hroom|Hfull].
  - destruct (shifting_swap_out_spec s pid p Hg Hroom)
      as (s1 & Hrun & Hp & _ & _ & _ & Hpa & Hpf & _).
    rewrite H in Hrun. injection Hrun as <-.
    apply get_process_nth in Hg. destruct Hg as [_ Hn].
    rewrite Hp, !(map_upd_same _ _ _ p _ Hn) by reflexivity. auto.
  - exfalso. unfold swap_out_process in H. rewrite Hg in H. cbn [bind] in H.
    rewrite release_frames_spec in H. unfold push_back in H. state_simpl.
    destruct (Z.ltb_spec (Z.of_nat (length (swap_queue s))) MAX_PROCESSES); [lia|].
    discriminate.
Qed.

Lemma shifting_reference_page_frame (s s' : State) (pid pg : Z) (b : bool) :
  reference_page s pid pg = Ok (s', b) ->
  page_accesses s' = page_accesses s + 1 /\
  map static_part (processes s') = map static_part (processes s) /\
  map current_search (processes s') = map current_search (processes s) /\
  (b = true -> map is_active (processes s') = map is_active (processes s)).
Proof.
  unfold reference_page.
  set (s1 := set_page_accesses s (page_accesses s + 1)).
  destruct (get_process s1 pid) as [p| |] eqn:Hg; cbn [bind]; try discriminate.
  destruct (zget (page_table p) pg) as [e| |]; cbn [bind]; try discriminate.
  destruct (is_valid e).
  { intros [= <- <-]. subst s1. state_simpl. auto. }
  unfold handle_page_fault.
  set (s2 := set_page_faults s1 (page_faults s1 + 1)).
  assert (Hg2 : get_process s2 pid = Ok p) by exact Hg.
  rewrite Hg2. cbn [bind].
  pose proof Hg as Hn. apply get_process_nth in Hn. destruct Hn as [H0 Hn].
  change (processes s1) with (processes s) in Hn.
  destruct (free_frames s2) as [|f free] eqn:Hfree.
  - destruct (swap_out_process s2 pid) as [s3| |] eqn:Hrun; cbn [bind]; try discriminate.
    intros [= <- <-].
    destruct (shifting_swap_out_frame s2 s3 pid Hrun) as (Hpa & _ & Hst & Hcs).
    rewrite Hpa, Hst, Hcs. subst s2 s1. state_simpl.
    repeat split; auto; try discriminate.
  - destruct (in_range (page_table p) pg); [|discriminate].
    intros [= <- <-]. subst s2 s1. state_simpl.
    rewrite !(map_upd_same _ _ _ p _ Hn) by reflexivity.
    repeat split; auto.
Qed.

Lemma shifting_replay_frame (pid : Z) (pages : list Z) :
  forall (s s' : State) (b : bool),
  replay s pid pages = Ok (s', b) ->
  map static_part (processes s') = map static_part (processes s) /\
  map current_search (processes s') = map current_search (processes s) /\
  (b = true ->
   page_accesses s' = page_accesses s + Z.of_nat (length pages) /\
   map is_active (processes s') = map is_active (processes s)).
Proof.
  induction pages as [|pg rest IH]; intros s s' b H.
  - cbn [replay] in H. injection H as <- <-. cbn [length]. repeat split; auto. lia.
  - cbn [replay] in H.
    destruct (reference_page s pid pg) as [[s1 b1]| |] eqn:E; cbn [bind fst snd] in H;
      try discriminate.
    destruct (shifting_reference_page_frame s s1 pid pg b1 E) as (Hpa & Hst & Hcs & Hact).
    destruct b1.
    + destruct (IH s1 s' b H) as (Hst' & Hcs' & Hb).
      split; [congruence|]. split; [congruence|].
      intros ->. destruct (Hb eq_refl) as [Hpa' Hact'].
      rewrite Hpa', Hpa, Hact', (Hact eq_refl). cbn [length]. split; [lia|reflexivity].
    + injection H as <- <-. repeat split; auto; try discriminate.
Qed.

Lemma shifting_replay_app (pid : Z) (pre post : list Z) :
  forall s : State,
  replay s pid (pre ++ post) =
  do r <- replay s pid pre;
  if snd r then replay (fst r) pid post else Ok (fst r, false).
Proof.
  induction pre as [|pg rest IH]; intros s; [reflexivity|].
  cbn [app replay].
  destruct (reference_page s pid pg) as [[s1 b1]| |]; cbn [bind fst snd]; try reflexivity.
  destruct b1; [apply IH | reflexivity].
Qed.

Lemma shifting_search_loop_replay (f : nat) (pid key : Z) :
  forall (s : State) (L R : Z),
  0 <= L -> R - L < 2 ^ Z.of_nat f ->
  search_loop (S f) s pid key L R = replay s pid (search_pages (S f) key L R).
Proof.
  induction f as [|f IH]; intros s L R HL Hw.
  - cbn [search_loop search_pages]. destruct (Z.ltb_spec L R) as [Hlt|_]; [|reflexivity].
    simpl in Hw. lia.
  - remember (S f) as f1. cbn [search_loop search_pages].
    destruct (Z.ltb_spec L R) as [Hlt|_]; [|reflexivity]. subst f1.
    destruct (midpoint_bounds L R HL Hlt) as [HM H2].
    destruct (halves_fit f L R _ HM H2 Hw) as [Hl Hr].
    cbn [replay].
    destruct (reference_page s pid (page_of (midpoint L R))) as [[s' b]| |];
      cbn [bind fst snd]; try reflexivity.
    destruct b; [|reflexivity].
    destruct (key <=? midpoint L R); apply IH; lia.
Qed.

End ShiftingStep.

(** ** Frame conservation *)

Lemma total_allocated_counts (ps : list Process) :
  Forall (fun p => frames_allocated p = Z.of_nat (length (held (page_table p)))) ps ->
  total_allocated ps = Z.of_nat (length (all_held ps)).
Proof.
  induction 1 as [|p t Hp _ IH]; [reflexivity|].
  rewrite all_held_cons. simpl total_allocated. rewrite length_app, IH, Hp. lia.
Qed.

Section Conservation.
Context {Q : Type}.
Implicit Type s : SystemState Q.

Lemma conserved_free_range s :
  frames_conserved s -> Forall (fun f => 0 <= f < VALID_BIT_MASK) (free_frames s).
Proof.
  intros [_ Hperm]. apply Forall_forall. intros f Hf.
  assert (Hin : In f frame_space).
  { eapply Permutation_in; [apply Hperm|]. apply in_or_app. auto. }
  apply frame_space_range in Hin. unfold USER_FRAMES, VALID_BIT_MASK in *. lia.
Qed.

(** The counting form and the partition form of conservation. *)
Lemma conserved_count s :
  frames_conserved s ->
  num_free_frames s + total_allocated (processes s) = USER_FRAMES /\
  NoDup (free_frames s ++ all_held (processes s)) /\
  (forall f, In f (free_frames s ++ all_held (processes s)) <-> 0 <= f < USER_FRAMES).
Proof.
  intros [Hcount Hperm]. split; [|split].
  - pose proof (Permutation_length Hperm) as Hlen.
    rewrite length_app, frame_space_length in Hlen.
    rewrite (total_allocated_counts _ Hcount). unfold num_free_frames, USER_FRAMES in *. lia.
  - eapply Permutation_NoDup; [symmetry; apply Hperm | apply frame_space_nodup].
  - intros f. split.
    + intros Hin. apply frame_space_range. eapply Permutation_in; eauto.
    + intros Hf. eapply Permutation_in; [symmetry; apply Hperm|].
      unfold frame_space. apply in_map_iff. exists (Z.to_nat f).
      split; [lia|]. apply in_seq. unfold USER_FRAMES in *. lia.
Qed.

Lemma conserved_put s s' (pid : Z) (p p' : Process) :
  frames_conserved s -> get_process s pid = Ok p ->
  frames_allocated p' = Z.of_nat (length (held (page_table p'))) ->
  processes s' = upd (Z.to_nat pid) p' (processes s) ->
  Permutation (free_frames s' ++ held (page_table p'))
              (free_frames s ++ held (page_table p)) ->
  frames_conserved s'.
Proof.
  intros [Hcount Hperm] Hg Hfa Hp Hmove.
  apply get_process_nth in Hg. destruct Hg as [_ Hn]. split.
  - rewrite Hp. apply Forall_upd; assumption.
  - rewrite Hp, (frames_transfer _ _ p p' (free_frames s) _ Hn Hmove). assumption.
Qed.

Lemma conserved_ext s s' :
  processes s' = processes s -> free_frames s' = free_frames s ->
  frames_conserved s -> frames_conserved s'.
Proof. unfold frames_conserved. intros -> ->. auto. Qed.

(** Mapping one invalid page to the frame on top of the free stack. *)
Lemma conserved_grant s (pid pg : Z) (p : Process) (e f : Z) (free : list Z) :
  frames_conserved s -> get_process s pid = Ok p ->
  zget (page_table p) pg = Ok e -> is_valid e = false ->
  free_frames s = f :: free ->
  frames_conserved
    (put_process (set_free_frames s free) pid
       (set_frames_allocated
          (set_page_table p (upd (Z.to_nat pg) (mk_entry f) (page_table p)))
          (frames_allocated p + 1))).
Proof.
  intros HC Hg He Hv Hfree.
  pose proof (conserved_free_range s HC) as Hrange. rewrite Hfree in Hrange.
  apply Forall_inv in Hrange.
  apply zget_ok in He. destruct He as [_ Hne].
  pose proof (held_upd_invalid _ _ e (mk_entry f) Hne Hv (is_valid_mk_entry f Hrange)) as Hperm.
  rewrite frame_of_mk_entry in Hperm by assumption.
  assert (Hfa : frames_allocated p = Z.of_nat (length (held (page_table p)))).
  { destruct HC as [Hcount _]. rewrite Forall_forall in Hcount.
    apply Hcount. eapply get_process_in; eauto. }
  match goal with |- frames_conserved (put_process _ _ ?x) => set (p' := x) end.
  apply (conserved_put s _ pid p p'); auto.
  - subst p'. proc_simpl. rewrite (Permutation_length Hperm), Hfa. cbn [length]. lia.
  - subst p'. state_simpl. proc_simpl. rewrite Hfree, Hperm.
    symmetry. apply Permutation_middle.
Qed.

(** Releasing every frame of one process. *)
Lemma conserved_release s (pid : Z) (p : Process) (b : bool) (n : Z) :
  frames_conserved s -> get_process s pid = Ok p ->
  frames_conserved
    (put_process (set_free_frames s (rev (held (page_table p)) ++ free_frames s)) pid
       (set_is_active
          (set_frames_allocated
             (set_page_table (set_current_search p n)
                (map (fun e => if is_valid e then 0 else e) (page_table p)))
             0) b)).
Proof.
  intros HC Hg.
  match goal with |- frames_conserved (put_process _ _ ?x) => set (p' := x) end.
  apply (conserved_put s _ pid p p'); auto.
  - subst p'. proc_simpl. rewrite held_cleared. reflexivity.
  - subst p'. state_simpl. proc_simpl. rewrite held_cleared, app_nil_r.
    rewrite Permutation_app_comm. apply Permutation_app_head.
    symmetry. apply Permutation_rev.
Qed.

(** Initialization hands each process its essential pages from the full
    frame space. *)
Lemma conserved_init (q0 : Q) (input : list Z) s :
  initialize_with q0 input = Some s -> frames_conserved s.
Proof.
  unfold initialize_with. intros H.
  destruct input as [|np [|ns rest]]; try discriminate.
  destruct (_ || _) eqn:Hguard; [discriminate|].
  apply orb_false_elim in Hguard. destruct Hguard as [Hguard H4].
  apply orb_false_elim in Hguard. destruct Hguard as [Hguard H3].
  apply orb_false_elim in Hguard. destruct Hguard as [H1 H2].
  apply Z.leb_gt in H1, H3. apply Z.ltb_ge in H2, H4.
  destruct (init_processes _ _ _ _) as [[ps free]|] eqn:E; [|discriminate].
  injection H as <-.
  assert (Hrange : Forall (fun f => 0 <= f < VALID_BIT_MASK) initial_free_frames).
  { apply Forall_forall. intros f Hf.
    apply (Permutation_in _ initial_free_frames_perm) in Hf.
    apply frame_space_range in Hf. unfold USER_FRAMES, VALID_BIT_MASK in *. lia. }
  apply init_processes_spec in E; [|lia|assumption|].
  2:{ rewrite (Permutation_length initial_free_frames_perm), frame_space_length.
      unfold ESSENTIAL_PAGES, USER_FRAMES, MAX_PROCESSES in *. lia. }
  destruct E as (Hok & _ & Hperm & _). split; state_simpl.
  - eapply Forall_impl; [|apply Hok]. intros p Hp. apply (ok_allocated p Hp).
  - rewrite Hperm. apply initial_free_frames_perm.
Qed.

End Conservation.

Section CircularConservation.
Import Circular.

Lemma Inv_conserved (s : State) : Inv s -> frames_conserved s.
Proof.
  intros HI. split; [|apply (inv_frames s HI)].
  eapply Forall_impl; [|apply (inv_procs s HI)]. intros p Hp. apply (ok_allocated p Hp).
Qed.

Lemma circular_swap_out_conserved (s s' : State) (pid : Z) :
  frames_conserved s -> swap_out_process s pid = Ok s' -> frames_conserved s'.
Proof.
  intros HC H. destruct (get_process s pid) as [p| |] eqn:Hg;
    try (unfold swap_out_process in H; rewrite Hg in H; discriminate).
  destruct (is_active p) eqn:Ha.
  - destruct (swap_out_active s pid p Hg Ha) as (s1 & Hrun & Hp & Hf & _).
    rewrite H in Hrun. injection Hrun as <-.
    pose proof (conserved_release s pid p false (current_search p) HC Hg) as HR.
    destruct p. eapply conserved_ext; [| |exact HR]; state_simpl; assumption.
  - rewrite (swap_out_inactive s pid p Hg Ha) in H. injection H as <-. assumption.
Qed.

Lemma circular_page_fault_conserved (s : State) (pid pg e : Z) (p : Process)
      (r : State * bool) :
  frames_conserved s -> get_process s pid = Ok p ->
  zget (page_table p) pg = Ok e -> is_valid e = false ->
  handle_page_fault s pid pg = Ok r -> frames_conserved (fst r).
Proof.
  intros HC Hg He Hv. unfold handle_page_fault. rewrite Hg. cbn [bind].
  destruct (free_frames s) as [|f free] eqn:Hfree.
  - destruct (swap_out_process s pid) as [s1| |] eqn:Hrun; cbn [bind]; try discriminate.
    intros [= <-]. cbn [fst]. eapply circular_swap_out_conserved; eauto.
  - rewrite (zget_in_range _ _ _ He). intros [= <-]. cbn [fst].
    eapply conserved_grant; eauto.
Qed.

Lemma circular_swap_in_conserved (s s' : State) (pid : Z) (p : Process) :
  frames_conserved s -> get_process s pid = Ok p ->
  (is_active p = false ->
   held (page_table p) = [] /\ (Z.to_nat ESSENTIAL_PAGES <= length (page_table p))%nat) ->
  swap_in_process s pid = Ok s' -> frames_conserved s'.
Proof.
  intros HC Hg Hpre H. destruct (is_active p) eqn:Ha.
  - rewrite (swap_in_active s pid p Hg Ha) in H. injection H as <-. assumption.
  - destruct (Hpre eq_refl) as [Hheld Hlen].
    destruct (swap_in_inactive s pid p Hg Ha)
      as (s1 & pt & fa & free & Halloc & Hrun & Hp & Hf & _).
    rewrite H in Hrun. injection Hrun as <-.
    apply alloc_essential_spec in Halloc; [| |apply conserved_free_range; assumption].
    2:{ intros j Hj. destruct (nth_error (page_table p) j) as [e|] eqn:E.
        - exists e. split; [reflexivity|]. eapply held_nil_invalid; eauto.
        - apply nth_error_None in E. lia. }
    destruct Halloc as (taken & Hsplit & _ & Hfa & Hperm & _).
    assert (Hfa0 : frames_allocated p = Z.of_nat (length (held (page_table p)))).
    { destruct HC as [Hcount _]. rewrite Forall_forall in Hcount.
      apply Hcount. eapply get_process_in; eauto. }
    match type of Hp with _ = upd _ ?x _ => set (p' := x) in * end.
    apply (conserved_put s s' pid p p'); auto; subst p'.
    + proc_simpl. rewrite (Permutation_length Hperm), Hfa, Hfa0, length_app. lia.
    + proc_simpl. rewrite Hf, Hperm, Hsplit.
      rewrite !app_assoc. apply Permutation_app_tail. apply Permutation_app_comm.
Qed.

End CircularConservation.

Section ShiftingConservation.
Import Shifting.

Lemma shifting_swap_out_conserved (s s' : State) (pid : Z) :
  frames_conserved s -> swap_out_process s pid = Ok s' -> frames_conserved s'.
Proof.
  intros HC H. destruct (get_process s pid) as [p| |] eqn:Hg;
    try (unfold swap_out_process in H; rewrite Hg in H; discriminate).
  destruct (Z.ltb_spec (Z.of_nat (length (swap_queue s))) MAX_PROCESSES) as [Hroom|Hfull].
  - destruct (shifting_swap_out_spec s pid p Hg Hroom) as (s1 & Hrun & Hp & Hf & _).
    rewrite H in Hrun. injection Hrun as <-.
    pose proof (conserved_release s pid p false (current_search p) HC Hg) as HR.
    destruct p. eapply conserved_ext; [| |exact HR]; state_simpl; assumption.
  - exfalso. unfold swap_out_process in H. rewrite Hg in H. cbn [bind] in H.
    rewrite release_frames_spec in H. unfold push_back in H. state_simpl.
    destruct (Z.ltb_spec (Z.of_nat (length (swap_queue s))) MAX_PROCESSES); [lia|].
    discriminate.
Qed.

Lemma shifting_page_fault_conserved (s : State) (pid pg e : Z) (p : Process)
      (r : State * bool) :
  frames_conserved s -> get_process s pid = Ok p ->
  zget (page_table p) pg = Ok e -> is_valid e = false ->
  handle_page_fault s pid pg = Ok r -> frames_conserved (fst r).
Proof.
  intros HC Hg He Hv. unfold handle_page_fault. rewrite Hg. cbn [bind].
  destruct (free_frames s) as [|f free] eqn:Hfree.
  - destruct (swap_out_process s pid) as [s1| |] eqn:Hrun; cbn [bind]; try discriminate.
    intros [= <-]. cbn [fst]. eapply shifting_swap_out_conserved; eauto.
  - rewrite (zget_in_range _ _ _ He). intros [= <-]. cbn [fst].
    eapply conserved_grant; eauto.
Qed.

End ShiftingConservation.

(** Resident essential pages are counted among the frames held. *)
Lemma resident_prefix_count (n : nat) :
  forall pt : list Z,
  (forall i, (i < n)%nat -> resident pt i) -> (n <= length (held pt))%nat.
Proof.
  induction n as [|n IH]; intros pt H; [lia|].
  destruct (H 0%nat ltac:(lia)) as (e & He & Hv).
  destruct pt as [|e' t]; [discriminate|]. simpl in He. injection He as ->.
  rewrite held_cons, Hv. cbn [length]. apply le_n_S. apply IH.
  intros i Hi. destruct (H (S i) ltac:(lia)) as (x & Hx & Hxv).
  exists x. auto.
Qed.

(** ** The scheduling loop of the first variant *)

Section ShiftingRun.
Import Shifting.

Lemma shifting_Inv_ext (s s' : State) :
  processes s' = processes s -> free_frames s' = free_frames s ->
  swap_queue s' = swap_queue s -> Inv s -> Inv s'.
Proof.
  intros Hp Hf Hq [H1 H2 H3 H4 H5].
  assert (Hsusp : forall pid, suspended s' pid <-> suspended s pid).
  { intros pid. unfold suspended, get_process. rewrite Hp. reflexivity. }
  constructor; unfold num_processes in *; rewrite ?Hp, ?Hf, ?Hq; auto.
  intros pid. rewrite Hsusp. apply H5.
Qed.

Lemma shifting_runnable_ext (s s' : State) (pid : Z) :
  processes s' = processes s -> runnable s pid -> runnable s' pid.
Proof. unfold runnable, get_process. intros ->. auto. Qed.

Lemma shifting_inv_process_ok (s : State) (pid : Z) (p : Process) :
  Inv s -> get_process s pid = Ok p -> process_ok p.
Proof.
  intros HI Hg. apply get_process_in in Hg.
  eapply Forall_forall; [apply (inv_procs s HI)|assumption].
Qed.

Lemma shifting_inv_free_range (s : State) :
  Inv s -> Forall (fun f => 0 <= f < VALID_BIT_MASK) (free_frames s).
Proof.
  intros HI. apply Forall_forall. intros f Hf.
  assert (Hin : In f frame_space).
  { eapply Permutation_in; [apply (inv_frames s HI)|]. apply in_or_app. auto. }
  apply frame_space_range in Hin. unfold USER_FRAMES, VALID_BIT_MASK in *. lia.
Qed.

Lemma shifting_suspended_put (s s' : State) (pid : Z) (p p' : Process) :
  get_process s pid = Ok p ->
  processes s' = upd (Z.to_nat pid) p' (processes s) ->
  forall x, suspended s' x <->
            (x = pid /\ is_active p' = false) \/ (x <> pid /\ suspended s x).
Proof.
  intros Hg Hp x.
  assert (H0 : 0 <= pid) by (apply get_process_nth in Hg; tauto).
  assert (Hs' : forall y, get_process s' y = get_process (put_process s pid p') y).
  { intros y. unfold get_process, put_process. cbn. rewrite Hp. reflexivity. }
  unfold suspended. rewrite Hs'. destruct (Z.eq_dec x pid) as [->|Hne].
  - rewrite (get_put_same s pid p p' Hg). split.
    + intros (q & [= <-] & Ha). left. split; [reflexivity | assumption].
    + intros [[_ Ha]|[Hc _]]; [eauto | congruence].
  - rewrite get_put_other by auto. split.
    + intros H. right. auto.
    + intros [[Hc _]|[_ H]]; [congruence | assumption].
Qed.

Lemma shifting_runnable_put (s s' : State) (pid x : Z) (p p' : Process) :
  get_process s pid = Ok p ->
  processes s' = upd (Z.to_nat pid) p' (processes s) ->
  x <> pid -> runnable s x -> runnable s' x.
Proof.
  intros Hg Hp Hne (q & Hq & H).
  assert (H0 : 0 <= pid) by (apply get_process_nth in Hg; tauto).
  exists q. split; [|assumption].
  unfold get_process. rewrite Hp.
  change (get_process (put_process s pid p') x = Ok q).
  rewrite get_put_other by auto. assumption.
Qed.

Lemma shifting_runnable_put_same (s s' : State) (pid : Z) (p p' : Process) :
  get_process s pid = Ok p ->
  processes s' = upd (Z.to_nat pid) p' (processes s) ->
  is_active p' = true -> finished p' = false -> runnable s' pid.
Proof.
  intros Hg Hp Ha Hf. exists p'. split; [|auto].
  unfold get_process. rewrite Hp.
  change (get_process (put_process s pid p') pid = Ok p').
  apply (get_put_same s pid p p' Hg).
Qed.

Lemma shifting_Inv_put (s s' : State) (pid : Z) (p p' : Process) :
  Inv s -> get_process s pid = Ok p ->
  process_ok p' ->
  processes s' = upd (Z.to_nat pid) p' (processes s) ->
  Permutation (free_frames s' ++ held (page_table p'))
              (free_frames s ++ held (page_table p)) ->
  NoDup (swap_queue s') ->
  (forall x, In x (swap_queue s') <->
             (x = pid /\ is_active p' = false) \/
             (x <> pid /\ In x (swap_queue s))) ->
  Inv s'.
Proof.
  intros HI Hg Hok Hp Hperm Hnd Hmem.
  pose proof Hg as Hn. apply get_process_nth in Hn. destruct Hn as [H0 Hn].
  constructor.
  - rewrite Hp. apply Forall_upd; [apply (inv_procs s HI)|assumption].
  - rewrite Hp, (frames_transfer _ _ p p' (free_frames s) _ Hn Hperm).
    apply (inv_frames s HI).
  - unfold num_processes. rewrite Hp, upd_length. apply (inv_count s HI).
  - assumption.
  - intros x. rewrite Hmem, (shifting_suspended_put s s' pid p p' Hg Hp x).
    pose proof (inv_queue_mem s HI x) as Hx. tauto.
Qed.

Lemma shifting_Inv_put_same_queue (s s' : State) (pid : Z) (p p' : Process) :
  Inv s -> get_process s pid = Ok p ->
  process_ok p' -> is_active p' = is_active p ->
  processes s' = upd (Z.to_nat pid) p' (processes s) ->
  Permutation (free_frames s' ++ held (page_table p'))
              (free_frames s ++ held (page_table p)) ->
  swap_queue s' = swap_queue s ->
  Inv s'.
Proof.
  intros HI Hg Hok Ha Hp Hperm Hq.
  apply (shifting_Inv_put s s' pid p p'); auto; rewrite ?Hq.
  - apply (inv_queue_nodup s HI).
  - intros x. pose proof (inv_queue_mem s HI x) as Hx. split.
    + intros Hin. destruct (Z.eq_dec x pid) as [->|Hne]; [|right; auto].
      left. split; [reflexivity|]. apply Hx in Hin.
      destruct Hin as (q & Hgq & Haq). congruence.
    + intros [[-> Hi]|[_ Hin]]; [|assumption].
      apply Hx. exists p. split; [assumption | congruence].
Qed.

(** The suspended processes are distinct members of the process array:
    with one process active the queue has a free cell. *)
Lemma shifting_queue_room (s : State) (pid : Z) (p : Process) :
  Inv s -> get_process s pid = Ok p -> is_active p = true ->
  Z.of_nat (length (swap_queue s)) < MAX_PROCESSES.
Proof.
  intros HI Hg Ha.
  set (l := swap_queue s).
  assert (Hnd : NoDup (pid :: l)).
  { constructor; [|apply (inv_queue_nodup s HI)].
    intros Hin. apply (inv_queue_mem s HI) in Hin.
    destruct Hin as (p0 & Hg0 & Ha0). congruence. }
  assert (Hincl : incl (pid :: l) (map Z.of_nat (seq 0 (length (processes s))))).
  { intros x [<-|Hx].
    - apply get_process_bound in Hg. unfold num_processes in Hg.
      apply in_map_iff. exists (Z.to_nat pid). split; [lia|]. apply in_seq. lia.
    - apply (inv_queue_mem s HI) in Hx. destruct Hx as (p0 & Hg0 & _).
      apply get_process_bound in Hg0. unfold num_processes in Hg0.
      apply in_map_iff. exists (Z.to_nat x). split; [lia|]. apply in_seq. lia. }
  apply NoDup_incl_length in Hincl; [|assumption].
  rewrite length_map, length_seq in Hincl. simpl length in Hincl.
  pose proof (inv_count s HI) as Hc. unfold num_processes in Hc.
  subst l. lia.
Qed.

(** Swap-out of a runnable process keeps the invariant and leaves the
    other processes as they were. *)
Lemma shifting_swap_out_inv (s s' : State) (pid : Z) (p : Process) :
  Inv s -> get_process s pid = Ok p -> is_active p = true -> finished p = false ->
  swap_out_process s pid = Ok s' ->
  Inv s' /\ forall x, x <> pid -> runnable s x -> runnable s' x.
Proof.
  intros HI Hg Ha Hfin Hrun.
  destruct (shifting_swap_out_spec s pid p Hg (shifting_queue_room s pid p HI Hg Ha))
    as (s1 & Hrun1 & Hp & Hf & Hq & _).
  rewrite Hrun in Hrun1. injection Hrun1 as <-.
  pose proof (shifting_inv_process_ok s pid p HI Hg) as Hok.
  assert (Hnotin : ~ In pid (swap_queue s)).
  { intros Hin. apply (inv_queue_mem s HI) in Hin.
    destruct Hin as (q & Hgq & Haq). congruence. }
  match type of Hp with _ = upd _ ?x _ => set (p' := x) in * end.
  split; [|intros x Hne Hr; eapply shifting_runnable_put; eauto].
  apply (shifting_Inv_put s s' pid p p'); auto.
  - destruct Hok. subst p'. constructor; unfold finished in *; proc_simpl;
      [ rewrite length_map; assumption | assumption | assumption | assumption
      | rewrite held_cleared; reflexivity | intros _; apply held_cleared
      | intros Hc; congruence | discriminate ].
  - rewrite Hf. subst p'. proc_simpl. rewrite held_cleared, app_nil_r.
    rewrite Permutation_app_comm. apply Permutation_app_head.
    symmetry. apply Permutation_rev.
  - rewrite Hq. apply NoDup_app; [apply (inv_queue_nodup s HI) | repeat constructor; auto |].
    intros x Hx [<-|[]]. auto.
  - intros x. rewrite Hq, in_app_iff. cbn. split.
    + intros [Hin|[<-|[]]].
      * right. split; [|assumption]. intros ->. auto.
      * left. auto.
    + intros [[-> _]|[_ Hin]]; auto.
Qed.

(** With no frame free, the frames are held by more than one process. *)
Lemma shifting_other_holder (s : State) (pid : Z) (p : Process) :
  Inv s -> get_process s pid = Ok p -> free_frames s = [] ->
  exists x, x <> pid /\ runnable s x.
Proof.
  intros HI Hg Hfree.
  pose proof (shifting_inv_process_ok s pid p HI Hg) as Hok.
  pose proof Hg as Hn. apply get_process_nth in Hn. destruct Hn as [H0 Hn].
  destruct (upd_split (Z.to_nat pid) p p (processes s) Hn) as (l1 & l2 & Hsplit & _ & Hl1).
  pose proof (inv_frames s HI) as Hperm. apply Permutation_length in Hperm.
  rewrite Hfree, frame_space_length in Hperm. cbn [app] in Hperm.
  rewrite Hsplit, all_held_app, all_held_cons, !length_app in Hperm.
  pose proof (held_length_le (page_table p)) as Hle.
  rewrite (ok_table_size p Hok) in Hle.
  assert (Hne : all_held (l1 ++ l2) <> []).
  { intros Hnil. apply (f_equal (@length _)) in Hnil.
    rewrite all_held_app, length_app in Hnil. cbn [length] in Hnil.
    unfold PAGE_TABLE_SIZE, USER_FRAMES in *. lia. }
  apply all_held_witness in Hne. destruct Hne as (q & Hin & Hheld).
  assert (Hinq : In q (processes s)).
  { rewrite Hsplit. apply in_app_iff. apply in_app_iff in Hin.
    destruct Hin; [left|right; right]; assumption. }
  assert (Hokq : process_ok q).
  { eapply Forall_forall; [apply (inv_procs s HI)|assumption]. }
  assert (Haq : is_active q = true).
  { destruct (is_active q) eqn:E; [reflexivity|].
    exfalso. apply Hheld. apply (ok_inactive q Hokq). assumption. }
  assert (Hfq : finished q = false).
  { destruct (finished q) eqn:E; [|reflexivity].
    exfalso. apply Hheld. apply (ok_finished q Hokq). assumption. }
  apply in_app_iff in Hin. destruct Hin as [Hin|Hin].
  - apply In_nth_error in Hin. destruct Hin as [i Hi].
    assert (Hlt : (i < length l1)%nat) by (apply nth_error_Some; congruence).
    exists (Z.of_nat i). split; [lia|].
    exists q. split; [|auto]. apply zget_ok. split; [lia|].
    rewrite Nat2Z.id, Hsplit, nth_error_app1 by assumption. assumption.
  - apply In_nth_error in Hin. destruct Hin as [i Hi].
    exists (Z.of_nat (length l1 + 1 + i)). split; [lia|].
    exists q. split; [|auto]. apply zget_ok. split; [lia|].
    rewrite Nat2Z.id, Hsplit.
    rewrite nth_error_app2 by lia.
    replace (length l1 + 1 + i - length l1)%nat with (S i) by lia.
    assumption.
Qed.


(** A page fault served from the free stack. *)
Lemma shifting_page_fault_granted
    (s : State) (pid pg : Z) (p : Process) (e f : Z) (free : list Z) :
  Inv s -> get_process s pid = Ok p -> is_active p = true -> finished p = false ->
  zget (page_table p) pg = Ok e -> is_valid e = false ->
  free_frames s = f :: free ->
  exists s',
    handle_page_fault s pid pg = Ok (s', true) /\ Inv s' /\ runnable s' pid.
Proof.
  intros HI Hg Ha Hfin He Hv Hfree.
  pose proof (shifting_inv_process_ok s pid p HI Hg) as Hok.
  pose proof (shifting_inv_free_range s HI) as Hrange. rewrite Hfree in Hrange.
  apply Forall_inv in Hrange.
  pose proof (zget_in_range _ _ _ He) as Hin.
  apply zget_ok in He. destruct He as [Hpg Hne].
  unfold handle_page_fault. rewrite Hg. cbn [bind]. rewrite Hfree, Hin.
  eexists. split; [reflexivity|].
  set (p' := set_frames_allocated _ _).
  set (s' := put_process _ _ _).
  assert (Hperm : Permutation (held (page_table p')) (f :: held (page_table p))).
  { subst p'. proc_simpl.
    rewrite (held_upd_invalid _ _ e (mk_entry f) Hne Hv (is_valid_mk_entry f Hrange)).
    rewrite frame_of_mk_entry by assumption. reflexivity. }
  assert (Hok' : process_ok p').
  { destruct Hok as [K1 K2 K3 K4 K5 K6 K7 K8].
    subst p'. constructor; unfold finished in *; proc_simpl; auto.
    - rewrite upd_length. assumption.
    - apply Permutation_length in Hperm. proc_simpl. rewrite Hperm. simpl length. lia.
    - congruence.
    - congruence.
    - intros _ _ i Hi. apply resident_upd; [apply is_valid_mk_entry; assumption|].
      apply K8; auto. }
  split.
  - apply (shifting_Inv_put_same_queue s s' pid p p'); auto.
    subst s'. state_simpl. rewrite Hfree. rewrite Hperm.
    symmetry. apply Permutation_middle.
  - apply (shifting_runnable_put_same s s' pid p p'); auto.
Qed.

(** One page reference keeps the invariant; the process stays runnable,
    or it is suspended while another process is runnable. *)
Lemma shifting_reference_page_inv (s s' : State) (pid pg : Z) (b : bool) :
  Inv s -> runnable s pid ->
  reference_page s pid pg = Ok (s', b) ->
  Inv s' /\ (if b then runnable s' pid else exists x, runnable s' x).
Proof.
  intros HI (p & Hg & Ha & Hfin). unfold reference_page.
  set (s1 := set_page_accesses s (page_accesses s + 1)).
  assert (Hg1 : get_process s1 pid = Ok p) by exact Hg.
  assert (HI1 : Inv s1) by (apply (shifting_Inv_ext s s1); auto).
  rewrite Hg1. cbn [bind].
  destruct (zget (page_table p) pg) as [e| |] eqn:He; cbn [bind]; try discriminate.
  destruct (is_valid e) eqn:Hv.
  - intros [= <- <-]. split; [assumption|]. exists p. auto.
  - set (s2 := set_page_faults s1 (page_faults s1 + 1)).
    assert (Hg2 : get_process s2 pid = Ok p) by exact Hg.
    assert (HI2 : Inv s2) by (apply (shifting_Inv_ext s1 s2); auto).
    destruct (free_frames s2) as [|f free] eqn:Hfree.
    + unfold handle_page_fault. rewrite Hg2. cbn [bind]. rewrite Hfree.
      destruct (swap_out_process s2 pid) as [s3| |] eqn:Hout; cbn [bind]; try discriminate.
      intros [= <- <-].
      destruct (shifting_swap_out_inv s2 s3 pid p HI2 Hg2 Ha Hfin Hout) as [HI3 Hkeep].
      split; [assumption|].
      destruct (shifting_other_holder s2 pid p HI2 Hg2 Hfree) as (x & Hne & Hx).
      exists x. apply Hkeep; assumption.
    + destruct (shifting_page_fault_granted s2 pid pg p e f free HI2 Hg2 Ha Hfin He Hv Hfree)
        as (s3 & Hrun & HI3 & Hr3).
      rewrite Hrun. intros [= <- <-]. auto.
Qed.

Lemma shifting_search_loop_inv (pid key : Z) (fuel : nat) :
  forall (s s' : State) (L R : Z) (b : bool),
  Inv s -> runnable s pid ->
  search_loop fuel s pid key L R = Ok (s', b) ->
  Inv s' /\ (if b then runnable s' pid else exists x, runnable s' x).
Proof.
  induction fuel as [|fuel IH]; intros s s' L R b HI Hr H; [discriminate|].
  cbn [search_loop] in H. destruct (L <? R).
  - destruct (reference_page s pid (page_of (midpoint L R))) as [[s1 b1]| |] eqn:Href;
      cbn [bind fst snd] in H; try discriminate.
    destruct (shifting_reference_page_inv s s1 pid _ b1 HI Hr Href) as [HI1 Hb1].
    destruct b1.
    + destruct (key <=? midpoint L R); eapply IH; eauto.
    + injection H as <- <-. auto.
  - injection H as <- <-. auto.
Qed.

(** With nothing queued every process is active. *)
Lemma shifting_live_empty (s : State) :
  Inv s -> swap_queue s = [] -> Live s.
Proof.
  intros HI Hq. unfold Live. destruct (all_done s) eqn:Hdone; [left; reflexivity|].
  right. apply forallb_false_witness in Hdone. destruct Hdone as (p & Hin & Hfin).
  destruct (in_get_process s p Hin) as [pid Hg].
  exists pid, p. split; [assumption|]. split; [|assumption].
  destruct (is_active p) eqn:Ha; [reflexivity|].
  assert (Hs : suspended s pid) by (exists p; auto).
  apply (inv_queue_mem s HI) in Hs. rewrite Hq in Hs. contradiction.
Qed.

(** The process in the last cell of the queue gets its essential pages. *)
Lemma shifting_swap_in_inv (s s' : State) (x : Z) (l : list Z) :
  Inv s -> swap_queue s = l ++ [x] ->
  ESSENTIAL_PAGES <= num_free_frames s ->
  swap_in_process (set_swap_queue s l) x = Ok s' ->
  Inv s' /\ runnable s' x.
Proof.
  intros HI Hq Hfree Hrun.
  assert (Hsusp : suspended s x).
  { apply (inv_queue_mem s HI). rewrite Hq. apply in_app_iff. right. left. reflexivity. }
  destruct Hsusp as (p & Hg & Ha).
  pose proof (shifting_inv_process_ok s x p HI Hg) as Hok.
  unfold swap_in_process in Hrun.
  change (get_process (set_swap_queue s l) x) with (get_process s x) in Hrun.
  rewrite Hg in Hrun. cbn [bind] in Hrun. state_simpl.
  destruct (alloc_essential _ _ _ _ _) as [[pt fa] free] eqn:Halloc.
  injection Hrun as <-.
  assert (Hheld : held (page_table p) = []) by (apply (ok_inactive p Hok); assumption).
  assert (Hfin : finished p = false).
  { destruct (finished p) eqn:E; [|reflexivity].
    destruct (ok_finished p Hok E) as [_ Hc]. congruence. }
  apply alloc_essential_spec in Halloc; [| |apply shifting_inv_free_range; assumption].
  2:{ intros j Hj. destruct (nth_error (page_table p) j) as [e|] eqn:E.
      - exists e. split; [reflexivity|]. eapply held_nil_invalid; eauto.
      - apply nth_error_None in E. rewrite (ok_table_size p Hok) in E.
        unfold ESSENTIAL_PAGES, PAGE_TABLE_SIZE in *. lia. }
  destruct Halloc as (taken & Hsplit & Hlen & Hfa & Hperm & Hptlen & Hres & _).
  assert (Hten : length taken = Z.to_nat ESSENTIAL_PAGES).
  { rewrite Hlen. unfold num_free_frames in Hfree. apply Nat.min_l. lia. }
  rewrite Hheld, app_nil_r in Hperm.
  set (p' := set_is_active (set_frames_allocated (set_page_table p pt) fa) true).
  assert (Hok' : process_ok p').
  { destruct Hok as [K1 K2 K3 K4 K5 K6 K7 K8].
    subst p'. constructor; unfold finished in *; proc_simpl; auto.
    - congruence.
    - apply Permutation_length in Hperm. rewrite Hperm, Hfa, K5, Hheld. simpl length. lia.
    - discriminate.
    - congruence.
    - intros _ _ i Hi. apply Hres. lia. }
  assert (Hnd : NoDup (l ++ [x])) by (rewrite <- Hq; apply (inv_queue_nodup s HI)).
  apply NoDup_remove in Hnd. rewrite app_nil_r in Hnd. destruct Hnd as [Hndl Hnotin].
  split.
  - apply (shifting_Inv_put s _ x p p'); auto; state_simpl.
    + subst p'. proc_simpl. rewrite Hperm, Hsplit.
      rewrite Permutation_app_comm. rewrite Hheld, app_nil_r. reflexivity.
    + intros y. rewrite Hq, in_app_iff. subst p'. proc_simpl. cbn [In]. split.
      * intros Hin. right. split; [intros ->; contradiction | left; assumption].
      * intros [[_ Hc]|[Hne [Hin|[Hc|[]]]]]; [discriminate | assumption | congruence].
  - eapply (shifting_runnable_put_same s _ x p p'); eauto.
Qed.

(** The end of a search (lines 195-209). *)
Lemma shifting_complete_search_inv (s s' : State) (pid : Z) :
  Inv s -> runnable s pid ->
  complete_search s pid = Ok s' -> Inv s' /\ Live s'.
Proof.
  intros HI (p & Hg & Ha & Hfin).
  pose proof (shifting_inv_process_ok s pid p HI Hg) as Hok.
  unfold complete_search. rewrite Hg. cbn [bind].
  set (p1 := set_current_search p (current_search p + 1)).
  assert (Hcur : current_search p < num_searches p).
  { unfold finished in Hfin. apply Z.leb_gt in Hfin. assumption. }
  destruct (finished p1) eqn:Hfin1.
  - rewrite release_frames_spec.
    set (p2 := set_frames_allocated _ 0).
    set (s1 := put_process _ pid p2).
    assert (Hok2 : process_ok p2).
    { destruct Hok as [K1 K2 K3 K4 K5 K6 K7 K8].
      subst p2 p1. constructor; proc_simpl;
        [ rewrite length_map; assumption | assumption | assumption | lia
        | rewrite held_cleared; reflexivity | intros _; apply held_cleared
        | intros _; split; [apply held_cleared | assumption]
        | intros _ Hc; unfold finished in *; proc_simpl; congruence ]. }
    assert (HI1 : Inv s1).
    { apply (shifting_Inv_put_same_queue s s1 pid p p2); auto.
      subst s1 p2 p1. state_simpl. proc_simpl. rewrite held_cleared, app_nil_r.
      rewrite Permutation_app_comm. apply Permutation_app_head.
      symmetry. apply Permutation_rev. }
    destruct (rev (swap_queue s1)) as [|next before] eqn:Hrev.
    + intros [= <-]. split; [assumption|]. apply shifting_live_empty; [assumption|].
      apply (f_equal (@rev _)) in Hrev. rewrite rev_involutive in Hrev. assumption.
    + intros Hin.
      assert (Hq : swap_queue s1 = rev before ++ [next]).
      { apply (f_equal (@rev _)) in Hrev. rewrite rev_involutive in Hrev. assumption. }
      assert (Hfree : ESSENTIAL_PAGES <= num_free_frames s1).
      { pose proof (resident_prefix_count _ _ (ok_essential p Hok Ha Hfin)) as Hten.
        unfold num_free_frames. subst s1. state_simpl.
        rewrite length_app, length_rev. change (page_table p1) with (page_table p).
        unfold ESSENTIAL_PAGES in *. lia. }
      destruct (shifting_swap_in_inv s1 s' next (rev before) HI1 Hq Hfree Hin) as [HI' Hr'].
      split; [assumption|]. right. exists next. assumption.
  - intros [= <-].
    assert (Hok1 : process_ok p1).
    { destruct Hok as [K1 K2 K3 K4 K5 K6 K7 K8].
      subst p1. constructor; proc_simpl;
        [ assumption | assumption | assumption | lia | assumption | assumption
        | intros Hc; congruence | intros _ _; apply K8; assumption ]. }
    split.
    + apply (shifting_Inv_put_same_queue s _ pid p p1); auto.
    + right. exists pid. apply (shifting_runnable_put_same s _ pid p p1); auto.
Qed.

(** A turn of a runnable process (lines 165-210). *)
Lemma shifting_simulate_inv (s s' : State) (pid : Z) :
  Inv s -> runnable s pid ->
  simulate_binary_search s pid = Ok s' -> Inv s' /\ Live s'.
Proof.
  intros HI Hr. pose proof Hr as (p & Hg & Ha & Hfin).
  unfold simulate_binary_search. rewrite Hg. cbn [bind].
  destruct (zget (search_indices p) (current_search p)) as [key| |]; cbn [bind];
    try discriminate.
  destruct (search_loop _ s pid key 0 (array_size p - 1)) as [[s1 b]| |] eqn:Hloop;
    cbn [bind fst snd]; try discriminate.
  destruct (shifting_search_loop_inv pid key _ s s1 _ _ b HI Hr Hloop) as [HI1 Hb].
  destruct b.
  - apply shifting_complete_search_inv; assumption.
  - intros [= <-]. split; [assumption|]. right. assumption.
Qed.


(** The scan of lines 250-257 from [original + d], when the [d] processes
    before it are not runnable: it stops at a runnable process, or no
    process is runnable. *)
Lemma select_process_scan (s : State) (original : Z) (k : nat) :
  forall (d ap : Z),
  0 <= original < num_processes s -> 0 <= d < num_processes s ->
  (Z.to_nat (num_processes s - d) <= k)%nat ->
  (forall j, 0 <= j < d -> ~ runnable s ((original + j) mod num_processes s)) ->
  select_process k s ((original + d) mod num_processes s) original = Ok ap ->
  runnable s ap \/ forall x, ~ runnable s x.
Proof.
  set (P := num_processes s).
  induction k as [|k IH]; intros d ap Ho Hd Hk Hnone H; [lia|].
  cbn [select_process] in H. fold P in H.
  set (cur := (original + d) mod P) in *.
  assert (Hcur : 0 <= cur < P) by (apply Z.mod_pos_bound; lia).
  destruct (get_process_defined s cur Hcur) as [p Hg].
  rewrite Hg in H. cbn [bind] in H.
  destruct (is_active p && negb (finished p)) eqn:Hrun.
  - injection H as <-. left. apply andb_prop in Hrun. destruct Hrun as [Ha Hf].
    apply negb_true_iff in Hf. exists p. auto.
  - assert (Hnot : ~ runnable s cur).
    { intros (p0 & Hg0 & Ha & Hf). rewrite Hg in Hg0. injection Hg0 as <-.
      rewrite Ha, Hf in Hrun. discriminate. }
    assert (Hnext : Z.rem (cur + 1) P = (original + (d + 1)) mod P).
    { rewrite Z.rem_mod_nonneg by lia. subst cur.
      rewrite Zplus_mod_idemp_l. f_equal. lia. }
    rewrite Hnext in H.
    assert (Hnone' : forall j, 0 <= j < d + 1 -> ~ runnable s ((original + j) mod P)).
    { intros j Hj. destruct (Z.eq_dec j d) as [->|Hne]; [exact Hnot|].
      apply Hnone. lia. }
    destruct (Z.eq_dec (d + 1) P) as [Hlast|Hmore].
    + right. intros x Hx.
      assert (Hxr : 0 <= x < P) by (destruct Hx as (q & Hq & _); apply (get_process_bound s x q Hq)).
      apply (Hnone' ((x - original) mod P)).
      * pose proof (Z.mod_pos_bound (x - original) P). lia.
      * rewrite Zplus_mod_idemp_r.
        replace (original + (x - original)) with x by lia.
        rewrite Z.mod_small by lia. assumption.
    + destruct (Z.eqb_spec ((original + (d + 1)) mod P) original) as [Heq|Hneq].
      * exfalso.
        assert (Hz : (d + 1) mod P = 0).
        { apply (f_equal (fun z => (z - original) mod P)) in Heq.
          rewrite Zminus_mod_idemp_l in Heq.
          replace (original + (d + 1) - original) with (d + 1) in Heq by lia.
          rewrite Z.sub_diag in Heq. rewrite Heq. apply Z.mod_0_l. lia. }
        rewrite Z.mod_small in Hz by lia. lia.
      * apply (IH (d + 1) ap); auto; lia.
Qed.

Lemma select_process_runnable (s : State) (c ap : Z) :
  0 <= c < num_processes s -> (exists x, runnable s x) ->
  select_process (length (processes s)) s c c = Ok ap -> runnable s ap.
Proof.
  intros Hc [x Hx] H.
  destruct (select_process_scan s c (length (processes s)) 0 ap) as [Hr|Hnone]; auto.
  - lia.
  - unfold num_processes. lia.
  - intros j Hj. lia.
  - rewrite Z.add_0_r, Z.mod_small by lia. assumption.
  - exfalso. apply (Hnone x). assumption.
Qed.

(** One round of the scheduling loop keeps the invariant: the process
    chosen is runnable, so the release and the drain of lines 260-281 are
    skipped and the round is one turn of that process; the queue local to
    [main] is left alone or grows by that process. *)
Lemma shifting_main_step_inv (s s' : State) (queue queue' : list Z) (c c' : Z) :
  Inv s -> Live s -> all_done s = false -> 0 <= c < num_processes s ->
  main_step s queue c = Ok (s', queue', c') ->
  Inv s' /\ Live s' /\ 0 <= c' < num_processes s' /\
  exists ap, runnable s ap /\ simulate_binary_search s ap = Ok s' /\
             (queue' = queue \/ queue' = queue ++ [ap]).
Proof.
  intros HI HL Hdone Hc H.
  destruct HL as [Hall|Hsome]; [congruence|].
  unfold main_step in H.
  destruct (select_process _ s c c) as [ap| |] eqn:Hsel; cbn [bind] in H; try discriminate.
  pose proof (select_process_runnable s c ap Hc Hsome Hsel) as Hr.
  pose proof Hr as (p & Hg & Ha & Hfin).
  rewrite Hg in H. cbn [bind] in H. rewrite Hfin in H. cbn [bind fst snd] in H.
  rewrite Hg in H. cbn [bind] in H. rewrite Ha in H.
  destruct (simulate_binary_search s ap) as [s2| |] eqn:Hsim; cbn [bind] in H;
    try discriminate.
  destruct (shifting_simulate_inv s s2 ap HI Hr Hsim) as [HI2 HL2].
  assert (Hs' : s' = s2 /\ c' = Z.rem (ap + 1) (num_processes s2) /\
                (queue' = queue \/ queue' = queue ++ [ap])).
  { destruct (get_process s2 ap) as [p2| |]; cbn [bind] in H; try discriminate.
    destruct (is_active p2).
    - injection H as <- <- <-. auto.
    - unfold push_back in H.
      destruct (Z.of_nat (length queue) <? MAX_PROCESSES); cbn [bind fst snd] in H;
        try discriminate.
      injection H as <- <- <-. auto. }
  destruct Hs' as (-> & -> & Hq).
  split; [assumption|]. split; [assumption|]. split.
  - apply cursor_next; [apply (get_process_bound s ap p Hg)|].
    pose proof (inv_count s2 HI2). lia.
  - exists ap. auto.
Qed.

(** Initialization establishes the invariant. *)
Lemma shifting_initialize_inv (input : list Z) (s : State) :
  initialize_system input = Some s -> Inv s /\ Live s.
Proof.
  unfold initialize_system, initialize_with. intros H.
  destruct input as [|np [|ns rest]]; try discriminate.
  destruct (_ || _) eqn:Hguard; [discriminate|].
  apply orb_false_elim in Hguard. destruct Hguard as [Hguard H4].
  apply orb_false_elim in Hguard. destruct Hguard as [Hguard H3].
  apply orb_false_elim in Hguard. destruct Hguard as [H1 H2].
  apply Z.leb_gt in H1, H3. apply Z.ltb_ge in H2, H4.
  destruct (init_processes _ _ _ _) as [[ps free]|] eqn:E; [|discriminate].
  injection H as <-.
  assert (Hrange : Forall (fun f => 0 <= f < VALID_BIT_MASK) initial_free_frames).
  { apply Forall_forall. intros f Hf.
    apply (Permutation_in _ initial_free_frames_perm) in Hf.
    apply frame_space_range in Hf. unfold USER_FRAMES, VALID_BIT_MASK in *. lia. }
  apply init_processes_spec in E; [|lia|assumption|].
  2:{ rewrite (Permutation_length initial_free_frames_perm), frame_space_length.
      unfold ESSENTIAL_PAGES, USER_FRAMES, MAX_PROCESSES in *. lia. }
  destruct E as (Hok & Hact & Hperm & Hlen).
  assert (HI : Inv (mkState free ps [] 0 0 0 np [])).
  { constructor; state_simpl.
    - assumption.
    - rewrite Hperm. apply initial_free_frames_perm.
    - unfold num_processes. state_simpl. rewrite Hlen. lia.
    - constructor.
    - intros pid. split; [intros []|].
      intros (p & Hg & Ha). apply get_process_in in Hg. state_simpl.
      rewrite Forall_forall in Hact. rewrite (Hact p Hg) in Ha. discriminate. }
  split; [assumption|]. apply shifting_live_empty; [assumption|reflexivity].
Qed.

(** Every state at the head of the scheduling loop satisfies the
    invariant. *)
Lemma shifting_reachable_inv (s : State) (queue : list Z) (c : Z) :
  reachable s queue c -> Inv s /\ Live s /\ 0 <= c < num_processes s.
Proof.
  induction 1 as [input s Hinit | s queue c s' queue' c' Hreach IH Hdone Hstep].
  - destruct (shifting_initialize_inv input s Hinit) as (HI & HL).
    split; [assumption|]. split; [assumption|].
    pose proof (inv_count s HI). lia.
  - destruct IH as (HI & HL & Hc).
    destruct (shifting_main_step_inv s s' queue queue' c c' HI HL Hdone Hc Hstep)
      as (HI' & HL' & Hc' & _).
    auto.
Qed.

(** The first variant is never stuck: while searches are pending some
    process is runnable, and a round of the loop is a turn of such a
    process. *)
Lemma shifting_never_stuck (s : State) (queue : list Z) (c : Z) :
  reachable s queue c -> all_done s = false ->
  (exists pid, runnable s pid) /\
  forall s' queue' c',
    main_step s queue c = Ok (s', queue', c') ->
    exists ap, runnable s ap /\ simulate_binary_search s ap = Ok s' /\
               (queue' = queue \/ queue' = queue ++ [ap]).
Proof.
  intros Hr Hdone. destruct (shifting_reachable_inv s queue c Hr) as (HI & HL & Hc).
  split.
  - destruct HL as [Hall|Hsome]; [congruence | assumption].
  - intros s' queue' c' Hstep.
    destruct (shifting_main_step_inv s s' queue queue' c c' HI HL Hdone Hc Hstep)
      as (_ & _ & _ & H).
    exact H.
Qed.

Lemma shifting_Inv_conserved (s : State) : Inv s -> frames_conserved s.
Proof.
  intros HI. split; [|apply (inv_frames s HI)].
  eapply Forall_impl; [|apply (inv_procs s HI)]. intros p Hp. apply (ok_allocated p Hp).
Qed.

End ShiftingRun.

(** ** Termination of the scheduling loop of the first variant *)

Lemma count_runnable_upd (ps : list Process) (i : nat) (p p' : Process) :
  nth_error ps i = Some p ->
  count_runnable (upd i p' ps) =
  count_runnable ps - (if is_active p && negb (finished p) then 1 else 0)
                    + (if is_active p' && negb (finished p') then 1 else 0).
Proof.
  revert i. induction ps as [|h t IH]; intros [|i] Hn; simpl in *; try discriminate.
  - inversion Hn; subst. lia.
  - rewrite (IH _ Hn). lia.
Qed.

Lemma count_runnable_bounds (ps : list Process) :
  0 <= count_runnable ps <= Z.of_nat (length ps).
Proof.
  induction ps as [|p t IH]; simpl count_runnable; simpl length; [lia|].
  destruct (is_active p && negb (finished p)); lia.
Qed.

Lemma count_runnable_positive (ps : list Process) (i : nat) (p : Process) :
  nth_error ps i = Some p -> is_active p = true -> finished p = false ->
  1 <= count_runnable ps.
Proof.
  revert i. induction ps as [|h t IH]; intros [|i] Hn Ha Hf; simpl in *; try discriminate.
  - inversion Hn; subst. rewrite Ha, Hf. cbn [andb negb].
    pose proof (count_runnable_bounds t). lia.
  - specialize (IH _ Hn Ha Hf). destruct (is_active h && negb (finished h)); lia.
Qed.

Lemma count_runnable_map (ps ps' : list Process) :
  map static_part ps' = map static_part ps ->
  map current_search ps' = map current_search ps ->
  map is_active ps' = map is_active ps ->
  count_runnable ps' = count_runnable ps.
Proof.
  revert ps'. induction ps as [|p t IH]; intros [|p' t'] H1 H2 H3;
    cbn [map count_runnable] in *; try discriminate; [reflexivity|].
  apply (f_equal (@tl _)) in H1 as Ht1. apply (f_equal (@tl _)) in H2 as Ht2.
  apply (f_equal (@tl _)) in H3 as Ht3.
  apply (f_equal (fun l => hd (0, [], 0) l)) in H1.
  apply (f_equal (fun l => hd 0 l)) in H2.
  apply (f_equal (fun l => hd true l)) in H3.
  cbn [hd tl] in *. apply (f_equal snd) in H1. unfold static_part in H1. cbn [snd] in H1.
  unfold finished. rewrite H1, H2, H3, (IH _ Ht1 Ht2 Ht3). reflexivity.
Qed.

Lemma sized_map (ps ps' : list Process) :
  map static_part ps' = map static_part ps ->
  Forall (fun p => array_size p <= MAX_ARRAY_SIZE) ps ->
  Forall (fun p => array_size p <= MAX_ARRAY_SIZE) ps'.
Proof.
  revert ps'. induction ps as [|p t IH]; intros [|p' t'] Hm HS;
    cbn [map] in Hm; try discriminate; constructor.
  - apply (f_equal (fun l => fst (fst (hd (0, [], 0) l)))) in Hm.
    unfold static_part in Hm. cbn [hd fst] in Hm. inversion HS; subst. lia.
  - apply IH; [|inversion HS; assumption].
    apply (f_equal (@tl _)) in Hm. exact Hm.
Qed.

Section ShiftingTermination.
Import Shifting.

Lemma shifting_num_processes_map (s s' : State) :
  map static_part (processes s') = map static_part (processes s) ->
  num_processes s' = num_processes s.
Proof.
  intros H. apply (f_equal (@length _)) in H. rewrite !length_map in H.
  unfold num_processes. congruence.
Qed.

(** A page reference inside the table has an outcome; when it suspends
    the process, one process fewer is runnable. *)
Lemma shifting_reference_page_total (s : State) (pid pg : Z) :
  Inv s -> runnable s pid -> 0 <= pg < PAGE_TABLE_SIZE ->
  exists s' b,
    reference_page s pid pg = Ok (s', b) /\
    (b = false ->
     count_runnable (processes s') = count_runnable (processes s) - 1 /\
     suspended s' pid).
Proof.
  intros HI (p & Hg & Ha & Hfin) Hpg.
  pose proof (shifting_inv_process_ok s pid p HI Hg) as Hok.
  unfold reference_page.
  set (s1 := set_page_accesses s (page_accesses s + 1)).
  assert (Hg1 : get_process s1 pid = Ok p) by exact Hg.
  assert (HI1 : Inv s1) by (apply (shifting_Inv_ext s s1); auto).
  rewrite Hg1. cbn [bind].
  destruct (in_range_zget (page_table p) pg) as [e He].
  { unfold in_range. rewrite (ok_table_size p Hok).
    apply andb_true_intro. unfold PAGE_TABLE_SIZE in *.
    split; [apply Z.leb_le | apply Z.ltb_lt]; lia. }
  rewrite He. cbn [bind]. destruct (is_valid e) eqn:Hv.
  - exists s1, true. split; [reflexivity|]. discriminate.
  - set (s2 := set_page_faults s1 (page_faults s1 + 1)).
    assert (Hg2 : get_process s2 pid = Ok p) by exact Hg.
    assert (HI2 : Inv s2) by (apply (shifting_Inv_ext s1 s2); auto).
    destruct (free_frames s2) as [|f free] eqn:Hfree.
    + destruct (shifting_swap_out_spec s2 pid p Hg2 (shifting_queue_room s2 pid p HI2 Hg2 Ha))
        as (s3 & Hrun & Hp & _).
      exists s3, false. unfold handle_page_fault. rewrite Hg2. cbn [bind].
      rewrite Hfree, Hrun. split; [reflexivity|]. intros _.
      pose proof Hg2 as Hn. apply get_process_nth in Hn. destruct Hn as [H0 Hn].
      split.
      * rewrite Hp, (count_runnable_upd _ _ p _ Hn), Ha, Hfin. proc_simpl.
        cbn [andb negb]. change (processes s2) with (processes s). lia.
      * eexists. split.
        { unfold get_process. rewrite Hp. apply zget_ok. split; [assumption|].
          apply nth_error_upd_same. apply nth_error_Some. congruence. }
        reflexivity.
    + destruct (shifting_page_fault_granted s2 pid pg p e f free HI2 Hg2 Ha Hfin He Hv Hfree)
        as (s3 & Hrun & _).
      exists s3, true. split; [assumption|]. discriminate.
Qed.

Lemma shifting_replay_total (pid : Z) (pages : list Z) :
  forall s : State,
  Inv s -> runnable s pid ->
  Forall (fun pg => 0 <= pg < PAGE_TABLE_SIZE) pages ->
  exists s' b,
    replay s pid pages = Ok (s', b) /\
    (b = false ->
     count_runnable (processes s') = count_runnable (processes s) - 1 /\
     suspended s' pid).
Proof.
  induction pages as [|pg rest IH]; intros s HI Hr Hpages.
  - exists s, true. split; [reflexivity|]. discriminate.
  - inversion Hpages as [|? ? Hpg Hrest]; subst. cbn [replay].
    destruct (shifting_reference_page_total s pid pg HI Hr Hpg) as (s1 & b1 & Href & Hb1).
    rewrite Href. cbn [bind fst snd].
    destruct (shifting_reference_page_inv s s1 pid pg b1 HI Hr Href) as [HI1 Hr1].
    destruct b1.
    + destruct (shifting_reference_page_frame s s1 pid pg true Href) as (_ & F1 & F2 & F3).
      destruct (IH s1 HI1 Hr1 Hrest) as (s' & b & Hrun & Hb).
      exists s', b. split; [assumption|]. intros Hf. destruct (Hb Hf) as [Hc Hs].
      split; [|assumption].
      rewrite Hc, (count_runnable_map _ _ F1 F2 (F3 eq_refl)). reflexivity.
    + exists s1, false. split; [reflexivity|]. assumption.
Qed.

(** What swap-in does in the first variant. *)
Lemma shifting_swap_in_spec (s : State) (pid : Z) (p : Process) :
  get_process s pid = Ok p ->
  exists s' pt fa free,
    alloc_essential (Z.to_nat ESSENTIAL_PAGES) 0 (page_table p)
                    (frames_allocated p) (free_frames s) = (pt, fa, free) /\
    swap_in_process s pid = Ok s' /\
    processes s' =
      upd (Z.to_nat pid)
          (set_is_active (set_frames_allocated (set_page_table p pt) fa) true)
          (processes s) /\
    free_frames s' = free /\
    swap_queue s' = swap_queue s /\
    num_swaps s' = num_swaps s /\
    output s' = output s ++ [SwapInMsg pid (count_active (processes s'))].
Proof.
  intros Hg. unfold swap_in_process. rewrite Hg. cbn [bind].
  destruct (alloc_essential _ _ _ _ _) as [[pt fa] free] eqn:E.
  eexists. exists pt, fa, free. split; [reflexivity|]. split; [reflexivity|].
  state_simpl. repeat split; reflexivity.
Qed.

(** The end of a search has an outcome: one search fewer is pending and
    no more processes are runnable than before. *)
Lemma shifting_complete_search_total (s : State) (pid : Z) :
  Inv s -> runnable s pid ->
  exists s',
    complete_search s pid = Ok s' /\
    map static_part (processes s') = map static_part (processes s) /\
    pending_searches (processes s') = pending_searches (processes s) - 1 /\
    count_runnable (processes s') <= count_runnable (processes s) /\
    exists p', get_process s' pid = Ok p' /\ is_active p' = true.
Proof.
  intros HI (p & Hg & Ha & Hfin).
  pose proof Hg as Hn. apply get_process_nth in Hn. destruct Hn as [H0 Hn].
  unfold complete_search. rewrite Hg. cbn [bind].
  set (p1 := set_current_search p (current_search p + 1)).
  destruct (finished p1) eqn:Hfin1.
  - rewrite release_frames_spec.
    set (p2 := set_frames_allocated _ 0).
    set (s1 := put_process _ pid p2).
    assert (Hg1 : get_process s1 pid = Ok p2).
    { subst s1. apply (get_put_same _ pid p p2). exact Hg. }
    assert (Hst1 : map static_part (processes s1) = map static_part (processes s)).
    { subst s1. state_simpl. apply (map_upd_same _ _ p2 p _ Hn). reflexivity. }
    assert (Hpend1 : pending_searches (processes s1) = pending_searches (processes s) - 1).
    { subst s1. state_simpl. rewrite (pending_searches_upd _ _ p p2 Hn).
      subst p2 p1. proc_simpl. lia. }
    assert (Hcr1 : count_runnable (processes s1) = count_runnable (processes s) - 1).
    { subst s1. state_simpl. rewrite (count_runnable_upd _ _ p p2 Hn), Ha, Hfin.
      change (finished p2) with (finished p1). rewrite Hfin1.
      change (is_active p2) with (is_active p). rewrite Ha. cbn [andb negb]. lia. }
    destruct (rev (swap_queue s1)) as [|next before] eqn:Hrev.
    + exists s1. split; [reflexivity|]. split; [assumption|]. split; [assumption|].
      split; [lia|]. exists p2. auto.
    + assert (Hsusp : suspended s next).
      { apply (inv_queue_mem s HI). apply in_rev.
        change (swap_queue s1) with (swap_queue s) in Hrev. rewrite Hrev. left. reflexivity. }
      destruct Hsusp as (pn & Hgn & Han).
      assert (Hne : pid <> next) by (intros ->; congruence).
      set (s1q := set_swap_queue s1 (rev before)).
      assert (Hgn1 : get_process s1q next = Ok pn).
      { change (get_process s1 next = Ok pn). subst s1.
        rewrite get_put_other by auto. exact Hgn. }
      destruct (shifting_swap_in_spec s1q next pn Hgn1)
        as (s2 & pt & fa & free & _ & Hrun2 & Hp2 & _).
      pose proof Hgn1 as Hnn. apply get_process_nth in Hnn. destruct Hnn as [Hn0 Hnn].
      change (processes s1q) with (processes s1) in Hp2, Hnn.
      exists s2. split; [exact Hrun2|]. split; [|split; [|split]].
      * rewrite Hp2, (map_upd_same _ _ _ pn _ Hnn) by reflexivity. assumption.
      * rewrite Hp2, (pending_searches_upd _ _ pn _ Hnn). proc_simpl. lia.
      * rewrite Hp2, (count_runnable_upd _ _ pn _ Hnn), Han. cbn [andb].
        match goal with |- context [if ?c then 1 else 0] => destruct c end; lia.
      * exists p2. split; [|assumption].
        unfold get_process. rewrite Hp2.
        change (get_process (put_process s1 next
                  (set_is_active (set_frames_allocated (set_page_table pn pt) fa) true)) pid
                = Ok p2).
        rewrite get_put_other by auto. assumption.
  - exists (put_process s pid p1). split; [reflexivity|]. state_simpl.
    split; [apply (map_upd_same _ _ p1 p _ Hn); reflexivity|].
    split; [rewrite (pending_searches_upd _ _ p p1 Hn); subst p1; proc_simpl; lia|].
    split.
    + rewrite (count_runnable_upd _ _ p p1 Hn), Ha, Hfin, Hfin1.
      change (is_active p1) with (is_active p). rewrite Ha. cbn [andb negb]. lia.
    + exists p1. split; [apply (get_put_same s pid p p1 Hg) | assumption].
Qed.

(** A turn of a runnable process over an array that fits the page table:
    the process is suspended and one process fewer is runnable, or the
    search is completed. *)
Lemma shifting_turn (s : State) (pid : Z) :
  Inv s -> Sized s -> runnable s pid ->
  exists s',
    simulate_binary_search s pid = Ok s' /\
    map static_part (processes s') = map static_part (processes s) /\
    ((suspended s' pid /\
      pending_searches (processes s') = pending_searches (processes s) /\
      count_runnable (processes s') = count_runnable (processes s) - 1) \/
     ((exists p', get_process s' pid = Ok p' /\ is_active p' = true) /\
      pending_searches (processes s') = pending_searches (processes s) - 1 /\
      count_runnable (processes s') <= count_runnable (processes s))).
Proof.
  intros HI HS Hr. pose proof Hr as (p & Hg & Ha & Hfin).
  pose proof (shifting_inv_process_ok s pid p HI Hg) as Hok.
  unfold simulate_binary_search. rewrite Hg. cbn [bind].
  assert (Hcur : 0 <= current_search p < num_searches p).
  { pose proof (ok_cursor p Hok). unfold finished in Hfin. apply Z.leb_gt in Hfin. lia. }
  destruct (in_range_zget (search_indices p) (current_search p)) as [key Hkey].
  { unfold in_range. rewrite (ok_keys_size p Hok).
    pose proof (ok_searches p Hok). unfold MAX_SEARCHES in *.
    apply andb_true_intro. split; [apply Z.leb_le | apply Z.ltb_lt]; lia. }
  rewrite Hkey. cbn [bind].
  assert (Hsize : array_size p <= MAX_ARRAY_SIZE).
  { unfold Sized in HS. rewrite Forall_forall in HS. apply HS.
    eapply get_process_in; eauto. }
  destruct (search_fuel_enough 0 (array_size p - 1)) as (f & Ef & Hf).
  rewrite Ef.
  pose proof (shifting_search_loop_replay f pid key s 0 (array_size p - 1)
                ltac:(lia) Hf) as Hloop.
  set (pages := search_pages (S f) key 0 (array_size p - 1)) in *.
  assert (Hpages : Forall (fun pg => 0 <= pg < PAGE_TABLE_SIZE) pages).
  { eapply Forall_impl; [|apply search_pages_range; lia].
    cbv beta. unfold ESSENTIAL_PAGES. lia. }
  destruct (shifting_replay_total pid pages s HI Hr Hpages) as (s1 & b & Hrun & Hb).
  destruct (shifting_replay_frame pid pages s s1 b Hrun) as (F1 & F2 & F3).
  rewrite <- Hloop in Hrun.
  destruct (shifting_search_loop_inv pid key _ s s1 _ _ b HI Hr Hrun) as [HI1 Hr1].
  rewrite Hrun. cbn [bind fst snd]. destruct b.
  - destruct (F3 eq_refl) as [_ F4].
    destruct (shifting_complete_search_total s1 pid HI1 Hr1)
      as (s' & Hc & Hst & Hpend & Hcr & Hact).
    exists s'. split; [assumption|]. split; [congruence|]. right.
    split; [assumption|].
    rewrite Hpend, (pending_searches_map _ _ F1 F2).
    rewrite <- (count_runnable_map _ _ F1 F2 F4). split; [reflexivity | assumption].
  - destruct (Hb eq_refl) as [Hcr Hs].
    exists s1. split; [reflexivity|]. split; [assumption|]. left.
    split; [assumption|]. split; [|assumption].
    apply pending_searches_map; assumption.
Qed.

Lemma select_process_defined (s : State) (original : Z) (k : nat) :
  forall cur : Z,
  0 <= cur < num_processes s ->
  exists ap, select_process k s cur original = Ok ap.
Proof.
  induction k as [|k IH]; intros cur Hcur; cbn [select_process].
  - exists cur. reflexivity.
  - destruct (get_process_defined s cur Hcur) as [p Hg]. rewrite Hg. cbn [bind].
    destruct (is_active p && negb (finished p)); [exists cur; reflexivity|].
    destruct (_ =? original); [eexists; reflexivity|].
    apply IH. apply cursor_next; lia.
Qed.

(** One round of the scheduling loop has an outcome and lowers the
    measure; the queue local to [main] never holds more entries than there
    are processes that are not runnable. *)
Lemma shifting_main_step_total (s : State) (queue : list Z) (c : Z) :
  Inv s -> Live s -> Sized s -> all_done s = false -> 0 <= c < num_processes s ->
  Z.of_nat (length queue) + count_runnable (processes s) <= num_processes s ->
  exists s' queue' c',
    main_step s queue c = Ok (s', queue', c') /\
    Sized s' /\ measure s' < measure s /\
    Z.of_nat (length queue') + count_runnable (processes s') <= num_processes s'.
Proof.
  intros HI HL HS Hdone Hc HK.
  destruct HL as [Hall|Hsome]; [congruence|].
  destruct (select_process_defined s c (length (processes s)) c Hc) as [ap Hsel].
  pose proof (select_process_runnable s c ap Hc Hsome Hsel) as Hr.
  pose proof Hr as (p & Hg & Ha & Hfin).
  pose proof Hg as Hn. apply get_process_nth in Hn. destruct Hn as [H0 Hn].
  destruct (shifting_turn s ap HI HS Hr) as (s2 & Hsim & Hst & Hcases).
  pose proof (shifting_num_processes_map s s2 Hst) as HP.
  pose proof (count_runnable_positive _ _ p Hn Ha Hfin) as Hpos.
  pose proof (inv_count s HI) as Hcount.
  unfold main_step. rewrite Hsel. cbn [bind]. rewrite Hg. cbn [bind].
  rewrite Hfin. cbn [bind fst snd]. rewrite Hg. cbn [bind]. rewrite Ha, Hsim. cbn [bind].
  assert (HS2 : Sized s2) by (unfold Sized in *; eapply sized_map; eauto).
  destruct Hcases as [((p2 & Hg2 & Ha2) & Hpend & Hcr)|((p2 & Hg2 & Ha2) & Hpend & Hcr)];
    rewrite Hg2; cbn [bind]; rewrite Ha2.
  - unfold push_back.
    destruct (Z.ltb_spec (Z.of_nat (length queue)) MAX_PROCESSES) as [_|Hfull]; [|lia].
    cbn [bind fst snd]. do 3 eexists. split; [reflexivity|]. split; [assumption|].
    unfold measure. rewrite HP, Hpend, Hcr, length_app. cbn [length]. split; lia.
  - cbn [bind fst snd]. do 3 eexists. split; [reflexivity|]. split; [assumption|].
    unfold measure. rewrite HP, Hpend. split; [|lia].
    pose proof (count_runnable_bounds (processes s)). unfold num_processes in *. nia.
Qed.

Lemma shifting_measure_nonneg (s : State) : Inv s -> 0 <= measure s.
Proof.
  intros HI. unfold measure.
  pose proof (pending_searches_nonneg _ (inv_procs s HI)).
  pose proof (count_runnable_bounds (processes s)).
  pose proof (inv_count s HI). nia.
Qed.

(** From a state that satisfies the invariant, with arrays that fit the
    page table, the scheduling loop ends with every search done. *)
Lemma shifting_main_loop_terminates (n : nat) :
  forall (s : State) (queue : list Z) (c : Z),
  Inv s -> Live s -> Sized s -> 0 <= c < num_processes s ->
  Z.of_nat (length queue) + count_runnable (processes s) <= num_processes s ->
  measure s < Z.of_nat n ->
  exists fuel s', main_loop fuel s queue c = Ok s' /\ all_done s' = true /\ Inv s'.
Proof.
  induction n as [|n IH]; intros s queue c HI HL HS Hc HK Hm.
  - pose proof (shifting_measure_nonneg s HI). lia.
  - destruct (all_done s) eqn:Hdone.
    + exists 1%nat, s. cbn [main_loop]. rewrite Hdone. auto.
    + destruct (shifting_main_step_total s queue c HI HL HS Hdone Hc HK)
        as (s1 & queue1 & c1 & Hstep & HS1 & Hlt & HK1).
      destruct (shifting_main_step_inv s s1 queue queue1 c c1 HI HL Hdone Hc Hstep)
        as (HI1 & HL1 & Hc1 & _).
      destruct (IH s1 queue1 c1 HI1 HL1 HS1 Hc1 HK1 ltac:(lia))
        as (fuel & s' & Hrun & Hend & HI').
      exists (S fuel), s'. cbn [main_loop]. rewrite Hdone, Hstep. cbn [bind fst snd].
      auto.
Qed.

Lemma shifting_main_loop_ok_done (fuel : nat) :
  forall (s s' : State) (queue : list Z) (c : Z),
  main_loop fuel s queue c = Ok s' -> all_done s' = true.
Proof.
  induction fuel as [|fuel IH]; intros s s' queue c H; [discriminate|].
  cbn [main_loop] in H. destruct (all_done s) eqn:Hd.
  - injection H as <-. assumption.
  - destruct (main_step s queue c) as [r| |]; cbn [bind] in H; try discriminate.
    eapply IH; eauto.
Qed.

End ShiftingTermination.


(** ** Arithmetic in [int] *)

Lemma wrap_int_fits (z : Z) : fits_int z -> wrap_int z = z.
Proof.
  unfold fits_int, wrap_int, INT_MIN, INT_MAX. intros H.
  rewrite Z.mod_small by lia. lia.
Qed.

(** Inside the range of [int] the wrapping loop is the loop on [Z]. *)
Lemma search_pages_int_agrees (fuel : nat) (key : Z) :
  forall L R : Z,
  0 <= L -> R <= MAX_INT_ARRAY_SIZE - 1 ->
  search_pages_int fuel key L R = search_pages fuel key L R.
Proof.
  induction fuel as [|fuel IH]; intros L R HL HR; [reflexivity|].
  cbn [search_pages_int search_pages].
  destruct (Z.ltb_spec L R) as [Hlt|_]; [|reflexivity].
  destruct (midpoint_bounds L R HL Hlt) as [HM _].
  unfold MAX_INT_ARRAY_SIZE in HR.
  assert (H1 : wrap_int (L + R) = L + R)
    by (apply wrap_int_fits; unfold fits_int, INT_MIN, INT_MAX; lia).
  rewrite H1. fold (midpoint L R).
  assert (H2 : wrap_int (midpoint L R * 4) = midpoint L R * 4)
    by (apply wrap_int_fits; unfold fits_int, INT_MIN, INT_MAX; lia).
  rewrite H2. fold (page_of (midpoint L R)).
  assert (Hp : 0 <= Z.quot (midpoint L R * 4) PAGE_SIZE <= midpoint L R).
  { unfold PAGE_SIZE. rewrite Z.quot_div_nonneg by lia.
    split; [apply Z.div_pos; lia|]. apply Z.div_le_upper_bound; lia. }
  assert (H3 : wrap_int (page_of (midpoint L R)) = page_of (midpoint L R)).
  { apply wrap_int_fits. unfold page_of, fits_int, INT_MIN, INT_MAX, ESSENTIAL_PAGES.
    set (q := Z.quot (midpoint L R * 4) PAGE_SIZE) in *. lia. }
  rewrite H3.
  assert (H4 : wrap_int (midpoint L R + 1) = midpoint L R + 1)
    by (apply wrap_int_fits; unfold fits_int, INT_MIN, INT_MAX; lia).
  rewrite H4.
  f_equal. destruct (key <=? midpoint L R); apply IH; unfold MAX_INT_ARRAY_SIZE; lia.
Qed.

(** The pages of a step, for an array size whose arithmetic stays inside
    [int]. *)
Lemma step_pages_int_agree (size key : Z) :
  INT_MIN < size <= MAX_INT_ARRAY_SIZE ->
  search_pages_int (search_fuel 0 (size - 1)) key 0 (wrap_int (size - 1)) =
  search_pages (search_fuel 0 (size - 1)) key 0 (size - 1).
Proof.
  intros H. unfold MAX_INT_ARRAY_SIZE in H.
  rewrite (wrap_int_fits (size - 1)) by (unfold fits_int, INT_MIN, INT_MAX in *; lia).
  apply search_pages_int_agrees; unfold MAX_INT_ARRAY_SIZE; lia.
Qed.

Lemma int_sized_Sized_circular (s : Circular.State) :
  int_sized (processes s) -> Circular.Sized s.
Proof.
  unfold int_sized, Circular.Sized. apply Forall_impl. intros p H. lia.
Qed.

Lemma int_sized_Sized_shifting (s : Shifting.State) :
  int_sized (processes s) -> Shifting.Sized s.
Proof.
  unfold int_sized, Shifting.Sized. apply Forall_impl. intros p H. lia.
Qed.

(** A turn of a runnable process of the first variant has a defined
    outcome when its array is small enough for the page table. *)
Lemma shifting_turn_defined (s : Shifting.State) (pid : Z) (p : Process) :
  Shifting.Inv s -> get_process s pid = Ok p ->
  is_active p = true -> finished p = false ->
  array_size p <= MAX_ARRAY_SIZE ->
  exists s', Shifting.simulate_binary_search s pid = Ok s'.
Proof.
  intros HI Hg Ha Hfin Hsize.
  assert (Hr : Shifting.runnable s pid) by (exists p; auto).
  pose proof (shifting_inv_process_ok s pid p HI Hg) as Hok.
  unfold Shifting.simulate_binary_search. rewrite Hg. cbn [bind].
  assert (Hcur : 0 <= current_search p < num_searches p).
  { pose proof (ok_cursor p Hok). unfold finished in Hfin. apply Z.leb_gt in Hfin. lia. }
  destruct (in_range_zget (search_indices p) (current_search p)) as [key Hkey].
  { unfold in_range. rewrite (ok_keys_size p Hok).
    pose proof (ok_searches p Hok). unfold MAX_SEARCHES in *.
    apply andb_true_intro. split; [apply Z.leb_le | apply Z.ltb_lt]; lia. }
  rewrite Hkey. cbn [bind].
  destruct (search_fuel_enough 0 (array_size p - 1)) as (f & Ef & Hf).
  rewrite Ef.
  pose proof (shifting_search_loop_replay f pid key s 0 (array_size p - 1)
                ltac:(lia) Hf) as Hloop.
  set (pages := search_pages (S f) key 0 (array_size p - 1)) in *.
  assert (Hpages : Forall (fun pg => 0 <= pg < PAGE_TABLE_SIZE) pages).
  { eapply Forall_impl; [|apply search_pages_range; lia].
    cbv beta. unfold ESSENTIAL_PAGES. lia. }
  destruct (shifting_replay_total pid pages s HI Hr Hpages) as (s1 & b & Hrun & Hb).
  rewrite <- Hloop in Hrun.
  destruct (shifting_search_loop_inv pid key _ s s1 _ _ b HI Hr Hrun) as [HI1 Hr1].
  rewrite Hrun. cbn [bind fst snd]. destruct b.
  - destruct (shifting_complete_search_total s1 pid HI1 Hr1) as (s' & Hc & _).
    exists s'. assumption.
  - exists s1. reflexivity.
Qed.

Lemma fits_intb_spec (l : list Z) : forallb fits_intb l = true -> Forall fits_int l.
Proof.
  intros H. apply Forall_forall. intros z Hz.
  rewrite forallb_forall in H. specialize (H z Hz).
  unfold fits_intb in H. apply andb_prop in H. destruct H as [H1 H2].
  apply Z.leb_le in H1, H2. split; assumption.
Qed.

(** A run that ends went through every round that has a defined
    outcome. *)
Lemma main_loop_through_rounds (k : nat) :
  forall (fuel : nat) (s s1 s' : Circular.State) (c c1 : Z),
  circular_rounds k s c = Ok (s1, c1) -> all_done s1 = false ->
  Circular.main_loop fuel s c = Ok s' ->
  exists fuel', Circular.main_loop fuel' s1 c1 = Ok s'.
Proof.
  induction k as [|k IH]; intros fuel s s1 s' c c1 Hk Hd Hrun.
  - injection Hk as <- <-. eauto.
  - cbn [circular_rounds] in Hk. destruct (all_done s) eqn:Hs.
    + injection Hk as <- <-. congruence.
    + destruct fuel as [|fuel]; [discriminate|].
      cbn [Circular.main_loop] in Hrun. rewrite Hs in Hrun.
      destruct (Circular.simulate_binary_search s c) as [s2| |]; cbn [bind] in Hk, Hrun;
        try discriminate.
      apply (IH fuel s2 s1 s' _ c1 Hk Hd Hrun).
Qed.

(** ** Rounds of the scheduling loop *)

Lemma shifting_rounds_done (k : nat) (s : Shifting.State) (queue : list Z) (c : Z) :
  all_done s = true -> shifting_rounds k s queue c = Ok (s, queue, c).
Proof. intros H. destruct k; cbn [shifting_rounds]; [|rewrite H]; reflexivity. Qed.

Lemma shifting_rounds_app (a b : nat) :
  forall (s : Shifting.State) (queue : list Z) (c : Z),
  shifting_rounds (a + b) s queue c =
  do r <- shifting_rounds a s queue c;
  shifting_rounds b (fst (fst r)) (snd (fst r)) (snd r).
Proof.
  induction a as [|a IH]; intros s queue c; [reflexivity|].
  cbn [Nat.add shifting_rounds]. destruct (all_done s) eqn:Hd.
  - cbn [bind fst snd]. symmetry. apply shifting_rounds_done. assumption.
  - destruct (Shifting.main_step s queue c) as [[[s1 q1] c1]| |]; cbn [bind fst snd];
      [apply IH|reflexivity|reflexivity].
Qed.

Lemma shifting_rounds_reachable (k : nat) :
  forall (s s' : Shifting.State) (queue queue' : list Z) (c c' : Z),
  Shifting.reachable s queue c ->
  shifting_rounds k s queue c = Ok (s', queue', c') ->
  Shifting.reachable s' queue' c'.
Proof.
  induction k as [|k IH]; intros s s' queue queue' c c' Hr H.
  - injection H as <- <- <-. assumption.
  - cbn [shifting_rounds] in H. destruct (all_done s) eqn:Hd.
    + injection H as <- <- <-. assumption.
    + destruct (Shifting.main_step s queue c) as [[[s1 q1] c1]| |] eqn:E;
        cbn [bind fst snd] in H; try discriminate.
      apply (IH s1 s' q1 queue' c1 c'); [|assumption].
      eapply Shifting.reach_step; eauto.
Qed.

Lemma circular_rounds_done (k : nat) (s : Circular.State) (c : Z) :
  all_done s = true -> circular_rounds k s c = Ok (s, c).
Proof. intros H. destruct k; cbn [circular_rounds]; [|rewrite H]; reflexivity. Qed.

Lemma circular_rounds_app (a b : nat) :
  forall (s : Circular.State) (c : Z),
  circular_rounds (a + b) s c =
  do r <- circular_rounds a s c; circular_rounds b (fst r) (snd r).
Proof.
  induction a as [|a IH]; intros s c; [reflexivity|].
  cbn [Nat.add circular_rounds]. destruct (all_done s) eqn:Hd.
  - cbn [bind fst snd]. symmetry. apply circular_rounds_done. assumption.
  - destruct (Circular.simulate_binary_search s c) as [s1| |]; cbn [bind];
      [apply IH|reflexivity|reflexivity].
Qed.

Lemma circular_rounds_reachable (k : nat) :
  forall (s s' : Circular.State) (c c' : Z),
  Circular.reachable s c ->
  circular_rounds k s c = Ok (s', c') ->
  Circular.reachable s' c'.
Proof.
  induction k as [|k IH]; intros s s' c c' Hr H.
  - injection H as <- <-. assumption.
  - cbn [circular_rounds] in H. destruct (all_done s) eqn:Hd.
    + injection H as <- <-. assumption.
    + destruct (Circular.simulate_binary_search s c) as [s1| |] eqn:E;
        cbn [bind] in H; try discriminate.
      apply (IH s1 s' (Z.rem (c + 1) (num_processes s1)) c'); [|assumption].
      eapply Circular.reach_step; eauto.
Qed.

Lemma same_list_eq (a b : list Z) :
  (if list_eq_dec Z.eq_dec a b then true else false) = true -> a = b.
Proof. destruct (list_eq_dec Z.eq_dec a b); [auto|discriminate]. Qed.

(** ** Where an interrupted step stops *)

Section CircularStops.
Import Circular.

Lemma circular_replay_stops (pid : Z) (pages : list Z) :
  forall s s' : State,
  replay s pid pages = Ok (s', false) ->
  exists pre pg post s1,
    pages = pre ++ pg :: post /\
    replay s pid pre = Ok (s1, true) /\
    reference_page s1 pid pg = Ok (s', false).
Proof.
  induction pages as [|pg rest IH]; intros s s' H; [discriminate|].
  cbn [replay] in H.
  destruct (reference_page s pid pg) as [[s1 b1]| |] eqn:Href; cbn [bind fst snd] in H;
    try discriminate.
  destruct b1.
  - destruct (IH s1 s' H) as (pre & pg' & post & s2 & -> & Hpre & Hlast).
    exists (pg :: pre), pg', post, s2. split; [reflexivity|]. split; [|assumption].
    cbn [replay]. rewrite Href. cbn [bind fst snd]. assumption.
  - injection H as <-. exists [], pg, rest, s. auto.
Qed.

End CircularStops.

Section ShiftingStops.
Import Shifting.

Lemma shifting_replay_stops (pid : Z) (pages : list Z) :
  forall s s' : State,
  replay s pid pages = Ok (s', false) ->
  exists pre pg post s1,
    pages = pre ++ pg :: post /\
    replay s pid pre = Ok (s1, true) /\
    reference_page s1 pid pg = Ok (s', false).
Proof.
  induction pages as [|pg rest IH]; intros s s' H; [discriminate|].
  cbn [replay] in H.
  destruct (reference_page s pid pg) as [[s1 b1]| |] eqn:Href; cbn [bind fst snd] in H;
    try discriminate.
  destruct b1.
  - destruct (IH s1 s' H) as (pre & pg' & post & s2 & -> & Hpre & Hlast).
    exists (pg :: pre), pg', post, s2. split; [reflexivity|]. split; [|assumption].
    cbn [replay]. rewrite Href. cbn [bind fst snd]. assumption.
  - injection H as <-. exists [], pg, rest, s. auto.
Qed.

End ShiftingStops.


(** * The claims *)

(** C1. Frame conservation: at every state at the head of the scheduling
    loop, of either variant, the number of free frames plus the sum of
    [frames_allocated] over the processes is [USER_FRAMES], and the free
    stack together with the frames of all valid page-table entries is the
    frame space [0 .. USER_FRAMES - 1] with no frame twice and none
    missing; initialization establishes this, and page-fault handling,
    swap-out, swap-in and the release at the end of the last search
    preserve it. *)
Theorem frame_conservation :
  (forall (s : Circular.State) (c : Z),
     Circular.reachable s c ->
     frames_conserved s /\
     num_free_frames s + total_allocated (processes s) = USER_FRAMES /\
     NoDup (free_frames s ++ all_held (processes s)) /\
     (forall f, In f (free_frames s ++ all_held (processes s)) <-> 0 <= f < USER_FRAMES)) /\
  (forall (s : Shifting.State) (queue : list Z) (c : Z),
     Shifting.reachable s queue c ->
     frames_conserved s /\
     num_free_frames s + total_allocated (processes s) = USER_FRAMES /\
     NoDup (free_frames s ++ all_held (processes s)) /\
     (forall f, In f (free_frames s ++ all_held (processes s)) <-> 0 <= f < USER_FRAMES)) /\
  (forall (input : list Z) (s : Circular.State),
     Circular.initialize_system input = Some s -> frames_conserved s) /\
  (forall (input : list Z) (s : Shifting.State),
     Shifting.initialize_system input = Some s -> frames_conserved s) /\
  (forall (s : Circular.State) (pid pg e : Z) (p : Process) (r : Circular.State * bool),
     frames_conserved s -> get_process s pid = Ok p ->
     zget (page_table p) pg = Ok e -> is_valid e = false ->
     Circular.handle_page_fault s pid pg = Ok r -> frames_conserved (fst r)) /\
  (forall (s : Shifting.State) (pid pg e : Z) (p : Process) (r : Shifting.State * bool),
     frames_conserved s -> get_process s pid = Ok p ->
     zget (page_table p) pg = Ok e -> is_valid e = false ->
     Shifting.handle_page_fault s pid pg = Ok r -> frames_conserved (fst r)) /\
  (forall (s s' : Circular.State) (pid : Z),
     frames_conserved s -> Circular.swap_out_process s pid = Ok s' ->
     frames_conserved s') /\
  (forall (s s' : Shifting.State) (pid : Z),
     frames_conserved s -> Shifting.swap_out_process s pid = Ok s' ->
     frames_conserved s') /\
  (forall (s s' : Circular.State) (pid : Z) (p : Process),
     frames_conserved s -> get_process s pid = Ok p ->
     (is_active p = false ->
      held (page_table p) = [] /\
      (Z.to_nat ESSENTIAL_PAGES <= length (page_table p))%nat) ->
     Circular.swap_in_process s pid = Ok s' -> frames_conserved s') /\
  (forall (s s' : Circular.State) (pid : Z),
     Circular.Inv s -> Circular.runnable s pid ->
     Circular.complete_search s pid = Ok s' -> frames_conserved s') /\
  (forall (s s' : Shifting.State) (x : Z) (l : list Z),
     Shifting.Inv s -> swap_queue s = l ++ [x] ->
     ESSENTIAL_PAGES <= num_free_frames s ->
     Shifting.swap_in_process (set_swap_queue s l) x = Ok s' -> frames_conserved s') /\
  (forall (s s' : Shifting.State) (pid : Z),
     Shifting.Inv s -> Shifting.runnable s pid ->
     Shifting.complete_search s pid = Ok s' -> frames_conserved s').
Proof.
  split; [|split; [|split; [|split; [|split; [|split; [|split; [|split;
    [|split; [|split; [|split]]]]]]]]]].
  - intros s c Hr. destruct (reachable_inv s c Hr) as (HI & _ & _).
    pose proof (Inv_conserved s HI) as HC. split; [assumption|].
    apply conserved_count. assumption.
  - intros s queue c Hr. destruct (shifting_reachable_inv s queue c Hr) as (HI & _ & _).
    pose proof (shifting_Inv_conserved s HI) as HC. split; [assumption|].
    apply conserved_count. assumption.
  - intros input s H. eapply conserved_init. exact H.
  - intros input s H. eapply conserved_init. exact H.
  - intros. eapply circular_page_fault_conserved; eauto.
  - intros. eapply shifting_page_fault_conserved; eauto.
  - intros. eapply circular_swap_out_conserved; eauto.
  - intros. eapply shifting_swap_out_conserved; eauto.
  - intros. eapply circular_swap_in_conserved; eauto.
  - intros s s' pid HI Hr H.
    destruct (complete_search_spec s pid HI Hr) as (s1 & Hrun & HI1 & _).
    rewrite H in Hrun. injection Hrun as <-. apply Inv_conserved. assumption.
  - intros s s' x l HI Hq Hfree H. apply shifting_Inv_conserved.
    eapply shifting_swap_in_inv; eauto.
  - intros s s' pid HI Hr H. apply shifting_Inv_conserved.
    eapply shifting_complete_search_inv; eauto.
Qed.

(** One process with one search over 5000 elements: after its only turn
    the frames are conserved. *)
Lemma frame_conservation_witness :
  match Circular.initialize_system [1; 1; 5000; 4999] with
  | Some s0 =>
      match Circular.simulate_binary_search s0 0 with
      | Ok s1 => num_free_frames s1 + total_allocated (processes s1) = USER_FRAMES
      | _ => False
      end
  | None => False
  end.
Proof.
  assert (Hb : match Circular.initialize_system [1; 1; 5000; 4999] with
               | Some s0 =>
                   match Circular.simulate_binary_search s0 0 with
                   | Ok _ => negb (all_done s0)
                   | _ => false
                   end
               | None => false
               end = true) by (vm_compute; reflexivity).
  destruct (Circular.initialize_system [1; 1; 5000; 4999]) as [s0|] eqn:E0;
    [|discriminate].
  destruct (Circular.simulate_binary_search s0 0) as [s1| |] eqn:E1; try discriminate.
  apply negb_true_iff in Hb.
  apply (proj1 frame_conservation s1 (Z.rem (0 + 1) (num_processes s1))).
  eapply Circular.reach_step; [eapply Circular.reach_init; exact E0 | exact Hb | exact E1].
Defined.

(** ** Active flag and resident frames *)




(** ** Termination *)

Lemma main_loop_ok_done (fuel : nat) :
  forall (s s' : Circular.State) (c : Z),
  Circular.main_loop fuel s c = Ok s' -> all_done s' = true.
Proof.
  induction fuel as [|fuel IH]; intros s s' c H; [discriminate|].
  cbn [Circular.main_loop] in H. destruct (all_done s) eqn:Hd.
  - injection H as <-. assumption.
  - destruct (Circular.simulate_binary_search s c) as [s1| |]; cbn [bind] in H;
      try discriminate.
    eapply IH; eauto.
Qed.

(** C9, as the code has it.  For a workload of [int] numerals that passes
    the checks of initialization and whose array sizes are above
    [INT_MIN] and at most [MAX_ARRAY_SIZE] = 2086913 the scheduling loop
    of either variant terminates, and it stops only when every process
    has reached its number of searches. *)
Theorem scheduling_terminates (input : list Z) :
  Forall fits_int input ->
  (forall s : Circular.State,
     Circular.initialize_system input = Some s -> int_sized (processes s) ->
     (exists fuel s', Circular.main_loop fuel s 0 = Ok s' /\ all_done s' = true) /\
     (exists fuel stats, Circular.main fuel input = Some (Ok stats)) /\
     (forall fuel s', Circular.main_loop fuel s 0 = Ok s' -> all_done s' = true)) /\
  (forall s : Shifting.State,
     Shifting.initialize_system input = Some s -> int_sized (processes s) ->
     (exists fuel s', Shifting.main_loop fuel s [] 0 = Ok s' /\ all_done s' = true) /\
     (exists fuel stats, Shifting.main fuel input = Some (Ok stats)) /\
     (forall fuel s', Shifting.main_loop fuel s [] 0 = Ok s' -> all_done s' = true)).
Proof.
  intros _. split.
  - intros s Hinit Hint. pose proof (int_sized_Sized_circular s Hint) as Hsized.
    destruct (initialize_inv input s Hinit) as (HI & HP & _).
    pose proof (measure_nonneg s HI) as Hm.
    destruct (main_loop_terminates (S (Z.to_nat (Circular.measure s))) s 0 HI HP Hsized)
      as (fuel & s' & Hrun & Hdone & _).
    { pose proof (Circular.inv_count s HI). lia. }
    { lia. }
    split; [exists fuel, s'; auto|]. split.
    + exists fuel, (print_statistics s'). unfold Circular.main.
      rewrite Hinit, Hrun. reflexivity.
    + intros fuel' s''. apply main_loop_ok_done.
  - intros s Hinit Hint. pose proof (int_sized_Sized_shifting s Hint) as Hsized.
    destruct (shifting_initialize_inv input s Hinit) as (HI & HL).
    pose proof (shifting_measure_nonneg s HI) as Hm.
    destruct (shifting_main_loop_terminates (S (Z.to_nat (Shifting.measure s))) s [] 0
                HI HL Hsized)
      as (fuel & s' & Hrun & Hdone & _).
    { pose proof (Shifting.inv_count s HI). lia. }
    { pose proof (count_runnable_bounds (processes s)). unfold num_processes.
      cbn [length]. lia. }
    { lia. }
    split; [exists fuel, s'; auto|]. split.
    + exists fuel, (print_statistics s'). unfold Shifting.main.
      rewrite Hinit, Hrun. reflexivity.
    + intros fuel' s''. apply shifting_main_loop_ok_done.
Qed.

(** Two processes, one search each, over 1 and 5000 elements. *)
Lemma scheduling_terminates_witness :
  Forall fits_int [2; 1; 1; 0; 5000; 4999] /\
  match Circular.initialize_system [2; 1; 1; 0; 5000; 4999] with
  | Some s =>
      int_sized (processes s) /\
      exists fuel s', Circular.main_loop fuel s 0 = Ok s' /\ all_done s' = true
  | None => False
  end.
Proof.
  assert (Hfit : Forall fits_int [2; 1; 1; 0; 5000; 4999])
    by (apply fits_intb_spec; reflexivity).
  split; [assumption|].
  assert (Hb : match Circular.initialize_system [2; 1; 1; 0; 5000; 4999] with
               | Some s =>
                   forallb (fun p => (INT_MIN <? array_size p)
                                     && (array_size p <=? MAX_ARRAY_SIZE)) (processes s)
               | None => false
               end = true) by (vm_compute; reflexivity).
  destruct (Circular.initialize_system [2; 1; 1; 0; 5000; 4999]) as [s|] eqn:E;
    [|discriminate Hb].
  assert (Hint : int_sized (processes s)).
  { apply Forall_forall. intros p Hin. rewrite forallb_forall in Hb.
    specialize (Hb p Hin). apply andb_prop in Hb. destruct Hb as [H1 H2].
    apply Z.ltb_lt in H1. apply Z.leb_le in H2. split; assumption. }
  split; [assumption|].
  apply (proj1 (scheduling_terminates _ Hfit) s E Hint).
Defined.

(** C9, as stated, fails: process and search counts within their bounds
    do not keep the page numbers inside the page table.  On
    [crash_workload] the first 499 rounds end the searches of processes
    0 to 498; the first reference of process 499 is to page 262154, in
    [int] arithmetic as well, more than 500000 bytes past its page table
    and past the end of the system state, and the run has no defined
    outcome. *)
Lemma distant_page_counterexample :
  Forall fits_int crash_workload /\
  hd_error (search_pages_int (search_fuel 0 (536870913 - 1)) 536870912 0
                             (wrap_int (536870913 - 1))) = Some 262154 /\
  match Circular.initialize_system crash_workload with
  | Some s =>
      match circular_rounds 499 s 0 with
      | Ok (s1, c) =>
          c = 499 /\ all_done s1 = false /\
          Circular.simulate_binary_search s1 c = Undefined
      | _ => False
      end
  | None => False
  end /\
  ~ (forall (input : list Z) (s : Circular.State),
       Forall fits_int input ->
       Circular.initialize_system input = Some s ->
       exists fuel s', Circular.main_loop fuel s 0 = Ok s' /\ all_done s' = true).
Proof.
  assert (Hfit : Forall fits_int crash_workload)
    by (apply fits_intb_spec; vm_compute; reflexivity).
  assert (Hb : match Circular.initialize_system crash_workload with
               | Some s =>
                   match circular_rounds 499 s 0 with
                   | Ok (s1, c) =>
                       (c =? 499) && negb (all_done s1) &&
                       match Circular.simulate_binary_search s1 c with
                       | Undefined => true
                       | _ => false
                       end
                   | _ => false
                   end
               | None => false
               end = true) by (vm_compute; reflexivity).
  split; [assumption|]. split; [vm_compute; reflexivity|].
  destruct (Circular.initialize_system crash_workload) as [s|] eqn:E; [|discriminate Hb].
  destruct (circular_rounds 499 s 0) as [[s1 c]| |] eqn:E1;
    [|discriminate Hb|discriminate Hb].
  apply andb_prop in Hb. destruct Hb as [Hb Hu].
  apply andb_prop in Hb. destruct Hb as [Hc Hd].
  apply Z.eqb_eq in Hc. apply negb_true_iff in Hd.
  assert (Hundef : Circular.simulate_binary_search s1 c = Undefined).
  { destruct (Circular.simulate_binary_search s1 c); [discriminate Hu|reflexivity|discriminate Hu]. }
  split; [auto|].
  intros H. destruct (H crash_workload s Hfit E) as (fuel & s' & Hrun & _).
  destruct (main_loop_through_rounds 499 fuel s s1 s' 0 c E1 Hd Hrun) as [fuel' Hrun'].
  destruct fuel' as [|fuel']; [discriminate Hrun'|].
  cbn [Circular.main_loop] in Hrun'. rewrite Hd, Hundef in Hrun'. discriminate Hrun'.
Qed.


(** ** Page-table indices *)

Lemma circular_fault_keeps_essential
    (s s' : Circular.State) (pid pg : Z) (p p' : Process) (i : nat) :
  ESSENTIAL_PAGES <= pg ->
  Circular.handle_page_fault s pid pg = Ok (s', true) ->
  get_process s pid = Ok p -> get_process s' pid = Ok p' ->
  (i < Z.to_nat ESSENTIAL_PAGES)%nat ->
  nth_error (page_table p') i = nth_error (page_table p) i.
Proof.
  intros Hpg H Hg Hg' Hi. unfold Circular.handle_page_fault in H.
  rewrite Hg in H. cbn [bind] in H.
  destruct (free_frames s) as [|f free].
  - destruct (Circular.swap_out_process s pid); cbn [bind] in H; discriminate.
  - destruct (in_range (page_table p) pg); [|discriminate].
    injection H as <-.
    rewrite (get_put_same (set_free_frames s free) pid p _ Hg) in Hg'.
    injection Hg' as <-. proc_simpl.
    apply nth_error_upd_other. unfold ESSENTIAL_PAGES in *. lia.
Qed.

Lemma shifting_fault_keeps_essential
    (s s' : Shifting.State) (pid pg : Z) (p p' : Process) (i : nat) :
  ESSENTIAL_PAGES <= pg ->
  Shifting.handle_page_fault s pid pg = Ok (s', true) ->
  get_process s pid = Ok p -> get_process s' pid = Ok p' ->
  (i < Z.to_nat ESSENTIAL_PAGES)%nat ->
  nth_error (page_table p') i = nth_error (page_table p) i.
Proof.
  intros Hpg H Hg Hg' Hi. unfold Shifting.handle_page_fault in H.
  rewrite Hg in H. cbn [bind] in H.
  destruct (free_frames s) as [|f free].
  - destruct (Shifting.swap_out_process s pid); cbn [bind] in H; discriminate.
  - destruct (in_range (page_table p) pg); [|discriminate].
    injection H as <-.
    rewrite (get_put_same (set_free_frames s free) pid p _ Hg) in Hg'.
    injection Hg' as <-. proc_simpl.
    apply nth_error_upd_other. unfold ESSENTIAL_PAGES in *. lia.
Qed.

(** C10, as the code has it.  For an array of more than [INT_MIN] and at
    most [MAX_ARRAY_SIZE] = 2086913 elements the subtraction
    [array_size - 1] and the arithmetic of the loop stay inside [int], so
    the pages the program computes are those of [search_pages]; every one
    of them lies in [[ESSENTIAL_PAGES, PAGE_TABLE_SIZE)]: the loop of
    either variant reads and writes the page table only at these indices,
    each read and write is inside a table of [PAGE_TABLE_SIZE] entries, a
    served page fault leaves the entries below [ESSENTIAL_PAGES] as they
    were, and a turn of a runnable process of either variant has a
    defined outcome. *)
Theorem page_table_indexing_in_bounds (size key : Z) :
  INT_MIN < size <= MAX_ARRAY_SIZE ->
  let pages := search_pages (search_fuel 0 (size - 1)) key 0 (size - 1) in
  fits_int (size - 1) /\
  search_pages_int (search_fuel 0 (size - 1)) key 0 (wrap_int (size - 1)) = pages /\
  Forall (fun pg => ESSENTIAL_PAGES <= pg < PAGE_TABLE_SIZE) pages /\
  (forall (s : Shifting.State) (pid : Z),
     Shifting.search_loop (search_fuel 0 (size - 1)) s pid key 0 (size - 1)
     = Shifting.replay s pid pages) /\
  (forall (s : Circular.State) (pid : Z),
     Circular.search_loop (search_fuel 0 (size - 1)) s pid key 0 (size - 1)
     = Circular.replay s pid pages) /\
  (forall pt : list Z,
     length pt = Z.to_nat PAGE_TABLE_SIZE ->
     Forall (fun pg =>
               in_range pt pg = true /\
               (exists e, zget pt pg = Ok e) /\
               forall (v : Z) (i : nat),
                 (i < Z.to_nat ESSENTIAL_PAGES)%nat ->
                 nth_error (upd (Z.to_nat pg) v pt) i = nth_error pt i) pages) /\
  (forall (s s' : Shifting.State) (pid pg : Z) (p p' : Process) (i : nat),
     In pg pages ->
     Shifting.handle_page_fault s pid pg = Ok (s', true) ->
     get_process s pid = Ok p -> get_process s' pid = Ok p' ->
     (i < Z.to_nat ESSENTIAL_PAGES)%nat ->
     nth_error (page_table p') i = nth_error (page_table p) i) /\
  (forall (s s' : Circular.State) (pid pg : Z) (p p' : Process) (i : nat),
     In pg pages ->
     Circular.handle_page_fault s pid pg = Ok (s', true) ->
     get_process s pid = Ok p -> get_process s' pid = Ok p' ->
     (i < Z.to_nat ESSENTIAL_PAGES)%nat ->
     nth_error (page_table p') i = nth_error (page_table p) i) /\
  (forall (s : Shifting.State) (pid : Z) (p : Process),
     Shifting.Inv s ->
     get_process s pid = Ok p -> is_active p = true -> finished p = false ->
     array_size p = size ->
     exists s', Shifting.simulate_binary_search s pid = Ok s') /\
  (forall (s : Circular.State) (pid : Z) (p : Process),
     Circular.Inv s -> Circular.Pressure s ->
     get_process s pid = Ok p -> is_active p = true -> finished p = false ->
     array_size p = size ->
     exists s', Circular.simulate_binary_search s pid = Ok s').
Proof.
  intros Hsize pages.
  assert (Hrange : Forall (fun pg => ESSENTIAL_PAGES <= pg < PAGE_TABLE_SIZE) pages).
  { apply search_pages_range; lia. }
  destruct (search_fuel_enough 0 (size - 1)) as (f & Ef & Hf).
  split; [unfold fits_int, INT_MIN, INT_MAX, MAX_ARRAY_SIZE in *; lia|].
  split.
  { apply step_pages_int_agree. unfold MAX_INT_ARRAY_SIZE, MAX_ARRAY_SIZE in *. lia. }
  split; [assumption|]. split; [|split; [|split; [|split; [|split; [|split]]]]].
  - intros s pid. subst pages. rewrite Ef. apply shifting_search_loop_replay; lia.
  - intros s pid. subst pages. rewrite Ef. apply search_loop_replay; lia.
  - intros pt Hlen. eapply Forall_impl; [|exact Hrange].
    cbv beta. intros pg Hpg.
    assert (Hin : in_range pt pg = true).
    { unfold in_range. rewrite Hlen. unfold ESSENTIAL_PAGES, PAGE_TABLE_SIZE in *.
      apply andb_true_intro. split; [apply Z.leb_le | apply Z.ltb_lt]; lia. }
    split; [assumption|]. split; [apply in_range_zget; assumption|].
    intros v i Hi. apply nth_error_upd_other. unfold ESSENTIAL_PAGES in *. lia.
  - intros s s' pid pg p p' i Hin. rewrite Forall_forall in Hrange.
    apply shifting_fault_keeps_essential. apply (Hrange pg Hin).
  - intros s s' pid pg p p' i Hin. rewrite Forall_forall in Hrange.
    apply circular_fault_keeps_essential. apply (Hrange pg Hin).
  - intros s pid p HI Hg Ha Hfin Hle.
    apply (shifting_turn_defined s pid p HI Hg Ha Hfin). lia.
  - intros s pid p HI HP Hg Ha Hfin Hle.
    destruct (step_runnable s pid p HI HP Hg Ha Hfin) as [[_ Hbig]|(s' & Hr & _)]; [lia|].
    exists s'. assumption.
Qed.

(** The largest array and its last key: the pages stay below 2048. *)
Lemma page_table_indexing_in_bounds_witness :
  Forall (fun pg => ESSENTIAL_PAGES <= pg < PAGE_TABLE_SIZE)
         (search_pages (search_fuel 0 (2086913 - 1)) 2086912 0 (2086913 - 1)).
Proof.
  apply (page_table_indexing_in_bounds 2086913 2086912).
  unfold INT_MIN, MAX_ARRAY_SIZE. lia.
Defined.

(** C10, as stated, fails at the least [int]: its size is below the bound
    of the claim, but [array_size - 1] overflows; with the wrap-around of
    the hardware [R] is [INT_MAX], and for the key 0 the second reference
    of the loop is to page 524297, far outside the page table. *)
Lemma least_int_counterexample :
  fits_int INT_MIN /\ INT_MIN <= MAX_ARRAY_SIZE /\
  ~ fits_int (INT_MIN - 1) /\ wrap_int (INT_MIN - 1) = INT_MAX /\
  nth_error (search_pages_int (search_fuel 0 (wrap_int (INT_MIN - 1))) 0 0
                              (wrap_int (INT_MIN - 1))) 1 = Some 524297 /\
  ~ (forall size key : Z,
       fits_int size -> size <= MAX_ARRAY_SIZE ->
       Forall (fun pg => ESSENTIAL_PAGES <= pg < PAGE_TABLE_SIZE)
              (search_pages_int (search_fuel 0 (wrap_int (size - 1))) key 0
                                (wrap_int (size - 1)))).
Proof.
  assert (Hp : nth_error (search_pages_int (search_fuel 0 (wrap_int (INT_MIN - 1))) 0 0
                                           (wrap_int (INT_MIN - 1))) 1 = Some 524297)
    by (vm_compute; reflexivity).
  split; [unfold fits_int, INT_MIN, INT_MAX; lia|].
  split; [unfold INT_MIN, MAX_ARRAY_SIZE; lia|].
  split; [unfold fits_int, INT_MIN, INT_MAX; lia|].
  split; [vm_compute; reflexivity|]. split; [exact Hp|].
  intros H.
  assert (Hall : Forall (fun pg => ESSENTIAL_PAGES <= pg < PAGE_TABLE_SIZE)
                        (search_pages_int (search_fuel 0 (wrap_int (INT_MIN - 1))) 0 0
                                          (wrap_int (INT_MIN - 1)))).
  { apply H; [unfold fits_int, INT_MIN, INT_MAX; lia | unfold INT_MIN, MAX_ARRAY_SIZE; lia]. }
  rewrite Forall_forall in Hall.
  pose proof (Hall 524297 (nth_error_In _ 1 Hp)) as Hbad.
  unfold PAGE_TABLE_SIZE in Hbad. lia.
Qed.

(** One element more and the last key reaches page 2048. *)
Lemma page_bound_is_tight :
  In PAGE_TABLE_SIZE (search_pages (search_fuel 0 (2086914 - 1)) 2086913 0 (2086914 - 1)).
Proof. vm_compute. repeat (try (left; reflexivity); right). Qed.

(** ** Swap-out, swap-in and the drain of the second variant *)

Lemma swap_ins_app (l1 l2 : list event) :
  swap_ins (l1 ++ l2) = swap_ins l1 ++ swap_ins l2.
Proof.
  induction l1 as [|[pid n|pid n] t IH]; cbn [app swap_ins]; [reflexivity| |];
    rewrite IH; reflexivity.
Qed.

Lemma swap_ins_notices (c : Z) (l : list Z) :
  swap_ins (map (fun x => SwapInMsg x c) l) = l.
Proof. induction l as [|x t IH]; cbn [map swap_ins]; [|rewrite IH]; reflexivity. Qed.

Lemma cleared_invalid (pt : list Z) :
  Forall (fun e => is_valid e = false) (map (fun e => if is_valid e then 0 else e) pt).
Proof.
  apply Forall_forall. intros e He. apply in_map_iff in He.
  destruct He as (x & <- & _). destruct (is_valid x) eqn:E; [reflexivity|assumption].
Qed.

Section CircularClaims.
Import Circular.

(** Swap-out in the second variant (C4): an inactive process is left
    alone; an active one loses every valid entry, its frames go to the
    free stack, its count becomes zero, it is marked inactive and joins
    the rear of the queue, the swap counter grows by one, the recorded
    minimum follows the live active count, and no other process changes. *)
Lemma circular_swap_out_semantics (s : State) (pid : Z) (p : Process) :
  get_process s pid = Ok p ->
  queue_wf (swap_queue s) -> queue_size (swap_queue s) < MAX_PROCESSES ->
  (is_active p = false -> swap_out_process s pid = Ok s) /\
  (is_active p = true ->
   exists s' p',
     swap_out_process s pid = Ok s' /\
     get_process s' pid = Ok p' /\
     Forall (fun e => is_valid e = false) (page_table p') /\
     free_frames s' = rev (held (page_table p)) ++ free_frames s /\
     frames_allocated p' = 0 /\
     is_active p' = false /\
     queue_list (swap_queue s') = queue_list (swap_queue s) ++ [pid] /\
     num_swaps s' = num_swaps s + 1 /\
     min_active_processes s' =
       Z.min (min_active_processes s) (get_active_process_count s') /\
     (forall pid', pid' <> pid -> get_process s' pid' = get_process s pid')).
Proof.
  intros Hg Hwf Hroom. split; [apply swap_out_inactive; assumption|].
  intros Ha.
  destruct (swap_out_active s pid p Hg Ha)
    as (s' & Hrun & Hp & Hf & Hq & Hsw & _ & _ & Hmin & _).
  match type of Hp with _ = upd _ ?x _ => set (p' := x) in * end.
  pose proof Hg as Hn. apply get_process_nth in Hn. destruct Hn as [H0 Hn].
  exists s', p'. split; [assumption|]. split.
  { unfold get_process. rewrite Hp. apply zget_ok. split; [assumption|].
    apply nth_error_upd_same. apply nth_error_Some. congruence. }
  split; [subst p'; proc_simpl; apply cleared_invalid|].
  split; [assumption|]. split; [reflexivity|]. split; [reflexivity|].
  split; [rewrite Hq; apply enqueue_spec; assumption|].
  split; [assumption|]. split; [assumption|].
  intros pid' Hne. unfold get_process, zget. rewrite Hp.
  destruct (Z.ltb_spec pid' 0); [reflexivity|].
  rewrite nth_error_upd_other by lia. reflexivity.
Qed.

(** Swap accounting in the second variant (C5): swap-in of an active
    process does nothing; swap-in of an inactive one and swap-out of an
    active one each add one to the same counter; the printed figure is the
    counter divided by two. *)
Lemma circular_swap_accounting (s : State) (pid : Z) (p : Process) :
  get_process s pid = Ok p ->
  (is_active p = true -> swap_in_process s pid = Ok s) /\
  (is_active p = false ->
   exists s', swap_in_process s pid = Ok s' /\ num_swaps s' = num_swaps s + 1) /\
  (is_active p = true ->
   exists s', swap_out_process s pid = Ok s' /\ num_swaps s' = num_swaps s + 1) /\
  snd (fst (print_statistics s)) = Z.quot (num_swaps s) 2.
Proof.
  intros Hg. split; [apply swap_in_active; assumption|]. split; [|split; [|reflexivity]].
  - intros Ha. destruct (swap_in_inactive s pid p Hg Ha)
      as (s' & pt & fa & free & _ & Hrun & _ & _ & _ & Hsw & _).
    exists s'. auto.
  - intros Ha. destruct (swap_out_active s pid p Hg Ha)
      as (s' & Hrun & _ & _ & _ & Hsw & _).
    exists s'. auto.
Qed.

(** The drain of the second variant (C7): it changes nothing when the
    queue is empty or fewer than [ESSENTIAL_PAGES] frames are free;
    otherwise it takes the process at the front of the queue, swaps it in
    and goes on; it ends with the queue empty or fewer than
    [ESSENTIAL_PAGES] frames free. *)
Lemma circular_drain_semantics :
  (forall (fuel : nat) (s : State),
     queueIsEmpty (swap_queue s) = true \/ num_free_frames s < ESSENTIAL_PAGES ->
     drain (S fuel) s = Ok s) /\
  (forall (fuel : nat) (s : State) (x : Z) (l : list Z),
     Inv s -> queue_list (swap_queue s) = x :: l ->
     ESSENTIAL_PAGES <= num_free_frames s ->
     exists q' s1,
       dequeue (swap_queue s) = (x, q') /\
       swap_in_process (set_swap_queue s q') x = Ok s1 /\
       queue_list (swap_queue s1) = l /\
       drain (S fuel) s = drain fuel s1) /\
  (forall s : State,
     Inv s ->
     exists s' resumed,
       drain drain_fuel s = Ok s' /\ resumes s s' resumed /\
       (queue_list (swap_queue s') = [] \/ num_free_frames s' < ESSENTIAL_PAGES)).
Proof.
  split; [|split].
  - intros fuel s H. apply drain_idle. assumption.
  - intros fuel s x l HI Hq Hfree.
    destruct (resume_step s x l HI Hq Hfree)
      as (q' & p & s1 & Hdq & Hx & Hg & Ha & Hrun & _ & _ & Hl).
    exists q', s1. split; [assumption|]. split; [assumption|]. split; [assumption|].
    cbn [drain].
    assert (Hne : queueIsEmpty (swap_queue s) = false).
    { destruct (queueIsEmpty (swap_queue s)) eqn:E; [|reflexivity].
      apply queue_list_empty in E. congruence. }
    rewrite Hne. cbn [negb andb].
    destruct (Z.leb_spec ESSENTIAL_PAGES (num_free_frames s)); [|lia].
    rewrite Hdq. destruct (Z.eqb_spec x (-1)); [contradiction|].
    rewrite Hg. cbn [bind]. rewrite Ha, Hrun. reflexivity.
  - intros s HI.
    destruct (drain_spec drain_fuel s HI) as (s' & resumed & Hrun & _ & Hres & Hstop).
    { rewrite queue_list_length. pose proof (queue_size_range (swap_queue s)).
      unfold drain_fuel, MAX_PROCESSES in *. lia. }
    exists s', resumed. auto.
Qed.

(** Resumption in the second variant (C2): swap-out puts a process at the
    rear of the queue, the drain resumes a prefix of the queue from its
    front, and when two processes [A] and [B] head the queue and the free
    frames suffice for one essential set only, the drain resumes [A] and
    leaves [B] suspended at the front. *)
Lemma circular_fifo_resumption :
  (forall (s s' : State) (pid : Z) (p : Process),
     Inv s -> get_process s pid = Ok p -> is_active p = true ->
     swap_out_process s pid = Ok s' ->
     queue_list (swap_queue s') = queue_list (swap_queue s) ++ [pid]) /\
  (forall s : State,
     Inv s ->
     exists s' resumed,
       drain drain_fuel s = Ok s' /\
       queue_list (swap_queue s) = resumed ++ queue_list (swap_queue s') /\
       swap_ins (output s') = swap_ins (output s) ++ resumed) /\
  (forall (s : State) (A B : Z) (rest : list Z),
     Inv s -> queue_list (swap_queue s) = A :: B :: rest ->
     ESSENTIAL_PAGES <= num_free_frames s < 2 * ESSENTIAL_PAGES ->
     exists s',
       drain drain_fuel s = Ok s' /\
       queue_list (swap_queue s') = B :: rest /\
       swap_ins (output s') = swap_ins (output s) ++ [A] /\
       suspended s' B /\ ~ suspended s' A).
Proof.
  assert (Hdrain : forall s : State, Inv s ->
            exists s' resumed,
              drain drain_fuel s = Ok s' /\ Inv s' /\ resumes s s' resumed /\
              (queue_list (swap_queue s') = [] \/ num_free_frames s' < ESSENTIAL_PAGES)).
  { intros s HI. apply drain_spec; [assumption|].
    rewrite queue_list_length. pose proof (queue_size_range (swap_queue s)).
    unfold drain_fuel, MAX_PROCESSES in *. lia. }
  split; [|split].
  - intros s s' pid p HI Hg Ha Hrun.
    destruct (swap_out_active s pid p Hg Ha) as (s1 & Hrun1 & _ & _ & Hq & _).
    rewrite Hrun in Hrun1. injection Hrun1 as <-. rewrite Hq.
    apply enqueue_spec; [apply (inv_queue_wf s HI) | eapply queue_room; eauto].
  - intros s HI. destruct (Hdrain s HI) as (s' & resumed & Hrun & _ & Hres & _).
    destruct Hres as (R1 & _ & R3 & _).
    exists s', resumed. split; [assumption|]. split; [assumption|].
    rewrite R3, swap_ins_app, swap_ins_notices. reflexivity.
  - intros s A B rest HI Hq Hfree.
    destruct (Hdrain s HI) as (s' & resumed & Hrun & HI' & Hres & Hstop).
    destruct Hres as (R1 & R2 & R3 & _).
    assert (Hnn : 0 <= num_free_frames s') by (unfold num_free_frames; lia).
    assert (Hone : resumed = [A] /\ queue_list (swap_queue s') = B :: rest).
    { rewrite Hq in R1. unfold ESSENTIAL_PAGES in *.
      destruct resumed as [|x [|y t]]; cbn [length app] in *.
      - exfalso. destruct Hstop as [Hs|Hs]; [rewrite Hs in R1; discriminate | lia].
      - injection R1 as <- <-. auto.
      - exfalso. lia. }
    destruct Hone as [-> Hq'].
    exists s'. split; [assumption|]. split; [assumption|].
    split; [rewrite R3, swap_ins_app, swap_ins_notices; reflexivity|].
    split.
    + apply (inv_queue_mem s' HI'). rewrite Hq'. left. reflexivity.
    + intros Hs. apply (inv_queue_mem s' HI') in Hs. rewrite Hq' in Hs.
      pose proof (inv_queue_nodup s HI) as Hnd. rewrite Hq in Hnd.
      apply NoDup_cons_iff in Hnd. destruct Hnd as [Hnot _]. contradiction.
Qed.

End CircularClaims.

(** ** Resumption in the first variant *)

Section ShiftingResume.
Import Shifting.

(** At the end of the last search of a process the first variant resumes
    the process in the last cell of the queue, the one suspended last, and
    no other. *)
Lemma shifting_completion_resumes_rear
    (s : State) (pid x : Z) (p : Process) (l : list Z) :
  Inv s -> get_process s pid = Ok p -> is_active p = true ->
  current_search p + 1 = num_searches p ->
  swap_queue s = l ++ [x] ->
  exists s',
    complete_search s pid = Ok s' /\
    swap_queue s' = l /\
    swap_ins (output s') = swap_ins (output s) ++ [x] /\
    num_swaps s' = num_swaps s.
Proof.
  intros HI Hg Ha Hlast Hq.
  assert (H0 : 0 <= pid) by (apply get_process_nth in Hg; tauto).
  unfold complete_search. rewrite Hg. cbn [bind].
  set (p1 := set_current_search p (current_search p + 1)).
  assert (Hfin1 : finished p1 = true).
  { unfold finished. subst p1. proc_simpl. apply Z.leb_le. lia. }
  rewrite Hfin1, release_frames_spec.
  set (p2 := set_frames_allocated _ 0).
  set (s1 := put_process _ pid p2).
  change (swap_queue s1) with (swap_queue s). rewrite Hq, rev_app_distr. cbn [rev app].
  rewrite rev_involutive.
  assert (Hsusp : suspended s x).
  { apply (inv_queue_mem s HI). rewrite Hq. apply in_app_iff. right. left. reflexivity. }
  destruct Hsusp as (px & Hgx & Hax).
  assert (Hne : pid <> x) by (intros ->; congruence).
  assert (Hgx1 : get_process (set_swap_queue s1 l) x = Ok px).
  { change (get_process s1 x = Ok px). subst s1.
    rewrite get_put_other by auto. exact Hgx. }
  destruct (shifting_swap_in_spec (set_swap_queue s1 l) x px Hgx1)
    as (s2 & pt & fa & free & _ & Hrun & _ & _ & Hq2 & Hsw & Hout).
  exists s2. split; [exact Hrun|]. split; [exact Hq2|]. split; [|exact Hsw].
  rewrite Hout, swap_ins_app. reflexivity.
Qed.

End ShiftingResume.

(** ** The first variant under memory pressure *)

(** The first variant on [pressure_workload]: 28 processes are suspended
    and resumed in the reverse order; the counter ends at 28. *)
Lemma shifting_pressure_run :
  run_summary (Shifting.run 3000 pressure_workload) =
  Some (pressure_suspended, pressure_suspended, rev pressure_suspended, 28,
        (27140, 8336, 14, 472)).
Proof. vm_compute. reflexivity. Qed.

(** C2, first variant. On [pressure_workload] processes 411, 414, ... and
    at last 498 are suspended in the second round, with no resumption in
    between; in the third round every process that ends its last search
    resumes one process, first process 498, the last one suspended, and
    the resumptions follow in the reverse of the order of suspension, so
    process 414 is resumed before process 411. *)
Theorem shifting_resumes_last_suspended :
  match run_summary (Shifting.run 3000 pressure_workload) with
  | Some (first, outs, ins, _, _) =>
      first = outs /\
      hd_error outs = Some 411 /\ nth_error outs 1 = Some 414 /\
      last outs 0 = 498 /\
      hd_error ins = Some 498 /\ ins = rev outs /\
      skipn 26 ins = [414; 411]
  | None => False
  end.
Proof. rewrite shifting_pressure_run. vm_compute. repeat split; reflexivity. Qed.

(** Swap-in of the first variant never touches the swap counter. *)
Lemma shifting_swap_in_counter (s s' : Shifting.State) (pid : Z) :
  Shifting.swap_in_process s pid = Ok s' -> num_swaps s' = num_swaps s.
Proof.
  unfold Shifting.swap_in_process.
  destruct (get_process s pid) as [p| |]; cbn [bind]; try discriminate.
  destruct (alloc_essential _ _ _ _ _) as [[pt fa] free].
  intros [= <-]. reflexivity.
Qed.

(** C5, first variant. On [pressure_workload] 28 processes are swapped
    out and 28 are swapped in, yet the counter ends at 28 and the printed
    number of swaps is 14: swap-in is not counted. *)
Theorem shifting_swap_in_not_counted :
  match run_summary (Shifting.run 3000 pressure_workload) with
  | Some (_, outs, ins, counter, (_, _, printed, _)) =>
      length outs = 28%nat /\ length ins = 28%nat /\
      counter = 28 /\ printed = 14
  | None => False
  end.
Proof. rewrite shifting_pressure_run. vm_compute. repeat split; reflexivity. Qed.

(** ** Rounds 912 and 1001 of the first variant

    On [pressure_workload] the first 911 rounds use up the free frames:
    round 912 is the turn of process 411, whose reference to a page it
    does not hold finds no free frame and suspends it.  After 1000 rounds the 28 processes of
    [pressure_suspended] are queued and 16 frames are free; round 1001 is
    the last search of process 0, which frees its 26 frames and resumes
    one process. *)
Lemma shifting_pressure_states :
  exists (s0 s1 t t' : Shifting.State) (p : Process) (key : Z) (s1' : Shifting.State),
    Shifting.initialize_system pressure_workload = Some s0 /\
    shifting_rounds 911 s0 [] 0 = Ok (s1, [], 411) /\
    shifting_rounds 1000 s0 [] 0 = Ok (t, pressure_suspended, 0) /\
    shifting_rounds 1001 s0 [] 0 = Ok (t', pressure_suspended, 1) /\
    (get_process s1 411 = Ok p /\ is_active p = true /\ finished p = false /\
     zget (search_indices p) (current_search p) = Ok key /\
     Shifting.search_loop (search_fuel 0 (array_size p - 1)) s1 411 key 0 (array_size p - 1)
       = Ok (s1', false)) /\
    (all_done t = false /\
     swap_queue t = pressure_suspended /\ swap_outs (output t) = pressure_suspended /\
     swap_ins (output t) = [] /\ num_free_frames t = 16) /\
    (Shifting.main_step t pressure_suspended 0 = Ok (t', pressure_suspended, 1) /\
     swap_queue t' = removelast pressure_suspended /\
     swap_outs (output t') = pressure_suspended /\
     swap_ins (output t') = [498] /\ num_free_frames t' = 32 /\
     num_swaps t' = 28 /\ min_active_processes t' = 472 /\
     get_active_process_count t' = 473).
Proof.
  assert (Hb :
    match Shifting.initialize_system pressure_workload with
    | Some s0 =>
        match shifting_rounds 911 s0 [] 0 with
        | Ok (s1, q1, c1) =>
            match get_process s1 411 with
            | Ok p =>
                match zget (search_indices p) (current_search p) with
                | Ok key =>
                    match Shifting.search_loop (search_fuel 0 (array_size p - 1)) s1 411 key 0
                                               (array_size p - 1) with
                    | Ok (_, b) =>
                        match shifting_rounds 89 s1 q1 c1 with
                        | Ok (t, qt, ct) =>
                            match Shifting.main_step t qt ct with
                            | Ok (t', qt', ct') =>
                                (if list_eq_dec Z.eq_dec q1 [] then true else false)
                                && (c1 =? 411) && is_active p && negb (finished p) && negb b
                                && (if list_eq_dec Z.eq_dec qt pressure_suspended
                                    then true else false)
                                && (ct =? 0) && negb (all_done t)
                                && (if list_eq_dec Z.eq_dec (swap_queue t) pressure_suspended
                                    then true else false)
                                && (if list_eq_dec Z.eq_dec (swap_outs (output t))
                                                   pressure_suspended
                                    then true else false)
                                && (if list_eq_dec Z.eq_dec (swap_ins (output t)) []
                                    then true else false)
                                && (num_free_frames t =? 16)
                                && (if list_eq_dec Z.eq_dec qt' pressure_suspended
                                    then true else false)
                                && (ct' =? 1)
                                && (if list_eq_dec Z.eq_dec (swap_queue t')
                                                   (removelast pressure_suspended)
                                    then true else false)
                                && (if list_eq_dec Z.eq_dec (swap_outs (output t'))
                                                   pressure_suspended
                                    then true else false)
                                && (if list_eq_dec Z.eq_dec (swap_ins (output t')) [498]
                                    then true else false)
                                && (num_free_frames t' =? 32)
                                && (num_swaps t' =? 28)
                                && (min_active_processes t' =? 472)
                                && (get_active_process_count t' =? 473)
                            | _ => false
                            end
                        | _ => false
                        end
                    | _ => false
                    end
                | _ => false
                end
            | _ => false
            end
        | _ => false
        end
    | None => false
    end = true) by (vm_compute; reflexivity).
  destruct (Shifting.initialize_system pressure_workload) as [s0|] eqn:E0; [|discriminate Hb].
  destruct (shifting_rounds 911 s0 [] 0) as [[[s1 q1] c1]| |] eqn:E1; [|discriminate Hb|discriminate Hb].
  destruct (get_process s1 411) as [p| |] eqn:Eg; [|discriminate Hb|discriminate Hb].
  destruct (zget (search_indices p) (current_search p)) as [key| |] eqn:Ek; [|discriminate Hb|discriminate Hb].
  destruct (Shifting.search_loop _ s1 411 key 0 _) as [[s1' b]| |] eqn:El; [|discriminate Hb|discriminate Hb].
  destruct (shifting_rounds 89 s1 q1 c1) as [[[t qt] ct]| |] eqn:E2; [|discriminate Hb|discriminate Hb].
  destruct (Shifting.main_step t qt ct) as [[[t' qt'] ct']| |] eqn:E3; [|discriminate Hb|discriminate Hb].
  repeat match type of Hb with
         | (_ && _) = true => let H := fresh "Hc" in
                              apply andb_prop in Hb; destruct Hb as [Hb H]
         end.
  repeat match goal with
         | H : (if list_eq_dec Z.eq_dec _ _ then true else false) = true |- _ =>
             apply same_list_eq in H
         | H : (_ =? _) = true |- _ => apply Z.eqb_eq in H
         | H : negb _ = true |- _ => apply negb_true_iff in H
         end.
  subst q1 c1 qt ct qt' ct' b.
  assert (Hd : all_done t = false) by assumption.
  assert (E1000 : shifting_rounds 1000 s0 [] 0 = Ok (t, pressure_suspended, 0)).
  { change 1000%nat with (911 + 89)%nat. rewrite shifting_rounds_app, E1. exact E2. }
  assert (E1001 : shifting_rounds 1001 s0 [] 0 = Ok (t', pressure_suspended, 1)).
  { change 1001%nat with (1000 + 1)%nat. rewrite shifting_rounds_app, E1000.
    cbn [bind fst snd shifting_rounds]. rewrite Hd, E3. reflexivity. }
  exists s0, s1, t, t', p, key, s1'.
  repeat split; assumption.
Qed.

(** ** Round 1001 of the second variant

    On the same workload the second variant suspends the same 28
    processes in the first 1000 rounds; round 1001, the last search of
    process 0, frees 26 frames, and the drain resumes the four processes
    at the front of the queue and stops with two frames free. *)
Lemma circular_pressure_states :
  exists (s0 u u' : Circular.State),
    Circular.initialize_system pressure_workload = Some s0 /\
    circular_rounds 1000 s0 0 = Ok (u, 0) /\
    circular_rounds 1001 s0 0 = Ok (u', 1) /\
    (all_done u = false /\
     Circular.queue_list (swap_queue u) = pressure_suspended /\
     swap_outs (output u) = pressure_suspended /\
     swap_ins (output u) = [] /\ num_free_frames u = 16) /\
    (Circular.simulate_binary_search u 0 = Ok u' /\
     Circular.queue_list (swap_queue u') = skipn 4 pressure_suspended /\
     swap_outs (output u') = pressure_suspended /\
     swap_ins (output u') = [411; 414; 417; 420] /\ num_free_frames u' = 2 /\
     num_swaps u' = 32 /\ min_active_processes u' = 472 /\
     get_active_process_count u' = 476).
Proof.
  assert (Hb :
    match Circular.initialize_system pressure_workload with
    | Some s0 =>
        match circular_rounds 1000 s0 0 with
        | Ok (u, cu) =>
            match Circular.simulate_binary_search u cu with
            | Ok u' =>
                (cu =? 0) && negb (all_done u)
                && (if list_eq_dec Z.eq_dec (Circular.queue_list (swap_queue u))
                                   pressure_suspended
                    then true else false)
                && (if list_eq_dec Z.eq_dec (swap_outs (output u)) pressure_suspended
                    then true else false)
                && (if list_eq_dec Z.eq_dec (swap_ins (output u)) [] then true else false)
                && (num_free_frames u =? 16)
                && (Z.rem (cu + 1) (num_processes u') =? 1)
                && (if list_eq_dec Z.eq_dec (Circular.queue_list (swap_queue u'))
                                   (skipn 4 pressure_suspended)
                    then true else false)
                && (if list_eq_dec Z.eq_dec (swap_outs (output u')) pressure_suspended
                    then true else false)
                && (if list_eq_dec Z.eq_dec (swap_ins (output u')) [411; 414; 417; 420]
                    then true else false)
                && (num_free_frames u' =? 2)
                && (num_swaps u' =? 32)
                && (min_active_processes u' =? 472)
                && (get_active_process_count u' =? 476)
            | _ => false
            end
        | _ => false
        end
    | None => false
    end = true) by (vm_compute; reflexivity).
  destruct (Circular.initialize_system pressure_workload) as [s0|] eqn:E0; [|discriminate Hb].
  destruct (circular_rounds 1000 s0 0) as [[u cu]| |] eqn:E1;
    [|discriminate Hb|discriminate Hb].
  destruct (Circular.simulate_binary_search u cu) as [u'| |] eqn:E2;
    [|discriminate Hb|discriminate Hb].
  repeat match type of Hb with
         | (_ && _) = true => let H := fresh "Hc" in
                              apply andb_prop in Hb; destruct Hb as [Hb H]
         end.
  repeat match goal with
         | H : (if list_eq_dec Z.eq_dec _ _ then true else false) = true |- _ =>
             apply same_list_eq in H
         | H : (_ =? _) = true |- _ => apply Z.eqb_eq in H
         | H : negb _ = true |- _ => apply negb_true_iff in H
         end.
  subst cu.
  assert (Hd : all_done u = false) by assumption.
  assert (E1001 : circular_rounds 1001 s0 0 = Ok (u', 1)).
  { change 1001%nat with (1000 + 1)%nat. rewrite circular_rounds_app, E1.
    cbn [bind fst snd circular_rounds]. rewrite Hd, E2. cbn [bind].
    f_equal. f_equal. assumption. }
  exists s0, u, u'.
  repeat split; assumption.
Qed.

(** * Further properties of the code *)

(** ** Page-table entries and the two frame loops *)

(** X1. A frame number below [VALID_BIT_MASK] survives the encoding of
    lines 143 and 156 and the decoding of lines 119-120: the entry
    [frame | VALID_BIT_MASK] fits an [unsigned short], tests as valid and
    gives the frame back under [& ~VALID_BIT_MASK]; the entry 0 written by
    the release loop tests as invalid. *)
Theorem entry_round_trip (f : Z) :
  0 <= f < VALID_BIT_MASK ->
  mk_entry f = f + VALID_BIT_MASK /\
  0 <= mk_entry f < 65536 /\
  is_valid (mk_entry f) = true /\
  frame_of (mk_entry f) = f /\
  is_valid 0 = false.
Proof.
  intros Hf.
  assert (He : mk_entry f = f + VALID_BIT_MASK).
  { rewrite (mk_entry_eq f Hf). apply lor_mask. assumption. }
  split; [assumption|]. split; [unfold VALID_BIT_MASK in *; lia|].
  split; [apply is_valid_mk_entry; assumption|].
  split; [apply frame_of_mk_entry; assumption | apply is_valid_zero].
Qed.

Lemma entry_round_trip_witness :
  mk_entry 12287 = 45055 /\ frame_of (mk_entry 12287) = 12287.
Proof.
  destruct (entry_round_trip 12287) as (H1 & _ & _ & H4 & _).
  - unfold VALID_BIT_MASK. lia.
  - split; [exact H1 | exact H4].
Defined.

(** X2. The release loop of lines 118-123 (and 198-203, 262-268, 472-477,
    561-566) keeps the length of the table, writes 0 over every valid
    entry and leaves the others alone, so that no entry is valid
    afterwards; it pushes the frames of the valid entries on the free
    stack in page order, the frame of the highest page on top; run a
    second time it changes nothing. *)
Theorem release_loop_effect (pt free : list Z) :
  let pt' := fst (release_frames pt free) in
  let free' := snd (release_frames pt free) in
  length pt' = length pt /\
  (forall i e, nth_error pt i = Some e ->
               nth_error pt' i = Some (if is_valid e then 0 else e)) /\
  Forall (fun e => is_valid e = false) pt' /\
  free' = rev (held pt) ++ free /\
  length free' = (length free + length (held pt))%nat /\
  release_frames pt' free' = (pt', free').
Proof.
  rewrite release_frames_spec. cbn [fst snd].
  split; [apply length_map|]. split.
  { intros i e H. rewrite nth_error_map, H. reflexivity. }
  split.
  { apply Forall_forall. intros e H. apply in_map_iff in H.
    destruct H as (e0 & <- & _). destruct (is_valid e0) eqn:E;
      [apply is_valid_zero | assumption]. }
  split; [reflexivity|]. split.
  { rewrite length_app, length_rev. lia. }
  rewrite release_frames_spec, held_cleared. cbn [rev app]. f_equal.
  rewrite map_map. apply map_ext. intros e.
  destruct (is_valid e) eqn:E; [rewrite is_valid_zero; reflexivity | rewrite E; reflexivity].
Qed.

Lemma upd_at_length {A : Type} (a b : list A) (x v : A) :
  upd (length a) v (a ++ x :: b) = a ++ v :: b.
Proof. induction a as [|h t IH]; simpl; [reflexivity | rewrite IH; reflexivity]. Qed.

Lemma alloc_essential_closed (n : nat) :
  forall (a b : list Z) (fa : Z) (free : list Z),
  (n <= length b)%nat ->
  alloc_essential n (length a) (a ++ b) fa free =
  (a ++ map mk_entry (firstn (Nat.min n (length free)) free)
     ++ skipn (Nat.min n (length free)) b,
   fa + Z.of_nat (Nat.min n (length free)),
   skipn (Nat.min n (length free)) free).
Proof.
  induction n as [|n IH]; intros a b fa free Hn.
  - cbn. rewrite Z.add_0_r. reflexivity.
  - destruct free as [|f free]; [cbn; rewrite Z.add_0_r; reflexivity|].
    destruct b as [|x b]; [simpl in Hn; lia|].
    cbn [alloc_essential]. rewrite upd_at_length.
    replace (S (length a)) with (length (a ++ [mk_entry f]))
      by (rewrite length_app; simpl; lia).
    replace (a ++ mk_entry f :: b) with ((a ++ [mk_entry f]) ++ b)
      by (rewrite <- app_assoc; reflexivity).
    rewrite IH by (simpl in Hn; lia).
    cbn [length Nat.min firstn skipn map]. rewrite <- app_assoc. cbn [app].
    do 2 f_equal. lia.
Qed.

(** X3. The loop that maps the essential pages (lines 98-101, 142-145,
    450-453, 513-516) takes [k = min (ESSENTIAL_PAGES, free frames)] frames
    from the top of the free stack: pages [0 .. k-1] get these frames in
    stack order with the valid bit set, the other pages keep their
    entries and [frames_allocated] grows by [k].  With fewer than
    [ESSENTIAL_PAGES] free frames the loop stops early, and with none it
    changes nothing. *)
Theorem essential_allocation (pt : list Z) (fa : Z) (free : list Z) :
  (Z.to_nat ESSENTIAL_PAGES <= length pt)%nat ->
  let k := Nat.min (Z.to_nat ESSENTIAL_PAGES) (length free) in
  alloc_essential (Z.to_nat ESSENTIAL_PAGES) 0 pt fa free =
  (map mk_entry (firstn k free) ++ skipn k pt, fa + Z.of_nat k, skipn k free).
Proof.
  intros Hlen k. apply (alloc_essential_closed _ [] pt fa free Hlen).
Qed.

Lemma essential_allocation_witness :
  alloc_essential (Z.to_nat ESSENTIAL_PAGES) 0 (repeat 0 12) 0 [7; 5; 3] =
  (map mk_entry [7; 5; 3] ++ repeat 0 9, 3, []).
Proof.
  apply (essential_allocation (repeat 0 12) 0 [7; 5; 3]).
  rewrite repeat_length. unfold ESSENTIAL_PAGES. simpl. lia.
Defined.

(** ** The cost of a search *)

Lemma search_pages_count (fuel : nat) (key : Z) :
  forall L R : Z,
  0 <= L -> L <= R -> R - L < 2 ^ Z.of_nat fuel ->
  R - L + 1 < 2 ^ (Z.of_nat (length (search_pages (S fuel) key L R)) + 1) /\
  2 ^ (Z.of_nat (length (search_pages (S fuel) key L R)) - 1) < R - L + 1.
Proof.
  assert (Hhalf : forall k : nat, 2 ^ Z.of_nat k <= 2 * 2 ^ (Z.of_nat k - 1) \/ k = 0%nat).
  { intros [|k]; [right; reflexivity|]. left.
    rewrite Nat2Z.inj_succ. replace (Z.succ (Z.of_nat k) - 1) with (Z.of_nat k) by lia.
    rewrite Z.pow_succ_r by lia. lia. }
  induction fuel as [|fuel IH]; intros L R HL HLR Hw.
  - cbn [search_pages]. destruct (Z.ltb_spec L R) as [Hlt|_]; [simpl in Hw; lia|].
    cbn [length]. simpl. lia.
  - remember (S fuel) as f1. cbn [search_pages].
    destruct (Z.ltb_spec L R) as [Hlt|Hge].
    + subst f1. destruct (midpoint_bounds L R HL Hlt) as [HM H2].
      destruct (halves_fit fuel L R _ HM H2 Hw) as [Hl Hr].
      cbn [length]. rewrite Nat2Z.inj_succ.
      destruct (key <=? midpoint L R).
      * destruct (IH L (midpoint L R) HL ltac:(lia) Hl) as [A B].
        set (n := length (search_pages (S fuel) key L (midpoint L R))) in *.
        replace (Z.succ (Z.of_nat n) + 1) with (Z.succ (Z.of_nat n + 1)) by lia.
        replace (Z.succ (Z.of_nat n) - 1) with (Z.of_nat n) by lia.
        rewrite Z.pow_succ_r by lia. split; [lia|].
        destruct (Hhalf n) as [H|H]; [lia|]. rewrite H. simpl. lia.
      * destruct (IH (midpoint L R + 1) R ltac:(lia) ltac:(lia) Hr) as [A B].
        set (n := length (search_pages (S fuel) key (midpoint L R + 1) R)) in *.
        replace (Z.succ (Z.of_nat n) + 1) with (Z.succ (Z.of_nat n + 1)) by lia.
        replace (Z.succ (Z.of_nat n) - 1) with (Z.of_nat n) by lia.
        rewrite Z.pow_succ_r by lia. split; [lia|].
        destruct (Hhalf n) as [H|H]; [lia|]. rewrite H. simpl. lia.
    + cbn [length]. simpl. lia.
Qed.



(** ** The circular queue *)

Section CircularQueueLaws.
Import Circular.

(** X5. The circular buffer of lines 355-382 is a first-in first-out
    list: [initQueue] is empty; [enqueue] on a queue with a free cell adds
    the item at the rear, also across the wrap-around of the indices;
    [dequeue] returns the item at the front and leaves the rest; on an
    empty queue [dequeue] returns -1 and leaves the queue alone. *)
Theorem queue_fifo_laws :
  queue_list initQueue = [] /\
  (forall (q : SwapQueue) (x : Z),
     queue_wf q -> queue_size q < MAX_PROCESSES ->
     queue_wf (enqueue q x) /\ queue_list (enqueue q x) = queue_list q ++ [x]) /\
  (forall (q : SwapQueue) (x : Z) (l : list Z),
     queue_wf q -> queue_list q = x :: l ->
     exists q', dequeue q = (x, q') /\ queue_wf q' /\ queue_list q' = l) /\
  (forall q : SwapQueue,
     queue_wf q -> queue_list q = [] -> dequeue q = (-1, q)).
Proof.
  split; [apply initQueue_list|]. split; [apply enqueue_spec|].
  split; [apply dequeue_spec|].
  intros q _ H. apply dequeue_empty. apply queue_list_empty. assumption.
Qed.

(** Two items put into the empty queue come out in the same order. *)
Lemma queue_fifo_laws_witness :
  exists q1 q2,
    dequeue (enqueue (enqueue initQueue 7) 9) = (7, q1) /\
    dequeue q1 = (9, q2) /\ queue_list q2 = [].
Proof.
  destruct queue_fifo_laws as (H0 & Henq & Hdeq & _).
  destruct (Henq initQueue 7 initQueue_wf) as [W1 L1].
  { vm_compute. reflexivity. }
  destruct (Henq (enqueue initQueue 7) 9 W1) as [W2 L2].
  { vm_compute. reflexivity. }
  rewrite L1, H0 in L2. cbn [app] in L2.
  destruct (Hdeq _ 7 [9] W2 L2) as (q1 & D1 & W3 & L3).
  destruct (Hdeq q1 9 [] W3 L3) as (q2 & D2 & _ & L4).
  exists q1, q2. auto.
Defined.

(** X6. [enqueue] has no test for a full queue: on a queue that holds
    [MAX_PROCESSES] items the new item overwrites the cell at the front,
    and the queue that results holds the new item only. *)
Theorem queue_overflow_collapses (q : SwapQueue) (x : Z) :
  queue_wf q -> queue_size q = MAX_PROCESSES ->
  queue_list (enqueue q x) = [x] /\ queue_size (enqueue q x) = 1.
Proof.
  destruct q as [it f r]. unfold queue_wf, enqueue, queue_list, queue_size, queueIsEmpty.
  cbn [items front rear]. intros [Hlen Hidx] Hfull.
  destruct (Z.eqb_spec f (-1)) as [Hf|Hf]; [unfold MAX_PROCESSES in Hfull; lia|].
  destruct Hidx as [[? ?]|[Hfr Hrr]]; [contradiction|].
  assert (Hr : Z.rem (r + 1) MAX_PROCESSES = f).
  { rewrite Z.rem_mod_nonneg by (unfold MAX_PROCESSES; lia).
    unfold MAX_PROCESSES in *. Z.div_mod_to_equations. lia. }
  rewrite Hr. destruct (Z.eqb_spec f (-1)) as [?|_]; [contradiction|].
  rewrite Z.sub_diag, Z.mod_0_l by (unfold MAX_PROCESSES; lia).
  split; [|reflexivity].
  change (Z.to_nat (0 + 1)) with 1%nat. cbn [seq map].
  f_equal. rewrite Z.add_0_r, Z.mod_small by lia.
  apply nth_upd_same. rewrite Hlen. unfold MAX_PROCESSES in *. lia.
Qed.

(** The full queue [0; 1; ...; 499] after one more [enqueue]. *)
Lemma queue_overflow_collapses_witness :
  queue_list (enqueue (mkQueue (map Z.of_nat (seq 0 500)) 0 499) 500) = [500].
Proof.
  apply (queue_overflow_collapses (mkQueue (map Z.of_nat (seq 0 500)) 0 499) 500).
  - unfold queue_wf. cbn [items front rear].
    split; [rewrite length_map, length_seq; reflexivity|].
    right. unfold MAX_PROCESSES. lia.
  - reflexivity.
Defined.

End CircularQueueLaws.

(** ** Reading the workload *)

Lemma read_ints_spec (n : nat) :
  forall input : list Z,
  read_ints n input =
  if (n <=? length input)%nat then Some (firstn n input, skipn n input) else None.
Proof.
  induction n as [|n IH]; intros input; [reflexivity|].
  destruct input as [|x input]; [reflexivity|].
  cbn [read_ints length firstn skipn]. rewrite IH.
  change (S n <=? S (length input))%nat with (n <=? length input)%nat.
  destruct (n <=? length input)%nat; reflexivity.
Qed.

Lemma frames_below_length (n : nat) (top : Z) : length (frames_below n top) = n.
Proof. revert top. induction n as [|n IH]; intros top; simpl; [|rewrite IH]; reflexivity. Qed.

Lemma frames_below_firstn (k : nat) :
  forall (m : nat) (top : Z), (k <= m)%nat ->
  firstn k (frames_below m top) = frames_below k top.
Proof.
  induction k as [|k IH]; intros m top H; [reflexivity|].
  destruct m as [|m]; [lia|]. cbn [frames_below firstn]. rewrite IH by lia. reflexivity.
Qed.

Lemma frames_below_skipn (k : nat) :
  forall (m : nat) (top : Z), (k <= m)%nat ->
  skipn k (frames_below m top) = frames_below (m - k) (top - Z.of_nat k).
Proof.
  induction k as [|k IH]; intros m top H.
  - cbn [skipn]. rewrite Nat.sub_0_r, Z.sub_0_r. reflexivity.
  - destruct m as [|m]; [lia|]. cbn [frames_below skipn]. rewrite IH by lia.
    f_equal. lia.
Qed.

Lemma frames_below_nth (n : nat) :
  forall (top : Z) (j : nat), (j < n)%nat ->
  nth_error (frames_below n top) j = Some (top - 1 - Z.of_nat j).
Proof.
  induction n as [|n IH]; intros top j H; [lia|].
  destruct j as [|j]; cbn [frames_below nth_error].
  - f_equal. lia.
  - rewrite IH by lia. f_equal. lia.
Qed.

Lemma nth_skipn_shift {A : Type} (m k : nat) (l : list A) (d : A) :
  nth k (skipn m l) d = nth (m + k) l d.
Proof.
  revert l. induction m as [|m IH]; intros l; [reflexivity|].
  destruct l as [|x l]; [destruct k; reflexivity|]. cbn [skipn]. rewrite IH. reflexivity.
Qed.

(** What the process loop of [initialize_system] builds from the integers
    [input] when the free stack is [frames_below m top]. *)
Lemma init_processes_layout (ns : Z) (n : nat) :
  forall (input : list Z) (m : nat) (top : Z) (ps : list Process) (free' : list Z),
  (Z.to_nat ESSENTIAL_PAGES * n <= m)%nat ->
  init_processes n ns input (frames_below m top) = Some (ps, free') ->
  length ps = n /\
  free' = frames_below (m - Z.to_nat ESSENTIAL_PAGES * n)
                       (top - ESSENTIAL_PAGES * Z.of_nat n) /\
  forall (i : nat) (p : Process),
    nth_error ps i = Some p ->
    array_size p = nth (i * S (Z.to_nat ns)) input 0 /\
    search_indices p =
      firstn (Z.to_nat ns) (skipn (i * S (Z.to_nat ns) + 1) input)
      ++ repeat 0 (Z.to_nat (MAX_SEARCHES - ns)) /\
    num_searches p = ns /\ current_search p = 0 /\
    frames_allocated p = ESSENTIAL_PAGES /\ is_active p = true /\
    page_table p =
      map mk_entry (frames_below (Z.to_nat ESSENTIAL_PAGES)
                                 (top - ESSENTIAL_PAGES * Z.of_nat i))
      ++ repeat 0 (Z.to_nat (PAGE_TABLE_SIZE - ESSENTIAL_PAGES)).
Proof.
  change (Z.to_nat ESSENTIAL_PAGES) with 10%nat.
  induction n as [|n IH]; intros input m top ps free' Hm H.
  - cbn [init_processes] in H. injection H as <- <-.
    split; [reflexivity|]. split.
    + rewrite Nat.mul_0_r, Nat.sub_0_r, Z.mul_0_r, Z.sub_0_r. reflexivity.
    + intros [|i] p Hp; discriminate.
  - cbn [init_processes] in H.
    destruct input as [|asz input1]; [discriminate|].
    rewrite read_ints_spec in H.
    destruct (Z.to_nat ns <=? length input1)%nat; [|discriminate].
    change (Z.to_nat ESSENTIAL_PAGES) with 10%nat in H.
    change (Z.to_nat PAGE_TABLE_SIZE) with (10 + 2038)%nat in H.
    rewrite repeat_app in H.
    pose proof (alloc_essential_closed 10 [] (repeat 0 10 ++ repeat 0 2038) 0
                  (frames_below m top)) as Halloc.
    cbn [length app] in Halloc. rewrite Halloc in H by (rewrite length_app, !repeat_length; lia).
    clear Halloc.
    rewrite frames_below_length, Nat.min_l in H by lia.
    rewrite frames_below_firstn, frames_below_skipn in H by lia.
    replace (skipn 10 (repeat 0 10 ++ repeat 0 2038)) with (repeat 0 2038) in H by reflexivity.
    destruct (init_processes n ns (skipn (Z.to_nat ns) input1)
                (frames_below (m - 10) (top - Z.of_nat 10))) as [[ps1 free1]|] eqn:E;
      [|discriminate].
    injection H as <- <-.
    apply IH in E; [|lia]. destruct E as (Hlen & Hfree & Hps).
    split; [cbn [length]; lia|]. split.
    + rewrite Hfree. f_equal; unfold ESSENTIAL_PAGES; lia.
    + intros [|i] p Hp.
      * cbn [nth_error] in Hp. injection Hp as <-.
        cbn [array_size search_indices num_searches current_search frames_allocated
             is_active page_table Nat.mul Nat.add nth skipn].
        change (Z.of_nat 0) with 0. rewrite Z.mul_0_r, Z.sub_0_r.
        repeat split; reflexivity.
      * cbn [nth_error] in Hp. destruct (Hps i p Hp) as (A1 & A2 & A3 & A4 & A5 & A6 & A7).
        split.
        { rewrite A1, nth_skipn_shift.
          replace (S i * S (Z.to_nat ns))%nat
            with (S (Z.to_nat ns + i * S (Z.to_nat ns)))%nat by lia.
          reflexivity. }
        split.
        { rewrite A2, skipn_skipn.
          replace (S i * S (Z.to_nat ns) + 1)%nat
            with (S (i * S (Z.to_nat ns) + 1 + Z.to_nat ns))%nat by lia.
          reflexivity. }
        repeat split; try assumption.
        rewrite A7. do 3 f_equal. unfold ESSENTIAL_PAGES. lia.
Qed.

(** The process loop has a result exactly when the input holds an array
    size and [ns] keys for each process. *)
Lemma init_processes_defined (ns : Z) (n : nat) :
  forall input free : list Z,
  (exists r, init_processes n ns input free = Some r) <->
  (n * S (Z.to_nat ns) <= length input)%nat.
Proof.
  induction n as [|n IH]; intros input free.
  - cbn [init_processes]. split; [intros _; lia | intros _; eauto].
  - cbn [init_processes]. destruct input as [|asz input1].
    + split; [intros [r H]; discriminate | cbn [length]; lia].
    + rewrite read_ints_spec. cbn [length].
      destruct (Nat.leb_spec (Z.to_nat ns) (length input1)) as [Hle|Hgt].
      * destruct (alloc_essential _ _ _ _ _) as [[pt fa] free1].
        specialize (IH (skipn (Z.to_nat ns) input1) free1).
        rewrite length_skipn in IH.
        destruct (init_processes n ns (skipn (Z.to_nat ns) input1) free1) as [[ps free2]|].
        { split; [intros _|intros _; eauto].
          assert (H : (n * S (Z.to_nat ns) <= length input1 - Z.to_nat ns)%nat)
            by (apply IH; eauto).
          lia. }
        { split; [intros [r H]; discriminate|]. intros H. exfalso.
          assert (Hc : exists r : list Process * list Z, None = Some r) by (apply IH; lia).
          destruct Hc as [r Hr]. discriminate. }
      * split; [intros [r H]; discriminate | lia].
Qed.

Lemma init_processes_trailing (ns : Z) (n : nat) :
  forall (input free extra : list Z) (r : list Process * list Z),
  init_processes n ns input free = Some r ->
  init_processes n ns (input ++ extra) free = Some r.
Proof.
  induction n as [|n IH]; intros input free extra r H; [exact H|].
  cbn [init_processes] in *.
  destruct input as [|asz input1]; [discriminate|]. cbn [app].
  rewrite read_ints_spec in *. rewrite length_app.
  destruct (Nat.leb_spec (Z.to_nat ns) (length input1)) as [Hle|Hgt]; [|discriminate].
  destruct (Nat.leb_spec (Z.to_nat ns) (length input1 + length extra)) as [_|Hc]; [|lia].
  rewrite firstn_app, skipn_app.
  replace (Z.to_nat ns - length input1)%nat with 0%nat by lia.
  cbn [firstn skipn]. rewrite app_nil_r.
  destruct (alloc_essential _ _ _ _ _) as [[pt fa] free1].
  destruct (init_processes n ns (skipn (Z.to_nat ns) input1) free1) as [[ps free2]|] eqn:E;
    [|discriminate].
  rewrite (IH _ _ extra _ E). exact H.
Qed.

Section Initialization.
Context {Q : Type} (q0 : Q).

Lemma initialize_with_accepts (input : list Z) :
  (exists s, initialize_with q0 input = Some s) <->
  (exists np ns rest,
     input = np :: ns :: rest /\
     0 < np <= MAX_PROCESSES /\ 0 < ns <= MAX_SEARCHES /\
     np * (ns + 1) <= Z.of_nat (length rest)).
Proof.
  unfold initialize_with. split.
  - intros [s H]. destruct input as [|np [|ns rest]]; try discriminate.
    destruct (_ || _) eqn:Hguard; [discriminate|].
    apply orb_false_elim in Hguard. destruct Hguard as [Hguard H4].
    apply orb_false_elim in Hguard. destruct Hguard as [Hguard H3].
    apply orb_false_elim in Hguard. destruct Hguard as [H1 H2].
    apply Z.leb_gt in H1, H3. apply Z.ltb_ge in H2, H4.
    exists np, ns, rest. split; [reflexivity|]. split; [lia|]. split; [lia|].
    destruct (init_processes _ _ _ _) as [r|] eqn:E; [|discriminate].
    assert (Hd : (Z.to_nat np * S (Z.to_nat ns) <= length rest)%nat).
    { apply (init_processes_defined ns (Z.to_nat np) rest initial_free_frames). eauto. }
    nia.
  - intros (np & ns & rest & -> & Hnp & Hns & Hlen).
    destruct (Z.leb_spec np 0); [lia|]. destruct (Z.ltb_spec MAX_PROCESSES np); [lia|].
    destruct (Z.leb_spec ns 0); [lia|]. destruct (Z.ltb_spec MAX_SEARCHES ns); [lia|].
    cbn [orb].
    destruct (proj2 (init_processes_defined ns (Z.to_nat np) rest initial_free_frames))
      as [[ps free] E]; [nia|].
    rewrite E. eauto.
Qed.

Lemma initialize_with_layout (input : list Z) (s : SystemState Q) :
  initialize_with q0 input = Some s ->
  exists np ns rest,
    input = np :: ns :: rest /\
    num_processes s = np /\ min_active_processes s = np /\
    swap_queue s = q0 /\ output s = [] /\
    page_accesses s = 0 /\ page_faults s = 0 /\ num_swaps s = 0 /\
    free_frames s = frames_below (Z.to_nat (USER_FRAMES - ESSENTIAL_PAGES * np))
                                 (USER_FRAMES - ESSENTIAL_PAGES * np) /\
    forall (i : nat) (p : Process),
      nth_error (processes s) i = Some p ->
      array_size p = nth (i * S (Z.to_nat ns)) rest 0 /\
      search_indices p =
        firstn (Z.to_nat ns) (skipn (i * S (Z.to_nat ns) + 1) rest)
        ++ repeat 0 (Z.to_nat (MAX_SEARCHES - ns)) /\
      num_searches p = ns /\ current_search p = 0 /\
      frames_allocated p = ESSENTIAL_PAGES /\ is_active p = true /\
      page_table p =
        map mk_entry (frames_below (Z.to_nat ESSENTIAL_PAGES)
                                   (USER_FRAMES - ESSENTIAL_PAGES * Z.of_nat i))
        ++ repeat 0 (Z.to_nat (PAGE_TABLE_SIZE - ESSENTIAL_PAGES)).
Proof.
  unfold initialize_with. intros H.
  destruct input as [|np [|ns rest]]; try discriminate.
  destruct (_ || _) eqn:Hguard; [discriminate|].
  apply orb_false_elim in Hguard. destruct Hguard as [Hguard H4].
  apply orb_false_elim in Hguard. destruct Hguard as [Hguard H3].
  apply orb_false_elim in Hguard. destruct Hguard as [H1 H2].
  apply Z.leb_gt in H1, H3. apply Z.ltb_ge in H2, H4.
  destruct (init_processes _ _ _ _) as [[ps free]|] eqn:E; [|discriminate].
  injection H as <-. unfold initial_free_frames in E.
  apply init_processes_layout in E.
  2:{ unfold ESSENTIAL_PAGES, USER_FRAMES, MAX_PROCESSES in *. lia. }
  destruct E as (Hlen & Hfree & Hps).
  exists np, ns, rest. unfold num_processes. state_simpl.
  split; [reflexivity|]. split; [lia|]. split; [reflexivity|].
  split; [reflexivity|]. split; [reflexivity|]. split; [reflexivity|].
  split; [reflexivity|]. split; [reflexivity|]. split.
  - rewrite Hfree. f_equal; unfold ESSENTIAL_PAGES, USER_FRAMES, MAX_PROCESSES in *; lia.
  - exact Hps.
Qed.

Lemma initialize_with_trailing (input extra : list Z) (s : SystemState Q) :
  initialize_with q0 input = Some s ->
  initialize_with q0 (input ++ extra) = Some s.
Proof.
  unfold initialize_with. intros H.
  destruct input as [|np [|ns rest]]; try discriminate. cbn [app].
  destruct (_ || _); [discriminate|].
  destruct (init_processes _ _ rest _) as [r|] eqn:E; [|discriminate].
  rewrite (init_processes_trailing _ _ _ _ extra _ E). exact H.
Qed.

End Initialization.

(** X7. On a file of numerals that fit an [int], [initialize_system] of
    either variant (lines 43-112 and 394-460)
    ends in [exit(1)] unless the file starts with a process count in
    [1 .. MAX_PROCESSES] and a search count in [1 .. MAX_SEARCHES] and then
    holds an array size and that many keys for every process; integers
    after these are not read. *)
Theorem initialization_accepts (input : list Z) :
  Forall fits_int input ->
  let enough :=
    exists np ns rest,
      input = np :: ns :: rest /\
      0 < np <= MAX_PROCESSES /\ 0 < ns <= MAX_SEARCHES /\
      np * (ns + 1) <= Z.of_nat (length rest) in
  ((exists s, Shifting.initialize_system input = Some s) <-> enough) /\
  ((exists s, Circular.initialize_system input = Some s) <-> enough) /\
  (forall extra s,
     Shifting.initialize_system input = Some s ->
     Shifting.initialize_system (input ++ extra) = Some s) /\
  (forall extra s,
     Circular.initialize_system input = Some s ->
     Circular.initialize_system (input ++ extra) = Some s).
Proof.
  intros _ enough. split; [apply initialize_with_accepts|].
  split; [apply initialize_with_accepts|].
  split; intros extra s; apply initialize_with_trailing.
Qed.

(** One process with two searches needs three integers after the two
    counts: with two the run stops in [exit(1)]. *)
Lemma initialization_accepts_witness :
  (exists s, Circular.initialize_system [1; 2; 8; 3; 5] = Some s) /\
  Circular.initialize_system [1; 2; 8; 3] = None.
Proof.
  pose proof (initialization_accepts [1; 2; 8; 3; 5]
                ltac:(apply fits_intb_spec; reflexivity)) as H.
  cbv zeta in H.
  destruct H as (_ & [_ H] & _). split.
  - apply H. exists 1, 2, [8; 3; 5]. cbn [length].
    unfold MAX_PROCESSES, MAX_SEARCHES. repeat split; lia.
  - destruct (Circular.initialize_system [1; 2; 8; 3]) as [s|] eqn:E; [|reflexivity].
    exfalso.
    pose proof (initialization_accepts [1; 2; 8; 3]
                  ltac:(apply fits_intb_spec; reflexivity)) as H'.
    cbv zeta in H'.
    destruct H' as (_ & [H' _] & _).
    destruct (H' (ex_intro _ s E)) as (np & ns & rest & Hin & _ & _ & Hlen).
    injection Hin as <- <- <-. cbn [length] in Hlen. lia.
Defined.

(** X8. After [initialize_system] (lines 43-112 and 394-460) on a file
    of numerals that fit an [int], process [i]
    has the array size and the keys of its record in the file, the keys
    padded with zeros to [MAX_SEARCHES] cells; it is active on search 0
    with [ESSENTIAL_PAGES] frames: page [j < ESSENTIAL_PAGES] holds frame
    [USER_FRAMES - 1 - (ESSENTIAL_PAGES * i + j)] and every other page is
    invalid.  The free stack holds the frames below these, the highest on
    top; the counters are zero and [min_active_processes] is the number of
    processes. *)
Theorem initialization_layout (input : list Z) :
  Forall fits_int input ->
  let layout (Q : Type) (q0 : Q) (s : SystemState Q) :=
    exists np ns rest,
      input = np :: ns :: rest /\
      num_processes s = np /\ min_active_processes s = np /\
      swap_queue s = q0 /\ output s = [] /\
      page_accesses s = 0 /\ page_faults s = 0 /\ num_swaps s = 0 /\
      free_frames s = frames_below (Z.to_nat (USER_FRAMES - ESSENTIAL_PAGES * np))
                                   (USER_FRAMES - ESSENTIAL_PAGES * np) /\
      forall (i : nat) (p : Process),
        nth_error (processes s) i = Some p ->
        array_size p = nth (i * S (Z.to_nat ns)) rest 0 /\
        search_indices p =
          firstn (Z.to_nat ns) (skipn (i * S (Z.to_nat ns) + 1) rest)
          ++ repeat 0 (Z.to_nat (MAX_SEARCHES - ns)) /\
        num_searches p = ns /\ current_search p = 0 /\
        frames_allocated p = ESSENTIAL_PAGES /\ is_active p = true /\
        (forall j : nat,
           (j < Z.to_nat ESSENTIAL_PAGES)%nat ->
           nth_error (page_table p) j =
           Some (mk_entry (USER_FRAMES - 1 - (ESSENTIAL_PAGES * Z.of_nat i + Z.of_nat j)))) /\
        (forall j : nat,
           (Z.to_nat ESSENTIAL_PAGES <= j < Z.to_nat PAGE_TABLE_SIZE)%nat ->
           nth_error (page_table p) j = Some 0) /\
        length (page_table p) = Z.to_nat PAGE_TABLE_SIZE in
  (forall s, Shifting.initialize_system input = Some s -> layout _ [] s) /\
  (forall s, Circular.initialize_system input = Some s -> layout _ Circular.initQueue s).
Proof.
  assert (Hgen : forall (Q : Type) (q0 : Q) (s : SystemState Q),
             initialize_with q0 input = Some s ->
             exists np ns rest,
               input = np :: ns :: rest /\
               num_processes s = np /\ min_active_processes s = np /\
               swap_queue s = q0 /\ output s = [] /\
               page_accesses s = 0 /\ page_faults s = 0 /\ num_swaps s = 0 /\
               free_frames s = frames_below (Z.to_nat (USER_FRAMES - ESSENTIAL_PAGES * np))
                                            (USER_FRAMES - ESSENTIAL_PAGES * np) /\
               forall (i : nat) (p : Process),
                 nth_error (processes s) i = Some p ->
                 array_size p = nth (i * S (Z.to_nat ns)) rest 0 /\
                 search_indices p =
                   firstn (Z.to_nat ns) (skipn (i * S (Z.to_nat ns) + 1) rest)
                   ++ repeat 0 (Z.to_nat (MAX_SEARCHES - ns)) /\
                 num_searches p = ns /\ current_search p = 0 /\
                 frames_allocated p = ESSENTIAL_PAGES /\ is_active p = true /\
                 (forall j : nat,
                    (j < Z.to_nat ESSENTIAL_PAGES)%nat ->
                    nth_error (page_table p) j =
                    Some (mk_entry (USER_FRAMES - 1 - (ESSENTIAL_PAGES * Z.of_nat i + Z.of_nat j)))) /\
                 (forall j : nat,
                    (Z.to_nat ESSENTIAL_PAGES <= j < Z.to_nat PAGE_TABLE_SIZE)%nat ->
                    nth_error (page_table p) j = Some 0) /\
                 length (page_table p) = Z.to_nat PAGE_TABLE_SIZE).
  { intros Q q0 s H.
    destruct (initialize_with_layout q0 input s H)
      as (np & ns & rest & E & A1 & A2 & A3 & A4 & A5 & A6 & A7 & A8 & Hps).
    exists np, ns, rest. repeat (split; [assumption|]).
    intros i p Hp. destruct (Hps i p Hp) as (B1 & B2 & B3 & B4 & B5 & B6 & B7).
    repeat (split; [assumption|]). rewrite B7.
    change (Z.to_nat ESSENTIAL_PAGES) with 10%nat.
    change (Z.to_nat (PAGE_TABLE_SIZE - ESSENTIAL_PAGES)) with 2038%nat.
    change (Z.to_nat PAGE_TABLE_SIZE) with 2048%nat.
    split; [|split].
    - intros j Hj.
      rewrite nth_error_app1 by (rewrite length_map, frames_below_length; lia).
      rewrite nth_error_map, frames_below_nth by lia. cbn [option_map].
      do 2 f_equal. lia.
    - intros j Hj.
      rewrite nth_error_app2 by (rewrite length_map, frames_below_length; lia).
      rewrite length_map, frames_below_length.
      apply nth_error_repeat. lia.
    - rewrite length_app, length_map, frames_below_length, repeat_length. reflexivity. }
  intros _ layout. split; intros s H; apply Hgen; exact H.
Qed.

(** Two processes: page 3 of the second one holds frame 12274. *)
Lemma initialization_layout_witness :
  match Circular.initialize_system [2; 1; 8; 3; 8; 5] with
  | Some s =>
      forall p, nth_error (processes s) 1 = Some p ->
      nth_error (page_table p) 3 = Some (mk_entry 12274)
  | None => False
  end.
Proof.
  destruct (Circular.initialize_system [2; 1; 8; 3; 8; 5]) as [s|] eqn:E.
  - intros p Hp.
    pose proof (initialization_layout [2; 1; 8; 3; 8; 5]
                  ltac:(apply fits_intb_spec; reflexivity)) as H.
    cbv zeta in H.
    destruct H as [_ H].
    destruct (H s E) as (np & ns & rest & _ & _ & _ & _ & _ & _ & _ & _ & _ & Hps).
    destruct (Hps 1%nat p Hp) as (_ & _ & _ & _ & _ & _ & Hpages & _).
    apply (Hpages 3%nat). unfold ESSENTIAL_PAGES. simpl. lia.
  - assert (Hn : exists s, Circular.initialize_system [2; 1; 8; 3; 8; 5] = Some s).
    { apply (proj2 (initialize_with_accepts Circular.initQueue [2; 1; 8; 3; 8; 5])).
      exists 2, 1, [8; 3; 8; 5]. cbn [length].
      unfold MAX_PROCESSES, MAX_SEARCHES. repeat split; lia. }
    destruct Hn as [s Hs]. congruence.
Defined.

(** ** Counters and notices *)

Lemma swap_outs_app (l1 l2 : list event) :
  swap_outs (l1 ++ l2) = swap_outs l1 ++ swap_outs l2.
Proof.
  induction l1 as [|[pid n|pid n] t IH]; cbn [app swap_outs]; [reflexivity| |];
    rewrite IH; reflexivity.
Qed.

Lemma swap_outs_resumed (c : Z) (l : list Z) :
  swap_outs (map (fun x => SwapInMsg x c) l) = [].
Proof. induction l as [|x t IH]; cbn [map swap_outs]; [reflexivity | exact IH]. Qed.

Lemma count_active_positive (ps : list Process) (i : nat) (p : Process) :
  nth_error ps i = Some p -> is_active p = true -> 1 <= count_active ps.
Proof.
  revert i. induction ps as [|h t IH]; intros [|i] Hn Ha; simpl in *; try discriminate.
  - inversion Hn; subst. rewrite Ha. pose proof (count_active_bounds t). lia.
  - specialize (IH _ Hn Ha). destruct (is_active h); lia.
Qed.

Lemma count_active_all (ps : list Process) :
  Forall (fun p => is_active p = true) ps -> count_active ps = Z.of_nat (length ps).
Proof.
  induction 1 as [|p t Hp _ IH]; [reflexivity|].
  cbn [count_active length]. rewrite Hp, IH. lia.
Qed.

Section CircularLedger.
Import Circular.

(** With no frame free, the frames are held by more than one process. *)
Lemma circular_other_holder (s : State) (pid : Z) (p : Process) :
  Inv s -> get_process s pid = Ok p -> free_frames s = [] ->
  exists x, x <> pid /\ runnable s x.
Proof.
  intros HI Hg Hfree.
  pose proof (inv_process_ok s pid p HI Hg) as Hok.
  pose proof Hg as Hn. apply get_process_nth in Hn. destruct Hn as [H0 Hn].
  destruct (upd_split (Z.to_nat pid) p p (processes s) Hn) as (l1 & l2 & Hsplit & _ & Hl1).
  pose proof (inv_frames s HI) as Hperm. apply Permutation_length in Hperm.
  rewrite Hfree, frame_space_length in Hperm. cbn [app] in Hperm.
  rewrite Hsplit, all_held_app, all_held_cons, !length_app in Hperm.
  pose proof (held_length_le (page_table p)) as Hle.
  rewrite (ok_table_size p Hok) in Hle.
  assert (Hne : all_held (l1 ++ l2) <> []).
  { intros Hnil. apply (f_equal (@length _)) in Hnil.
    rewrite all_held_app, length_app in Hnil. cbn [length] in Hnil.
    unfold PAGE_TABLE_SIZE, USER_FRAMES in *. lia. }
  apply all_held_witness in Hne. destruct Hne as (q & Hin & Hheld).
  assert (Hinq : In q (processes s)).
  { rewrite Hsplit. apply in_app_iff. apply in_app_iff in Hin.
    destruct Hin; [left|right; right]; assumption. }
  assert (Hokq : process_ok q).
  { eapply Forall_forall; [apply (inv_procs s HI)|assumption]. }
  assert (Haq : is_active q = true).
  { destruct (is_active q) eqn:E; [reflexivity|].
    exfalso. apply Hheld. apply (ok_inactive q Hokq). assumption. }
  assert (Hfq : finished q = false).
  { destruct (finished q) eqn:E; [|reflexivity].
    exfalso. apply Hheld. apply (ok_finished q Hokq). assumption. }
  apply in_app_iff in Hin. destruct Hin as [Hin|Hin].
  - apply In_nth_error in Hin. destruct Hin as [i Hi].
    assert (Hlt : (i < length l1)%nat) by (apply nth_error_Some; congruence).
    exists (Z.of_nat i). split; [lia|].
    exists q. split; [|auto]. apply zget_ok. split; [lia|].
    rewrite Nat2Z.id, Hsplit, nth_error_app1 by assumption. assumption.
  - apply In_nth_error in Hin. destruct Hin as [i Hi].
    exists (Z.of_nat (length l1 + 1 + i)). split; [lia|].
    exists q. split; [|auto]. apply zget_ok. split; [lia|].
    rewrite Nat2Z.id, Hsplit.
    rewrite nth_error_app2 by lia.
    replace (length l1 + 1 + i - length l1)%nat with (S i) by lia.
    assumption.
Qed.

Lemma circular_ledger_ext (s s' : State) :
  processes s' = processes s -> swap_queue s' = swap_queue s ->
  output s' = output s -> num_swaps s' = num_swaps s ->
  min_active_processes s' = min_active_processes s ->
  0 <= page_faults s' <= page_accesses s' ->
  circular_ledger s -> circular_ledger s'.
Proof.
  unfold circular_ledger. intros -> -> -> -> -> Hpf (A & B & _ & D). auto.
Qed.

(** One page reference keeps the ledger. *)
Lemma circular_reference_page_ledger (s s' : State) (pid pg : Z) (b : bool) :
  Inv s -> runnable s pid -> circular_ledger s ->
  reference_page s pid pg = Ok (s', b) ->
  circular_ledger s'.
Proof.
  intros HI (p & Hg & Ha & Hfin) HL. unfold reference_page.
  set (s1 := set_page_accesses s (page_accesses s + 1)).
  assert (Hg1 : get_process s1 pid = Ok p) by exact Hg.
  assert (HI1 : Inv s1) by (apply (Inv_ext s s1); auto).
  rewrite Hg1. cbn [bind].
  destruct (zget (page_table p) pg) as [e| |] eqn:He; cbn [bind]; try discriminate.
  pose proof HL as (L1 & L2 & L3 & L4).
  destruct (is_valid e) eqn:Hv.
  - intros [= <- <-]. apply (circular_ledger_ext s s1); auto.
    subst s1. state_simpl. lia.
  - set (s2 := set_page_faults s1 (page_faults s1 + 1)).
    assert (Hg2 : get_process s2 pid = Ok p) by exact Hg.
    assert (HI2 : Inv s2) by (apply (Inv_ext s1 s2); auto).
    assert (HL2 : circular_ledger s2).
    { apply (circular_ledger_ext s s2); auto. subst s2 s1. state_simpl. lia. }
    destruct (free_frames s2) as [|f free] eqn:Hfree.
    + destruct (swap_out_active s2 pid p Hg2 Ha)
        as (s3 & Hrun & Hp & Hf & Hq & Hsw & Hpa & Hpf & Hmin & Hout).
      unfold handle_page_fault. rewrite Hg2. cbn [bind]. rewrite Hfree, Hrun. cbn [bind].
      intros [= <- <-].
      destruct (enqueue_spec (swap_queue s2) pid (inv_queue_wf s2 HI2)
                  (queue_room s2 pid p HI2 Hg2 Ha)) as [_ Hl].
      pose proof Hg2 as Hn. apply get_process_nth in Hn. destruct Hn as [H0 Hn].
      destruct (circular_other_holder s2 pid p HI2 Hg2 Hfree) as (x & Hne & (px & Hgx & Hax & _)).
      assert (Hgx3 : get_process s3 x = Ok px).
      { unfold get_process. rewrite Hp.
        change (get_process (put_process s2 pid
                  (set_is_active (set_frames_allocated (set_page_table p
                     (map (fun e => if is_valid e then 0 else e) (page_table p))) 0) false)) x
                = Ok px).
        rewrite get_put_other by auto. assumption. }
      apply get_process_nth in Hgx3. destruct Hgx3 as [_ Hnx].
      pose proof (count_active_positive _ _ px Hnx Hax) as Hpos.
      assert (Hcount : count_active (processes s3) = count_active (processes s2) - 1).
      { rewrite Hp, (count_active_upd _ _ p _ Hn), Ha. proc_simpl. lia. }
      destruct HL2 as (M1 & M2 & M3 & M4).
      unfold circular_ledger.
      rewrite Hout, swap_outs_app, swap_ins_app, Hq, Hl, Hsw, Hpa, Hpf, Hmin.
      cbn [swap_outs swap_ins]. rewrite app_nil_r, !length_app. cbn [length].
      unfold get_active_process_count. rewrite M2 in *.
      repeat split; lia.
    + destruct (page_fault_granted s2 pid pg p e f free HI2 Hg2 Ha Hfin He Hv Hfree)
        as (s3 & Hrun & _ & Hquiet & _ & Hpa & Hpf & _).
      rewrite Hrun. intros [= <- <-].
      destruct Hquiet as (Q1 & Q2 & Q3 & Q4 & Q5 & Q6 & Q7 & Q8).
      destruct HL2 as (M1 & M2 & M3 & M4).
      unfold circular_ledger. rewrite Q8, Q4, Q6, Q7, Hpa, Hpf, (count_active_map _ _ Q3).
      auto.
Qed.

Lemma circular_search_loop_ledger (pid key : Z) (fuel : nat) :
  forall (s s' : State) (L R : Z) (b : bool),
  Inv s -> runnable s pid -> circular_ledger s ->
  search_loop fuel s pid key L R = Ok (s', b) ->
  circular_ledger s' /\ Inv s' /\ (b = true -> runnable s' pid).
Proof.
  induction fuel as [|fuel IH]; intros s s' L R b HI Hr HL H; [discriminate|].
  cbn [search_loop] in H. destruct (L <? R).
  - destruct (reference_page s pid (page_of (midpoint L R))) as [[s1 b1]| |] eqn:Href;
      cbn [bind fst snd] in H; try discriminate.
    pose proof (circular_reference_page_ledger s s1 pid _ b1 HI Hr HL Href) as HL1.
    destruct (reference_page_cases s pid (page_of (midpoint L R)) HI Hr)
      as [[Hu _]|[(s2 & Hrun & HI2 & _ & Hr2 & _)|(s2 & Hrun & HI2 & _)]];
      rewrite Href in *; try discriminate; injection Hrun as -> ->.
    + destruct (key <=? midpoint L R); eapply IH; eauto.
    + injection H as <- <-. split; [assumption|]. split; [assumption|]. discriminate.
  - injection H as <- <-. auto.
Qed.

(** The end of a search keeps the ledger. *)
Lemma circular_complete_search_ledger (s s' : State) (pid : Z) :
  Inv s -> runnable s pid -> circular_ledger s ->
  complete_search s pid = Ok s' -> circular_ledger s'.
Proof.
  intros HI (p & Hg & Ha & Hfin) HL.
  pose proof Hg as Hn. apply get_process_nth in Hn. destruct Hn as [H0 Hn].
  pose proof (inv_process_ok s pid p HI Hg) as Hok.
  unfold complete_search. rewrite Hg. cbn [bind].
  set (p1 := set_current_search p (current_search p + 1)).
  assert (Hcur : current_search p < num_searches p).
  { unfold finished in Hfin. apply Z.leb_gt in Hfin. assumption. }
  destruct HL as (L1 & L2 & L3 & L4).
  destruct (finished p1) eqn:Hfin1.
  - rewrite release_frames_spec.
    set (p2 := set_frames_allocated _ 0).
    set (s1 := put_process _ pid p2).
    assert (Hok2 : process_ok p2).
    { destruct Hok as [K1 K2 K3 K4 K5 K6 K7 K8].
      subst p2 p1. constructor; proc_simpl;
        [ rewrite length_map; assumption | assumption | assumption | lia
        | rewrite held_cleared; reflexivity | intros _; apply held_cleared
        | intros _; split; [apply held_cleared | assumption]
        | intros _ Hc; unfold finished in *; proc_simpl; congruence ]. }
    assert (HI1 : Inv s1).
    { apply (Inv_put_same_queue s s1 pid p p2); auto.
      subst s1 p2 p1. state_simpl. proc_simpl. rewrite held_cleared, app_nil_r.
      rewrite Permutation_app_comm. apply Permutation_app_head.
      symmetry. apply Permutation_rev. }
    assert (Hc1 : count_active (processes s1) = count_active (processes s)).
    { subst s1. state_simpl. rewrite (count_active_upd _ _ p p2 Hn).
      change (is_active p2) with (is_active p). lia. }
    destruct (drain_spec drain_fuel s1 HI1) as (s2 & resumed & Hrun & _ & Hres & _).
    { rewrite queue_list_length. pose proof (queue_size_range (swap_queue s1)).
      unfold drain_fuel, MAX_PROCESSES in *. lia. }
    rewrite Hrun. intros [= <-].
    destruct Hres as (R1 & R2 & R3 & R4 & R5 & R6 & R7 & R8 & R9 & R10).
    unfold circular_ledger.
    rewrite R3, swap_outs_app, swap_ins_app, swap_outs_resumed, swap_ins_notices.
    rewrite app_nil_r, length_app, R4, R5, R8, R9, R10, Hc1.
    change (output s1) with (output s). change (num_swaps s1) with (num_swaps s).
    change (page_accesses s1) with (page_accesses s).
    change (page_faults s1) with (page_faults s).
    change (min_active_processes s1) with (min_active_processes s).
    change (swap_queue s1) with (swap_queue s) in R1.
    rewrite R1, length_app in L2.
    repeat split; lia.
  - intros [= <-]. unfold circular_ledger. state_simpl.
    rewrite (count_active_upd _ _ p p1 Hn).
    change (is_active p1) with (is_active p).
    repeat split; lia.
Qed.

(** A scheduling turn keeps the ledger. *)
Lemma circular_step_ledger (s s' : State) (pid : Z) :
  Inv s -> circular_ledger s ->
  simulate_binary_search s pid = Ok s' -> circular_ledger s'.
Proof.
  intros HI HL. unfold simulate_binary_search.
  destruct (get_process s pid) as [p| |] eqn:Hg; cbn [bind]; try discriminate.
  destruct (is_active p) eqn:Ha; cbn [negb orb]; [|intros [= <-]; assumption].
  destruct (finished p) eqn:Hfin; [intros [= <-]; assumption|].
  assert (Hr : runnable s pid) by (exists p; auto).
  destruct (zget (search_indices p) (current_search p)) as [key| |]; cbn [bind];
    try discriminate.
  destruct (search_loop _ s pid key 0 (array_size p - 1)) as [[s1 b]| |] eqn:Hloop;
    cbn [bind fst snd]; try discriminate.
  destruct (circular_search_loop_ledger pid key _ s s1 _ _ b HI Hr HL Hloop)
    as (HL1 & HI1 & Hb).
  destruct b.
  - apply circular_complete_search_ledger; auto.
  - intros [= <-]. assumption.
Qed.

Lemma circular_initial_ledger (input : list Z) (s : State) :
  initialize_system input = Some s -> circular_ledger s.
Proof.
  intros H. destruct (initialize_inv input s H) as (HI & _ & Hact).
  destruct (initialize_with_layout initQueue input s H)
    as (np & ns & rest & _ & Hn & Hmin & Hq & Hout & Hpa & Hpf & Hsw & _).
  unfold circular_ledger. rewrite Hout, Hq, Hpa, Hpf, Hsw, Hmin, (count_active_all _ Hact).
  cbn [swap_outs swap_ins length]. rewrite initQueue_list. cbn [length].
  pose proof (inv_count s HI) as Hc. unfold num_processes in *.
  repeat split; lia.
Qed.

Lemma circular_reachable_ledger (s : State) (c : Z) :
  reachable s c -> circular_ledger s.
Proof.
  induction 1 as [input s Hinit | s c s' Hreach IH Hdone Hstep].
  - eapply circular_initial_ledger; eauto.
  - destruct (reachable_inv s c Hreach) as (HI & _ & _).
    eapply circular_step_ledger; eauto.
Qed.

End CircularLedger.

Section ShiftingLedger.
Import Shifting.

Lemma shifting_ledger_ext (s s' : State) :
  processes s' = processes s -> swap_queue s' = swap_queue s ->
  output s' = output s -> num_swaps s' = num_swaps s ->
  min_active_processes s' = min_active_processes s ->
  0 <= page_faults s' <= page_accesses s' ->
  shifting_ledger s -> shifting_ledger s'.
Proof.
  unfold shifting_ledger. intros -> -> -> -> -> Hpf (A & B & _ & D). auto.
Qed.

(** One page reference keeps the ledger; it prints a swap-out notice
    exactly when it suspends the process. *)
Lemma shifting_reference_page_ledger (s s' : State) (pid pg : Z) (b : bool) :
  Inv s -> runnable s pid -> shifting_ledger s ->
  reference_page s pid pg = Ok (s', b) ->
  shifting_ledger s' /\
  swap_outs (output s') = swap_outs (output s) ++ (if b then [] else [pid]) /\
  count_runnable (processes s') =
    count_runnable (processes s) - (if b then 0 else 1) /\
  (b = false -> suspended s' pid).
Proof.
  intros HI (p & Hg & Ha & Hfin) HL. unfold reference_page.
  set (s1 := set_page_accesses s (page_accesses s + 1)).
  assert (Hg1 : get_process s1 pid = Ok p) by exact Hg.
  assert (HI1 : Inv s1) by (apply (shifting_Inv_ext s s1); auto).
  rewrite Hg1. cbn [bind].
  destruct (zget (page_table p) pg) as [e| |] eqn:He; cbn [bind]; try discriminate.
  pose proof HL as (L1 & L2 & L3 & L4).
  pose proof Hg as Hn. apply get_process_nth in Hn. destruct Hn as [H0 Hn].
  destruct (is_valid e) eqn:Hv.
  - intros [= <- <-]. split; [|split; [|split]].
    + apply (shifting_ledger_ext s s1); auto. subst s1. state_simpl. lia.
    + rewrite app_nil_r. reflexivity.
    + change (processes s1) with (processes s). lia.
    + discriminate.
  - set (s2 := set_page_faults s1 (page_faults s1 + 1)).
    assert (Hg2 : get_process s2 pid = Ok p) by exact Hg.
    assert (HI2 : Inv s2) by (apply (shifting_Inv_ext s1 s2); auto).
    assert (HL2 : shifting_ledger s2).
    { apply (shifting_ledger_ext s s2); auto. subst s2 s1. state_simpl. lia. }
    unfold handle_page_fault. rewrite Hg2. cbn [bind].
    destruct (free_frames s2) as [|f free] eqn:Hfree.
    + destruct (shifting_swap_out_spec s2 pid p Hg2 (shifting_queue_room s2 pid p HI2 Hg2 Ha))
        as (s3 & Hrun & Hp & Hf & Hq & Hsw & Hpa & Hpf & Hmin & Hout).
      rewrite Hrun. cbn [bind]. intros [= <- <-].
      destruct (shifting_other_holder s2 pid p HI2 Hg2 Hfree)
        as (x & Hne & (px & Hgx & Hax & _)).
      assert (Hgx3 : get_process s3 x = Ok px).
      { unfold get_process. rewrite Hp.
        change (get_process (put_process s2 pid
                  (set_is_active (set_frames_allocated (set_page_table p
                     (map (fun e => if is_valid e then 0 else e) (page_table p))) 0) false)) x
                = Ok px).
        rewrite get_put_other by auto. assumption. }
      apply get_process_nth in Hgx3. destruct Hgx3 as [_ Hnx].
      pose proof (count_active_positive _ _ px Hnx Hax) as Hpos.
      change (processes s2) with (processes s) in Hp.
      assert (Hcount : count_active (processes s3) = count_active (processes s) - 1).
      { rewrite Hp, (count_active_upd _ _ p _ Hn), Ha. proc_simpl. lia. }
      assert (Houts : swap_outs (output s3) = swap_outs (output s) ++ [pid]).
      { rewrite Hout, swap_outs_app. reflexivity. }
      split; [|split; [|split]].
      * destruct HL2 as (M1 & M2 & M3 & M4).
        unfold shifting_ledger.
        rewrite Houts, Hout, swap_ins_app, Hq, Hsw, Hpa, Hpf, Hmin.
        cbn [swap_ins]. rewrite app_nil_r, !length_app. cbn [length].
        unfold get_active_process_count.
        change (output s2) with (output s) in *. change (swap_queue s2) with (swap_queue s) in *.
        change (processes s2) with (processes s) in *.
        repeat split; lia.
      * exact Houts.
      * rewrite Hp, (count_runnable_upd _ _ p _ Hn), Ha, Hfin. proc_simpl.
        cbn [andb negb]. lia.
      * intros _. eexists. split.
        { unfold get_process. rewrite Hp. apply zget_ok. split; [assumption|].
          apply nth_error_upd_same. apply nth_error_Some. congruence. }
        reflexivity.
    + destruct (in_range (page_table p) pg); [|discriminate].
      intros [= <- <-]. clear HL2 HI2 Hg2 HI1 Hg1. subst s2 s1.
      set (p' := set_frames_allocated _ _).
      unfold shifting_ledger. state_simpl.
      rewrite (count_active_upd _ _ p p' Hn), (count_runnable_upd _ _ p p' Hn).
      change (is_active p') with (is_active p).
      change (finished p') with (finished p).
      rewrite app_nil_r.
      repeat split; try lia; discriminate.
Qed.

Lemma shifting_search_loop_ledger (pid key : Z) (fuel : nat) :
  forall (s s' : State) (L R : Z) (b : bool),
  Inv s -> runnable s pid -> shifting_ledger s ->
  search_loop fuel s pid key L R = Ok (s', b) ->
  shifting_ledger s' /\
  swap_outs (output s') = swap_outs (output s) ++ (if b then [] else [pid]) /\
  count_runnable (processes s') =
    count_runnable (processes s) - (if b then 0 else 1) /\
  (b = false -> suspended s' pid).
Proof.
  induction fuel as [|fuel IH]; intros s s' L R b HI Hr HL H; [discriminate|].
  cbn [search_loop] in H. destruct (L <? R).
  - destruct (reference_page s pid (page_of (midpoint L R))) as [[s1 b1]| |] eqn:Href;
      cbn [bind fst snd] in H; try discriminate.
    destruct (shifting_reference_page_ledger s s1 pid _ b1 HI Hr HL Href)
      as (HL1 & Ho1 & Hc1 & Hs1).
    destruct (shifting_reference_page_inv s s1 pid _ b1 HI Hr Href) as [HI1 Hr1].
    destruct b1.
    + rewrite app_nil_r in Ho1. rewrite Z.sub_0_r in Hc1.
      assert (Hrec : search_loop fuel s1 pid key
                       (if key <=? midpoint L R then L else midpoint L R + 1)
                       (if key <=? midpoint L R then midpoint L R else R) = Ok (s', b)).
      { destruct (key <=? midpoint L R); assumption. }
      destruct (IH _ _ _ _ _ HI1 Hr1 HL1 Hrec) as (A & B & C & D).
      rewrite <- Ho1, <- Hc1. auto.
    + injection H as <- <-. auto.
  - injection H as <- <-. rewrite app_nil_r, Z.sub_0_r.
    split; [assumption|]. split; [reflexivity|]. split; [reflexivity|]. discriminate.
Qed.

(** The end of a search keeps the ledger and prints no swap-out notice. *)
Lemma shifting_complete_search_ledger (s s' : State) (pid : Z) :
  Inv s -> runnable s pid -> shifting_ledger s ->
  complete_search s pid = Ok s' ->
  shifting_ledger s' /\ swap_outs (output s') = swap_outs (output s).
Proof.
  intros HI (p & Hg & Ha & Hfin) HL.
  pose proof Hg as Hn. apply get_process_nth in Hn. destruct Hn as [H0 Hn].
  unfold complete_search. rewrite Hg. cbn [bind].
  set (p1 := set_current_search p (current_search p + 1)).
  destruct HL as (L1 & L2 & L3 & L4).
  destruct (finished p1) eqn:Hfin1.
  - rewrite release_frames_spec.
    set (p2 := set_frames_allocated _ 0).
    set (s1 := put_process _ pid p2).
    assert (Hc1 : count_active (processes s1) = count_active (processes s)).
    { subst s1. state_simpl. rewrite (count_active_upd _ _ p p2 Hn).
      change (is_active p2) with (is_active p). lia. }
    destruct (rev (swap_queue s1)) as [|next before] eqn:Hrev.
    + intros [= <-]. split; [|reflexivity]. unfold shifting_ledger. rewrite Hc1.
      change (output s1) with (output s). change (num_swaps s1) with (num_swaps s).
      change (swap_queue s1) with (swap_queue s).
      change (page_accesses s1) with (page_accesses s).
      change (page_faults s1) with (page_faults s).
      change (min_active_processes s1) with (min_active_processes s).
      auto.
    + intros Hin.
      assert (Hq : swap_queue s = rev before ++ [next]).
      { change (swap_queue s1) with (swap_queue s) in Hrev.
        apply (f_equal (@rev _)) in Hrev. rewrite rev_involutive in Hrev. assumption. }
      assert (Hsusp : suspended s next).
      { apply (inv_queue_mem s HI). rewrite Hq. apply in_app_iff. right. left. reflexivity. }
      destruct Hsusp as (pn & Hgn & Han).
      assert (Hne : pid <> next) by (intros ->; congruence).
      set (s1q := set_swap_queue s1 (rev before)) in *.
      assert (Hgn1 : get_process s1q next = Ok pn).
      { change (get_process s1 next = Ok pn). subst s1.
        rewrite get_put_other by auto. exact Hgn. }
      destruct (shifting_swap_in_spec s1q next pn Hgn1)
        as (s2 & pt & fa & free & _ & Hrun2 & Hp2 & _ & Hq2 & Hsw2 & Hout2).
      rewrite Hin in Hrun2. injection Hrun2 as <-.
      pose proof Hgn1 as Hnn. apply get_process_nth in Hnn. destruct Hnn as [Hn0 Hnn].
      change (processes s1q) with (processes s1) in Hp2, Hnn.
      assert (Hc2 : count_active (processes s') = count_active (processes s) + 1).
      { rewrite Hp2, (count_active_upd _ _ pn _ Hnn), Han, Hc1. proc_simpl. lia. }
      assert (Hpa : page_accesses s' = page_accesses s /\ page_faults s' = page_faults s /\
                    min_active_processes s' = min_active_processes s).
      { revert Hin. unfold swap_in_process. rewrite Hgn1. cbn [bind].
        destruct (alloc_essential _ _ _ _ _) as [[pt' fa'] free'].
        intros [= <-]. state_simpl. auto. }
      destruct Hpa as (Hpa & Hpf & Hmin).
      change (output s1q) with (output s) in Hout2.
      change (num_swaps s1q) with (num_swaps s) in Hsw2.
      change (swap_queue s1q) with (rev before) in Hq2.
      split.
      * unfold shifting_ledger.
        rewrite Hout2, swap_outs_app, swap_ins_app, Hq2, Hsw2, Hpa, Hpf, Hmin, Hc2.
        cbn [swap_outs swap_ins]. rewrite app_nil_r, length_app. cbn [length].
        rewrite Hq, length_app in L2. cbn [length] in L2.
        repeat split; lia.
      * rewrite Hout2, swap_outs_app. cbn [swap_outs]. apply app_nil_r.
  - intros [= <-]. split; [|reflexivity]. unfold shifting_ledger. state_simpl.
    rewrite (count_active_upd _ _ p p1 Hn).
    change (is_active p1) with (is_active p).
    repeat split; lia.
Qed.

(** A turn of a runnable process keeps the ledger; it prints one swap-out
    notice when it leaves the process inactive and none otherwise. *)
Lemma shifting_turn_ledger (s s' : State) (pid : Z) (p' : Process) :
  Inv s -> runnable s pid -> shifting_ledger s ->
  simulate_binary_search s pid = Ok s' ->
  get_process s' pid = Ok p' ->
  shifting_ledger s' /\
  swap_outs (output s') = swap_outs (output s) ++ (if is_active p' then [] else [pid]) /\
  count_runnable (processes s') <=
    count_runnable (processes s) - (if is_active p' then 0 else 1).
Proof.
  intros HI Hr HL. pose proof Hr as (p & Hg & Ha & Hfin).
  unfold simulate_binary_search. rewrite Hg. cbn [bind].
  destruct (zget (search_indices p) (current_search p)) as [key| |]; cbn [bind];
    try discriminate.
  destruct (search_loop _ s pid key 0 (array_size p - 1)) as [[s1 b]| |] eqn:Hloop;
    cbn [bind fst snd]; try discriminate.
  destruct (shifting_search_loop_ledger pid key _ s s1 _ _ b HI Hr HL Hloop)
    as (HL1 & Ho1 & Hc1 & Hs1).
  destruct (shifting_search_loop_inv pid key _ s s1 _ _ b HI Hr Hloop) as [HI1 Hr1].
  destruct b.
  - intros Hc Hg'.
    destruct (shifting_complete_search_ledger s1 s' pid HI1 Hr1 HL1 Hc) as [HL' Ho'].
    destruct (shifting_complete_search_total s1 pid HI1 Hr1)
      as (s2 & Hc2 & _ & _ & Hcr & (p2 & Hg2 & Ha2)).
    rewrite Hc in Hc2. injection Hc2 as <-.
    rewrite Hg' in Hg2. injection Hg2 as <-. rewrite Ha2.
    rewrite app_nil_r in *. rewrite Z.sub_0_r in *.
    split; [assumption|]. split; [congruence | lia].
  - intros [= <-] Hg'. destruct (Hs1 eq_refl) as (q & Hq & Haq).
    rewrite Hg' in Hq. injection Hq as <-. rewrite Haq.
    split; [assumption|]. split; [assumption | lia].
Qed.

Lemma shifting_turn_static (s s' : State) (pid : Z) :
  Inv s -> runnable s pid ->
  simulate_binary_search s pid = Ok s' ->
  map static_part (processes s') = map static_part (processes s).
Proof.
  intros HI Hr. pose proof Hr as (p & Hg & Ha & Hfin).
  unfold simulate_binary_search. rewrite Hg. cbn [bind].
  destruct (zget (search_indices p) (current_search p)) as [key| |]; cbn [bind];
    try discriminate.
  destruct (search_loop _ s pid key 0 (array_size p - 1)) as [[s1 b]| |] eqn:Hloop;
    cbn [bind fst snd]; try discriminate.
  destruct (shifting_search_loop_inv pid key _ s s1 _ _ b HI Hr Hloop) as [HI1 Hr1].
  destruct (search_fuel_enough 0 (array_size p - 1)) as (f & Ef & Hf).
  rewrite Ef, shifting_search_loop_replay in Hloop by (assumption || lia).
  destruct (shifting_replay_frame pid _ s s1 b Hloop) as (F1 & _).
  destruct b.
  - intros Hc.
    destruct (shifting_complete_search_total s1 pid HI1 Hr1) as (s2 & Hc2 & Hst & _).
    rewrite Hc in Hc2. injection Hc2 as <-. congruence.
  - intros [= <-]. assumption.
Qed.

(** What one round of the scheduling loop does. *)
Lemma shifting_main_step_effect (s s' : State) (queue queue' : list Z) (c c' : Z) :
  Inv s -> Live s -> all_done s = false -> 0 <= c < num_processes s ->
  main_step s queue c = Ok (s', queue', c') ->
  exists ap p',
    select_process (length (processes s)) s c c = Ok ap /\
    runnable s ap /\ simulate_binary_search s ap = Ok s' /\
    get_process s' ap = Ok p' /\
    queue' = queue ++ (if is_active p' then [] else [ap]) /\
    c' = Z.rem (ap + 1) (num_processes s').
Proof.
  intros HI HL Hdone Hc H.
  destruct HL as [Hall|Hsome]; [congruence|].
  unfold main_step in H.
  destruct (select_process _ s c c) as [ap| |] eqn:Hsel; cbn [bind] in H; try discriminate.
  pose proof (select_process_runnable s c ap Hc Hsome Hsel) as Hr.
  pose proof Hr as (p & Hg & Ha & Hfin).
  rewrite Hg in H. cbn [bind] in H. rewrite Hfin in H. cbn [bind fst snd] in H.
  rewrite Hg in H. cbn [bind] in H. rewrite Ha in H.
  destruct (simulate_binary_search s ap) as [s2| |] eqn:Hsim; cbn [bind] in H;
    try discriminate.
  destruct (get_process s2 ap) as [p2| |] eqn:Hg2; cbn [bind] in H; try discriminate.
  exists ap, p2. split; [reflexivity|]. split; [assumption|].
  destruct (is_active p2).
  - injection H as <- <- <-. rewrite app_nil_r. auto.
  - unfold push_back in H.
    destruct (Z.of_nat (length queue) <? MAX_PROCESSES); cbn [bind fst snd] in H;
      try discriminate.
    injection H as <- <- <-. auto.
Qed.

(** The ledger at the head of the scheduling loop, with the queue local
    to [main]. *)
Lemma shifting_reachable_ledger (s : State) (queue : list Z) (c : Z) :
  reachable s queue c ->
  shifting_ledger s /\
  queue = swap_outs (output s) /\
  Z.of_nat (length queue) + count_runnable (processes s) <= num_processes s /\
  Z.of_nat (length queue) < num_processes s.
Proof.
  induction 1 as [input s Hinit | s queue c s' queue' c' Hreach IH Hdone Hstep].
  - destruct (shifting_initialize_inv input s Hinit) as (HI & _).
    destruct (initialize_with_layout [] input s Hinit)
      as (np & ns & rest & _ & Hn & Hmin & Hq & Hout & Hpa & Hpf & Hsw & _ & Hps).
    assert (Hact : Forall (fun p => is_active p = true) (processes s)).
    { apply Forall_forall. intros p Hin. apply In_nth_error in Hin.
      destruct Hin as [i Hi]. apply (Hps i p Hi). }
    pose proof (inv_count s HI) as Hc.
    pose proof (count_runnable_bounds (processes s)) as Hb.
    unfold shifting_ledger. rewrite Hout, Hq, Hpa, Hpf, Hsw, Hmin, (count_active_all _ Hact).
    cbn [swap_outs swap_ins length]. unfold num_processes in *.
    repeat split; lia.
  - destruct IH as (HL & Hq & HK & Hlt).
    destruct (shifting_reachable_inv s queue c Hreach) as (HI & HLv & Hc).
    destruct (shifting_main_step_inv s s' queue queue' c c' HI HLv Hdone Hc Hstep)
      as (HI' & HLv' & _).
    destruct (shifting_main_step_effect s s' queue queue' c c' HI HLv Hdone Hc Hstep)
      as (ap & p' & _ & Hr & Hsim & Hg' & Hq' & _).
    destruct (shifting_turn_ledger s s' ap p' HI Hr HL Hsim Hg') as (HL' & Ho' & Hcr').
    pose proof (shifting_num_processes_map s s' (shifting_turn_static s s' ap HI Hr Hsim)) as HP.
    split; [assumption|]. split; [congruence|].
    rewrite Hq', HP, length_app.
    destruct (is_active p') eqn:Ha'; cbn [length].
    + split; lia.
    + assert (Hone : 1 <= count_runnable (processes s')).
      { destruct HLv' as [Hall|(x & px & Hgx & Hax & Hfx)].
        - exfalso. unfold all_done in Hall. rewrite forallb_forall in Hall.
          pose proof (Hall p' (get_process_in s' ap p' Hg')) as Hf'.
          destruct (ok_finished p' (shifting_inv_process_ok s' ap p' HI' Hg') Hf') as [_ Hc'].
          congruence.
        - apply get_process_nth in Hgx. destruct Hgx as [_ Hnx].
          eapply count_runnable_positive; eauto. }
      split; lia.
Qed.

End ShiftingLedger.

(** ** Statistics and queues along a run *)

Lemma distinct_indices_bound (n : nat) (l : list Z) :
  NoDup l -> (forall x, In x l -> 0 <= x < Z.of_nat n) -> (length l <= n)%nat.
Proof.
  intros Hnd Hin.
  assert (Hincl : incl l (map Z.of_nat (seq 0 n))).
  { intros x Hx. apply Hin in Hx. apply in_map_iff. exists (Z.to_nat x).
    split; [lia|]. apply in_seq. lia. }
  apply NoDup_incl_length in Hincl; [|assumption].
  rewrite length_map, length_seq in Hincl. exact Hincl.
Qed.

(** X9. At every state at the head of the scheduling loop, of either
    variant, the counters printed by [print_statistics] are consistent:
    page faults never exceed page accesses (a fault is counted only at an
    access, lines 179-183 and 541-545), and the recorded degree of
    multiprogramming is at least 1 and at most the number of processes
    that are active, which is at most the number of processes. *)
Theorem statistics_bounds :
  (forall (s : Circular.State) (c : Z),
     Circular.reachable s c ->
     0 <= page_faults s <= page_accesses s /\
     1 <= min_active_processes s <= get_active_process_count s /\
     get_active_process_count s <= num_processes s) /\
  (forall (s : Shifting.State) (queue : list Z) (c : Z),
     Shifting.reachable s queue c ->
     0 <= page_faults s <= page_accesses s /\
     1 <= min_active_processes s <= get_active_process_count s /\
     get_active_process_count s <= num_processes s).
Proof.
  split.
  - intros s c Hr. destruct (circular_reachable_ledger s c Hr) as (_ & _ & H3 & H4).
    pose proof (count_active_bounds (processes s)).
    unfold get_active_process_count, num_processes. repeat split; lia.
  - intros s queue c Hr.
    destruct (shifting_reachable_ledger s queue c Hr) as ((_ & _ & H3 & H4) & _).
    pose proof (count_active_bounds (processes s)).
    unfold get_active_process_count, num_processes. repeat split; lia.
Qed.

Lemma statistics_bounds_witness :
  match Circular.initialize_system [1; 1; 5000; 4999] with
  | Some s0 =>
      match Circular.simulate_binary_search s0 0 with
      | Ok s1 => 0 <= page_faults s1 <= page_accesses s1
      | _ => False
      end
  | None => False
  end.
Proof.
  assert (Hb : match Circular.initialize_system [1; 1; 5000; 4999] with
               | Some s0 =>
                   match Circular.simulate_binary_search s0 0 with
                   | Ok _ => negb (all_done s0)
                   | _ => false
                   end
               | None => false
               end = true) by (vm_compute; reflexivity).
  destruct (Circular.initialize_system [1; 1; 5000; 4999]) as [s0|] eqn:E0;
    [|discriminate].
  destruct (Circular.simulate_binary_search s0 0) as [s1| |] eqn:E1; try discriminate.
  apply negb_true_iff in Hb.
  apply (proj1 statistics_bounds s1 (Z.rem (0 + 1) (num_processes s1))).
  eapply Circular.reach_step; [eapply Circular.reach_init; exact E0 | exact Hb | exact E1].
Defined.

Section CircularAccounts.
Import Circular.

Lemma circular_done_queue_empty (s : State) :
  Inv s -> all_done s = true -> queue_list (swap_queue s) = [].
Proof.
  intros HI Hdone. destruct (queue_list (swap_queue s)) as [|x l] eqn:Hq; [reflexivity|].
  exfalso.
  assert (Hs : suspended s x) by (apply (inv_queue_mem s HI); rewrite Hq; left; reflexivity).
  destruct Hs as (p & Hg & Ha).
  unfold all_done in Hdone. rewrite forallb_forall in Hdone.
  pose proof (Hdone p (get_process_in s x p Hg)) as Hf.
  destruct (ok_finished p (inv_process_ok s x p HI Hg) Hf) as [_ Hc]. congruence.
Qed.

Lemma circular_some_active (s : State) (c : Z) :
  reachable s c -> exists pid p, get_process s pid = Ok p /\ is_active p = true.
Proof.
  intros Hr. destruct (reachable_inv s c Hr) as (HI & HP & Hc).
  destruct (all_done s) eqn:Hdone.
  - destruct (get_process_defined s c Hc) as [p Hg]. exists c, p. split; [assumption|].
    unfold all_done in Hdone. rewrite forallb_forall in Hdone.
    pose proof (Hdone p (get_process_in s c p Hg)) as Hf.
    apply (ok_finished p (inv_process_ok s c p HI Hg) Hf).
  - destruct (some_runnable s HI HP Hdone) as (pid & p & Hg & Ha & _). eauto.
Qed.

End CircularAccounts.

(** X10. In the second variant, at every state at the head of the
    scheduling loop, [num_swaps] is the number of swap-out notices plus the
    number of swap-in notices printed so far, and the swap queue holds as
    many entries as there are swap-outs not yet followed by a swap-in.
    When every search is done the queue is empty, so every swap-out has
    had its swap-in and the total printed by [print_statistics],
    [num_swaps / 2], is the number of swap-outs. *)
Theorem circular_swap_total (s : Circular.State) (c : Z) :
  Circular.reachable s c ->
  num_swaps s = Z.of_nat (length (swap_outs (output s)))
                + Z.of_nat (length (swap_ins (output s))) /\
  length (swap_outs (output s)) =
    (length (swap_ins (output s)) + length (Circular.queue_list (swap_queue s)))%nat /\
  (all_done s = true ->
   Circular.queue_list (swap_queue s) = [] /\
   length (swap_ins (output s)) = length (swap_outs (output s)) /\
   print_statistics s =
     (page_accesses s, page_faults s, Z.of_nat (length (swap_outs (output s))),
      min_active_processes s)).
Proof.
  intros Hr. destruct (circular_reachable_ledger s c Hr) as (H1 & H2 & _).
  destruct (reachable_inv s c Hr) as (HI & _ & _).
  split; [assumption|]. split; [assumption|].
  intros Hdone. pose proof (circular_done_queue_empty s HI Hdone) as Hq.
  rewrite Hq in H2. cbn [length] in H2.
  split; [exact Hq|]. split; [lia|].
  unfold print_statistics. rewrite H1.
  replace (Z.of_nat (length (swap_outs (output s))) + Z.of_nat (length (swap_ins (output s))))
    with (Z.of_nat (length (swap_outs (output s))) * 2) by lia.
  rewrite Z.quot_mul by lia. reflexivity.
Qed.

(** After 1001 rounds of [pressure_workload]: 28 swap-outs and 4
    swap-ins, 32 events counted, and 24 processes queued. *)
Lemma circular_swap_total_witness :
  match Circular.initialize_system pressure_workload with
  | Some s0 =>
      match circular_rounds 1001 s0 0 with
      | Ok (s, _) =>
          swap_outs (output s) = pressure_suspended /\
          swap_ins (output s) = [411; 414; 417; 420] /\
          num_swaps s = Z.of_nat (length (swap_outs (output s)))
                        + Z.of_nat (length (swap_ins (output s))) /\
          length (swap_outs (output s)) =
            (length (swap_ins (output s))
             + length (Circular.queue_list (swap_queue s)))%nat
      | _ => False
      end
  | None => False
  end.
Proof.
  destruct circular_pressure_states
    as (s0 & u & u' & E0 & _ & E1 & _ & (_ & _ & Houts & Hins & _)).
  rewrite E0, E1.
  assert (Hr : Circular.reachable u' 1).
  { apply (circular_rounds_reachable 1001 s0 u' 0 1); [|assumption].
    eapply Circular.reach_init. exact E0. }
  destruct (circular_swap_total u' 1 Hr) as (H1 & H2 & _).
  repeat (split; [assumption|]). assumption.
Defined.

(** X11. In the first variant, at every state at the head of the
    scheduling loop, [num_swaps] is the number of swap-out notices printed
    so far, and the queue local to [main] (lines 233-235, 286-289) is the
    list of the processes swapped out so far, in that order: nothing is
    ever taken from it.  It holds fewer entries than there are processes,
    so the write [swap_queue[swap_queue_size++]] of line 288 stays inside
    its [MAX_PROCESSES] cells.  The queue of the state holds as many
    entries as there are swap-outs not yet followed by a swap-in. *)
Theorem shifting_local_queue (s : Shifting.State) (queue : list Z) (c : Z) :
  Shifting.reachable s queue c ->
  num_swaps s = Z.of_nat (length (swap_outs (output s))) /\
  queue = swap_outs (output s) /\
  Z.of_nat (length queue) < num_processes s <= MAX_PROCESSES /\
  length (swap_outs (output s)) =
    (length (swap_ins (output s)) + length (swap_queue s))%nat.
Proof.
  intros Hr. destruct (shifting_reachable_ledger s queue c Hr) as ((H1 & H2 & _) & Hq & _ & Hlt).
  destruct (shifting_reachable_inv s queue c Hr) as (HI & _ & _).
  pose proof (Shifting.inv_count s HI).
  repeat split; try assumption; lia.
Qed.

(** After 1001 rounds of [pressure_workload] the queue local to [main]
    still holds the 28 processes suspended, while one of them has been
    resumed and the queue of the state holds 27. *)
Lemma shifting_local_queue_witness :
  match Shifting.initialize_system pressure_workload with
  | Some s0 =>
      match shifting_rounds 1001 s0 [] 0 with
      | Ok (s, queue, _) =>
          swap_ins (output s) = [498] /\
          queue = pressure_suspended /\
          num_swaps s = Z.of_nat (length (swap_outs (output s))) /\
          queue = swap_outs (output s) /\
          Z.of_nat (length queue) < num_processes s <= MAX_PROCESSES /\
          length (swap_outs (output s)) =
            (length (swap_ins (output s)) + length (swap_queue s))%nat
      | _ => False
      end
  | None => False
  end.
Proof.
  destruct shifting_pressure_states
    as (s0 & _ & _ & t' & _ & _ & _ & E0 & _ & _ & E1 & _ & _ & (_ & _ & _ & Hins & _)).
  rewrite E0, E1.
  assert (Hr : Shifting.reachable t' pressure_suspended 1).
  { apply (shifting_rounds_reachable 1001 s0 t' [] pressure_suspended 0 1); [|assumption].
    eapply Shifting.reach_init. exact E0. }
  split; [assumption|]. split; [reflexivity|].
  apply (shifting_local_queue t' pressure_suspended 1 Hr).
Defined.

(** X12. At every state at the head of the scheduling loop the swap queue
    of the state holds exactly the processes that are inactive, each once
    (lines 126-127, 147 and 207 in the first variant, 479-480, 518 and
    570-575 in the second).  Some process is always active, so the queue
    holds fewer entries than there are processes and [enqueue] never meets
    a full queue. *)
Theorem queue_holds_suspended :
  (forall (s : Circular.State) (c : Z),
     Circular.reachable s c ->
     NoDup (Circular.queue_list (swap_queue s)) /\
     (forall pid, In pid (Circular.queue_list (swap_queue s)) <->
                  exists p, get_process s pid = Ok p /\ is_active p = false) /\
     Circular.queue_size (swap_queue s) < num_processes s <= MAX_PROCESSES) /\
  (forall (s : Shifting.State) (queue : list Z) (c : Z),
     Shifting.reachable s queue c ->
     NoDup (swap_queue s) /\
     (forall pid, In pid (swap_queue s) <->
                  exists p, get_process s pid = Ok p /\ is_active p = false) /\
     Z.of_nat (length (swap_queue s)) < num_processes s <= MAX_PROCESSES).
Proof.
  split.
  - intros s c Hr. destruct (reachable_inv s c Hr) as (HI & _ & _).
    split; [apply (Circular.inv_queue_nodup s HI)|].
    split; [apply (Circular.inv_queue_mem s HI)|].
    destruct (circular_some_active s c Hr) as (pid & p & Hg & Ha).
    pose proof (Circular.inv_count s HI) as Hc.
    assert (Hnd : NoDup (pid :: Circular.queue_list (swap_queue s))).
    { constructor; [|apply (Circular.inv_queue_nodup s HI)].
      intros Hin. apply (Circular.inv_queue_mem s HI) in Hin.
      destruct Hin as (p0 & Hg0 & Ha0). congruence. }
    apply (distinct_indices_bound (length (processes s))) in Hnd.
    + cbn [length] in Hnd. rewrite queue_list_length in Hnd.
      pose proof (queue_size_range (swap_queue s)).
      unfold num_processes in *. lia.
    + intros x [<-|Hx].
      * apply (get_process_bound s pid p Hg).
      * apply (Circular.inv_queue_mem s HI) in Hx. destruct Hx as (p0 & Hg0 & _).
        apply (get_process_bound s x p0 Hg0).
  - intros s queue c Hr. destruct (shifting_reachable_inv s queue c Hr) as (HI & HL & Hc).
    split; [apply (Shifting.inv_queue_nodup s HI)|].
    split; [apply (Shifting.inv_queue_mem s HI)|].
    pose proof (Shifting.inv_count s HI) as Hcnt.
    assert (Hact : exists pid p, get_process s pid = Ok p /\ is_active p = true).
    { destruct HL as [Hall|(x & px & Hgx & Hax & _)]; [|eauto].
      destruct (get_process_defined s c Hc) as [p Hg]. exists c, p. split; [assumption|].
      unfold all_done in Hall. rewrite forallb_forall in Hall.
      pose proof (Hall p (get_process_in s c p Hg)) as Hf.
      apply (ok_finished p (shifting_inv_process_ok s c p HI Hg) Hf). }
    destruct Hact as (pid & p & Hg & Ha).
    assert (Hnd : NoDup (pid :: swap_queue s)).
    { constructor; [|apply (Shifting.inv_queue_nodup s HI)].
      intros Hin. apply (Shifting.inv_queue_mem s HI) in Hin.
      destruct Hin as (p0 & Hg0 & Ha0). congruence. }
    apply (distinct_indices_bound (length (processes s))) in Hnd.
    + cbn [length] in Hnd. unfold num_processes in *. lia.
    + intros x [<-|Hx].
      * apply (get_process_bound s pid p Hg).
      * apply (Shifting.inv_queue_mem s HI) in Hx. destruct Hx as (p0 & Hg0 & _).
        apply (get_process_bound s x p0 Hg0).
Qed.

(** After 1001 rounds of [pressure_workload]: the queue of the second
    variant holds 24 processes, that of the first 27, and in both they
    are the inactive ones. *)
Lemma queue_holds_suspended_witness :
  match Circular.initialize_system pressure_workload,
        Shifting.initialize_system pressure_workload with
  | Some r0, Some s0 =>
      match circular_rounds 1001 r0 0, shifting_rounds 1001 s0 [] 0 with
      | Ok (u, _), Ok (t, _, _) =>
          Circular.queue_list (swap_queue u) = skipn 4 pressure_suspended /\
          (forall pid, In pid (Circular.queue_list (swap_queue u)) <->
                       exists p, get_process u pid = Ok p /\ is_active p = false) /\
          swap_queue t = removelast pressure_suspended /\
          (forall pid, In pid (swap_queue t) <->
                       exists p, get_process t pid = Ok p /\ is_active p = false)
      | _, _ => False
      end
  | _, _ => False
  end.
Proof.
  destruct circular_pressure_states
    as (r0 & _ & u' & F0 & _ & F1 & _ & (_ & Gq & _)).
  destruct shifting_pressure_states
    as (s0 & _ & _ & t' & _ & _ & _ & E0 & _ & _ & E1 & _ & _ & (_ & Hq & _)).
  rewrite F0, E0, F1, E1.
  assert (Hu : Circular.reachable u' 1).
  { apply (circular_rounds_reachable 1001 r0 u' 0 1); [|assumption].
    eapply Circular.reach_init. exact F0. }
  assert (Ht : Shifting.reachable t' pressure_suspended 1).
  { apply (shifting_rounds_reachable 1001 s0 t' [] pressure_suspended 0 1); [|assumption].
    eapply Shifting.reach_init. exact E0. }
  destruct (proj1 queue_holds_suspended u' 1 Hu) as (_ & Hmem & _).
  destruct (proj2 queue_holds_suspended t' pressure_suspended 1 Ht) as (_ & Hmem' & _).
  split; [assumption|]. split; [assumption|]. split; assumption.
Defined.

(** ** The order of scheduling in the first variant *)

Section ShiftingOrder.
Import Shifting.

Lemma select_process_first (s : State) (original : Z) (k : nat) :
  forall (d ap : Z),
  0 <= original < num_processes s -> 0 <= d < num_processes s ->
  (Z.to_nat (num_processes s - d) <= k)%nat ->
  (forall j, 0 <= j < d -> ~ runnable s ((original + j) mod num_processes s)) ->
  select_process k s ((original + d) mod num_processes s) original = Ok ap ->
  runnable s ap ->
  exists d', d <= d' < num_processes s /\
             ap = (original + d') mod num_processes s /\
             forall j, 0 <= j < d' -> ~ runnable s ((original + j) mod num_processes s).
Proof.
  set (P := num_processes s).
  induction k as [|k IH]; intros d ap Ho Hd Hk Hnone H Hrun; [lia|].
  cbn [select_process] in H. fold P in H.
  set (cur := (original + d) mod P) in *.
  assert (Hcur : 0 <= cur < P) by (apply Z.mod_pos_bound; lia).
  destruct (get_process_defined s cur Hcur) as [p Hg].
  rewrite Hg in H. cbn [bind] in H.
  destruct (is_active p && negb (finished p)) eqn:Hr.
  - injection H as <-. exists d. split; [lia|]. split; [reflexivity | assumption].
  - assert (Hnot : ~ runnable s cur).
    { intros (p0 & Hg0 & Ha & Hf). rewrite Hg in Hg0. injection Hg0 as <-.
      rewrite Ha, Hf in Hr. discriminate. }
    assert (Hnext : Z.rem (cur + 1) P = (original + (d + 1)) mod P).
    { rewrite Z.rem_mod_nonneg by lia. subst cur.
      rewrite Zplus_mod_idemp_l. f_equal. lia. }
    rewrite Hnext in H.
    assert (Hnone' : forall j, 0 <= j < d + 1 -> ~ runnable s ((original + j) mod P)).
    { intros j Hj. destruct (Z.eq_dec j d) as [->|Hne]; [exact Hnot|].
      apply Hnone. lia. }
    destruct (Z.eqb_spec ((original + (d + 1)) mod P) original) as [Heq|Hneq].
    + exfalso. injection H as <-. rewrite Heq in Hrun. apply (Hnone' 0); [lia|].
      rewrite Z.add_0_r, Z.mod_small by lia. assumption.
    + destruct (Z.eq_dec (d + 1) P) as [Hlast|Hmore].
      * exfalso. apply Hneq. rewrite Hlast.
        rewrite <- Zplus_mod_idemp_r, Z.mod_same, Z.add_0_r, Z.mod_small by lia.
        reflexivity.
      * destruct (IH (d + 1) ap Ho ltac:(lia) ltac:(lia) Hnone' H Hrun)
          as (d' & Hd' & Hap & Hfirst).
        exists d'. split; [lia|]. auto.
Qed.

(** X13. A round of the scheduling loop of the first variant (lines
    250-292) gives the turn to the first process, counted cyclically from
    the cursor, that is active with searches left; the block of lines
    260-281, which releases the frames of a finished process and drains
    the queue local to [main], is never entered.  The cursor moves to the
    process after the one that ran. *)
Theorem shifting_round_robin
    (s s' : State) (queue queue' : list Z) (c c' : Z) :
  reachable s queue c -> all_done s = false ->
  main_step s queue c = Ok (s', queue', c') ->
  exists (d ap : Z),
    0 <= d < num_processes s /\
    ap = (c + d) mod num_processes s /\
    runnable s ap /\
    (forall j, 0 <= j < d -> ~ runnable s ((c + j) mod num_processes s)) /\
    simulate_binary_search s ap = Ok s' /\
    c' = (ap + 1) mod num_processes s /\
    num_processes s' = num_processes s.
Proof.
  intros Hr Hdone Hstep.
  destruct (shifting_reachable_inv s queue c Hr) as (HI & HL & Hc).
  destruct (shifting_main_step_effect s s' queue queue' c c' HI HL Hdone Hc Hstep)
    as (ap & p' & Hsel & Hrun & Hsim & _ & _ & Hc').
  pose proof (shifting_num_processes_map s s' (shifting_turn_static s s' ap HI Hrun Hsim)) as HP.
  destruct (select_process_first s c (length (processes s)) 0 ap) as (d & Hd & Hap & Hfirst);
    auto.
  - lia.
  - unfold num_processes. lia.
  - intros j Hj. lia.
  - rewrite Z.add_0_r, Z.mod_small by lia. assumption.
  - exists d, ap. split; [lia|]. split; [assumption|]. split; [assumption|].
    split; [assumption|]. split; [assumption|]. split; [|assumption].
    rewrite Hc', HP. apply Z.rem_mod_nonneg.
    + destruct Hrun as (p & Hg & _). pose proof (get_process_bound s ap p Hg). lia.
    + lia.
Qed.

(** Two processes after initialization: the first one runs. *)
Lemma shifting_round_robin_witness :
  match Shifting.initialize_system [2; 1; 1; 0; 5000; 4999] with
  | Some s0 =>
      match main_step s0 [] 0 with
      | Ok (s1, _, c1) => exists ap, simulate_binary_search s0 ap = Ok s1
      | _ => False
      end
  | None => False
  end.
Proof.
  assert (Hb : match Shifting.initialize_system [2; 1; 1; 0; 5000; 4999] with
               | Some s0 =>
                   match main_step s0 [] 0 with
                   | Ok _ => negb (all_done s0)
                   | _ => false
                   end
               | None => false
               end = true) by (vm_compute; reflexivity).
  destruct (Shifting.initialize_system [2; 1; 1; 0; 5000; 4999]) as [s0|] eqn:E0;
    [|discriminate].
  destruct (main_step s0 [] 0) as [[[s1 q1] c1]| |] eqn:E1; try discriminate.
  apply negb_true_iff in Hb.
  destruct (shifting_round_robin s0 s1 [] q1 0 c1 (reach_init _ _ E0) Hb E1)
    as (d & ap & _ & _ & _ & _ & Hsim & _).
  exists ap. exact Hsim.
Defined.

End ShiftingOrder.

(** ** The state at the end of a run *)

Lemma held_nil_all_invalid (pt : list Z) :
  held pt = [] -> Forall (fun e => is_valid e = false) pt.
Proof.
  intros H. apply Forall_forall. intros e He. apply In_nth_error in He.
  destruct He as [i Hi]. eapply held_nil_invalid; eauto.
Qed.

Lemma all_held_nil (ps : list Process) :
  Forall (fun p => held (page_table p) = []) ps -> all_held ps = [].
Proof.
  induction 1 as [|p t Hp _ IH]; [reflexivity|].
  rewrite all_held_cons, Hp, IH. reflexivity.
Qed.

(** What the invariants give when every search is done. *)
Lemma done_state_clean (ps : list Process) (free : list Z) :
  Forall process_ok ps -> forallb finished ps = true ->
  Permutation (free ++ all_held ps) frame_space ->
  Forall (fun p => current_search p = num_searches p /\ is_active p = true /\
                   frames_allocated p = 0 /\
                   Forall (fun e => is_valid e = false) (page_table p)) ps /\
  Permutation free frame_space /\
  Z.of_nat (length free) = USER_FRAMES.
Proof.
  intros Hok Hdone Hperm. rewrite forallb_forall in Hdone.
  assert (Hall : Forall (fun p => held (page_table p) = []) ps).
  { apply Forall_forall. intros p Hin. rewrite Forall_forall in Hok.
    apply (ok_finished p (Hok p Hin) (Hdone p Hin)). }
  split.
  - apply Forall_forall. intros p Hin. rewrite Forall_forall in Hok, Hall.
    pose proof (Hok p Hin) as Hp. pose proof (Hdone p Hin) as Hf.
    destruct (ok_finished p Hp Hf) as [Hh Ha].
    pose proof (ok_cursor p Hp). unfold finished in Hf. apply Z.leb_le in Hf.
    split; [lia|]. split; [assumption|]. split.
    + rewrite (ok_allocated p Hp), Hh. reflexivity.
    + apply held_nil_all_invalid. assumption.
  - rewrite (all_held_nil _ Hall), app_nil_r in Hperm. split; [assumption|].
    rewrite (Permutation_length Hperm), frame_space_length. reflexivity.
Qed.

Section CircularEnd.
Import Circular.

Lemma circular_step_static (s s' : State) (c : Z) :
  Inv s -> Pressure s -> simulate_binary_search s c = Ok s' ->
  map static_part (processes s') = map static_part (processes s).
Proof.
  intros HI HP Hstep.
  destruct (get_process s c) as [p| |] eqn:Hg;
    try (unfold simulate_binary_search in Hstep; rewrite Hg in Hstep; discriminate).
  destruct (is_active p) eqn:Ha; [destruct (finished p) eqn:Hfin|].
  - rewrite (step_idle s c p Hg) in Hstep by auto. injection Hstep as <-. reflexivity.
  - destruct (step_runnable s c p HI HP Hg Ha Hfin)
      as [[Hu _]|(s1 & Hr & _ & _ & Hst & _)]; [congruence|].
    rewrite Hr in Hstep. injection Hstep as <-. assumption.
  - rewrite (step_idle s c p Hg) in Hstep by auto. injection Hstep as <-. reflexivity.
Qed.

Lemma circular_main_loop_reaches (fuel : nat) :
  forall (s s' : State) (c : Z),
  reachable s c -> main_loop fuel s c = Ok s' ->
  (exists c', reachable s' c') /\ all_done s' = true /\
  map static_part (processes s') = map static_part (processes s).
Proof.
  induction fuel as [|fuel IH]; intros s s' c Hr H; [discriminate|].
  cbn [main_loop] in H. destruct (all_done s) eqn:Hdone.
  - injection H as <-. split; [eauto|]. auto.
  - destruct (simulate_binary_search s c) as [s1| |] eqn:Hstep; cbn [bind] in H;
      try discriminate.
    destruct (reachable_inv s c Hr) as (HI & HP & _).
    pose proof (circular_step_static s s1 c HI HP Hstep) as Hst.
    destruct (IH s1 s' _ (reach_step s c s1 Hr Hdone Hstep) H) as (A & B & C).
    split; [assumption|]. split; [assumption | congruence].
Qed.

End CircularEnd.

Section ShiftingEnd.
Import Shifting.

Lemma shifting_main_loop_reaches (fuel : nat) :
  forall (s s' : State) (queue : list Z) (c : Z),
  reachable s queue c -> main_loop fuel s queue c = Ok s' ->
  (exists queue' c', reachable s' queue' c') /\ all_done s' = true /\
  map static_part (processes s') = map static_part (processes s).
Proof.
  induction fuel as [|fuel IH]; intros s s' queue c Hr H; [discriminate|].
  cbn [main_loop] in H. destruct (all_done s) eqn:Hdone.
  - injection H as <-. split; [eauto|]. auto.
  - destruct (main_step s queue c) as [[[s1 q1] c1]| |] eqn:Hstep; cbn [bind fst snd] in H;
      try discriminate.
    destruct (shifting_reachable_inv s queue c Hr) as (HI & HL & Hc).
    destruct (shifting_main_step_effect s s1 queue q1 c c1 HI HL Hdone Hc Hstep)
      as (ap & p' & _ & Hrun & Hsim & _).
    pose proof (shifting_turn_static s s1 ap HI Hrun Hsim) as Hst.
    destruct (IH s1 s' q1 c1 (reach_step s queue c s1 q1 c1 Hr Hdone Hstep) H)
      as (A & B & C).
    split; [assumption|]. split; [assumption | congruence].
Qed.

End ShiftingEnd.

(** X14. When the scheduling loop of either variant ends, every process
    has done exactly [num_searches] searches, is marked active and holds
    no frame: no entry of its page table is valid.  All [USER_FRAMES]
    frames are back on the free stack, each once; the swap queue is
    empty and as many swap-in notices as swap-out notices were printed.
    The array sizes, the keys and the search counts read from the file
    are as they were after initialization. *)
Theorem run_ends_clean (input : list Z) (fuel : nat) :
  let clean (Q : Type) (s0 s' : SystemState Q) :=
    map static_part (processes s') = map static_part (processes s0) /\
    Forall (fun p => current_search p = num_searches p /\ is_active p = true /\
                     frames_allocated p = 0 /\
                     Forall (fun e => is_valid e = false) (page_table p))
           (processes s') /\
    Permutation (free_frames s') frame_space /\
    num_free_frames s' = USER_FRAMES /\
    length (swap_ins (output s')) = length (swap_outs (output s')) in
  (forall s0 s',
     Circular.initialize_system input = Some s0 ->
     Circular.main_loop fuel s0 0 = Ok s' ->
     clean _ s0 s' /\ Circular.queue_list (swap_queue s') = []) /\
  (forall s0 s',
     Shifting.initialize_system input = Some s0 ->
     Shifting.main_loop fuel s0 [] 0 = Ok s' ->
     clean _ s0 s' /\ swap_queue s' = []).
Proof.
  intros clean. split.
  - intros s0 s' Hinit Hrun.
    destruct (circular_main_loop_reaches fuel s0 s' 0 (Circular.reach_init _ _ Hinit) Hrun)
      as ((c' & Hr) & Hdone & Hst).
    destruct (reachable_inv s' c' Hr) as (HI & _ & _).
    destruct (circular_reachable_ledger s' c' Hr) as (_ & H2 & _).
    pose proof (circular_done_queue_empty s' HI Hdone) as Hq.
    rewrite Hq in H2. cbn [length] in H2.
    assert (Hins : length (swap_ins (output s')) = length (swap_outs (output s'))) by lia.
    destruct (done_state_clean (processes s') (free_frames s')
                (Circular.inv_procs s' HI) Hdone (Circular.inv_frames s' HI))
      as (A & B & C).
    unfold clean, num_free_frames. auto 10.
  - intros s0 s' Hinit Hrun.
    destruct (shifting_main_loop_reaches fuel s0 s' [] 0 (Shifting.reach_init _ _ Hinit) Hrun)
      as ((q' & c' & Hr) & Hdone & Hst).
    destruct (shifting_reachable_inv s' q' c' Hr) as (HI & _ & _).
    destruct (shifting_reachable_ledger s' q' c' Hr) as ((_ & H2 & _) & _).
    assert (Hq : swap_queue s' = []).
    { destruct (swap_queue s') as [|x l] eqn:E; [reflexivity|]. exfalso.
      assert (Hs : Shifting.suspended s' x)
        by (apply (Shifting.inv_queue_mem s' HI); rewrite E; left; reflexivity).
      destruct Hs as (p & Hg & Ha).
      unfold all_done in Hdone. rewrite forallb_forall in Hdone.
      pose proof (Hdone p (get_process_in s' x p Hg)) as Hf.
      destruct (ok_finished p (shifting_inv_process_ok s' x p HI Hg) Hf) as [_ Hc].
      congruence. }
    rewrite Hq in H2. cbn [length] in H2.
    destruct (done_state_clean (processes s') (free_frames s')
                (Shifting.inv_procs s' HI) Hdone (Shifting.inv_frames s' HI))
      as (A & B & C).
    unfold clean, num_free_frames. split; [|assumption].
    split; [assumption|]. split; [assumption|]. split; [assumption|].
    split; [assumption | lia].
Qed.

(** One process with one search over 5000 elements. *)
Lemma run_ends_clean_witness :
  match Circular.initialize_system [1; 1; 5000; 4999] with
  | Some s0 =>
      match Circular.main_loop 5 s0 0 with
      | Ok s' => num_free_frames s' = USER_FRAMES
      | _ => False
      end
  | None => False
  end.
Proof.
  assert (Hb : match Circular.initialize_system [1; 1; 5000; 4999] with
               | Some s0 =>
                   match Circular.main_loop 5 s0 0 with
                   | Ok _ => true
                   | _ => false
                   end
               | None => false
               end = true) by (vm_compute; reflexivity).
  destruct (Circular.initialize_system [1; 1; 5000; 4999]) as [s0|] eqn:E0;
    [|discriminate].
  destruct (Circular.main_loop 5 s0 0) as [s'| |] eqn:E1; try discriminate.
  pose proof (run_ends_clean [1; 1; 5000; 4999] 5) as H. cbv zeta in H.
  destruct H as [H _]. destruct (H s0 s' E0 E1) as ((_ & _ & _ & Hfree & _) & _).
  exact Hfree.
Defined.

(** ** Page accesses and completed searches *)

Lemma completed_refs_upd (ps : list Process) (i : nat) (p p' : Process) :
  nth_error ps i = Some p ->
  completed_refs (upd i p' ps) = completed_refs ps - refs_done p + refs_done p'.
Proof.
  revert i. induction ps as [|h t IH]; intros [|i] Hn; simpl in *; try discriminate.
  - inversion Hn; subst. lia.
  - rewrite (IH _ Hn). lia.
Qed.

Lemma refs_done_ext (p p' : Process) :
  static_part p' = static_part p -> current_search p' = current_search p ->
  refs_done p' = refs_done p.
Proof.
  unfold static_part, refs_done, pages_done, search_refs. intros [= H1 H2 _] H3.
  rewrite H1, H2, H3. reflexivity.
Qed.

Lemma completed_refs_map (ps ps' : list Process) :
  map static_part ps' = map static_part ps ->
  map current_search ps' = map current_search ps ->
  completed_refs ps' = completed_refs ps.
Proof.
  revert ps'. induction ps as [|p t IH]; intros [|p' t'] H1 H2;
    cbn [map completed_refs] in *; try discriminate; [reflexivity|].
  assert (Hs : static_part p' = static_part p) by congruence.
  assert (Ht1 : map static_part t' = map static_part t) by congruence.
  injection H2 as Hc Ht2.
  rewrite (refs_done_ext p p' Hs Hc), (IH _ Ht1 Ht2). reflexivity.
Qed.

Lemma firstn_snoc {A : Type} (l : list A) (n : nat) (x : A) :
  nth_error l n = Some x -> firstn (S n) l = firstn n l ++ [x].
Proof.
  revert n. induction l as [|h t IH]; intros [|n] H; simpl in *; try discriminate.
  - injection H as ->. reflexivity.
  - f_equal. apply IH. assumption.
Qed.

Lemma refs_done_next (p : Process) (key : Z) :
  zget (search_indices p) (current_search p) = Ok key ->
  refs_done (set_current_search p (current_search p + 1)) =
  refs_done p + Z.of_nat (length (search_refs p key)).
Proof.
  intros H. apply zget_ok in H. destruct H as [H0 Hn].
  unfold refs_done, pages_done. cbn [current_search search_indices set_current_search].
  replace (Z.to_nat (current_search p + 1)) with (S (Z.to_nat (current_search p))) by lia.
  rewrite (firstn_snoc _ _ key Hn), !flat_map_app, length_app. cbn [flat_map].
  rewrite app_nil_r.
  change (search_refs (set_current_search p (current_search p + 1))) with (search_refs p).
  lia.
Qed.

Lemma completed_refs_start (ps : list Process) :
  Forall (fun p => current_search p = 0) ps -> completed_refs ps = 0.
Proof.
  induction 1 as [|p t Hp _ IH]; [reflexivity|].
  cbn [completed_refs]. unfold refs_done, pages_done. rewrite Hp, IH. reflexivity.
Qed.

Section CircularAccesses.
Import Circular.

Lemma circular_swap_in_cursors (s s' : State) (x : Z) :
  swap_in_process s x = Ok s' ->
  map static_part (processes s') = map static_part (processes s) /\
  map current_search (processes s') = map current_search (processes s) /\
  page_accesses s' = page_accesses s.
Proof.
  unfold swap_in_process.
  destruct (get_process s x) as [p| |] eqn:Hg; cbn [bind]; try discriminate.
  destruct (is_active p); [intros [= <-]; auto|].
  destruct (alloc_essential _ _ _ _ _) as [[pt fa] free].
  intros [= <-]. state_simpl. apply get_process_nth in Hg. destruct Hg as [_ Hn].
  split; [|split]; [apply (map_upd_same _ _ _ p _ Hn) | apply (map_upd_same _ _ _ p _ Hn) |];
    reflexivity.
Qed.

Lemma circular_drain_cursors (fuel : nat) :
  forall s s' : State,
  drain fuel s = Ok s' ->
  map static_part (processes s') = map static_part (processes s) /\
  map current_search (processes s') = map current_search (processes s) /\
  page_accesses s' = page_accesses s.
Proof.
  induction fuel as [|fuel IH]; intros s s' H; [discriminate|].
  cbn [drain] in H.
  destruct (negb (queueIsEmpty (swap_queue s)) && (ESSENTIAL_PAGES <=? num_free_frames s));
    [|injection H as <-; auto].
  destruct (dequeue (swap_queue s)) as [next q].
  set (s1 := set_swap_queue s q) in *.
  destruct (next =? -1); [exact (IH s1 s' H)|].
  destruct (get_process s1 next) as [p| |]; cbn [bind] in H; try discriminate.
  destruct (is_active p); [exact (IH s1 s' H)|].
  destruct (swap_in_process s1 next) as [s2| |] eqn:Hin; cbn [bind] in H; try discriminate.
  destruct (circular_swap_in_cursors s1 s2 next Hin) as (A1 & A2 & A3).
  destruct (IH s2 s' H) as (B1 & B2 & B3).
  change (processes s1) with (processes s) in *.
  change (page_accesses s1) with (page_accesses s) in *.
  repeat split; congruence.
Qed.

Lemma circular_complete_search_refs (s s' : State) (pid : Z) (p : Process) (key : Z) :
  get_process s pid = Ok p ->
  zget (search_indices p) (current_search p) = Ok key ->
  complete_search s pid = Ok s' ->
  completed_refs (processes s') =
    completed_refs (processes s) + Z.of_nat (length (search_refs p key)) /\
  page_accesses s' = page_accesses s.
Proof.
  intros Hg Hkey. unfold complete_search. rewrite Hg. cbn [bind].
  pose proof Hg as Hn. apply get_process_nth in Hn. destruct Hn as [_ Hn].
  pose proof (refs_done_next p key Hkey) as Hnext.
  set (p1 := set_current_search p (current_search p + 1)) in *.
  destruct (finished p1).
  - destruct (release_frames (page_table p1) (free_frames s)) as [pt free].
    set (p2 := set_frames_allocated _ 0).
    intros H. destruct (circular_drain_cursors _ _ _ H) as (A1 & A2 & A3).
    state_simpl. rewrite (completed_refs_map _ _ A1 A2), A3.
    rewrite (completed_refs_upd _ _ p p2 Hn).
    rewrite (refs_done_ext p1 p2) by reflexivity. split; lia.
  - intros [= <-]. state_simpl. rewrite (completed_refs_upd _ _ p p1 Hn). split; lia.
Qed.

Lemma circular_step_account (s s' : State) (pid : Z) :
  Inv s -> 0 <= num_swaps s -> access_account s ->
  simulate_binary_search s pid = Ok s' ->
  access_account s'.
Proof.
  intros HI Hsw [HA HE]. unfold simulate_binary_search.
  destruct (get_process s pid) as [p| |] eqn:Hg; cbn [bind]; try discriminate.
  destruct (is_active p) eqn:Ha; cbn [negb orb]; [|intros [= <-]; split; assumption].
  destruct (finished p) eqn:Hfin; [intros [= <-]; split; assumption|].
  assert (Hr : runnable s pid) by (exists p; auto).
  destruct (zget (search_indices p) (current_search p)) as [key| |] eqn:Hkey; cbn [bind];
    try discriminate.
  destruct (search_fuel_enough 0 (array_size p - 1)) as (f & Ef & Hf).
  rewrite Ef, search_loop_replay by (assumption || lia). rewrite <- Ef.
  fold (search_refs p key).
  destruct (replay_cases pid (search_refs p key) s HI Hr)
    as [[Hu _]|[(s1 & Hrun & HI1 & Hq & Hr1 & Hpa & _)|(s1 & Hrun & HI1 & Hs & Hpa & _)]];
    rewrite Hrun || rewrite Hu; cbn [bind fst snd]; try discriminate.
  - intros Hc. destruct Hq as (Q1 & Q2 & _ & _ & _ & Q6 & _).
    destruct Hr1 as (p1 & Hg1 & Ha1 & Hf1).
    pose proof (map_get_process static_part s s1 pid p p1 Q1 Hg Hg1) as Hst.
    pose proof (map_get_process current_search s s1 pid p p1 Q2 Hg Hg1) as Hcs.
    assert (Hkey1 : zget (search_indices p1) (current_search p1) = Ok key).
    { unfold static_part in Hst. injection Hst as _ -> _. rewrite Hcs. assumption. }
    destruct (circular_complete_search_refs s1 s' pid p1 key Hg1 Hkey1 Hc) as [Hrefs Hacc].
    assert (Hsame : search_refs p1 key = search_refs p key).
    { unfold search_refs. unfold static_part in Hst. injection Hst as -> _ _. reflexivity. }
    destruct (complete_search_spec s1 pid HI1 (ex_intro _ p1 (conj Hg1 (conj Ha1 Hf1))))
      as (s2 & Hc2 & _ & _ & _ & _ & _ & _ & Hmono).
    rewrite Hc in Hc2. injection Hc2 as <-.
    rewrite (completed_refs_map _ _ Q1 Q2), Hsame in Hrefs.
    unfold access_account. rewrite Hrefs, Hacc, Hpa. split; [lia|].
    intros H0. rewrite HE by lia. reflexivity.
  - intros [= <-]. destruct Hs as (S1 & S2 & _ & _ & _ & _ & S7).
    unfold access_account. rewrite (completed_refs_map _ _ S1 S2). split; lia.
Qed.

Lemma circular_reachable_account (s : State) (c : Z) :
  reachable s c -> access_account s.
Proof.
  induction 1 as [input s Hinit | s c s' Hreach IH Hdone Hstep].
  - destruct (initialize_with_layout initQueue input s Hinit)
      as (np & ns & rest & _ & _ & _ & _ & _ & Hpa & _ & _ & _ & Hps).
    assert (Hz : completed_refs (processes s) = 0).
    { apply completed_refs_start. apply Forall_forall. intros p Hin.
      apply In_nth_error in Hin. destruct Hin as [i Hi]. apply (Hps i p Hi). }
    unfold access_account. rewrite Hz, Hpa. split; [lia | reflexivity].
  - destruct (reachable_inv s c Hreach) as (HI & _ & _).
    destruct (circular_reachable_ledger s c Hreach) as (L1 & _).
    apply (circular_step_account s s' c); auto. lia.
Qed.

End CircularAccesses.

Section ShiftingAccesses.
Import Shifting.

Lemma shifting_swap_in_cursors (s s' : State) (x : Z) :
  swap_in_process s x = Ok s' ->
  map static_part (processes s') = map static_part (processes s) /\
  map current_search (processes s') = map current_search (processes s) /\
  page_accesses s' = page_accesses s.
Proof.
  unfold swap_in_process.
  destruct (get_process s x) as [p| |] eqn:Hg; cbn [bind]; try discriminate.
  destruct (alloc_essential _ _ _ _ _) as [[pt fa] free].
  intros [= <-]. state_simpl. apply get_process_nth in Hg. destruct Hg as [_ Hn].
  split; [|split]; [apply (map_upd_same _ _ _ p _ Hn) | apply (map_upd_same _ _ _ p _ Hn) |];
    reflexivity.
Qed.

Lemma shifting_complete_search_refs (s s' : State) (pid : Z) (p : Process) (key : Z) :
  get_process s pid = Ok p ->
  zget (search_indices p) (current_search p) = Ok key ->
  complete_search s pid = Ok s' ->
  completed_refs (processes s') =
    completed_refs (processes s) + Z.of_nat (length (search_refs p key)) /\
  page_accesses s' = page_accesses s.
Proof.
  intros Hg Hkey. unfold complete_search. rewrite Hg. cbn [bind].
  pose proof Hg as Hn. apply get_process_nth in Hn. destruct Hn as [_ Hn].
  pose proof (refs_done_next p key Hkey) as Hnext.
  set (p1 := set_current_search p (current_search p + 1)) in *.
  destruct (finished p1).
  - destruct (release_frames (page_table p1) (free_frames s)) as [pt free].
    set (p2 := set_frames_allocated _ 0).
    set (s1 := put_process _ pid p2).
    assert (Hs1 : completed_refs (processes s1) =
                  completed_refs (processes s) + Z.of_nat (length (search_refs p key))).
    { subst s1. state_simpl. rewrite (completed_refs_upd _ _ p p2 Hn).
      rewrite (refs_done_ext p1 p2) by reflexivity. lia. }
    destruct (rev (swap_queue s1)) as [|next before].
    + intros [= <-]. split; [assumption | reflexivity].
    + intros H. destruct (shifting_swap_in_cursors _ _ _ H) as (A1 & A2 & A3).
      state_simpl. rewrite (completed_refs_map _ _ A1 A2), A3.
      split; [exact Hs1 | reflexivity].
  - intros [= <-]. state_simpl. rewrite (completed_refs_upd _ _ p p1 Hn). split; lia.
Qed.

Lemma shifting_replay_accesses (pid : Z) (pages : list Z) :
  forall (s s' : State) (b : bool),
  replay s pid pages = Ok (s', b) -> page_accesses s <= page_accesses s'.
Proof.
  induction pages as [|pg rest IH]; intros s s' b H.
  - cbn [replay] in H. injection H as <- <-. lia.
  - cbn [replay] in H.
    destruct (reference_page s pid pg) as [[s1 b1]| |] eqn:Href; cbn [bind fst snd] in H;
      try discriminate.
    destruct (shifting_reference_page_frame s s1 pid pg b1 Href) as (Hpa & _).
    destruct b1.
    + specialize (IH _ _ _ H). lia.
    + injection H as <- <-. lia.
Qed.

Lemma shifting_turn_account (s s' : State) (pid : Z) :
  Inv s -> runnable s pid -> shifting_ledger s -> access_account s ->
  simulate_binary_search s pid = Ok s' ->
  access_account s'.
Proof.
  intros HI Hr HL [HA HE]. pose proof Hr as (p & Hg & Ha & Hfin).
  unfold simulate_binary_search. rewrite Hg. cbn [bind].
  destruct (zget (search_indices p) (current_search p)) as [key| |] eqn:Hkey; cbn [bind];
    try discriminate.
  destruct (search_loop _ s pid key 0 (array_size p - 1)) as [[s1 b]| |] eqn:Hloop;
    cbn [bind fst snd]; try discriminate.
  destruct (shifting_search_loop_ledger pid key _ s s1 _ _ b HI Hr HL Hloop)
    as (HL1 & Ho1 & _ & _).
  destruct (shifting_search_loop_inv pid key _ s s1 _ _ b HI Hr Hloop) as [HI1 Hr1].
  destruct (search_fuel_enough 0 (array_size p - 1)) as (f & Ef & Hf).
  rewrite Ef, shifting_search_loop_replay in Hloop by (assumption || lia).
  rewrite <- Ef in Hloop. fold (search_refs p key) in Hloop.
  destruct (shifting_replay_frame pid _ s s1 b Hloop) as (F1 & F2 & F3).
  pose proof (shifting_replay_accesses pid _ s s1 b Hloop) as Hmono.
  pose proof HL as (L1 & _). pose proof HL1 as (M1 & _).
  destruct b.
  - intros Hc. destruct (F3 eq_refl) as [Hpa _]. rewrite app_nil_r in Ho1.
    destruct Hr1 as (p1 & Hg1 & Ha1 & Hf1).
    pose proof (map_get_process static_part s s1 pid p p1 F1 Hg Hg1) as Hst.
    pose proof (map_get_process current_search s s1 pid p p1 F2 Hg Hg1) as Hcs.
    assert (Hkey1 : zget (search_indices p1) (current_search p1) = Ok key).
    { unfold static_part in Hst. injection Hst as _ -> _. rewrite Hcs. assumption. }
    destruct (shifting_complete_search_refs s1 s' pid p1 key Hg1 Hkey1 Hc) as [Hrefs Hacc].
    assert (Hsame : search_refs p1 key = search_refs p key).
    { unfold search_refs. unfold static_part in Hst. injection Hst as -> _ _. reflexivity. }
    destruct (shifting_complete_search_ledger s1 s' pid HI1
                (ex_intro _ p1 (conj Hg1 (conj Ha1 Hf1))) HL1 Hc) as [(N1 & _) Ho'].
    rewrite (completed_refs_map _ _ F1 F2), Hsame in Hrefs.
    unfold access_account. rewrite Hrefs, Hacc, Hpa. split; [lia|].
    intros H0. rewrite HE; [reflexivity|]. rewrite L1, <- Ho1, <- Ho', <- N1. exact H0.
  - intros [= <-]. unfold access_account. rewrite (completed_refs_map _ _ F1 F2).
    split; [lia|]. intros H0. exfalso. rewrite M1, Ho1, length_app in H0.
    cbn [length] in H0. lia.
Qed.

Lemma shifting_reachable_account (s : State) (queue : list Z) (c : Z) :
  reachable s queue c -> access_account s.
Proof.
  induction 1 as [input s Hinit | s queue c s' queue' c' Hreach IH Hdone Hstep].
  - destruct (initialize_with_layout [] input s Hinit)
      as (np & ns & rest & _ & _ & _ & _ & _ & Hpa & _ & _ & _ & Hps).
    assert (Hz : completed_refs (processes s) = 0).
    { apply completed_refs_start. apply Forall_forall. intros p Hin.
      apply In_nth_error in Hin. destruct Hin as [i Hi]. apply (Hps i p Hi). }
    unfold access_account. rewrite Hz, Hpa. split; [lia | reflexivity].
  - destruct (shifting_reachable_inv s queue c Hreach) as (HI & HLv & Hc).
    destruct (shifting_reachable_ledger s queue c Hreach) as (HL & _).
    destruct (shifting_main_step_effect s s' queue queue' c c' HI HLv Hdone Hc Hstep)
      as (ap & p' & _ & Hr & Hsim & _).
    apply (shifting_turn_account s s' ap); auto.
Qed.

End ShiftingAccesses.

(** X15. At every state at the head of the scheduling loop, of either
    variant, [page_accesses] is at least the number of page references of
    the searches completed so far, one for every iteration of the loop
    [while (L < R)] of each of them (lines 176-193 and 538-555): the
    references of a step that a swap-out cut short are counted as well and
    made again when the step is repeated.  As long as [num_swaps] is 0 the
    counter is exactly that number. *)
Theorem page_access_total :
  (forall (s : Circular.State) (c : Z),
     Circular.reachable s c ->
     completed_refs (processes s) <= page_accesses s /\
     (num_swaps s = 0 -> page_accesses s = completed_refs (processes s))) /\
  (forall (s : Shifting.State) (queue : list Z) (c : Z),
     Shifting.reachable s queue c ->
     completed_refs (processes s) <= page_accesses s /\
     (num_swaps s = 0 -> page_accesses s = completed_refs (processes s))).
Proof.
  split.
  - intros s c Hr. exact (circular_reachable_account s c Hr).
  - intros s queue c Hr. exact (shifting_reachable_account s queue c Hr).
Qed.

Lemma page_access_total_witness :
  match Circular.initialize_system [1; 1; 5000; 4999] with
  | Some s0 =>
      match Circular.simulate_binary_search s0 0 with
      | Ok s1 => completed_refs (processes s1) <= page_accesses s1
      | _ => False
      end
  | None => False
  end.
Proof.
  assert (Hb : match Circular.initialize_system [1; 1; 5000; 4999] with
               | Some s0 =>
                   match Circular.simulate_binary_search s0 0 with
                   | Ok _ => negb (all_done s0)
                   | _ => false
                   end
               | None => false
               end = true) by (vm_compute; reflexivity).
  destruct (Circular.initialize_system [1; 1; 5000; 4999]) as [s0|] eqn:E0;
    [|discriminate].
  destruct (Circular.simulate_binary_search s0 0) as [s1| |] eqn:E1; try discriminate.
  apply negb_true_iff in Hb.
  apply (proj1 page_access_total s1 (Z.rem (0 + 1) (num_processes s1))).
  eapply Circular.reach_step; [eapply Circular.reach_init; exact E0 | exact Hb | exact E1].
Defined.

(** ** Pages stay resident *)

Lemma is_valid_mk_entry_any (f : Z) : is_valid (mk_entry f) = true.
Proof.
  unfold is_valid, mk_entry.
  destruct (Z.eqb_spec (Z.land (Z.lor f VALID_BIT_MASK mod 65536) VALID_BIT_MASK) 0)
    as [E|_]; [|reflexivity].
  exfalso. apply (f_equal (fun z => Z.testbit z 15)) in E.
  rewrite Z.land_spec, Z.bits_0 in E. change 65536 with (2 ^ 16) in E.
  rewrite Z.mod_pow2_bits_low, Z.lor_spec in E by lia.
  rewrite testbit_mask in E by lia. rewrite orb_true_r in E. discriminate.
Qed.

Lemma granted_entry_kept (pt : list Z) (pg f e0 : Z) (j : nat) (e : Z) :
  zget pt pg = Ok e0 -> is_valid e0 = false ->
  nth_error pt j = Some e -> is_valid e = true ->
  nth_error (upd (Z.to_nat pg) (mk_entry f) pt) j = Some e.
Proof.
  intros H0 Hv0 Hj Hv. apply zget_ok in H0. destruct H0 as [_ Hn].
  destruct (Nat.eq_dec (Z.to_nat pg) j) as [<-|Hne].
  - congruence.
  - rewrite nth_error_upd_other by assumption. assumption.
Qed.

Section PagesKept.
Context {Q : Type}.
Implicit Type s : SystemState Q.

(** The state after a granted fault keeps every valid entry and has one
    at the page asked for. *)
Lemma granted_keeps_pages s (pid pg : Z) (p : Process) (e0 f : Z) :
  get_process s pid = Ok p ->
  zget (page_table p) pg = Ok e0 -> is_valid e0 = false ->
  let p' := set_frames_allocated
              (set_page_table p (upd (Z.to_nat pg) (mk_entry f) (page_table p)))
              (frames_allocated p + 1) in
  (forall x px,
     get_process s x = Ok px ->
     exists px', get_process (put_process s pid p') x = Ok px' /\
       forall j e, nth_error (page_table px) j = Some e -> is_valid e = true ->
                   nth_error (page_table px') j = Some e) /\
  get_process (put_process s pid p') pid = Ok p' /\
  zget (page_table p') pg = Ok (mk_entry f).
Proof.
  intros Hg He Hv p'.
  pose proof Hg as Hn. apply get_process_nth in Hn. destruct Hn as [H0 Hn].
  split; [|split].
  - intros x px Hx. destruct (Z.eq_dec pid x) as [<-|Hne].
    + exists p'. split; [apply (get_put_same s pid p p' Hg)|].
      rewrite Hg in Hx. injection Hx as <-.
      intros j e Hj Hve. subst p'. proc_simpl.
      apply (granted_entry_kept _ pg f e0 j e He Hv Hj Hve).
    + exists px. rewrite get_put_other by assumption. auto.
  - apply (get_put_same s pid p p' Hg).
  - subst p'. proc_simpl. pose proof He as He'. apply zget_ok in He'.
    destruct He' as [Hpg Hnth]. apply zget_ok. split; [assumption|].
    apply nth_error_upd_same. apply nth_error_Some. congruence.
Qed.

End PagesKept.

(** X16. There is no page replacement: a page reference that leaves the
    process running (a hit, or a fault that [handle_page_fault] grants from
    the free stack, lines 152-163 and 493-504) leaves every valid entry
    of every page table as it was.  After it the page asked for is
    resident, and the same reference made again is a hit: it adds one
    access and nothing else. *)
Theorem reference_keeps_pages :
  (forall (s s' : Circular.State) (pid pg : Z),
     Circular.reference_page s pid pg = Ok (s', true) ->
     (forall x px,
        get_process s x = Ok px ->
        exists px', get_process s' x = Ok px' /\
          forall j e, nth_error (page_table px) j = Some e -> is_valid e = true ->
                      nth_error (page_table px') j = Some e) /\
     (exists p' e, get_process s' pid = Ok p' /\
                   zget (page_table p') pg = Ok e /\ is_valid e = true) /\
     Circular.reference_page s' pid pg =
       Ok (set_page_accesses s' (page_accesses s' + 1), true)) /\
  (forall (s s' : Shifting.State) (pid pg : Z),
     Shifting.reference_page s pid pg = Ok (s', true) ->
     (forall x px,
        get_process s x = Ok px ->
        exists px', get_process s' x = Ok px' /\
          forall j e, nth_error (page_table px) j = Some e -> is_valid e = true ->
                      nth_error (page_table px') j = Some e) /\
     (exists p' e, get_process s' pid = Ok p' /\
                   zget (page_table p') pg = Ok e /\ is_valid e = true) /\
     Shifting.reference_page s' pid pg =
       Ok (set_page_accesses s' (page_accesses s' + 1), true)).
Proof.
  split.
  - intros s s' pid pg H.
    assert (Hres : (forall x px,
                      get_process s x = Ok px ->
                      exists px', get_process s' x = Ok px' /\
                        forall j e, nth_error (page_table px) j = Some e ->
                                    is_valid e = true ->
                                    nth_error (page_table px') j = Some e) /\
                   exists p' e, get_process s' pid = Ok p' /\
                                zget (page_table p') pg = Ok e /\ is_valid e = true).
    { unfold Circular.reference_page in H.
      set (s1 := set_page_accesses s (page_accesses s + 1)) in H.
      destruct (get_process s1 pid) as [p| |] eqn:Hg; cbn [bind] in H; try discriminate.
      destruct (zget (page_table p) pg) as [e0| |] eqn:He; cbn [bind] in H;
        try discriminate.
      destruct (is_valid e0) eqn:Hv.
      - injection H as <-. split; [|exists p, e0; auto].
        intros x px Hx. exists px. split; [exact Hx | auto].
      - unfold Circular.handle_page_fault in H.
        set (s2 := set_page_faults s1 (page_faults s1 + 1)) in H.
        change (get_process s2 pid) with (get_process s1 pid) in H.
        rewrite Hg in H. cbn [bind] in H.
        destruct (free_frames s2) as [|f free].
        + destruct (Circular.swap_out_process s2 pid); cbn [bind] in H; discriminate.
        + destruct (in_range (page_table p) pg); [|discriminate].
          injection H as <-.
          destruct (granted_keeps_pages (set_free_frames s2 free) pid pg p e0 f Hg He Hv)
            as (A & B & C).
          split; [exact A|]. eexists. exists (mk_entry f).
          split; [exact B|]. split; [exact C | apply is_valid_mk_entry_any]. }
    destruct Hres as [Hkeep (p' & e & Hg' & He' & Hv')].
    split; [assumption|]. split; [eauto|].
    unfold Circular.reference_page.
    change (get_process (set_page_accesses s' (page_accesses s' + 1)) pid)
      with (get_process s' pid).
    rewrite Hg'. cbn [bind]. rewrite He'. cbn [bind]. rewrite Hv'. reflexivity.
  - intros s s' pid pg H.
    assert (Hres : (forall x px,
                      get_process s x = Ok px ->
                      exists px', get_process s' x = Ok px' /\
                        forall j e, nth_error (page_table px) j = Some e ->
                                    is_valid e = true ->
                                    nth_error (page_table px') j = Some e) /\
                   exists p' e, get_process s' pid = Ok p' /\
                                zget (page_table p') pg = Ok e /\ is_valid e = true).
    { unfold Shifting.reference_page in H.
      set (s1 := set_page_accesses s (page_accesses s + 1)) in H.
      destruct (get_process s1 pid) as [p| |] eqn:Hg; cbn [bind] in H; try discriminate.
      destruct (zget (page_table p) pg) as [e0| |] eqn:He; cbn [bind] in H;
        try discriminate.
      destruct (is_valid e0) eqn:Hv.
      - injection H as <-. split; [|exists p, e0; auto].
        intros x px Hx. exists px. split; [exact Hx | auto].
      - unfold Shifting.handle_page_fault in H.
        set (s2 := set_page_faults s1 (page_faults s1 + 1)) in H.
        change (get_process s2 pid) with (get_process s1 pid) in H.
        rewrite Hg in H. cbn [bind] in H.
        destruct (free_frames s2) as [|f free].
        + destruct (Shifting.swap_out_process s2 pid); cbn [bind] in H; discriminate.
        + destruct (in_range (page_table p) pg); [|discriminate].
          injection H as <-.
          destruct (granted_keeps_pages (set_free_frames s2 free) pid pg p e0 f Hg He Hv)
            as (A & B & C).
          split; [exact A|]. eexists. exists (mk_entry f).
          split; [exact B|]. split; [exact C | apply is_valid_mk_entry_any]. }
    destruct Hres as [Hkeep (p' & e & Hg' & He' & Hv')].
    split; [assumption|]. split; [eauto|].
    unfold Shifting.reference_page.
    change (get_process (set_page_accesses s' (page_accesses s' + 1)) pid)
      with (get_process s' pid).
    rewrite Hg'. cbn [bind]. rewrite He'. cbn [bind]. rewrite Hv'. reflexivity.
Qed.

(** The first reference of a fresh process to page 10 is a granted
    fault; the second is a hit. *)
Lemma reference_keeps_pages_witness :
  match Circular.initialize_system [1; 1; 5000; 4999] with
  | Some s0 =>
      match Circular.reference_page s0 0 10 with
      | Ok (s1, true) =>
          Circular.reference_page s1 0 10 =
            Ok (set_page_accesses s1 (page_accesses s1 + 1), true)
      | _ => False
      end
  | None => False
  end.
Proof.
  assert (Hb : match Circular.initialize_system [1; 1; 5000; 4999] with
               | Some s0 =>
                   match Circular.reference_page s0 0 10 with
                   | Ok (_, b) => b
                   | _ => false
                   end
               | None => false
               end = true) by (vm_compute; reflexivity).
  destruct (Circular.initialize_system [1; 1; 5000; 4999]) as [s0|] eqn:E0;
    [|discriminate].
  destruct (Circular.reference_page s0 0 10) as [[s1 b]| |] eqn:E1; try discriminate.
  subst b. apply (proj1 reference_keeps_pages s0 s1 0 10 E1).
Defined.

(** ** Page faults and distinct pages *)

Lemma nodup_snoc_length (l : list Z) (x : Z) :
  length (nodup Z.eq_dec (l ++ [x])) =
  (length (nodup Z.eq_dec l) + (if in_dec Z.eq_dec x l then 0 else 1))%nat.
Proof.
  induction l as [|h t IH].
  - cbn. reflexivity.
  - cbn [app nodup].
    destruct (in_dec Z.eq_dec h (t ++ [x])) as [Hin|Hin];
      destruct (in_dec Z.eq_dec h t) as [Ht|Ht];
      destruct (in_dec Z.eq_dec x (h :: t)) as [Hx|Hx];
      destruct (in_dec Z.eq_dec x t) as [Hxt|Hxt];
      cbn [length]; rewrite ?IH; try lia; exfalso;
      rewrite ?in_app_iff in *; cbn [In] in *; intuition (subst; auto).
Qed.

Lemma upd_same {A : Type} (i : nat) (x : A) (l : list A) :
  nth_error l i = Some x -> upd i x l = l.
Proof.
  revert i. induction l as [|h t IH]; intros [|i] H; simpl in *; try discriminate.
  - injection H as ->. reflexivity.
  - rewrite (IH _ H). reflexivity.
Qed.

Lemma upd_upd {A : Type} (i : nat) (a b : A) (l : list A) :
  upd i a (upd i b l) = upd i a l.
Proof.
  revert i. induction l as [|h t IH]; intros [|i]; simpl; try reflexivity.
  rewrite IH. reflexivity.
Qed.

Lemma completed_faults_upd (ps : list Process) (i : nat) (p p' : Process) :
  nth_error ps i = Some p ->
  completed_faults (upd i p' ps) = completed_faults ps - faults_done p + faults_done p'.
Proof.
  revert i. induction ps as [|h t IH]; intros [|i] Hn; simpl in *; try discriminate.
  - inversion Hn; subst. lia.
  - rewrite (IH _ Hn). lia.
Qed.

Lemma pages_done_ext (p p' : Process) :
  static_part p' = static_part p -> current_search p' = current_search p ->
  pages_done p' = pages_done p.
Proof.
  unfold static_part, pages_done, search_refs. intros [= H1 H2 _] H3.
  rewrite H1, H2, H3. reflexivity.
Qed.

Lemma pages_done_next (p : Process) (key : Z) :
  zget (search_indices p) (current_search p) = Ok key ->
  pages_done (set_current_search p (current_search p + 1)) =
  pages_done p ++ search_refs p key.
Proof.
  intros H. apply zget_ok in H. destruct H as [H0 Hn].
  unfold pages_done. cbn [current_search search_indices set_current_search].
  replace (Z.to_nat (current_search p + 1)) with (S (Z.to_nat (current_search p))) by lia.
  rewrite (firstn_snoc _ _ key Hn), flat_map_app. cbn [flat_map].
  rewrite app_nil_r. reflexivity.
Qed.

Lemma search_pages_low (fuel : nat) (key : Z) :
  forall L R : Z,
  0 <= L -> Forall (fun pg => ESSENTIAL_PAGES <= pg) (search_pages fuel key L R).
Proof.
  induction fuel as [|fuel IH]; intros L R HL; [constructor|].
  cbn [search_pages]. destruct (Z.ltb_spec L R) as [Hlt|_]; [|constructor].
  destruct (midpoint_bounds L R HL Hlt) as [HM _].
  constructor.
  - unfold page_of, PAGE_SIZE. rewrite Z.quot_div_nonneg by lia.
    pose proof (Z.div_pos (midpoint L R * 4) 4096 ltac:(lia) ltac:(lia)). lia.
  - destruct (key <=? midpoint L R); apply IH; lia.
Qed.

Lemma completed_faults_start (ps : list Process) :
  Forall (fun p => current_search p = 0) ps -> completed_faults ps = 0.
Proof.
  induction 1 as [|p t Hp _ IH]; [reflexivity|].
  cbn [completed_faults]. unfold faults_done, pages_done. rewrite Hp, IH. reflexivity.
Qed.

(** A hit leaves the tracked pages as they are. *)
Lemma tracked_hit (p : Process) (seen : list Z) (pg e : Z) :
  ESSENTIAL_PAGES <= pg -> pages_tracked p seen ->
  zget (page_table p) pg = Ok e -> is_valid e = true ->
  pages_tracked p (seen ++ [pg]) /\
  length (nodup Z.eq_dec (seen ++ [pg])) = length (nodup Z.eq_dec seen).
Proof.
  intros Hpg Ht He Hv. apply zget_ok in He. destruct He as [_ Hn].
  assert (Hin : In pg seen) by (apply (Ht pg Hpg); exists e; auto).
  split.
  - intros pg' Hpg'. rewrite in_app_iff. split.
    + intros Hr. left. apply (Ht pg' Hpg'). assumption.
    + intros [Hs|[<-|[]]]; apply (Ht _ ltac:(eassumption)); assumption.
  - rewrite nodup_snoc_length. destruct (in_dec Z.eq_dec pg seen); [lia | contradiction].
Qed.

(** A granted fault adds the page to the tracked ones. *)
Lemma tracked_fault (p : Process) (seen : list Z) (pg e f n : Z) :
  ESSENTIAL_PAGES <= pg -> pages_tracked p seen ->
  zget (page_table p) pg = Ok e -> is_valid e = false ->
  pages_tracked
    (set_frames_allocated
       (set_page_table p (upd (Z.to_nat pg) (mk_entry f) (page_table p))) n)
    (seen ++ [pg]) /\
  length (nodup Z.eq_dec (seen ++ [pg])) = S (length (nodup Z.eq_dec seen)).
Proof.
  intros Hpg Ht He Hv. apply zget_ok in He. destruct He as [H0 Hn].
  assert (Hout : ~ In pg seen).
  { intros Hin. apply (Ht pg Hpg) in Hin. destruct Hin as (e' & He' & Hv').
    congruence. }
  split.
  - intros pg' Hpg'. proc_simpl. rewrite in_app_iff. split.
    + intros (e' & He' & Hv'). destruct (Z.eq_dec pg pg') as [<-|Hne].
      * right. left. reflexivity.
      * left. apply (Ht pg' Hpg'). exists e'. split; [|assumption].
        rewrite nth_error_upd_other in He' by (unfold ESSENTIAL_PAGES in *; lia).
        assumption.
    + intros [Hs|[<-|[]]].
      * apply resident_upd; [apply is_valid_mk_entry_any|]. apply (Ht pg' Hpg'). assumption.
      * exists (mk_entry f). split; [|apply is_valid_mk_entry_any].
        apply nth_error_upd_same. apply nth_error_Some. congruence.
  - rewrite nodup_snoc_length. destruct (in_dec Z.eq_dec pg seen); [contradiction | lia].
Qed.

Section CircularFaults.
Import Circular.

Lemma circular_reference_fault (s s' : State) (pid pg : Z) (p : Process) (seen : list Z) :
  get_process s pid = Ok p -> ESSENTIAL_PAGES <= pg -> pages_tracked p seen ->
  reference_page s pid pg = Ok (s', true) ->
  exists p',
    processes s' = upd (Z.to_nat pid) p' (processes s) /\
    static_part p' = static_part p /\ current_search p' = current_search p /\
    pages_tracked p' (seen ++ [pg]) /\
    page_faults s' = page_faults s + Z.of_nat (length (nodup Z.eq_dec (seen ++ [pg])))
                                   - Z.of_nat (length (nodup Z.eq_dec seen)) /\
    swap_queue s' = swap_queue s.
Proof.
  intros Hg Hpg Ht. unfold reference_page.
  set (s1 := set_page_accesses s (page_accesses s + 1)).
  change (get_process s1 pid) with (get_process s pid). rewrite Hg. cbn [bind].
  pose proof Hg as Hn. apply get_process_nth in Hn. destruct Hn as [H0 Hn].
  destruct (zget (page_table p) pg) as [e| |] eqn:He; cbn [bind]; try discriminate.
  destruct (is_valid e) eqn:Hv.
  - intros [= <-]. destruct (tracked_hit p seen pg e Hpg Ht He Hv) as [Ht' Hc].
    exists p. subst s1. state_simpl. rewrite (upd_same _ _ _ Hn), Hc.
    split; [reflexivity|]. split; [reflexivity|]. split; [reflexivity|].
    split; [assumption|]. split; [lia | reflexivity].
  - unfold handle_page_fault.
    set (s2 := set_page_faults s1 (page_faults s1 + 1)).
    change (get_process s2 pid) with (get_process s pid). rewrite Hg. cbn [bind].
    destruct (free_frames s2) as [|f free].
    + destruct (swap_out_process s2 pid); cbn [bind]; discriminate.
    + destruct (in_range (page_table p) pg); [|discriminate].
      intros [= <-].
      destruct (tracked_fault p seen pg e f (frames_allocated p + 1) Hpg Ht He Hv)
        as [Ht' Hc].
      eexists. subst s2 s1. state_simpl. split; [reflexivity|].
      rewrite Hc. split; [reflexivity|]. split; [reflexivity|].
      split; [exact Ht'|]. split; [lia | reflexivity].
Qed.

Lemma circular_replay_faults (pid : Z) (pages : list Z) :
  forall (s s' : State) (p : Process) (seen : list Z),
  get_process s pid = Ok p ->
  Forall (fun pg => ESSENTIAL_PAGES <= pg) pages -> pages_tracked p seen ->
  replay s pid pages = Ok (s', true) ->
  exists p',
    processes s' = upd (Z.to_nat pid) p' (processes s) /\
    static_part p' = static_part p /\ current_search p' = current_search p /\
    pages_tracked p' (seen ++ pages) /\
    page_faults s' = page_faults s + Z.of_nat (length (nodup Z.eq_dec (seen ++ pages)))
                                   - Z.of_nat (length (nodup Z.eq_dec seen)) /\
    swap_queue s' = swap_queue s.
Proof.
  induction pages as [|pg rest IH]; intros s s' p seen Hg Hlow Ht H.
  - cbn [replay] in H. injection H as <-. exists p.
    pose proof Hg as Hn. apply get_process_nth in Hn. destruct Hn as [_ Hn].
    rewrite app_nil_r, (upd_same _ _ _ Hn).
    split; [reflexivity|]. split; [reflexivity|]. split; [reflexivity|].
    split; [assumption|]. split; [lia | reflexivity].
  - inversion Hlow as [|? ? Hpg Hrest]; subst. cbn [replay] in H.
    destruct (reference_page s pid pg) as [[s1 b1]| |] eqn:Href; cbn [bind fst snd] in H;
      try discriminate.
    destruct b1; [|discriminate].
    destruct (circular_reference_fault s s1 pid pg p seen Hg Hpg Ht Href)
      as (p1 & E1 & S1 & C1 & T1 & F1 & Q1).
    assert (Hg1 : get_process s1 pid = Ok p1).
    { pose proof Hg as Hn. apply get_process_nth in Hn. destruct Hn as [H0 Hn].
      apply get_process_nth. split; [assumption|]. rewrite E1.
      apply nth_error_upd_same. apply nth_error_Some. congruence. }
    destruct (IH s1 s' p1 (seen ++ [pg]) Hg1 Hrest T1 H)
      as (p' & E' & S' & C' & T' & F' & Q').
    exists p'. rewrite <- app_assoc in T', F'. cbn [app] in T', F'.
    rewrite E', E1, upd_upd.
    split; [reflexivity|]. split; [congruence|]. split; [congruence|].
    split; [assumption|]. split; [lia | congruence].
Qed.

Lemma circular_step_faults (s s' : State) (pid : Z) :
  Inv s -> circular_ledger s -> num_swaps s' = 0 ->
  (num_swaps s = 0 -> fault_account s) ->
  simulate_binary_search s pid = Ok s' -> fault_account s'.
Proof.
  intros HI HL H0' HF. unfold simulate_binary_search.
  destruct (get_process s pid) as [p| |] eqn:Hg; cbn [bind]; try discriminate.
  destruct (is_active p) eqn:Ha; cbn [negb orb]; [|intros [= <-]; auto].
  destruct (finished p) eqn:Hfin; [intros [= <-]; auto|].
  assert (Hr : runnable s pid) by (exists p; auto).
  destruct (zget (search_indices p) (current_search p)) as [key| |] eqn:Hkey; cbn [bind];
    try discriminate.
  destruct (search_fuel_enough 0 (array_size p - 1)) as (f & Ef & Hf).
  rewrite Ef, search_loop_replay by (assumption || lia). rewrite <- Ef.
  fold (search_refs p key).
  destruct HL as (L1 & L2 & _).
  destruct (replay_cases pid (search_refs p key) s HI Hr)
    as [[Hu _]|[(s1 & Hrun & HI1 & Hq & Hr1 & _)|(s1 & Hrun & _ & Hs & _)]];
    rewrite Hrun || rewrite Hu; cbn [bind fst snd]; try discriminate.
  - intros Hc. destruct Hq as (_ & _ & _ & _ & _ & Q6 & _).
    destruct (complete_search_spec s1 pid HI1 Hr1) as (s2 & Hc2 & _ & _ & _ & _ & _ & _ & Hmono).
    rewrite Hc in Hc2. injection Hc2 as <-.
    assert (H0 : num_swaps s = 0) by lia.
    destruct (HF H0) as [HF1 HF2].
    assert (Hempty : queue_list (swap_queue s) = []).
    { destruct (queue_list (swap_queue s)); [reflexivity|]. cbn [length] in L2. lia. }
    pose proof Hg as Hn. apply get_process_nth in Hn. destruct Hn as [Hpid Hn].
    assert (Hlow : Forall (fun pg => ESSENTIAL_PAGES <= pg) (search_refs p key))
      by (apply search_pages_low; lia).
    assert (Ht : pages_tracked p (pages_done p)).
    { rewrite Forall_forall in HF2. apply (HF2 p); [|assumption].
      eapply nth_error_In; eauto. }
    destruct (circular_replay_faults pid _ s s1 p _ Hg Hlow Ht Hrun)
      as (p1 & E1 & S1 & C1 & T1 & F1 & Q1).
    assert (Hg1 : get_process s1 pid = Ok p1).
    { apply get_process_nth. split; [assumption|]. rewrite E1.
      apply nth_error_upd_same. apply nth_error_Some. congruence. }
    assert (Hkey1 : zget (search_indices p1) (current_search p1) = Ok key).
    { unfold static_part in S1. injection S1 as _ -> _. rewrite C1. assumption. }
    assert (Hdone1 : pages_done (set_current_search p1 (current_search p1 + 1)) =
                     pages_done p ++ search_refs p key).
    { rewrite (pages_done_next p1 key Hkey1), (pages_done_ext p p1 S1 C1).
      unfold search_refs. unfold static_part in S1. injection S1 as -> _ _. reflexivity. }
    unfold complete_search in Hc. rewrite Hg1 in Hc. cbn [bind] in Hc.
    set (p1' := set_current_search p1 (current_search p1 + 1)) in *.
    destruct (finished p1') eqn:Hfin1.
    + destruct (release_frames (page_table p1') (free_frames s1)) as [pt free].
      set (p2 := set_frames_allocated _ 0) in Hc.
      unfold drain_fuel in Hc. rewrite drain_idle in Hc.
      2:{ left. state_simpl. rewrite Q1. apply queue_list_empty. assumption. }
      injection Hc as <-. unfold fault_account. state_simpl.
      rewrite E1, upd_upd, (completed_faults_upd _ _ p p2 Hn).
      split.
      * unfold faults_done at 2.
        change (pages_done p2) with (pages_done p1'). rewrite Hdone1.
        unfold faults_done. lia.
      * apply Forall_upd; [assumption|]. intros Hx.
        change (finished p2) with (finished p1') in Hx. congruence.
    + injection Hc as <-. unfold fault_account. state_simpl.
      rewrite E1, upd_upd, (completed_faults_upd _ _ p p1' Hn).
      split.
      * unfold faults_done at 2. rewrite Hdone1. unfold faults_done. lia.
      * apply Forall_upd; [assumption|]. intros _. rewrite Hdone1.
        exact T1.
  - intros [= <-]. destruct Hs as (_ & _ & _ & _ & _ & _ & S7). lia.
Qed.

Lemma circular_reachable_faults (s : State) (c : Z) :
  reachable s c -> num_swaps s = 0 -> fault_account s.
Proof.
  induction 1 as [input s Hinit | s c s' Hreach IH Hdone Hstep]; intros H0.
  - destruct (initialize_with_layout initQueue input s Hinit)
      as (np & ns & rest & _ & _ & _ & _ & _ & _ & Hpf & _ & _ & Hps).
    assert (Hcur : Forall (fun p => current_search p = 0) (processes s)).
    { apply Forall_forall. intros p Hin. apply In_nth_error in Hin.
      destruct Hin as [i Hi]. apply (Hps i p Hi). }
    split; [rewrite Hpf, (completed_faults_start _ Hcur); reflexivity|].
    apply Forall_forall. intros p Hin _. apply In_nth_error in Hin.
    destruct Hin as [i Hi]. destruct (Hps i p Hi) as (_ & _ & _ & Hc & _ & _ & Hpt).
    intros pg Hpg. unfold pages_done. rewrite Hc. cbn [Z.to_nat firstn flat_map In].
    split; [|contradiction]. intros (e & He & Hv). rewrite Hpt in He.
    rewrite nth_error_app2 in He
      by (rewrite length_map, frames_below_length; unfold ESSENTIAL_PAGES in *; lia).
    apply nth_error_In, repeat_spec in He. subst e. rewrite is_valid_zero in Hv.
    discriminate.
  - destruct (reachable_inv s c Hreach) as (HI & _ & _).
    pose proof (circular_reachable_ledger s c Hreach) as HL.
    apply (circular_step_faults s s' c); auto.
Qed.

End CircularFaults.

Section ShiftingFaults.
Import Shifting.

Lemma shifting_reference_fault (s s' : State) (pid pg : Z) (p : Process) (seen : list Z) :
  get_process s pid = Ok p -> ESSENTIAL_PAGES <= pg -> pages_tracked p seen ->
  reference_page s pid pg = Ok (s', true) ->
  exists p',
    processes s' = upd (Z.to_nat pid) p' (processes s) /\
    static_part p' = static_part p /\ current_search p' = current_search p /\
    pages_tracked p' (seen ++ [pg]) /\
    page_faults s' = page_faults s + Z.of_nat (length (nodup Z.eq_dec (seen ++ [pg])))
                                   - Z.of_nat (length (nodup Z.eq_dec seen)) /\
    swap_queue s' = swap_queue s.
Proof.
  intros Hg Hpg Ht. unfold reference_page.
  set (s1 := set_page_accesses s (page_accesses s + 1)).
  change (get_process s1 pid) with (get_process s pid). rewrite Hg. cbn [bind].
  pose proof Hg as Hn. apply get_process_nth in Hn. destruct Hn as [H0 Hn].
  destruct (zget (page_table p) pg) as [e| |] eqn:He; cbn [bind]; try discriminate.
  destruct (is_valid e) eqn:Hv.
  - intros [= <-]. destruct (tracked_hit p seen pg e Hpg Ht He Hv) as [Ht' Hc].
    exists p. subst s1. state_simpl. rewrite (upd_same _ _ _ Hn), Hc.
    split; [reflexivity|]. split; [reflexivity|]. split; [reflexivity|].
    split; [assumption|]. split; [lia | reflexivity].
  - unfold handle_page_fault.
    set (s2 := set_page_faults s1 (page_faults s1 + 1)).
    change (get_process s2 pid) with (get_process s pid). rewrite Hg. cbn [bind].
    destruct (free_frames s2) as [|f free].
    + destruct (swap_out_process s2 pid); cbn [bind]; discriminate.
    + destruct (in_range (page_table p) pg); [|discriminate].
      intros [= <-].
      destruct (tracked_fault p seen pg e f (frames_allocated p + 1) Hpg Ht He Hv)
        as [Ht' Hc].
      eexists. subst s2 s1. state_simpl. split; [reflexivity|].
      rewrite Hc. split; [reflexivity|]. split; [reflexivity|].
      split; [exact Ht'|]. split; [lia | reflexivity].
Qed.

Lemma shifting_replay_faults (pid : Z) (pages : list Z) :
  forall (s s' : State) (p : Process) (seen : list Z),
  get_process s pid = Ok p ->
  Forall (fun pg => ESSENTIAL_PAGES <= pg) pages -> pages_tracked p seen ->
  replay s pid pages = Ok (s', true) ->
  exists p',
    processes s' = upd (Z.to_nat pid) p' (processes s) /\
    static_part p' = static_part p /\ current_search p' = current_search p /\
    pages_tracked p' (seen ++ pages) /\
    page_faults s' = page_faults s + Z.of_nat (length (nodup Z.eq_dec (seen ++ pages)))
                                   - Z.of_nat (length (nodup Z.eq_dec seen)) /\
    swap_queue s' = swap_queue s.
Proof.
  induction pages as [|pg rest IH]; intros s s' p seen Hg Hlow Ht H.
  - cbn [replay] in H. injection H as <-. exists p.
    pose proof Hg as Hn. apply get_process_nth in Hn. destruct Hn as [_ Hn].
    rewrite app_nil_r, (upd_same _ _ _ Hn).
    split; [reflexivity|]. split; [reflexivity|]. split; [reflexivity|].
    split; [assumption|]. split; [lia | reflexivity].
  - inversion Hlow as [|? ? Hpg Hrest]; subst. cbn [replay] in H.
    destruct (reference_page s pid pg) as [[s1 b1]| |] eqn:Href; cbn [bind fst snd] in H;
      try discriminate.
    destruct b1; [|discriminate].
    destruct (shifting_reference_fault s s1 pid pg p seen Hg Hpg Ht Href)
      as (p1 & E1 & S1 & C1 & T1 & F1 & Q1).
    assert (Hg1 : get_process s1 pid = Ok p1).
    { pose proof Hg as Hn. apply get_process_nth in Hn. destruct Hn as [H0 Hn].
      apply get_process_nth. split; [assumption|]. rewrite E1.
      apply nth_error_upd_same. apply nth_error_Some. congruence. }
    destruct (IH s1 s' p1 (seen ++ [pg]) Hg1 Hrest T1 H)
      as (p' & E' & S' & C' & T' & F' & Q').
    exists p'. rewrite <- app_assoc in T', F'. cbn [app] in T', F'.
    rewrite E', E1, upd_upd.
    split; [reflexivity|]. split; [congruence|]. split; [congruence|].
    split; [assumption|]. split; [lia | congruence].
Qed.

Lemma shifting_turn_faults (s s' : State) (pid : Z) :
  Inv s -> runnable s pid -> shifting_ledger s -> shifting_ledger s' ->
  num_swaps s' = 0 ->
  (num_swaps s = 0 -> fault_account s) ->
  simulate_binary_search s pid = Ok s' -> fault_account s'.
Proof.
  intros HI Hr HL HL' H0' HF. pose proof Hr as (p & Hg & Ha & Hfin).
  unfold simulate_binary_search. rewrite Hg. cbn [bind].
  destruct (zget (search_indices p) (current_search p)) as [key| |] eqn:Hkey; cbn [bind];
    try discriminate.
  destruct (search_loop _ s pid key 0 (array_size p - 1)) as [[s1 b]| |] eqn:Hloop;
    cbn [bind fst snd]; try discriminate.
  destruct (shifting_search_loop_ledger pid key _ s s1 _ _ b HI Hr HL Hloop)
    as (HL1 & Ho1 & _ & _).
  destruct (shifting_search_loop_inv pid key _ s s1 _ _ b HI Hr Hloop) as [HI1 Hr1].
  destruct (search_fuel_enough 0 (array_size p - 1)) as (f & Ef & Hf).
  rewrite Ef, shifting_search_loop_replay in Hloop by (assumption || lia).
  rewrite <- Ef in Hloop. fold (search_refs p key) in Hloop.
  pose proof HL as (L1 & L2 & _). pose proof HL1 as (M1 & _). pose proof HL' as (N1 & _).
  destruct b.
  - intros Hc. rewrite app_nil_r in Ho1.
    destruct (shifting_complete_search_ledger s1 s' pid HI1 Hr1 HL1 Hc) as [_ Ho'].
    assert (H0 : num_swaps s = 0) by (rewrite L1, <- Ho1, <- Ho', <- N1; assumption).
    destruct (HF H0) as [HF1 HF2].
    assert (Hempty : swap_queue s = []).
    { destruct (swap_queue s); [reflexivity|]. cbn [length] in L2. lia. }
    pose proof Hg as Hn. apply get_process_nth in Hn. destruct Hn as [Hpid Hn].
    assert (Hlow : Forall (fun pg => ESSENTIAL_PAGES <= pg) (search_refs p key))
      by (apply search_pages_low; lia).
    assert (Ht : pages_tracked p (pages_done p)).
    { rewrite Forall_forall in HF2. apply (HF2 p); [|assumption].
      eapply nth_error_In; eauto. }
    destruct (shifting_replay_faults pid _ s s1 p _ Hg Hlow Ht Hloop)
      as (p1 & E1 & S1 & C1 & T1 & F1 & Q1).
    assert (Hg1 : get_process s1 pid = Ok p1).
    { apply get_process_nth. split; [assumption|]. rewrite E1.
      apply nth_error_upd_same. apply nth_error_Some. congruence. }
    assert (Hkey1 : zget (search_indices p1) (current_search p1) = Ok key).
    { unfold static_part in S1. injection S1 as _ -> _. rewrite C1. assumption. }
    assert (Hdone1 : pages_done (set_current_search p1 (current_search p1 + 1)) =
                     pages_done p ++ search_refs p key).
    { rewrite (pages_done_next p1 key Hkey1), (pages_done_ext p p1 S1 C1).
      unfold search_refs. unfold static_part in S1. injection S1 as -> _ _. reflexivity. }
    unfold complete_search in Hc. rewrite Hg1 in Hc. cbn [bind] in Hc.
    set (p1' := set_current_search p1 (current_search p1 + 1)) in *.
    destruct (finished p1') eqn:Hfin1.
    + destruct (release_frames (page_table p1') (free_frames s1)) as [pt free].
      set (p2 := set_frames_allocated _ 0) in Hc.
      state_simpl. rewrite Q1, Hempty in Hc. cbn [rev] in Hc.
      injection Hc as <-. unfold fault_account. state_simpl.
      rewrite E1, upd_upd, (completed_faults_upd _ _ p p2 Hn).
      split.
      * unfold faults_done at 2.
        change (pages_done p2) with (pages_done p1'). rewrite Hdone1.
        unfold faults_done. lia.
      * apply Forall_upd; [assumption|]. intros Hx.
        change (finished p2) with (finished p1') in Hx. congruence.
    + injection Hc as <-. unfold fault_account. state_simpl.
      rewrite E1, upd_upd, (completed_faults_upd _ _ p p1' Hn).
      split.
      * unfold faults_done at 2. rewrite Hdone1. unfold faults_done. lia.
      * apply Forall_upd; [assumption|]. intros _. rewrite Hdone1.
        exact T1.
  - intros [= <-]. exfalso. rewrite M1, Ho1, length_app in H0'.
    cbn [length] in H0'. lia.
Qed.

Lemma shifting_reachable_faults (s : State) (queue : list Z) (c : Z) :
  reachable s queue c -> num_swaps s = 0 -> fault_account s.
Proof.
  induction 1 as [input s Hinit | s queue c s' queue' c' Hreach IH Hdone Hstep]; intros H0.
  - destruct (initialize_with_layout [] input s Hinit)
      as (np & ns & rest & _ & _ & _ & _ & _ & _ & Hpf & _ & _ & Hps).
    assert (Hcur : Forall (fun p => current_search p = 0) (processes s)).
    { apply Forall_forall. intros p Hin. apply In_nth_error in Hin.
      destruct Hin as [i Hi]. apply (Hps i p Hi). }
    split; [rewrite Hpf, (completed_faults_start _ Hcur); reflexivity|].
    apply Forall_forall. intros p Hin _. apply In_nth_error in Hin.
    destruct Hin as [i Hi]. destruct (Hps i p Hi) as (_ & _ & _ & Hc & _ & _ & Hpt).
    intros pg Hpg. unfold pages_done. rewrite Hc. cbn [Z.to_nat firstn flat_map In].
    split; [|contradiction]. intros (e & He & Hv). rewrite Hpt in He.
    rewrite nth_error_app2 in He
      by (rewrite length_map, frames_below_length; unfold ESSENTIAL_PAGES in *; lia).
    apply nth_error_In, repeat_spec in He. subst e. rewrite is_valid_zero in Hv.
    discriminate.
  - destruct (shifting_reachable_inv s queue c Hreach) as (HI & HLv & Hc).
    destruct (shifting_reachable_ledger s queue c Hreach) as (HL & _).
    destruct (shifting_reachable_ledger s' queue' c'
                (reach_step s queue c s' queue' c' Hreach Hdone Hstep)) as (HL' & _).
    destruct (shifting_main_step_effect s s' queue queue' c c' HI HLv Hdone Hc Hstep)
      as (ap & p' & _ & Hr & Hsim & _).
    apply (shifting_turn_faults s s' ap); auto.
Qed.

End ShiftingFaults.

(** X17. As long as [num_swaps] is 0 there is one page fault for every
    page that a process touches for the first time: at every state at the
    head of the scheduling loop, of either variant, [page_faults] is the
    number of distinct pages referenced by the completed searches of each
    process, summed over the processes, and a process with searches left
    holds, beside its essential pages, exactly the pages that its
    completed searches referenced. *)
Theorem page_fault_total :
  (forall (s : Circular.State) (c : Z),
     Circular.reachable s c -> num_swaps s = 0 ->
     page_faults s = completed_faults (processes s) /\
     forall pid p pg,
       get_process s pid = Ok p -> finished p = false -> ESSENTIAL_PAGES <= pg ->
       (resident (page_table p) (Z.to_nat pg) <-> In pg (pages_done p))) /\
  (forall (s : Shifting.State) (queue : list Z) (c : Z),
     Shifting.reachable s queue c -> num_swaps s = 0 ->
     page_faults s = completed_faults (processes s) /\
     forall pid p pg,
       get_process s pid = Ok p -> finished p = false -> ESSENTIAL_PAGES <= pg ->
       (resident (page_table p) (Z.to_nat pg) <-> In pg (pages_done p))).
Proof.
  split.
  - intros s c Hr H0. destruct (circular_reachable_faults s c Hr H0) as [A B].
    split; [assumption|]. intros pid p pg Hg Hfin Hpg.
    rewrite Forall_forall in B. apply (B p (get_process_in s pid p Hg) Hfin pg Hpg).
  - intros s queue c Hr H0. destruct (shifting_reachable_faults s queue c Hr H0) as [A B].
    split; [assumption|]. intros pid p pg Hg Hfin Hpg.
    rewrite Forall_forall in B. apply (B p (get_process_in s pid p Hg) Hfin pg Hpg).
Qed.

Lemma page_fault_total_witness :
  match Circular.initialize_system [1; 2; 5000; 4999; 0] with
  | Some s0 =>
      match Circular.simulate_binary_search s0 0 with
      | Ok s1 => page_faults s1 = completed_faults (processes s1)
      | _ => False
      end
  | None => False
  end.
Proof.
  assert (Hb : match Circular.initialize_system [1; 2; 5000; 4999; 0] with
               | Some s0 =>
                   match Circular.simulate_binary_search s0 0 with
                   | Ok s1 => negb (all_done s0) && (num_swaps s1 =? 0)
                   | _ => false
                   end
               | None => false
               end = true) by (vm_compute; reflexivity).
  destruct (Circular.initialize_system [1; 2; 5000; 4999; 0]) as [s0|] eqn:E0;
    [|discriminate].
  destruct (Circular.simulate_binary_search s0 0) as [s1| |] eqn:E1; try discriminate.
  apply andb_true_iff in Hb. destruct Hb as [Hd Hz].
  apply negb_true_iff in Hd. apply Z.eqb_eq in Hz.
  apply (proj1 page_fault_total s1 (Z.rem (0 + 1) (num_processes s1))); [|exact Hz].
  eapply Circular.reach_step; [eapply Circular.reach_init; exact E0 | exact Hd | exact E1].
Defined.

(** ** The degree of multiprogramming *)

Lemma lowest_shown_snoc (out : list event) (e : event) :
  forall low,
  lowest_shown (out ++ [e]) low =
  match e with
  | SwapOutMsg _ n => Z.min (lowest_shown out low) n
  | SwapInMsg _ _ => lowest_shown out low
  end.
Proof.
  induction out as [|[x n|x n] t IH]; intros low; cbn [app lowest_shown].
  - destruct e; reflexivity.
  - apply IH.
  - apply IH.
Qed.

Lemma swap_ins_show_lowest_snoc (out : list event) (e : event) :
  forall low,
  swap_ins_show_lowest out low ->
  match e with
  | SwapOutMsg _ _ => True
  | SwapInMsg _ n => n = lowest_shown out low
  end ->
  swap_ins_show_lowest (out ++ [e]) low.
Proof.
  induction out as [|[x n|x n] t IH]; intros low H He;
    cbn [app lowest_shown swap_ins_show_lowest] in *.
  - destruct e; auto.
  - apply IH; assumption.
  - destruct H as [H1 H2]. split; [assumption|]. apply IH; assumption.
Qed.

Section CircularNotices.
Import Circular.
Variable n : Z.

Lemma circular_swap_out_notices (s s' : State) (pid : Z) :
  circular_notices n s -> swap_out_process s pid = Ok s' -> circular_notices n s'.
Proof.
  intros [HA HB]. unfold swap_out_process.
  destruct (get_process s pid) as [p| |]; cbn [bind]; try discriminate.
  destruct (negb (is_active p)); [intros [= <-]; split; assumption|].
  destruct (release_frames (page_table p) (free_frames s)) as [pt free].
  cbv zeta. set (ac := get_active_process_count _).
  unfold circular_notices, lowest_account in *.
  match goal with |- context [ac <? ?m] => destruct (Z.ltb_spec ac m) as [Hlt|Hge] end;
    intros [= <-]; state_simpl; rewrite lowest_shown_snoc, <- HA;
    (split; [lia | apply swap_ins_show_lowest_snoc; auto]).
Qed.

Lemma circular_swap_in_notices (s s' : State) (pid : Z) :
  circular_notices n s -> swap_in_process s pid = Ok s' -> circular_notices n s'.
Proof.
  intros [HA HB]. unfold swap_in_process.
  destruct (get_process s pid) as [p| |]; cbn [bind]; try discriminate.
  destruct (is_active p); [intros [= <-]; split; assumption|].
  destruct (alloc_essential _ _ _ _ _) as [[pt fa] free].
  intros [= <-]. unfold circular_notices, lowest_account in *. state_simpl.
  rewrite lowest_shown_snoc. split; [assumption|].
  apply swap_ins_show_lowest_snoc; assumption.
Qed.

Lemma circular_reference_notices (s s' : State) (pid pg : Z) (b : bool) :
  circular_notices n s -> reference_page s pid pg = Ok (s', b) -> circular_notices n s'.
Proof.
  intros HN. unfold reference_page.
  set (s1 := set_page_accesses s (page_accesses s + 1)).
  destruct (get_process s1 pid) as [p| |] eqn:Hg; cbn [bind]; try discriminate.
  destruct (zget (page_table p) pg) as [e| |]; cbn [bind]; try discriminate.
  destruct (is_valid e); [intros [= <- <-]; exact HN|].
  unfold handle_page_fault.
  set (s2 := set_page_faults s1 (page_faults s1 + 1)).
  change (get_process s2 pid) with (get_process s1 pid). rewrite Hg. cbn [bind].
  destruct (free_frames s2) as [|f free].
  - destruct (swap_out_process s2 pid) as [s3| |] eqn:Hout; cbn [bind]; try discriminate.
    intros [= <- <-]. apply (circular_swap_out_notices s2 s3 pid); [exact HN | exact Hout].
  - destruct (in_range (page_table p) pg); [|discriminate].
    intros [= <- <-]. exact HN.
Qed.

Lemma circular_search_loop_notices (pid key : Z) (fuel : nat) :
  forall (s s' : State) (L R : Z) (b : bool),
  circular_notices n s -> search_loop fuel s pid key L R = Ok (s', b) ->
  circular_notices n s'.
Proof.
  induction fuel as [|fuel IH]; intros s s' L R b HN H; [discriminate|].
  cbn [search_loop] in H. destruct (L <? R); [|injection H as <- <-; exact HN].
  destruct (reference_page s pid (page_of (midpoint L R))) as [[s1 b1]| |] eqn:Href;
    cbn [bind fst snd] in H; try discriminate.
  pose proof (circular_reference_notices s s1 pid _ b1 HN Href) as HN1.
  destruct b1; [|injection H as <- <-; exact HN1].
  destruct (key <=? midpoint L R); eapply IH; eauto.
Qed.

Lemma circular_drain_notices (fuel : nat) :
  forall s s' : State,
  circular_notices n s -> drain fuel s = Ok s' -> circular_notices n s'.
Proof.
  induction fuel as [|fuel IH]; intros s s' HN H; [discriminate|].
  cbn [drain] in H.
  destruct (negb (queueIsEmpty (swap_queue s)) && (ESSENTIAL_PAGES <=? num_free_frames s));
    [|injection H as <-; exact HN].
  destruct (dequeue (swap_queue s)) as [next q].
  set (s1 := set_swap_queue s q) in *.
  assert (HN1 : circular_notices n s1) by exact HN.
  destruct (next =? -1); [exact (IH s1 s' HN1 H)|].
  destruct (get_process s1 next) as [p| |]; cbn [bind] in H; try discriminate.
  destruct (is_active p); [exact (IH s1 s' HN1 H)|].
  destruct (swap_in_process s1 next) as [s2| |] eqn:Hin; cbn [bind] in H; try discriminate.
  apply (IH s2 s'); [|exact H]. apply (circular_swap_in_notices s1 s2 next HN1 Hin).
Qed.

Lemma circular_step_notices (s s' : State) (pid : Z) :
  circular_notices n s -> simulate_binary_search s pid = Ok s' -> circular_notices n s'.
Proof.
  intros HN. unfold simulate_binary_search.
  destruct (get_process s pid) as [p| |]; cbn [bind]; try discriminate.
  destruct (negb (is_active p) || finished p); [intros [= <-]; exact HN|].
  destruct (zget (search_indices p) (current_search p)) as [key| |]; cbn [bind];
    try discriminate.
  destruct (search_loop _ s pid key 0 (array_size p - 1)) as [[s1 b]| |] eqn:Hloop;
    cbn [bind fst snd]; try discriminate.
  pose proof (circular_search_loop_notices pid key _ s s1 _ _ b HN Hloop) as HN1.
  destruct b; [|intros [= <-]; exact HN1].
  unfold complete_search.
  destruct (get_process s1 pid) as [p1| |]; cbn [bind]; try discriminate.
  destruct (finished (set_current_search p1 (current_search p1 + 1))).
  - destruct (release_frames _ _) as [pt free].
    intros H. refine (circular_drain_notices _ _ s' _ H). exact HN1.
  - intros [= <-]. exact HN1.
Qed.

End CircularNotices.

Section ShiftingNotices.
Import Shifting.
Variable n : Z.

Lemma shifting_swap_out_notices (s s' : State) (pid : Z) :
  lowest_account n s -> swap_out_process s pid = Ok s' -> lowest_account n s'.
Proof.
  intros HA. unfold swap_out_process.
  destruct (get_process s pid) as [p| |]; cbn [bind]; try discriminate.
  destruct (release_frames (page_table p) _) as [pt free].
  destruct (push_back _ pid) as [q| |]; cbn [bind]; try discriminate.
  cbv zeta. set (ac := get_active_process_count _).
  unfold lowest_account in *.
  match goal with |- context [ac <? ?m] => destruct (Z.ltb_spec ac m) as [Hlt|Hge] end;
    intros [= <-]; state_simpl; rewrite lowest_shown_snoc, <- HA; lia.
Qed.

Lemma shifting_swap_in_notices (s s' : State) (pid : Z) :
  lowest_account n s -> swap_in_process s pid = Ok s' -> lowest_account n s'.
Proof.
  intros HA. unfold swap_in_process.
  destruct (get_process s pid) as [p| |]; cbn [bind]; try discriminate.
  destruct (alloc_essential _ _ _ _ _) as [[pt fa] free].
  intros [= <-]. unfold lowest_account in *. state_simpl.
  rewrite lowest_shown_snoc. assumption.
Qed.

Lemma shifting_reference_notices (s s' : State) (pid pg : Z) (b : bool) :
  lowest_account n s -> reference_page s pid pg = Ok (s', b) -> lowest_account n s'.
Proof.
  intros HN. unfold reference_page.
  set (s1 := set_page_accesses s (page_accesses s + 1)).
  destruct (get_process s1 pid) as [p| |] eqn:Hg; cbn [bind]; try discriminate.
  destruct (zget (page_table p) pg) as [e| |]; cbn [bind]; try discriminate.
  destruct (is_valid e); [intros [= <- <-]; exact HN|].
  unfold handle_page_fault.
  set (s2 := set_page_faults s1 (page_faults s1 + 1)).
  change (get_process s2 pid) with (get_process s1 pid). rewrite Hg. cbn [bind].
  destruct (free_frames s2) as [|f free].
  - destruct (swap_out_process s2 pid) as [s3| |] eqn:Hout; cbn [bind]; try discriminate.
    intros [= <- <-]. apply (shifting_swap_out_notices s2 s3 pid); [exact HN | exact Hout].
  - destruct (in_range (page_table p) pg); [|discriminate].
    intros [= <- <-]. exact HN.
Qed.

Lemma shifting_search_loop_notices (pid key : Z) (fuel : nat) :
  forall (s s' : State) (L R : Z) (b : bool),
  lowest_account n s -> search_loop fuel s pid key L R = Ok (s', b) ->
  lowest_account n s'.
Proof.
  induction fuel as [|fuel IH]; intros s s' L R b HN H; [discriminate|].
  cbn [search_loop] in H. destruct (L <? R); [|injection H as <- <-; exact HN].
  destruct (reference_page s pid (page_of (midpoint L R))) as [[s1 b1]| |] eqn:Href;
    cbn [bind fst snd] in H; try discriminate.
  pose proof (shifting_reference_notices s s1 pid _ b1 HN Href) as HN1.
  destruct b1; [|injection H as <- <-; exact HN1].
  destruct (key <=? midpoint L R); eapply IH; eauto.
Qed.

Lemma shifting_step_notices (s s' : State) (pid : Z) :
  lowest_account n s -> simulate_binary_search s pid = Ok s' -> lowest_account n s'.
Proof.
  intros HN. unfold simulate_binary_search.
  destruct (get_process s pid) as [p| |]; cbn [bind]; try discriminate.
  destruct (zget (search_indices p) (current_search p)) as [key| |]; cbn [bind];
    try discriminate.
  destruct (search_loop _ s pid key 0 (array_size p - 1)) as [[s1 b]| |] eqn:Hloop;
    cbn [bind fst snd]; try discriminate.
  pose proof (shifting_search_loop_notices pid key _ s s1 _ _ b HN Hloop) as HN1.
  destruct b; [|intros [= <-]; exact HN1].
  unfold complete_search.
  destruct (get_process s1 pid) as [p1| |]; cbn [bind]; try discriminate.
  destruct (finished (set_current_search p1 (current_search p1 + 1))).
  - destruct (release_frames _ _) as [pt free]. cbv zeta.
    destruct (rev _) as [|next before].
    + intros [= <-]. exact HN1.
    + intros H. refine (shifting_swap_in_notices _ s' next _ H). exact HN1.
  - intros [= <-]. exact HN1.
Qed.

End ShiftingNotices.

(** X18. The degree of multiprogramming that [print_statistics] reports
    is the lowest count of active processes shown by a swap-out notice,
    or the number of processes when no lower count was shown (lines
    129-132 and 482-485): this holds at every state at the head of the
    scheduling loop, of either variant.  In the second variant every
    swap-in notice shows that lowest count as it was when the notice was
    printed (lines 521-522), not the number of active processes. *)
Theorem degree_of_multiprogramming :
  (forall (s : Circular.State) (c : Z),
     Circular.reachable s c ->
     min_active_processes s = lowest_shown (output s) (num_processes s) /\
     swap_ins_show_lowest (output s) (num_processes s)) /\
  (forall (s : Shifting.State) (queue : list Z) (c : Z),
     Shifting.reachable s queue c ->
     min_active_processes s = lowest_shown (output s) (num_processes s)).
Proof.
  split.
  - induction 1 as [input s Hinit | s c s' Hreach IH Hdone Hstep].
    + destruct (initialize_with_layout Circular.initQueue input s Hinit)
        as (np & ns & rest & _ & Hn & Hmin & _ & Hout & _).
      rewrite Hout, Hmin, Hn. cbn [lowest_shown swap_ins_show_lowest]. auto.
    + destruct (reachable_inv s c Hreach) as (HI & HP & _).
      rewrite (num_processes_map s s' (circular_step_static s s' c HI HP Hstep)).
      apply (circular_step_notices (num_processes s) s s' c IH Hstep).
  - induction 1 as [input s Hinit | s queue c s' queue' c' Hreach IH Hdone Hstep].
    + destruct (initialize_with_layout [] input s Hinit)
        as (np & ns & rest & _ & Hn & Hmin & _ & Hout & _).
      rewrite Hout, Hmin, Hn. reflexivity.
    + destruct (shifting_reachable_inv s queue c Hreach) as (HI & HLv & Hc).
      destruct (shifting_main_step_effect s s' queue queue' c c' HI HLv Hdone Hc Hstep)
        as (ap & p' & _ & Hr & Hsim & _).
      rewrite (shifting_num_processes_map s s' (shifting_turn_static s s' ap HI Hr Hsim)).
      apply (shifting_step_notices (num_processes s) s s' ap IH Hsim).
Qed.

(** After 1001 rounds of [pressure_workload] 476 processes are active in
    the second variant and 473 in the first; both record 472, the count
    shown when process 498 was suspended, and the four swap-in notices of
    the second variant show 472. *)
Lemma degree_of_multiprogramming_witness :
  match Circular.initialize_system pressure_workload,
        Shifting.initialize_system pressure_workload with
  | Some r0, Some s0 =>
      match circular_rounds 1001 r0 0, shifting_rounds 1001 s0 [] 0 with
      | Ok (u, _), Ok (t, _, _) =>
          get_active_process_count u = 476 /\ min_active_processes u = 472 /\
          lowest_shown (output u) (num_processes u) = 472 /\
          swap_ins_show_lowest (output u) (num_processes u) /\
          get_active_process_count t = 473 /\ min_active_processes t = 472 /\
          lowest_shown (output t) (num_processes t) = 472
      | _, _ => False
      end
  | _, _ => False
  end.
Proof.
  destruct circular_pressure_states
    as (r0 & _ & u' & F0 & _ & F1 & _ & (_ & _ & _ & _ & _ & _ & Gmin & Gact)).
  destruct shifting_pressure_states
    as (s0 & _ & _ & t' & _ & _ & _ & E0 & _ & _ & E1 & _ & _ &
        (_ & _ & _ & _ & _ & _ & Hmin & Hact)).
  rewrite F0, E0, F1, E1.
  assert (Hu : Circular.reachable u' 1).
  { apply (circular_rounds_reachable 1001 r0 u' 0 1); [|assumption].
    eapply Circular.reach_init. exact F0. }
  assert (Ht : Shifting.reachable t' pressure_suspended 1).
  { apply (shifting_rounds_reachable 1001 s0 t' [] pressure_suspended 0 1); [|assumption].
    eapply Shifting.reach_init. exact E0. }
  destruct (proj1 degree_of_multiprogramming u' 1 Hu) as [H1 H2].
  pose proof (proj2 degree_of_multiprogramming t' pressure_suspended 1 Ht) as H3.
  rewrite <- H1, <- H3.
  repeat (split; [assumption|]). assumption.
Defined.

(** ** The order of resumption *)

Lemma lifo_stack_app (out1 out2 : list event) :
  forall stack,
  lifo_stack (out1 ++ out2) stack =
  match lifo_stack out1 stack with
  | Some k => lifo_stack out2 k
  | None => None
  end.
Proof.
  induction out1 as [|[x n|x n] t IH]; intros stack; cbn [app lifo_stack].
  - reflexivity.
  - apply IH.
  - destruct (rev stack) as [|top below]; [reflexivity|].
    destruct (top =? x); [apply IH | reflexivity].
Qed.

Section CircularOrder.
Import Circular.

Lemma circular_reference_page_fifo (s s' : State) (pid pg : Z) (b : bool) :
  Inv s -> runnable s pid -> fifo_trace s ->
  reference_page s pid pg = Ok (s', b) ->
  fifo_trace s'.
Proof.
  intros HI (p & Hg & Ha & Hfin) HL. unfold reference_page.
  set (s1 := set_page_accesses s (page_accesses s + 1)).
  assert (Hg1 : get_process s1 pid = Ok p) by exact Hg.
  assert (HI1 : Inv s1) by (apply (Inv_ext s s1); auto).
  rewrite Hg1. cbn [bind].
  destruct (zget (page_table p) pg) as [e| |] eqn:He; cbn [bind]; try discriminate.
  destruct (is_valid e) eqn:Hv.
  - intros [= <- <-]. exact HL.
  - set (s2 := set_page_faults s1 (page_faults s1 + 1)).
    assert (Hg2 : get_process s2 pid = Ok p) by exact Hg.
    assert (HI2 : Inv s2) by (apply (Inv_ext s1 s2); auto).
    assert (HL2 : fifo_trace s2) by exact HL.
    destruct (free_frames s2) as [|f free] eqn:Hfree.
    + destruct (swap_out_active s2 pid p Hg2 Ha)
        as (s3 & Hrun & Hp & Hf & Hq & Hsw & Hpa & Hpf & Hmin & Hout).
      unfold handle_page_fault. rewrite Hg2. cbn [bind]. rewrite Hfree, Hrun. cbn [bind].
      intros [= <- <-].
      destruct (enqueue_spec (swap_queue s2) pid (inv_queue_wf s2 HI2)
                  (queue_room s2 pid p HI2 Hg2 Ha)) as [_ Hl].
      unfold fifo_trace in *.
      rewrite Hout, swap_outs_app, swap_ins_app, Hq, Hl, HL2.
      cbn [swap_outs swap_ins]. rewrite app_nil_r, app_assoc. reflexivity.
    + destruct (page_fault_granted s2 pid pg p e f free HI2 Hg2 Ha Hfin He Hv Hfree)
        as (s3 & Hrun & _ & Hquiet & _).
      rewrite Hrun. intros [= <- <-].
      destruct Hquiet as (_ & _ & _ & Q4 & _ & _ & _ & Q8).
      unfold fifo_trace in *. rewrite Q8, Q4. exact HL2.
Qed.

Lemma circular_search_loop_fifo (pid key : Z) (fuel : nat) :
  forall (s s' : State) (L R : Z) (b : bool),
  Inv s -> runnable s pid -> fifo_trace s ->
  search_loop fuel s pid key L R = Ok (s', b) ->
  fifo_trace s' /\ Inv s' /\ (b = true -> runnable s' pid).
Proof.
  induction fuel as [|fuel IH]; intros s s' L R b HI Hr HL H; [discriminate|].
  cbn [search_loop] in H. destruct (L <? R).
  - destruct (reference_page s pid (page_of (midpoint L R))) as [[s1 b1]| |] eqn:Href;
      cbn [bind fst snd] in H; try discriminate.
    pose proof (circular_reference_page_fifo s s1 pid _ b1 HI Hr HL Href) as HL1.
    destruct (reference_page_cases s pid (page_of (midpoint L R)) HI Hr)
      as [[Hu _]|[(s2 & Hrun & HI2 & _ & Hr2 & _)|(s2 & Hrun & HI2 & _)]];
      rewrite Href in *; try discriminate; injection Hrun as -> ->.
    + destruct (key <=? midpoint L R); eapply IH; eauto.
    + injection H as <- <-. split; [assumption|]. split; [assumption|]. discriminate.
  - injection H as <- <-. auto.
Qed.

Lemma circular_complete_search_fifo (s s' : State) (pid : Z) :
  Inv s -> runnable s pid -> fifo_trace s ->
  complete_search s pid = Ok s' -> fifo_trace s'.
Proof.
  intros HI (p & Hg & Ha & Hfin) HL.
  pose proof Hg as Hn. apply get_process_nth in Hn. destruct Hn as [H0 Hn].
  pose proof (inv_process_ok s pid p HI Hg) as Hok.
  unfold complete_search. rewrite Hg. cbn [bind].
  set (p1 := set_current_search p (current_search p + 1)).
  assert (Hcur : current_search p < num_searches p).
  { unfold finished in Hfin. apply Z.leb_gt in Hfin. assumption. }
  destruct (finished p1) eqn:Hfin1.
  - rewrite release_frames_spec.
    set (p2 := set_frames_allocated _ 0).
    set (s1 := put_process _ pid p2).
    assert (Hok2 : process_ok p2).
    { destruct Hok as [K1 K2 K3 K4 K5 K6 K7 K8].
      subst p2 p1. constructor; proc_simpl;
        [ rewrite length_map; assumption | assumption | assumption | lia
        | rewrite held_cleared; reflexivity | intros _; apply held_cleared
        | intros _; split; [apply held_cleared | assumption]
        | intros _ Hc; unfold finished in *; proc_simpl; congruence ]. }
    assert (HI1 : Inv s1).
    { apply (Inv_put_same_queue s s1 pid p p2); auto.
      subst s1 p2 p1. state_simpl. proc_simpl. rewrite held_cleared, app_nil_r.
      rewrite Permutation_app_comm. apply Permutation_app_head.
      symmetry. apply Permutation_rev. }
    destruct (drain_spec drain_fuel s1 HI1) as (s2 & resumed & Hrun & _ & Hres & _).
    { rewrite queue_list_length. pose proof (queue_size_range (swap_queue s1)).
      unfold drain_fuel, MAX_PROCESSES in *. lia. }
    rewrite Hrun. intros [= <-].
    destruct Hres as (R1 & _ & R3 & _).
    unfold fifo_trace in *.
    rewrite R3, swap_outs_app, swap_ins_app, swap_outs_resumed, swap_ins_notices.
    rewrite app_nil_r, <- app_assoc, <- R1.
    change (output s1) with (output s). change (swap_queue s1) with (swap_queue s).
    exact HL.
  - intros [= <-]. exact HL.
Qed.

Lemma circular_step_fifo (s s' : State) (pid : Z) :
  Inv s -> fifo_trace s ->
  simulate_binary_search s pid = Ok s' -> fifo_trace s'.
Proof.
  intros HI HL. unfold simulate_binary_search.
  destruct (get_process s pid) as [p| |] eqn:Hg; cbn [bind]; try discriminate.
  destruct (is_active p) eqn:Ha; cbn [negb orb]; [|intros [= <-]; assumption].
  destruct (finished p) eqn:Hfin; [intros [= <-]; assumption|].
  assert (Hr : runnable s pid) by (exists p; auto).
  destruct (zget (search_indices p) (current_search p)) as [key| |]; cbn [bind];
    try discriminate.
  destruct (search_loop _ s pid key 0 (array_size p - 1)) as [[s1 b]| |] eqn:Hloop;
    cbn [bind fst snd]; try discriminate.
  destruct (circular_search_loop_fifo pid key _ s s1 _ _ b HI Hr HL Hloop)
    as (HL1 & HI1 & Hb).
  destruct b.
  - apply circular_complete_search_fifo; auto.
  - intros [= <-]. assumption.
Qed.

Lemma circular_reachable_fifo (s : State) (c : Z) :
  reachable s c -> fifo_trace s.
Proof.
  induction 1 as [input s Hinit | s c s' Hreach IH Hdone Hstep].
  - destruct (initialize_with_layout initQueue input s Hinit)
      as (np & ns & rest & _ & _ & _ & Hq & Hout & _).
    unfold fifo_trace. rewrite Hout, Hq, initQueue_list. reflexivity.
  - destruct (reachable_inv s c Hreach) as (HI & _ & _).
    eapply circular_step_fifo; eauto.
Qed.

End CircularOrder.

Section ShiftingOrderOfResumption.
Import Shifting.

Lemma shifting_swap_out_lifo (s s' : State) (pid : Z) :
  lifo_trace s -> swap_out_process s pid = Ok s' -> lifo_trace s'.
Proof.
  intros HA. unfold swap_out_process.
  destruct (get_process s pid) as [p| |]; cbn [bind]; try discriminate.
  destruct (release_frames (page_table p) _) as [pt free].
  unfold push_back. state_simpl.
  destruct (Z.of_nat (length (swap_queue s)) <? MAX_PROCESSES); cbn [bind];
    try discriminate.
  cbv zeta. set (ac := get_active_process_count _).
  unfold lifo_trace in *.
  match goal with |- context [ac <? ?m] => destruct (ac <? m) end;
    intros [= <-]; state_simpl; rewrite lifo_stack_app, HA; reflexivity.
Qed.

Lemma shifting_reference_lifo (s s' : State) (pid pg : Z) (b : bool) :
  lifo_trace s -> reference_page s pid pg = Ok (s', b) -> lifo_trace s'.
Proof.
  intros HN. unfold reference_page.
  set (s1 := set_page_accesses s (page_accesses s + 1)).
  destruct (get_process s1 pid) as [p| |] eqn:Hg; cbn [bind]; try discriminate.
  destruct (zget (page_table p) pg) as [e| |]; cbn [bind]; try discriminate.
  destruct (is_valid e); [intros [= <- <-]; exact HN|].
  unfold handle_page_fault.
  set (s2 := set_page_faults s1 (page_faults s1 + 1)).
  change (get_process s2 pid) with (get_process s1 pid). rewrite Hg. cbn [bind].
  destruct (free_frames s2) as [|f free].
  - destruct (swap_out_process s2 pid) as [s3| |] eqn:Hout; cbn [bind]; try discriminate.
    intros [= <- <-]. apply (shifting_swap_out_lifo s2 s3 pid); [exact HN | exact Hout].
  - destruct (in_range (page_table p) pg); [|discriminate].
    intros [= <- <-]. exact HN.
Qed.

Lemma shifting_search_loop_lifo (pid key : Z) (fuel : nat) :
  forall (s s' : State) (L R : Z) (b : bool),
  lifo_trace s -> search_loop fuel s pid key L R = Ok (s', b) -> lifo_trace s'.
Proof.
  induction fuel as [|fuel IH]; intros s s' L R b HN H; [discriminate|].
  cbn [search_loop] in H. destruct (L <? R); [|injection H as <- <-; exact HN].
  destruct (reference_page s pid (page_of (midpoint L R))) as [[s1 b1]| |] eqn:Href;
    cbn [bind fst snd] in H; try discriminate.
  pose proof (shifting_reference_lifo s s1 pid _ b1 HN Href) as HN1.
  destruct b1; [|injection H as <- <-; exact HN1].
  destruct (key <=? midpoint L R); eapply IH; eauto.
Qed.

Lemma shifting_step_lifo (s s' : State) (pid : Z) :
  lifo_trace s -> simulate_binary_search s pid = Ok s' -> lifo_trace s'.
Proof.
  intros HN. unfold simulate_binary_search.
  destruct (get_process s pid) as [p| |]; cbn [bind]; try discriminate.
  destruct (zget (search_indices p) (current_search p)) as [key| |]; cbn [bind];
    try discriminate.
  destruct (search_loop _ s pid key 0 (array_size p - 1)) as [[s1 b]| |] eqn:Hloop;
    cbn [bind fst snd]; try discriminate.
  pose proof (shifting_search_loop_lifo pid key _ s s1 _ _ b HN Hloop) as HN1.
  destruct b; [|intros [= <-]; exact HN1].
  unfold complete_search.
  destruct (get_process s1 pid) as [p1| |]; cbn [bind]; try discriminate.
  destruct (finished (set_current_search p1 (current_search p1 + 1)));
    [|intros [= <-]; exact HN1].
  destruct (release_frames _ _) as [pt free]. cbv zeta. state_simpl.
  destruct (rev (swap_queue s1)) as [|next before] eqn:Hrev.
  - intros [= <-]. exact HN1.
  - unfold swap_in_process.
    destruct (get_process _ next) as [q| |]; cbn [bind]; try discriminate.
    destruct (alloc_essential _ _ _ _ _) as [[pt' fa] free'].
    intros [= <-]. unfold lifo_trace in *. state_simpl.
    rewrite lifo_stack_app, HN1. cbn [lifo_stack]. rewrite Hrev, Z.eqb_refl.
    reflexivity.
Qed.

End ShiftingOrderOfResumption.

(** X19. The order of resumption over a whole run.  In the second
    variant, at every state at the head of the scheduling loop, the
    processes named by the swap-in notices are the first of those named
    by the swap-out notices, in the same order, and the queue holds the
    others, oldest first: a process is resumed before every process
    suspended after it.  In the first variant every swap-in notice names
    the process that was suspended last among those still suspended, and
    the queue of the state holds the others, the one suspended first at
    index 0. *)
Theorem resumption_order :
  (forall (s : Circular.State) (c : Z),
     Circular.reachable s c ->
     swap_outs (output s) = swap_ins (output s) ++ Circular.queue_list (swap_queue s)) /\
  (forall (s : Shifting.State) (queue : list Z) (c : Z),
     Shifting.reachable s queue c ->
     lifo_stack (output s) [] = Some (swap_queue s)).
Proof.
  split.
  - intros s c Hr. exact (circular_reachable_fifo s c Hr).
  - induction 1 as [input s Hinit | s queue c s' queue' c' Hreach IH Hdone Hstep].
    + destruct (initialize_with_layout [] input s Hinit)
        as (np & ns & rest & _ & _ & _ & Hq & Hout & _).
      rewrite Hout, Hq. reflexivity.
    + destruct (shifting_reachable_inv s queue c Hreach) as (HI & HLv & Hc).
      destruct (shifting_main_step_effect s s' queue queue' c c' HI HLv Hdone Hc Hstep)
        as (ap & p' & _ & Hr & Hsim & _).
      apply (shifting_step_lifo s s' ap IH Hsim).
Qed.

(** After 1001 rounds of [pressure_workload] the second variant has
    resumed the four processes suspended first, the first variant the
    one suspended last. *)
Lemma resumption_order_witness :
  match Circular.initialize_system pressure_workload,
        Shifting.initialize_system pressure_workload with
  | Some r0, Some s0 =>
      match circular_rounds 1001 r0 0, shifting_rounds 1001 s0 [] 0 with
      | Ok (u, _), Ok (t, _, _) =>
          swap_outs (output u) = pressure_suspended /\
          swap_ins (output u) = [411; 414; 417; 420] /\
          swap_outs (output u) = swap_ins (output u) ++ Circular.queue_list (swap_queue u) /\
          swap_outs (output t) = pressure_suspended /\
          swap_ins (output t) = [498] /\
          lifo_stack (output t) [] = Some (swap_queue t)
      | _, _ => False
      end
  | _, _ => False
  end.
Proof.
  destruct circular_pressure_states
    as (r0 & _ & u' & F0 & _ & F1 & _ & (_ & _ & Gouts & Gins & _)).
  destruct shifting_pressure_states
    as (s0 & _ & _ & t' & _ & _ & _ & E0 & _ & _ & E1 & _ & _ &
        (_ & _ & Houts & Hins & _)).
  rewrite F0, E0, F1, E1.
  assert (Hu : Circular.reachable u' 1).
  { apply (circular_rounds_reachable 1001 r0 u' 0 1); [|assumption].
    eapply Circular.reach_init. exact F0. }
  assert (Ht : Shifting.reachable t' pressure_suspended 1).
  { apply (shifting_rounds_reachable 1001 s0 t' [] pressure_suspended 0 1); [|assumption].
    eapply Shifting.reach_init. exact E0. }
  pose proof (proj1 resumption_order u' 1 Hu) as H1.
  pose proof (proj2 resumption_order t' pressure_suspended 1 Ht) as H2.
  repeat (split; [assumption|]). assumption.
Defined.

(** * Swap-out and the drain in a run *)

Section ShiftingFault.
Import Shifting.

Lemma shifting_in_turn_inv (pid : Z) (s : State) :
  shifting_in_turn pid s -> Inv s /\ runnable s pid.
Proof.
  induction 1 as [s queue c Hr Hrun | s pg s' _ IH Href].
  - destruct (shifting_reachable_inv s queue c Hr) as (HI & _). auto.
  - destruct IH as [HI Hrun].
    apply (shifting_reference_page_inv s s' pid pg true HI Hrun Href).
Qed.

Lemma shifting_replay_in_turn (pid : Z) (pages : list Z) :
  forall s s' : State,
  shifting_in_turn pid s -> replay s pid pages = Ok (s', true) ->
  shifting_in_turn pid s'.
Proof.
  induction pages as [|pg rest IH]; intros s s' Ht H.
  - cbn [replay] in H. injection H as <-. assumption.
  - cbn [replay] in H.
    destruct (reference_page s pid pg) as [[s1 b1]| |] eqn:Href; cbn [bind fst snd] in H;
      try discriminate.
    destruct b1; [|discriminate].
    apply (IH s1 s'); [|assumption]. eapply turn_next; eauto.
Qed.

(** A reference that suspends the process is a page fault that finds no
    free frame, and ends in the call of [swap_out_process] of line 161. *)
Lemma shifting_reference_suspends (s s' : State) (pid pg : Z) :
  reference_page s pid pg = Ok (s', false) ->
  exists p e,
    get_process s pid = Ok p /\ zget (page_table p) pg = Ok e /\
    is_valid e = false /\ free_frames s = [] /\
    swap_out_process
      (set_page_faults (set_page_accesses s (page_accesses s + 1)) (page_faults s + 1))
      pid = Ok s'.
Proof.
  unfold reference_page.
  set (s1 := set_page_accesses s (page_accesses s + 1)).
  change (get_process s1 pid) with (get_process s pid).
  destruct (get_process s pid) as [p| |] eqn:Hg; cbn [bind]; try discriminate.
  destruct (zget (page_table p) pg) as [e| |] eqn:He; cbn [bind]; try discriminate.
  destruct (is_valid e) eqn:Hv; [discriminate|].
  unfold handle_page_fault.
  change (page_faults s1) with (page_faults s).
  set (s2 := set_page_faults s1 (page_faults s + 1)).
  change (get_process s2 pid) with (get_process s pid). rewrite Hg. cbn [bind].
  change (free_frames s2) with (free_frames s).
  destruct (free_frames s) as [|f free] eqn:Hfree.
  - destruct (swap_out_process s2 pid) as [s3| |] eqn:Hout; cbn [bind]; try discriminate.
    intros [= <-]. exists p, e. auto.
  - destruct (in_range (page_table p) pg); discriminate.
Qed.

(** C3. A page fault that finds no free frame swaps the referencing
    process out and ends the workload step at once: the references made
    are those up to the faulting one, the search is not completed and
    [current_search] keeps its value, so the process resumes from the same
    search index.  The process is swapped out: every valid entry of its
    page table is cleared, the frames they held are the free frames, it
    holds none, it is inactive and at the rear of the swap queue, and the
    counters of swaps and faults grow by one. *)
Theorem fault_aborts_step
    (s s1 : State) (pid key pg e : Z) (p p1 : Process) (pre post : list Z) :
  get_process s pid = Ok p ->
  zget (search_indices p) (current_search p) = Ok key ->
  search_pages (search_fuel 0 (array_size p - 1)) key 0 (array_size p - 1)
    = pre ++ pg :: post ->
  replay s pid pre = Ok (s1, true) ->
  get_process s1 pid = Ok p1 ->
  zget (page_table p1) pg = Ok e -> is_valid e = false ->
  free_frames s1 = [] ->
  Z.of_nat (length (swap_queue s1)) < MAX_PROCESSES ->
  exists s' p',
    simulate_binary_search s pid = Ok s' /\
    get_process s' pid = Ok p' /\
    is_active p' = false /\
    current_search p' = current_search p /\
    num_searches p' = num_searches p /\
    frames_allocated p' = 0 /\
    page_table p' = map (fun e => if is_valid e then 0 else e) (page_table p1) /\
    Forall (fun e => is_valid e = false) (page_table p') /\
    held (page_table p') = [] /\
    free_frames s' = rev (held (page_table p1)) /\
    swap_queue s' = swap_queue s1 ++ [pid] /\
    num_swaps s' = num_swaps s1 + 1 /\
    page_faults s' = page_faults s1 + 1 /\
    page_accesses s' = page_accesses s + Z.of_nat (length pre) + 1.
Proof.
  intros Hg Hkey Hpages Hpre Hg1 He Hv Hfree Hroom.
  destruct (shifting_replay_frame pid pre s s1 true Hpre) as (Hst & Hcs & Hb).
  destruct (Hb eq_refl) as [Hpa Hact].
  assert (Hc1 : current_search p1 = current_search p).
  { apply (map_get_process current_search s s1 pid p p1 Hcs Hg Hg1). }
  assert (Hs1 : static_part p1 = static_part p).
  { apply (map_get_process static_part s s1 pid p p1 Hst Hg Hg1). }
  set (s1a := set_page_accesses s1 (page_accesses s1 + 1)).
  set (s2 := set_page_faults s1a (page_faults s1a + 1)).
  assert (Hg2 : get_process s2 pid = Ok p1) by exact Hg1.
  destruct (shifting_swap_out_spec s2 pid p1 Hg2 Hroom)
    as (s' & Hrun & Hp & Hf & Hq & Hsw & Hpa' & Hpf' & _).
  match type of Hp with _ = upd _ ?x _ => set (p' := x) in * end.
  exists s', p'.
  assert (Hsim : simulate_binary_search s pid = Ok s').
  { unfold simulate_binary_search. rewrite Hg. cbn [bind]. rewrite Hkey. cbn [bind].
    destruct (search_fuel_enough 0 (array_size p - 1)) as (f & Ef & Hf').
    rewrite Ef in *. rewrite shifting_search_loop_replay by (assumption || lia).
    rewrite Hpages, shifting_replay_app, Hpre. cbn [bind fst snd replay].
    unfold reference_page. fold s1a. fold s2.
    change (get_process s1a pid) with (get_process s1 pid).
    rewrite Hg1. cbn [bind]. rewrite He. cbn [bind]. rewrite Hv.
    unfold handle_page_fault. rewrite Hg2. cbn [bind].
    change (free_frames s2) with (free_frames s1). rewrite Hfree, Hrun. reflexivity. }
  split; [assumption|]. split.
  { unfold get_process. rewrite Hp. apply zget_ok.
    apply get_process_nth in Hg1. destruct Hg1 as [H0 Hn].
    split; [assumption|]. apply nth_error_upd_same. apply nth_error_Some.
    change (processes s2) with (processes s1). congruence. }
  subst p'. proc_simpl.
  unfold static_part in Hs1. injection Hs1 as _ _ Hns.
  rewrite Hq, Hsw, Hpf', Hpa', Hc1, Hns, Hf. subst s2 s1a. state_simpl.
  rewrite Hfree, app_nil_r.
  repeat split; auto; [apply cleared_invalid|apply held_cleared|lia].
Qed.


(** Round 912 of [pressure_workload]: no frame is free when process 411
    starts its second search, whose first new page faults. *)
Lemma shifting_pressure_abort :
  exists (s0 s s1 s' : State) (p p1 : Process) (key pg e : Z) (pre post : list Z),
    initialize_system pressure_workload = Some s0 /\
    shifting_rounds 911 s0 [] 0 = Ok (s, [], 411) /\
    get_process s 411 = Ok p /\ is_active p = true /\
    zget (search_indices p) (current_search p) = Ok key /\
    search_pages (search_fuel 0 (array_size p - 1)) key 0 (array_size p - 1)
      = pre ++ pg :: post /\
    replay s 411 pre = Ok (s1, true) /\
    shifting_in_turn 411 s1 /\
    reference_page s1 411 pg = Ok (s', false) /\
    get_process s1 411 = Ok p1 /\
    zget (page_table p1) pg = Ok e /\ is_valid e = false /\
    free_frames s1 = [] /\
    Z.of_nat (length (swap_queue s1)) < MAX_PROCESSES.
Proof.
  destruct shifting_pressure_states
    as (s0 & s & _ & _ & p & key & s' & E0 & E1 & _ & _ & (Hg & Ha & Hfin & Hk & Hl) & _).
  assert (Hr : reachable s [] 411).
  { apply (shifting_rounds_reachable 911 s0 s [] [] 0 411); [|assumption].
    eapply reach_init. exact E0. }
  assert (Ht : shifting_in_turn 411 s).
  { apply (turn_start 411 s [] 411 Hr). exists p. auto. }
  destruct (search_fuel_enough 0 (array_size p - 1)) as (f & Ef & Hf).
  rewrite Ef in Hl. rewrite shifting_search_loop_replay in Hl by (assumption || lia).
  destruct (shifting_replay_stops 411 _ s s' Hl) as (pre & pg & post & s1 & Hpages & Hpre & Hlast).
  pose proof (shifting_replay_in_turn 411 pre s s1 Ht Hpre) as Ht1.
  destruct (shifting_in_turn_inv 411 s1 Ht1) as [HI1 (p1 & Hg1 & Ha1 & _)].
  destruct (shifting_reference_suspends s1 s' 411 pg Hlast)
    as (p1' & e & Hg1' & He & Hv & Hfree & _).
  rewrite Hg1 in Hg1'. injection Hg1' as <-.
  exists s0, s, s1, s', p, p1, key, pg, e, pre, post.
  rewrite Ef.
  repeat (split; [assumption|]).
  apply (shifting_queue_room s1 411 p1 HI1 Hg1 Ha1).
Qed.

(** Process 411 of [pressure_workload] in round 912: its step ends in a
    swap-out. *)
Lemma fault_aborts_step_witness :
  match initialize_system pressure_workload with
  | Some s0 =>
      match shifting_rounds 911 s0 [] 0 with
      | Ok (s, _, _) =>
          exists p s' p',
            get_process s 411 = Ok p /\ is_active p = true /\
            simulate_binary_search s 411 = Ok s' /\
            get_process s' 411 = Ok p' /\
            is_active p' = false /\
            current_search p' = current_search p /\
            frames_allocated p' = 0 /\
            Forall (fun e => is_valid e = false) (page_table p')
      | _ => False
      end
  | None => False
  end.
Proof.
  destruct shifting_pressure_abort
    as (s0 & s & s1 & s2 & p & p1 & key & pg & e & pre & post &
        E0 & E1 & Hg & Ha & Hk & Hpages & Hpre & _ & _ & Hg1 & He & Hv & Hfree & Hroom).
  rewrite E0, E1.
  destruct (fault_aborts_step s s1 411 key pg e p p1 pre post
              Hg Hk Hpages Hpre Hg1 He Hv Hfree Hroom)
    as (s' & p' & H1 & H2 & H3 & H4 & _ & H6 & _ & H8 & _).
  exists p, s', p'. repeat (split; [assumption|]). assumption.
Defined.

End ShiftingFault.

(** C4. Swap-out, in either variant.  In the second variant
    (lines 466-491) an inactive process is left alone; an active one
    loses every valid entry of its page table, the frames they held go to
    the free stack, its count of frames becomes zero, it is marked
    inactive and joins the rear of the swap queue, the swap counter grows
    by one, the recorded minimum follows the live count of active
    processes, and no other process changes.  The first variant
    (lines 114-136) does the same to an active process.  It has no test
    of [is_active], and needs none: its only call is that of the fault
    handler (line 161), for the process whose turn it is; a round of the
    scheduling loop is a turn of a process that is active with searches
    left, and in every state of a turn, from the head of the loop through
    the references of the search, that process is active and the queue
    has room for it, so every reference that suspends the process is a
    swap-out of an active process. *)
Theorem swap_out_semantics :
  (forall (s : Circular.State) (pid : Z) (p : Process),
     get_process s pid = Ok p ->
     Circular.queue_wf (swap_queue s) ->
     Circular.queue_size (swap_queue s) < MAX_PROCESSES ->
     (is_active p = false -> Circular.swap_out_process s pid = Ok s) /\
     (is_active p = true ->
      exists s' p',
        Circular.swap_out_process s pid = Ok s' /\
        get_process s' pid = Ok p' /\
        Forall (fun e => is_valid e = false) (page_table p') /\
        free_frames s' = rev (held (page_table p)) ++ free_frames s /\
        frames_allocated p' = 0 /\
        is_active p' = false /\
        Circular.queue_list (swap_queue s') = Circular.queue_list (swap_queue s) ++ [pid] /\
        num_swaps s' = num_swaps s + 1 /\
        min_active_processes s' =
          Z.min (min_active_processes s) (get_active_process_count s') /\
        (forall pid', pid' <> pid -> get_process s' pid' = get_process s pid'))) /\
  (forall (s : Shifting.State) (pid : Z) (p : Process),
     get_process s pid = Ok p -> is_active p = true ->
     Z.of_nat (length (swap_queue s)) < MAX_PROCESSES ->
     exists s' p',
       Shifting.swap_out_process s pid = Ok s' /\
       get_process s' pid = Ok p' /\
       Forall (fun e => is_valid e = false) (page_table p') /\
       free_frames s' = rev (held (page_table p)) ++ free_frames s /\
       frames_allocated p' = 0 /\
       is_active p' = false /\
       swap_queue s' = swap_queue s ++ [pid] /\
       num_swaps s' = num_swaps s + 1 /\
       min_active_processes s' =
         Z.min (min_active_processes s) (get_active_process_count s') /\
       (forall pid', pid' <> pid -> get_process s' pid' = get_process s pid')) /\
  (forall (s s' : Shifting.State) (queue queue' : list Z) (c c' : Z),
     Shifting.reachable s queue c -> all_done s = false ->
     Shifting.main_step s queue c = Ok (s', queue', c') ->
     exists ap,
       Shifting.select_process (length (processes s)) s c c = Ok ap /\
       shifting_in_turn ap s /\
       Shifting.simulate_binary_search s ap = Ok s') /\
  (forall (pid : Z) (s : Shifting.State),
     shifting_in_turn pid s ->
     (exists p, get_process s pid = Ok p /\ is_active p = true) /\
     Z.of_nat (length (swap_queue s)) < MAX_PROCESSES /\
     forall pg s',
       Shifting.reference_page s pid pg = Ok (s', false) ->
       Shifting.swap_out_process
         (set_page_faults (set_page_accesses s (page_accesses s + 1)) (page_faults s + 1))
         pid = Ok s').
Proof.
  split; [|split; [|split]].
  - intros s pid p. apply circular_swap_out_semantics.
  - intros s pid p Hg Ha Hroom.
    destruct (shifting_swap_out_spec s pid p Hg Hroom)
      as (s' & Hrun & Hp & Hf & Hq & Hsw & _ & _ & Hmin & _).
    match type of Hp with _ = upd _ ?x _ => set (p' := x) in * end.
    pose proof Hg as Hn. apply get_process_nth in Hn. destruct Hn as [H0 Hn].
    exists s', p'. split; [assumption|]. split.
    { unfold get_process. rewrite Hp. apply zget_ok. split; [assumption|].
      apply nth_error_upd_same. apply nth_error_Some. congruence. }
    split; [subst p'; proc_simpl; apply cleared_invalid|].
    split; [assumption|]. split; [reflexivity|]. split; [reflexivity|].
    split; [assumption|]. split; [assumption|]. split; [assumption|].
    intros pid' Hne. unfold get_process, zget. rewrite Hp.
    destruct (Z.ltb_spec pid' 0); [reflexivity|].
    rewrite nth_error_upd_other by lia. reflexivity.
  - intros s s' queue queue' c c' Hr Hdone Hstep.
    destruct (shifting_reachable_inv s queue c Hr) as (HI & HL & Hc).
    destruct (shifting_main_step_effect s s' queue queue' c c' HI HL Hdone Hc Hstep)
      as (ap & p' & Hsel & Hrun & Hsim & _).
    exists ap. split; [assumption|]. split; [|assumption].
    apply (turn_start ap s queue c Hr Hrun).
  - intros pid s Ht.
    destruct (shifting_in_turn_inv pid s Ht) as [HI (p & Hg & Ha & _)].
    split; [exists p; auto|].
    split; [apply (shifting_queue_room s pid p HI Hg Ha)|].
    intros pg s' Href.
    destruct (shifting_reference_suspends s s' pid pg Href) as (_ & _ & _ & _ & _ & _ & H).
    exact H.
Qed.

(** Round 912 of [pressure_workload] in the first variant: the reference
    of process 411 that finds no frame is a swap-out of an active
    process. *)
Lemma swap_out_semantics_witness :
  match Shifting.initialize_system pressure_workload with
  | Some s0 =>
      match shifting_rounds 911 s0 [] 0 with
      | Ok (s, _, _) =>
          exists pre pg s1 s' p,
            Shifting.replay s 411 pre = Ok (s1, true) /\
            Shifting.reference_page s1 411 pg = Ok (s', false) /\
            get_process s1 411 = Ok p /\ is_active p = true /\
            Shifting.swap_out_process
              (set_page_faults (set_page_accesses s1 (page_accesses s1 + 1))
                               (page_faults s1 + 1)) 411 = Ok s'
      | _ => False
      end
  | None => False
  end.
Proof.
  destruct shifting_pressure_abort
    as (s0 & s & s1 & s' & p & p1 & key & pg & e & pre & post &
        E0 & E1 & _ & _ & _ & _ & Hpre & Ht & Href & Hg1 & _).
  rewrite E0, E1.
  destruct (proj2 (proj2 (proj2 swap_out_semantics)) 411 s1 Ht)
    as ((p1' & Hg1' & Ha1) & _ & Hcall).
  rewrite Hg1 in Hg1'. injection Hg1' as <-.
  exists pre, pg, s1, s', p1.
  repeat (split; [assumption|]). apply (Hcall pg s' Href).
Defined.

(** C7, first variant, on [pressure_workload].  After 1000 rounds the
    28 processes of [pressure_suspended] are queued in either variant,
    process 411 at the front, and 16 frames are free.  Round 1001 is the
    last search of process 0, which releases its 26 frames.  The second
    variant then resumes the processes at the front, 411, 414, 417 and
    420, and stops with two frames free.  The first variant resumes the
    process at the rear, 498, and stops with 32 frames free and 27
    processes queued, 411 still at the front. *)
Theorem shifting_drain_takes_rear :
  match Shifting.initialize_system pressure_workload,
        Circular.initialize_system pressure_workload with
  | Some s0, Some r0 =>
      match shifting_rounds 1000 s0 [] 0, circular_rounds 1000 r0 0 with
      | Ok (t, queue, c), Ok (u, cu) =>
          all_done t = false /\ all_done u = false /\
          swap_queue t = pressure_suspended /\
          Circular.queue_list (swap_queue u) = pressure_suspended /\
          num_free_frames t = 16 /\ num_free_frames u = 16 /\
          match Shifting.main_step t queue c, Circular.simulate_binary_search u cu with
          | Ok (t', _, _), Ok u' =>
              swap_ins (output u') = [411; 414; 417; 420] /\
              Circular.queue_list (swap_queue u') = skipn 4 pressure_suspended /\
              num_free_frames u' = 2 /\
              swap_ins (output t') = [498] /\
              swap_queue t' = removelast pressure_suspended /\
              hd_error (swap_queue t') = Some 411 /\
              num_free_frames t' = 32
          | _, _ => False
          end
      | _, _ => False
      end
  | _, _ => False
  end.
Proof.
  destruct shifting_pressure_states
    as (s0 & _ & t & t' & _ & _ & _ & E0 & _ & E1 & _ & _ &
        (Hd & Hq & _ & _ & Hfree) & (Hstep & Hq' & _ & Hins & Hfree' & _)).
  destruct circular_pressure_states
    as (r0 & u & u' & F0 & F1 & _ &
        (Gd & Gq & _ & _ & Gfree) & (Gstep & Gq' & _ & Gins & Gfree' & _)).
  rewrite E0, F0, E1, F1, Hstep, Gstep.
  repeat (split; [assumption|]).
  split; [rewrite Hq'; reflexivity|assumption].
Qed.

(** * The page references of a workload step *)

Lemma get_upd_same {Q : Type} (s s' : SystemState Q) (pid : Z) (p p' : Process) :
  get_process s pid = Ok p ->
  processes s' = upd (Z.to_nat pid) p' (processes s) ->
  get_process s' pid = Ok p'.
Proof.
  intros Hg E. apply get_process_nth in Hg. destruct Hg as [H0 Hn].
  apply get_process_nth. split; [assumption|]. rewrite E.
  apply nth_error_upd_same. apply nth_error_Some. congruence.
Qed.

Lemma get_process_follows {Q : Type} {B : Type} (g : Process -> B)
      (s s' : SystemState Q) (pid : Z) (p : Process) :
  map g (processes s') = map g (processes s) ->
  get_process s pid = Ok p -> exists p', get_process s' pid = Ok p'.
Proof.
  intros Hm Hg. apply get_process_nth in Hg. destruct Hg as [H0 Hn].
  assert (Hlen : length (processes s') = length (processes s)).
  { rewrite <- (length_map g (processes s')), Hm. apply length_map. }
  destruct (nth_error (processes s') (Z.to_nat pid)) as [p'|] eqn:E.
  - exists p'. apply get_process_nth. auto.
  - apply nth_error_None in E. assert (nth_error (processes s) (Z.to_nat pid) <> None) by congruence.
    apply nth_error_Some in H. lia.
Qed.

Section CircularSearchStep.
Import Circular.

Lemma circular_search_step (s : State) (pid key : Z) (p : Process) :
  Inv s -> get_process s pid = Ok p -> is_active p = true -> finished p = false ->
  array_size p <= MAX_ARRAY_SIZE ->
  let R := array_size p - 1 in
  let pages := search_pages (search_fuel 0 R) key 0 R in
  exists s' b,
    search_loop (search_fuel 0 R) s pid key 0 R = Ok (s', b) /\
    (if b then step_completed s s' pid p pages else step_aborted s s' pid p pages).
Proof.
  intros HI Hg Ha Hfin Hsize R pages.
  assert (Hr : runnable s pid) by (exists p; auto).
  destruct (search_fuel_enough 0 R) as (f & Ef & Hf).
  assert (Hloop : forall t, search_loop (search_fuel 0 R) t pid key 0 R = replay t pid pages).
  { intros t. subst pages. rewrite Ef. apply search_loop_replay; lia. }
  assert (Hrange : Forall (fun pg => 0 <= pg < PAGE_TABLE_SIZE) pages).
  { eapply Forall_impl; [|apply search_pages_range; subst R; lia].
    cbv beta. unfold ESSENTIAL_PAGES. lia. }
  assert (Hlow : Forall (fun pg => ESSENTIAL_PAGES <= pg) pages)
    by (apply search_pages_low; lia).
  rewrite Hloop.
  destruct (replay_cases pid pages s HI Hr)
    as [[_ Hbad]|[(s' & Hrun & _ & Hq & Hr' & Hpa & _)|(s' & Hrun & _ & Hs & _ & Hpf)]];
    [contradiction| |].
  - exists s', true. split; [assumption|]. split; [assumption|].
    destruct Hr' as (p' & Hg' & Ha' & _).
    destruct Hq as (_ & Q2 & _).
    exists p'. split; [assumption|]. split; [assumption|].
    split; [apply (map_get_process current_search s s' pid p p' Q2 Hg Hg')|].
    intros seen Ht.
    destruct (circular_replay_faults pid pages s s' p seen Hg Hlow Ht Hrun)
      as (p2 & E & _ & _ & T & F & _).
    pose proof (get_upd_same s s' pid p p2 Hg E) as Hg2.
    rewrite Hg' in Hg2. injection Hg2 as <-. auto.
  - exists s', false. split; [assumption|].
    destruct (circular_replay_stops pid pages s s' Hrun)
      as (pre & pg & post & s1 & Hpages & Hpre & Hlast).
    exists pre, pg, post. split; [assumption|].
    destruct (replay_frame pid pre s s1 true Hpre) as (_ & _ & Hb).
    destruct (Hb eq_refl) as [Hpa1 _].
    destruct (reference_page_frame s1 s' pid pg false Hlast) as (Hpa2 & _).
    split; [lia|]. split; [assumption|].
    destruct Hs as (_ & S2 & (p' & Hg' & Ha') & _).
    exists p'. split; [assumption|]. split; [assumption|].
    apply (map_get_process current_search s s' pid p p' S2 Hg Hg').
Qed.

End CircularSearchStep.

Section ShiftingSearchStep.
Import Shifting.

Lemma shifting_reference_faults (s s' : State) (pid pg : Z) (b : bool) :
  reference_page s pid pg = Ok (s', b) ->
  page_faults s <= page_faults s' /\ (b = false -> page_faults s' = page_faults s + 1).
Proof.
  unfold reference_page.
  set (s1 := set_page_accesses s (page_accesses s + 1)).
  destruct (get_process s1 pid) as [p| |] eqn:Hg; cbn [bind]; try discriminate.
  destruct (zget (page_table p) pg) as [e| |]; cbn [bind]; try discriminate.
  destruct (is_valid e).
  { intros [= <- <-]. subst s1. state_simpl. split; [lia|discriminate]. }
  unfold handle_page_fault.
  set (s2 := set_page_faults s1 (page_faults s1 + 1)).
  change (get_process s2 pid) with (get_process s1 pid). rewrite Hg. cbn [bind].
  destruct (free_frames s2) as [|f free].
  - destruct (swap_out_process s2 pid) as [s3| |] eqn:Hout; cbn [bind]; try discriminate.
    intros [= <- <-]. destruct (shifting_swap_out_frame s2 s3 pid Hout) as (_ & Hpf & _).
    rewrite Hpf. subst s2 s1. state_simpl. split; [lia|reflexivity].
  - destruct (in_range (page_table p) pg); [|discriminate].
    intros [= <- <-]. subst s2 s1. state_simpl. split; [lia|discriminate].
Qed.

Lemma shifting_replay_fault_monotone (pid : Z) (pages : list Z) :
  forall (s s' : State) (b : bool),
  replay s pid pages = Ok (s', b) -> page_faults s <= page_faults s'.
Proof.
  induction pages as [|pg rest IH]; intros s s' b H.
  - cbn [replay] in H. injection H as <- <-. lia.
  - cbn [replay] in H.
    destruct (reference_page s pid pg) as [[s1 b1]| |] eqn:Href; cbn [bind fst snd] in H;
      try discriminate.
    destruct (shifting_reference_faults s s1 pid pg b1 Href) as [H1 _].
    destruct b1.
    + specialize (IH _ _ _ H). lia.
    + injection H as <- <-. assumption.
Qed.

Lemma shifting_search_step (s : State) (pid key : Z) (p : Process) :
  Inv s -> get_process s pid = Ok p -> is_active p = true -> finished p = false ->
  array_size p <= MAX_ARRAY_SIZE ->
  let R := array_size p - 1 in
  let pages := search_pages (search_fuel 0 R) key 0 R in
  exists s' b,
    search_loop (search_fuel 0 R) s pid key 0 R = Ok (s', b) /\
    (if b then step_completed s s' pid p pages else step_aborted s s' pid p pages).
Proof.
  intros HI Hg Ha Hfin Hsize R pages.
  assert (Hr : runnable s pid) by (exists p; auto).
  destruct (search_fuel_enough 0 R) as (f & Ef & Hf).
  assert (Hloop : forall t, search_loop (search_fuel 0 R) t pid key 0 R = replay t pid pages).
  { intros t. subst pages. rewrite Ef. apply shifting_search_loop_replay; lia. }
  assert (Hrange : Forall (fun pg => 0 <= pg < PAGE_TABLE_SIZE) pages).
  { eapply Forall_impl; [|apply search_pages_range; subst R; lia].
    cbv beta. unfold ESSENTIAL_PAGES. lia. }
  assert (Hlow : Forall (fun pg => ESSENTIAL_PAGES <= pg) pages)
    by (apply search_pages_low; lia).
  rewrite Hloop.
  destruct (shifting_replay_total pid pages s HI Hr Hrange) as (s' & b & Hrun & Hb).
  exists s', b. split; [assumption|].
  destruct (shifting_replay_frame pid pages s s' b Hrun) as (F1 & F2 & F3).
  destruct b.
  - destruct (F3 eq_refl) as [Hpa Hact].
    split; [assumption|].
    destruct (get_process_follows static_part s s' pid p F1 Hg) as [p' Hg'].
    exists p'. split; [assumption|].
    split; [rewrite (map_get_process is_active s s' pid p p' Hact Hg Hg'); assumption|].
    split; [apply (map_get_process current_search s s' pid p p' F2 Hg Hg')|].
    intros seen Ht.
    destruct (shifting_replay_faults pid pages s s' p seen Hg Hlow Ht Hrun)
      as (p2 & E & _ & _ & T & F & _).
    pose proof (get_upd_same s s' pid p p2 Hg E) as Hg2.
    rewrite Hg' in Hg2. injection Hg2 as <-. auto.
  - destruct (shifting_replay_stops pid pages s s' Hrun)
      as (pre & pg & post & s1 & Hpages & Hpre & Hlast).
    exists pre, pg, post. split; [assumption|].
    destruct (shifting_replay_frame pid pre s s1 true Hpre) as (_ & _ & Hb1).
    destruct (Hb1 eq_refl) as [Hpa1 _].
    destruct (shifting_reference_page_frame s1 s' pid pg false Hlast) as (Hpa2 & _).
    split; [lia|].
    pose proof (shifting_replay_fault_monotone pid pre s s1 true Hpre) as Hm.
    destruct (shifting_reference_faults s1 s' pid pg false Hlast) as [_ Hf1].
    specialize (Hf1 eq_refl).
    split; [lia|].
    destruct (Hb eq_refl) as (_ & p' & Hg' & Ha').
    exists p'. split; [assumption|]. split; [assumption|].
    apply (map_get_process current_search s s' pid p p' F2 Hg Hg').
Qed.

End ShiftingSearchStep.



